(* ===== verification/_CoqProject ===== *)
-Q . S2P
Prelude.v
Sockets.v
Text.v
Ordered.v
Lattices.v
ValueLattices.v
Wire.v
WireCodec.v
Codec.v
Threads.v
Metadata.v
KVStore.v
DiskStore.v
HashRing.v
RingUtil.v
ServerState.v
UserRequest.v
Replication.v
Handlers.v
ServerLoop.v
Gossip.v
Cluster.v
Handover.v
Routing.v
Requests.v
Client.v
EndToEnd.v
Cli.v
Discovery.v
Doubles.v
MonitorState.v
MonitorStats.v
MonitorPolicy.v
MonitorMoves.v
MonitorReplication.v
Startup.v
Benchmark.v
