(* ===== verification/Prelude.v ===== *)
(** * Anna: a verification development

    Anna is a key-value store that is replicated and partitioned over two
    storage tiers (memory and disk).  Every value is a lattice; replicas
    converge by merging what they gossip to each other.  This library models
    the C++ code of the store and proves what makes it correct, and, where it is
    not, what it does instead.

    ** The program and the files that model it

    - The _lattices_ (common/include/lattices): Lattices.v has [Lattice<T>] and
      the core lattices, ValueLattices.v the four lattices of values.  Ordered.v
      has [std::map] and [std::set] in key order.
    - _Messages_ (the .proto files): Wire.v has the message types as records;
      the encoder of protobuf is the parameter [Protobuf], with the round trip
      [ProtoLaws] as hypothesis; WireCodec.v instantiates it.  Codec.v has the
      payload encodings and timestamps of common/include/common.hpp, Text.v
      [split], [to_string] and [stoi].
    - _Names_: Threads.v has ports and addresses (include/kvs_threads.hpp,
      common/include/threads.hpp), Metadata.v the keys under which the system
      stores its own data and the replication vectors (include/metadata.hpp).
    - _Storage_: KVStore.v and DiskStore.v have the twelve serializers of
      include/kvs/server_utils.hpp, over a map and over a file system that maps
      names to contents.
    - _Placement_: HashRing.v has the consistent hash ring and the walk that
      picks the threads of a key; RingUtil.v the functions of
      src/hash_ring/hash_ring.cpp on the state of a process, behind the
      interface [HashRingUtilInterface].  [std::hash] and [rand] are parameters.
    - A _server thread_ (src/kvs): ServerState.v (state, [process_get],
      [process_put], [send_gossip]), UserRequest.v (requests and gossip),
      Replication.v (what they do to the stored values), Handlers.v (replication
      vectors, membership, caches), ServerLoop.v (start, event loop, periodic
      work).  Gossip.v joins two of them, Cluster.v all replicas of a key, with
      the gossip between them in flight; Handover.v joins a thread that gives
      keys away, because it departs, a node has joined or the replication of a
      key changes, and those that get them.
    - A _routing thread_ (src/route): Routing.v.
    - The _client_ (common/include/client/kvs_client.hpp): Client.v; synchronous
      requests (common/include/requests.hpp): Requests.v.  EndToEnd.v joins the
      client and a server thread, Discovery.v the client and a routing thread;
      Cli.v has the command line client
      (client/cpp/cli.cpp).
    - The _monitoring node_ (src/monitor): Doubles.v (IEEE binary64 arithmetic),
      MonitorState.v (state and handlers), MonitorStats.v (statistics),
      MonitorPolicy.v (replication changes, the three policies, the loop);
      MonitorMoves.v and MonitorReplication.v prove what the policies and a
      change of replication amount to.
    - _Processes_: Startup.v has the [main] functions, which read one YAML file
      and start the threads, with yaml-cpp as the parameter [Yaml]; Sockets.v the
      cache of sockets (common/include/zmq), as the calls it makes to libzmq;
      Benchmark.v the load generator (src/benchmark), with [pow] and [stod] as
      the parameter [Libm].

    ** How it is modelled

    A handler is a computation of the monad [M S] of this file over the state
    [S] of its process: it returns a result, the new state and the messages it
    sent, in order, or [Fail] with the reason ([Throws] an exception,
    [UndefinedBehaviour], [Diverges]).  The state of a process is a record of
    the variables its [main] or [run] declares; a handler that gets a part of
    them by reference runs on that part ([zoom]).  Received messages, clock
    readings and what a socket delivers are inputs.  Integers are [Z], wrapped
    to their width ([u32], [u64], [int32]) wherever the code can leave it.
    [operator[]] of a map, which inserts what it does not find, is modelled as
    such ([map_touch]); iteration over an [unordered_map] is over
    [map_to_list], one of the orders the language allows.  Equality of
    [ServerThread]s is by id, coarser than equality.

    [wp m s Q] says that [m] run in [s] returns, with a result, state and
    messages in [Q]: all theorems about handlers are total.  Its rules and the
    tactics [wp_step] and [wp_steps] carry the proofs.

    ** What the theorems show

    - _Values_: merges form a join semilattice where they do; exactly when they
      do not (ties of timestamps, concurrent causal writes, 64-bit maxima);
      payloads decode to what was encoded; timestamps are ordered, and across
      ids of different length are not.
    - _Storage_: memory and disk agree on last-writer-wins keys through any
      sequence of operations; where the disk tier loses a write.
    - _Placement_: the responsible threads are the first distinct ones on the
      ring, a join moves keys to the new node only, and a request for too many
      threads never ends.
    - _Servers_: requests are answered completely, puts merge, gets return,
      gossip rounds reach the replicas, replicas that saw the same updates
      agree, and so do two that sent each other their gossip; pending requests
      are answered when vectors arrive, caches stay consistent, every reachable
      state has typed keys only.
    - _Clusters_: the replicas of a key are a transition system whose steps are
      the handlers.  An invariant of its runs says where each write still has to
      go; from it, in whatever order requests, rounds and deliveries happen, the
      replicas settle after boundedly many steps and then all hold the merge of
      what was written.  Keys are handed over without loss when a thread departs,
      when a node joins (for up to 50 keys of a thread) and when the replication
      of a key changes.
    - _Routing_: addresses are answered, now or when the vector arrives;
      membership is learnt from the seed node and from announcements; where a
      request is cut short.
    - _Client_: no request is lost, none outlives its timeout; ids are distinct;
      synchronous requests end; and through client and server together, a client
      reads what it wrote, and through client and router it finds the threads of
      a key; what the command line client prints, and where it
      aborts.
    - _Monitoring_: reported statistics are recorded and summed up; the least
      occupied node is found; nodes are added and removed within bounds; keys
      that are moved fit; a change of replication is stored, announced and taken
      back where it failed; and where feedback, departures and replica counts go
      wrong.
    - _Processes_: started from one file they agree on the cluster; their sockets
      are distinct up to 50 threads; messages reach the address they are sent to;
      the benchmark draws from its distribution and reports to the monitor; where
      thread joins, capacities and timestamps of the benchmark go wrong.

    ** Bounds and fuel

    The walk over the ring has as fuel the number of nodes: each step that does
    not find a new thread passes a node, and [responsible_global_spec] and
    [responsible_global_diverges] show that it is enough whenever the loop ends
    and that no fuel is enough otherwise.  [receive] is structural on what the
    socket delivers.  The digit loops of timestamps and of [to_string] recurse
    on a bound of their argument, with proofs that it is enough.  The binary
    search of the benchmark has the length of its interval as fuel, which
    [sample_first_rank] shows to be enough; the loops that wait for a response
    and the LOAD loop are structural on what the sockets and the clock deliver.

    ** Not modelled

    libzmq itself and receiving from it (what a socket delivers is an input of a
    step), the bytes of protobuf, yaml-cpp (a parameter), logging and usage
    messages of the processes, threads as such (a process is modelled one thread
    at a time; threads share nothing but messages), I/O errors of the disk other
    than a missing file, mocks and tests, the scripts, and the clients in Python
    and Rust. *)

From stdpp Require Export base tactics option list list_numbers numbers
  strings pretty fin_maps gmap sets.
From Stdlib Require Import Ascii Lia.

#[global] Open Scope Z_scope.

(** ** Names of the basic types (common/include/types.hpp) *)

Abbreviation Address := string (only parsing).
Abbreviation Key := string (only parsing).

(** ** Machine integers

    [unsigned] is 32 bits wide, [unsigned long long] and [size_t] are 64 bits
    wide; values are integers and every operation that can leave the range
    writes its wrap-around. *)

Definition u32 (x : Z) : Z := x `mod` 2 ^ 32.
Definition u64 (x : Z) : Z := x `mod` 2 ^ 64.
(** The conversion of an out-of-range value to [int] (modulo 2^32). *)
Definition int32 (x : Z) : Z := (x + 2 ^ 31) `mod` 2 ^ 32 - 2 ^ 31.

Definition is_u32 (x : Z) : Prop := 0 ≤ x < 2 ^ 32.
Definition is_u64 (x : Z) : Prop := 0 ≤ x < 2 ^ 64.

Definition INT_MAX : Z := 2 ^ 31 - 1.

Lemma u32_id x : is_u32 x → u32 x = x.
Proof. apply Z.mod_small. Qed.

Lemma u64_id x : is_u64 x → u64 x = x.
Proof. apply Z.mod_small. Qed.

Lemma u32_range x : is_u32 (u32 x).
Proof. apply Z.mod_pos_bound. lia. Qed.

Lemma u64_range x : is_u64 (u64 x).
Proof. apply Z.mod_pos_bound. lia. Qed.

(** Converting an [unsigned] to [int] and back gives the value again. *)
Lemma u32_int32 x : is_u32 x → u32 (int32 x) = x.
Proof.
  unfold is_u32, u32, int32. intros Hx.
  rewrite Zminus_mod_idemp_l.
  replace (x + 2 ^ 31 - 2 ^ 31) with x by lia. by apply Z.mod_small.
Qed.

Create HintDb anna.
Create Rewrite HintDb anna_simpl.
#[export] Hint Resolve u32_range u64_range : anna.

(** ** Outcomes of a call

    A call can return, throw, run into undefined behaviour (a null or
    past-the-end dereference, an out-of-range [vector] index, a read of an
    uninitialised variable) or never return. *)

Inductive failure :=
  | Throws (exn : string)
  | UndefinedBehaviour (what : string)
  | Diverges.

Inductive outcome (A : Type) :=
  | Ok (a : A)
  | Fail (f : failure).
Arguments Ok {A} a.
Arguments Fail {A} f.

#[export] Instance outcome_ret : MRet outcome := λ A, Ok.
#[export] Instance outcome_bind : MBind outcome := λ A B f m,
  match m with Ok a => f a | Fail e => Fail e end.

Definition of_option {A} (e : failure) (o : option A) : outcome A :=
  match o with Some a => Ok a | None => Fail e end.

(** Indexing a [vector] past its end. *)
Definition vector_at {A} (l : list A) (i : nat) : outcome A :=
  of_option (UndefinedBehaviour "vector index out of range") (l !! i).

(** ** Effects of a handler

    A handler reads and writes its thread's state of type [S], pushes messages
    on sockets ([kZmqUtil->send_string(body, &pushers[to])]) and can fail. *)

Record Msg := mkMsg { msg_to : Address; msg_body : string }.

#[export] Instance Msg_eq_dec : EqDecision Msg.
Proof. solve_decision. Defined.

Definition M (S A : Type) : Type := S → outcome (A * S * list Msg).

#[export] Instance M_ret S : MRet (M S) := λ A a s, Ok (a, s, []).
#[export] Instance M_bind S : MBind (M S) := λ A B f m s,
  match m s with
  | Ok (a, s1, out1) =>
      match f a s1 with
      | Ok (b, s2, out2) => Ok (b, s2, out1 ++ out2)
      | Fail e => Fail e
      end
  | Fail e => Fail e
  end.

Section effects.
Context {S : Type}.

Definition get : M S S := λ s, Ok (s, s, []).
Definition gets {A} (f : S → A) : M S A := λ s, Ok (f s, s, []).
Definition modify (f : S → S) : M S unit := λ s, Ok (tt, f s, []).
Definition send_string (body : string) (to : Address) : M S unit :=
  λ s, Ok (tt, s, [mkMsg to body]).
Definition fail {A} (e : failure) : M S A := λ _, Fail e.
Definition lift_outcome {A} (o : outcome A) : M S A := λ s,
  match o with Ok a => Ok (a, s, []) | Fail e => Fail e end.

(** [for (const auto &x : l) body(x);] *)
Fixpoint for_each {A} (l : list A) (body : A → M S unit) : M S unit :=
  match l with
  | [] => mret tt
  | x :: l => body x ;; for_each l body
  end.

(** A loop that carries a local variable. *)
Fixpoint for_acc {A B} (l : list A) (b : B) (body : B → A → M S B) : M S B :=
  match l with
  | [] => mret b
  | x :: l => b ← body b x; for_acc l b body
  end.
End effects.

(** A sequence that returned: both parts did. *)
Lemma bind_ok {S A B} (m : M S A) (f : A → M S B) s b s' out :
  (m ≫= f) s = Ok (b, s', out) →
  ∃ a s1 out1 out2, m s = Ok (a, s1, out1) ∧ f a s1 = Ok (b, s', out2) ∧ out = out1 ++ out2.
Proof.
  unfold mbind, M_bind. destruct (m s) as [[[a s1] out1]|]; [|done].
  destruct (f a s1) as [[[b' s2] out2]|] eqn:Hf; [|done]. intros [= <- <- <-]. eauto 8.
Qed.

(** Running an operation of a part of the state on the whole state. *)
Definition zoom {S T A} (proj : S → T) (upd : T → S → S) (m : M T A) : M S A :=
  λ s, match m (proj s) with
       | Ok (a, t, out) => Ok (a, upd t s, out)
       | Fail e => Fail e
       end.

(** ** Weakest preconditions

    [wp m s Q]: from [s], [m] returns (no failure) and its result, final state
    and messages satisfy [Q]. *)

Definition wp {S A} (m : M S A) (s : S) (Q : A → S → list Msg → Prop) : Prop :=
  ∃ a s' out, m s = Ok (a, s', out) ∧ Q a s' out.

Section wp.
Context {S : Type}.
Implicit Types s : S.

Lemma wp_mono {A} (m : M S A) s (P Q : A → S → list Msg → Prop) :
  wp m s P → (∀ a s' out, P a s' out → Q a s' out) → wp m s Q.
Proof. intros (a & s' & out & ? & ?) HPQ. exists a, s', out. auto. Qed.

Lemma wp_conj {A} (m : M S A) s (P Q : A → S → list Msg → Prop) :
  wp m s P → wp m s Q → wp m s (λ a s' out, P a s' out ∧ Q a s' out).
Proof.
  intros (a & s1 & out & Hm & HP) (? & ? & ? & Hm' & HQ). rewrite Hm in Hm'.
  simplify_eq. do 3 eexists. eauto.
Qed.

Lemma wp_ret {A} (a : A) s (Q : A → S → list Msg → Prop) :
  Q a s [] → wp (mret a) s Q.
Proof. intros. by exists a, s, []. Qed.

Lemma wp_bind {A B} (m : M S A) (f : A → M S B) s (Q : B → S → list Msg → Prop) :
  wp m s (λ a s1 out1, wp (f a) s1 (λ b s2 out2, Q b s2 (out1 ++ out2))) →
  wp (m ≫= f) s Q.
Proof.
  intros (a & s1 & out1 & Hm & b & s2 & out2 & Hf & HQ).
  exists b, s2, (out1 ++ out2). split; [|done].
  unfold mbind, M_bind. by rewrite Hm, Hf.
Qed.

Lemma wp_get s (Q : S → S → list Msg → Prop) : Q s s [] → wp get s Q.
Proof. intros. by exists s, s, []. Qed.

Lemma wp_gets {A} (f : S → A) s (Q : A → S → list Msg → Prop) :
  Q (f s) s [] → wp (gets f) s Q.
Proof. intros. by exists (f s), s, []. Qed.

Lemma wp_modify (f : S → S) s (Q : unit → S → list Msg → Prop) :
  Q tt (f s) [] → wp (modify f) s Q.
Proof. intros. by exists tt, (f s), []. Qed.

Lemma wp_send body to s (Q : unit → S → list Msg → Prop) :
  Q tt s [mkMsg to body] → wp (send_string body to) s Q.
Proof. intros. by exists tt, s, [mkMsg to body]. Qed.

Lemma wp_lift_outcome {A} (o : outcome A) s (a : A) (Q : A → S → list Msg → Prop) :
  o = Ok a → Q a s [] → wp (lift_outcome o) s Q.
Proof. intros -> ?. by exists a, s, []. Qed.

(** Loop rule: [I xs s out] holds after the prefix [xs] was processed. *)
Lemma wp_for_each {A} (I : list A → S → list Msg → Prop)
    (l : list A) (body : A → M S unit) s :
  I [] s [] →
  (∀ xs x s' out, x ∈ l → I xs s' out →
     wp (body x) s' (λ _ s'' out', I (xs ++ [x]) s'' (out ++ out'))) →
  wp (for_each l body) s (λ _ s' out, I l s' out).
Proof.
  intros H0 Hstep.
  cut (∀ xs s' out, I xs s' out →
    wp (for_each l body) s' (λ _ s'' out', I (xs ++ l) s'' (out ++ out'))).
  { intros Hc. apply (Hc [] s [] H0). }
  clear H0 s. induction l as [|x l IH]; intros xs s' out HI; simpl.
  { apply wp_ret. by rewrite !app_nil_r. }
  apply wp_bind. eapply wp_mono; [apply Hstep; [left|done]|].
  intros [] s1 out1 HI1. eapply wp_mono.
  { apply IH; [|exact HI1]. intros; apply Hstep; [by right|done]. }
  intros [] s2 out2. rewrite <-!app_assoc. done.
Qed.

Lemma wp_for_acc {A B} (I : list A → B → S → list Msg → Prop)
    (l : list A) (b : B) (body : B → A → M S B) s :
  I [] b s [] →
  (∀ xs x b' s' out, x ∈ l → I xs b' s' out →
     wp (body b' x) s' (λ b'' s'' out', I (xs ++ [x]) b'' s'' (out ++ out'))) →
  wp (for_acc l b body) s (λ b' s' out, I l b' s' out).
Proof.
  intros H0 Hstep.
  cut (∀ xs b s' out, I xs b s' out →
    wp (for_acc l b body) s' (λ b' s'' out', I (xs ++ l) b' s'' (out ++ out'))).
  { intros Hc. apply (Hc [] b s [] H0). }
  clear H0 s b. induction l as [|x l IH]; intros xs b s' out HI; simpl.
  { apply wp_ret. by rewrite !app_nil_r. }
  apply wp_bind. eapply wp_mono; [apply Hstep; [left|done]|].
  intros b1 s1 out1 HI1. eapply wp_mono.
  { apply IH; [|exact HI1]. intros; apply Hstep; [by right|done]. }
  intros b2 s2 out2. rewrite <-!app_assoc. done.
Qed.
End wp.

Lemma wp_zoom {S T A} (proj : S → T) (upd : T → S → S) (m : M T A) s
    (Q : A → S → list Msg → Prop) :
  wp m (proj s) (λ a t out, Q a (upd t s) out) → wp (zoom proj upd m) s Q.
Proof.
  intros (a & t & out & Hm & HQ). exists a, (upd t s), out.
  unfold zoom. by rewrite Hm.
Qed.

(** Step through the straight-line part of a handler. *)
Ltac wp_step :=
  lazymatch goal with
  | |- wp (_ ≫= _) _ _ => apply wp_bind
  | |- wp (mret _) _ _ => apply wp_ret
  | |- wp get _ _ => apply wp_get
  | |- wp (gets _) _ _ => apply wp_gets
  | |- wp (modify _) _ _ => apply wp_modify
  | |- wp (send_string _ _) _ _ => apply wp_send
  | |- wp (zoom _ _ _) _ _ => apply wp_zoom
  end; cbv beta.
Ltac wp_steps := repeat wp_step.

(** ** [operator[]] of [std::unordered_map]

    Reading a missing key inserts a value-initialised element. *)

Section map_at.
Context {K} `{Countable K} {V : Type}.

Definition map_get (d : V) (m : gmap K V) (k : K) : V := default d (m !! k).
Definition map_touch (d : V) (m : gmap K V) (k : K) : gmap K V :=
  <[k := map_get d m k]> m.

Lemma map_touch_id d (m : gmap K V) k v : m !! k = Some v → map_touch d m k = m.
Proof. intros Hk. unfold map_touch, map_get. rewrite Hk. by apply insert_id. Qed.

Lemma map_touch_same d (m : gmap K V) k : map_touch d m k !! k = Some (map_get d m k).
Proof. apply lookup_insert_eq. Qed.

Lemma map_touch_get d (m : gmap K V) k j :
  map_get d (map_touch d m k) j = map_get d m j.
Proof.
  unfold map_touch. unfold map_get at 1. rewrite lookup_insert.
  case_decide; by subst.
Qed.

Lemma map_get_insert_eq d (m : gmap K V) k v : map_get d (<[k := v]> m) k = v.
Proof. unfold map_get. by rewrite lookup_insert_eq. Qed.

Lemma map_get_insert_ne d (m : gmap K V) k j v :
  k ≠ j → map_get d (<[k := v]> m) j = map_get d m j.
Proof. intros. unfold map_get. by rewrite lookup_insert_ne. Qed.

(** [for (key : to_remove) m.erase(key);] *)
Lemma foldl_delete_lookup (m : gmap K V) (l : list K) k :
  foldl (λ m a, delete a m) m l !! k = if decide (k ∈ l) then None else m !! k.
Proof.
  revert m. induction l as [|a l IH]; intros m; [done|]. simpl foldl.
  rewrite IH. destruct (decide (k = a)) as [->|Hne].
  - rewrite (decide_True (P:=a ∈ a :: l)) by (by left). rewrite lookup_delete_eq. by case_decide.
  - rewrite lookup_delete_ne by done.
    repeat case_decide; try done; exfalso; set_solver.
Qed.
End map_at.

#[export] Hint Rewrite @map_touch_get @map_touch_same @map_get_insert_eq : anna_simpl.

(** ** Filters *)
Section filters.
Context {A : Type} (P : A → Prop) `{∀ x, Decision (P x)}.

Lemma list_filter_all (l : list A) : Forall P l → filter P l = l.
Proof. induction 1; [done|]. rewrite filter_cons_True by done. by f_equal. Qed.

Lemma list_filter_none (l : list A) : Forall (λ x, ¬ P x) l → filter P l = [].
Proof. induction 1; [done|]. by rewrite filter_cons_False. Qed.

Lemma list_filter_comm (Q : A → Prop) `{∀ x, Decision (Q x)} (l : list A) :
  filter P (filter Q l) = filter Q (filter P l).
Proof.
  induction l as [|x l IH]; [done|]. rewrite !filter_cons.
  repeat case_decide; rewrite ?filter_cons; repeat case_decide; try done; by rewrite IH.
Qed.
End filters.
