(* ===== verification/Sockets.v ===== *)
(** Sending through libzmq (common/include/zmq): [SocketCache], which keeps one
    connected socket per address, and [send_string].

    What the code does to libzmq is the sequence of calls it makes, on sockets
    named by the order of their creation. *)

From S2P Require Import Prelude.
From Stdlib Require Import Ascii Lia.

(** [zmq::message_t]: a buffer of bytes. *)
Definition message_t : Type := list ascii.
Definition message_to_string (message : message_t) : string := String.string_of_list_ascii message.
Definition string_to_message (s : string) : message_t := String.list_ascii_of_string s.

Inductive ZmqCall :=
  | NewSocket (socket : nat) (type : Z)
  | Connect (socket : nat) (addr : Address)
  | Send (socket : nat) (message : message_t)
  | Close (socket : nat).

(** [cache_] and [type_], with the calls made so far and the number of sockets
    created. *)
Record SocketCache := mkSocketCache {
  cache_ : gmap Address nat;
  type_ : Z;
  calls : list ZmqCall;
  created : nat;
}.

Definition ZMQ_PUSH : Z := 8.
Definition new_cache (type : Z) : SocketCache := mkSocketCache ∅ type [] 0.

(** [SocketCache::At], [operator[]] *)
Definition At (addr : Address) (c : SocketCache) : nat * SocketCache :=
  match cache_ c !! addr with
  | Some socket => (socket, c)
  | None =>
      let socket := created c in
      (socket, mkSocketCache (<[addr := socket]> (cache_ c)) (type_ c)
                 (calls c ++ [NewSocket socket (type_ c); Connect socket addr]) (S socket))
  end.

(** Clearing the map destroys its sockets. *)
Definition clear_cache (c : SocketCache) : SocketCache :=
  mkSocketCache ∅ (type_ c) (calls c ++ (Close <$> (map_to_list (cache_ c)).*2)) (created c).

(** [kZmqUtil->send_string(s, &pushers[addr])] *)
Definition push (s : string) (addr : Address) (c : SocketCache) : SocketCache :=
  let '(socket, c) := At addr c in
  mkSocketCache (cache_ c) (type_ c) (calls c ++ [Send socket (string_to_message s)]) (created c).

Inductive SocketOp := Push (m : Msg) | Clear.
Definition run_op (c : SocketCache) (op : SocketOp) : SocketCache :=
  match op with Push m => push (msg_body m) (msg_to m) c | Clear => clear_cache c end.
Definition pushed (op : SocketOp) : option Msg := match op with Push m => Some m | Clear => None end.

(** ** What the calls amount to *)

(** The address each open socket is connected to after the calls, and the
    messages sent on connected sockets. *)
Definition call_effect (st : gmap nat Address * list Msg) (call : ZmqCall) : gmap nat Address * list Msg :=
  let '(connected, sent) := st in
  match call with
  | NewSocket _ _ => st
  | Connect socket addr => (<[socket := addr]> connected, sent)
  | Send socket message =>
      match connected !! socket with
      | Some addr => (connected, sent ++ [mkMsg addr (message_to_string message)])
      | None => st
      end
  | Close socket => (delete socket connected, sent)
  end.
Definition effect (l : list ZmqCall) : gmap nat Address * list Msg := foldl call_effect (∅, []) l.
Definition connected c : gmap nat Address := (effect (calls c)).1.
Definition delivered c : list Msg := (effect (calls c)).2.
(** The sockets that were created. *)
Definition opened c : list nat :=
  omap (λ call, match call with NewSocket i _ => Some i | _ => None end) (calls c).

(** The open sockets are exactly the cached ones, one per address. *)
Record cache_ok (c : SocketCache) : Prop := {
  cache_connected a i : cache_ c !! a = Some i ↔ connected c !! i = Some a;
  cache_created i a : connected c !! i = Some a → (i < created c)%nat;
}.

Lemma message_roundtrip s : message_to_string (string_to_message s) = s.
Proof. apply String.string_of_list_ascii_of_string. Qed.

Lemma effect_app l l' : effect (l ++ l') = foldl call_effect (effect l) l'.
Proof. apply foldl_app. Qed.

Lemma At_ok a c :
  cache_ok c → let '(i, c') := At a c in
  cache_ok c' ∧ cache_ c' !! a = Some i ∧ delivered c' = delivered c.
Proof.
  intros [Hc Hn]. unfold At. destruct (cache_ c !! a) as [i|] eqn:Ha; [done|].
  unfold connected, delivered in *. simpl. rewrite effect_app.
  destruct (effect (calls c)) as [conn sent] eqn:He. simpl in *.
  split; [|split; [apply lookup_insert_eq|done]].
  assert (conn !! created c = None) as Hfresh.
  { apply eq_None_not_Some. intros [b Hb]. apply Hn in Hb. lia. }
  split; unfold connected; simpl; rewrite effect_app, He; simpl.
  - intros b i. destruct (decide (a = b)) as [<-|Hab], (decide (created c = i)) as [<-|Hi].
    + by rewrite !lookup_insert_eq.
    + rewrite lookup_insert_eq, lookup_insert_ne, <-Hc, Ha by done. split; congruence.
    + rewrite lookup_insert_eq, lookup_insert_ne, Hc, Hfresh by done. split; congruence.
    + rewrite !lookup_insert_ne by done. apply Hc.
  - intros i b. destruct (decide (created c = i)) as [<-|Hi]; [lia|].
    rewrite lookup_insert_ne by done. intros Hb%Hn. lia.
Qed.

Lemma push_ok s a c :
  cache_ok c → cache_ok (push s a c) ∧ delivered (push s a c) = delivered c ++ [mkMsg a s].
Proof.
  intros Hok. pose proof (At_ok a c Hok) as H. unfold push. destruct (At a c) as [i c'].
  destruct H as ([Hc Hn] & Hi & Hd). unfold connected, delivered in *. simpl.
  rewrite effect_app. apply Hc in Hi. destruct (effect (calls c')) as [conn sent] eqn:He. simpl in *.
  rewrite Hi. simpl. rewrite message_roundtrip, Hd. split; [|done].
  split; unfold connected; simpl; rewrite effect_app, He; simpl; rewrite Hi; simpl; [apply Hc|apply Hn].
Qed.

Lemma close_effect conn sent (ids : list nat) :
  foldl call_effect (conn, sent) (Close <$> ids) = (foldl (λ m i, delete i m) conn ids, sent).
Proof. revert conn. induction ids as [|i ids IH]; intros conn; simpl; [done|apply IH]. Qed.

Lemma clear_cache_ok c : cache_ok c → cache_ok (clear_cache c) ∧ delivered (clear_cache c) = delivered c.
Proof.
  intros [Hc Hn]. unfold connected, delivered in *. simpl. rewrite effect_app.
  destruct (effect (calls c)) as [conn sent] eqn:He. simpl in *. rewrite close_effect. split; [|done].
  assert (∀ i a, foldl (λ m i, delete i m) conn ((map_to_list (cache_ c)).*2) !! i = Some a → False) as Hnone.
  { intros i a. rewrite foldl_delete_lookup. case_decide as Hids; [done|]. intros Hi%Hc.
    apply Hids, list_elem_of_fmap. exists (a, i). split; [done|by apply elem_of_map_to_list]. }
  split; unfold connected; simpl; rewrite effect_app, He, close_effect; simpl.
  - intros a i. rewrite lookup_empty. split; [done|]. intros Hi. by apply Hnone in Hi.
  - intros i a Hi. by apply Hnone in Hi.
Qed.

Lemma new_cache_ok type : cache_ok (new_cache type).
Proof. split; unfold connected; simpl; [|done]. intros a i. by rewrite !lookup_empty. Qed.

Lemma run_ops_ok ops c :
  cache_ok c → cache_ok (foldl run_op c ops) ∧
  delivered (foldl run_op c ops) = delivered c ++ omap pushed ops.
Proof.
  revert c. induction ops as [|op ops IH]; intros c Hc; simpl; [by rewrite app_nil_r|].
  destruct op as [[a b]|]; simpl.
  - destruct (push_ok b a c Hc) as [Hok Hd]. destruct (IH _ Hok) as [Hok' Hd'].
    split; [done|]. by rewrite Hd', Hd, <-app_assoc.
  - destruct (clear_cache_ok c Hc) as [Hok Hd]. destruct (IH _ Hok) as [Hok' Hd'].
    split; [done|]. by rewrite Hd', Hd.
Qed.

(** Without [clear_cache], the sockets created are the cached ones. *)
Definition all_cached (c : SocketCache) : Prop :=
  length (opened c) = created c ∧ size (cache_ c) = created c.

Lemma push_cached s a c :
  all_cached c → all_cached (push s a c) ∧ dom (cache_ (push s a c)) = {[a]} ∪ dom (cache_ c).
Proof.
  unfold all_cached, opened, push, At. intros [Ho Hs]. destruct (cache_ c !! a) as [i|] eqn:Ha; simpl.
  - rewrite omap_app, app_nil_r. split; [done|]. apply elem_of_dom_2 in Ha. set_solver.
  - rewrite !omap_app, !length_app, Ho. simpl. rewrite map_size_insert, Ha, Hs. split; [lia|].
    by rewrite dom_insert_L.
Qed.

Lemma pushes_cached (msgs : list Msg) c :
  all_cached c → let c' := foldl run_op c (Push <$> msgs) in
  all_cached c' ∧ dom (cache_ c') = list_to_set (msg_to <$> msgs) ∪ dom (cache_ c).
Proof.
  revert c. induction msgs as [|[a b] msgs IH]; intros c Hc; simpl; [split; [done|set_solver]|].
  destruct (push_cached b a c Hc) as [Hc' Hdom]. destruct (IH _ Hc') as [Hok Hd].
  split; [done|]. etrans; [exact Hd|]. rewrite Hdom. set_solver.
Qed.

(** C29: the cache of sockets implements [send_string] to an address: whatever is
    pushed, also with the cache cleared in between, libzmq is given every message
    once, in order, on a socket that is connected to its address and to no other;
    and a process that never clears its cache opens one socket per address. *)
Theorem pushers_refine type ops msgs :
  delivered (foldl run_op (new_cache type) ops) = omap pushed ops ∧
  (∀ a i, cache_ (foldl run_op (new_cache type) ops) !! a = Some i ↔
          connected (foldl run_op (new_cache type) ops) !! i = Some a) ∧
  length (opened (foldl run_op (new_cache type) (Push <$> msgs)))
    = size (list_to_set (msg_to <$> msgs) : gset Address).
Proof.
  destruct (run_ops_ok ops _ (new_cache_ok type)) as [[Hc _] Hd].
  split; [done|]. split; [done|].
  destruct (pushes_cached msgs (new_cache type)) as [[Ho Hs] Hdom]; [done|].
  rewrite Ho, <-Hs, <-size_dom, Hdom. f_equal. set_solver.
Qed.
