(* ===== verification/Text.v ===== *)
(** String processing: the parts of [std::string], [std::to_string],
    [std::stoi] and [std::getline] the code uses, and [split] of
    common/include/common.hpp.

    The theorems of this file are the round trips the message formats of the
    other components rely on: [split] undoes joining with the delimiter, and
    [stoi] undoes [to_string]. *)

From S2P Require Import Prelude.
From Stdlib Require Import Ascii Lia.

(** ** Characters of a string *)

Fixpoint has_char (c : ascii) (s : string) : bool :=
  match s with
  | EmptyString => false
  | String a s => bool_decide (a = c) || has_char c s
  end.

Lemma has_char_app c s t : has_char c (s +:+ t) = has_char c s || has_char c t.
Proof.
  induction s as [|a s IH]; [done|].
  change (String a s +:+ t) with (String a (s +:+ t)). simpl.
  by rewrite IH, orb_assoc.
Qed.

Lemma append_cons a s t : String a s +:+ t = String a (s +:+ t).
Proof. done. Qed.
Lemma append_nil_l s : "" +:+ s = s.
Proof. done. Qed.
Lemma append_nil_r s : s +:+ "" = s.
Proof. induction s as [|a s IH]; [done|]. by rewrite append_cons, IH. Qed.
Lemma append_assoc s t u : (s +:+ t) +:+ u = s +:+ (t +:+ u).
Proof. induction s as [|a s IH]; [done|]. by rewrite !append_cons, IH. Qed.

#[export] Hint Rewrite append_nil_l append_nil_r append_cons append_assoc
  has_char_app : anna_simpl.

(** ** [split(s, delim, elems)] (common.hpp)

    [std::getline] yields the characters up to the next delimiter and stops at
    the end of the input, so a trailing delimiter gives no last empty item and
    the empty string gives no item at all. *)
Fixpoint split (s : string) (delim : ascii) : list string :=
  match s with
  | EmptyString => []
  | String c s =>
      if bool_decide (c = delim) then "" :: split s delim
      else match split s delim with
           | [] => [String c ""]
           | w :: ws => String c w :: ws
           end
  end.

Fixpoint join (delim : ascii) (ws : list string) : string :=
  match ws with
  | [] => ""
  | [w] => w
  | w :: ws => w +:+ String delim (join delim ws)
  end.

Lemma split_word w d : has_char d w = false → w ≠ "" → split w d = [w].
Proof.
  induction w as [|c w IH]; [done|]. simpl. intros [Hc Hw]%orb_false_iff _.
  rewrite Hc. destruct w as [|c' w]; [done|]. by rewrite IH.
Qed.

Lemma split_delim w d s :
  has_char d w = false → split (w +:+ String d s) d = w :: split s d.
Proof.
  induction w as [|c w IH]; intros Hw.
  { rewrite append_nil_l. simpl. by rewrite bool_decide_eq_true_2. }
  apply orb_false_iff in Hw as [Hc Hw]. rewrite append_cons. simpl.
  by rewrite Hc, IH.
Qed.

Lemma split_join d ws :
  ws ≠ [] → Forall (λ w, has_char d w = false) ws → last ws ≠ Some "" →
  split (join d ws) d = ws.
Proof.
  induction ws as [|w ws IH]; [done|]. intros _ [Hw Hws]%Forall_cons Hlast.
  destruct ws as [|w' ws].
  { apply split_word; [done|]. naive_solver. }
  change (join d (w :: w' :: ws)) with (w +:+ String d (join d (w' :: ws))).
  rewrite split_delim by done. f_equal. by apply IH.
Qed.

(** ** [std::to_string] *)
Definition to_string (n : Z) : string := pretty n.

Definition is_digit (c : ascii) : bool :=
  match Ascii.is_nat c with Some _ => true | None => false end.

Fixpoint all_digits (s : string) : bool :=
  match s with
  | EmptyString => true
  | String c s => is_digit c && all_digits s
  end.

Lemma pretty_N_char_digit x : is_digit (pretty_N_char x) = true.
Proof. unfold pretty_N_char. by repeat case_match. Qed.

Lemma all_digits_go x s : all_digits s = true → all_digits (pretty_N_go x s) = true.
Proof.
  revert s. induction (N.lt_wf_0 x) as [x _ IH]; intros s Hs.
  assert (x = 0 ∨ 0 < x)%N as [->|?] by lia; [done|].
  rewrite pretty_N_go_step by done. apply IH; [by apply N.div_lt|].
  simpl. by rewrite pretty_N_char_digit, Hs.
Qed.

Lemma to_string_N n : 0 ≤ n → to_string n = pretty (Z.to_N n).
Proof. intros. unfold to_string. by destruct n. Qed.

Lemma to_string_digits n : 0 ≤ n → all_digits (to_string n) = true.
Proof.
  intros. rewrite to_string_N by done. unfold pretty, pretty_N.
  case_decide; [done|]. by apply all_digits_go.
Qed.

Lemma all_digits_has_char c s :
  is_digit c = false → all_digits s = true → has_char c s = false.
Proof.
  intros Hc. induction s as [|a s IH]; [done|]. simpl.
  intros [Ha Hs]%andb_true_iff. rewrite IH by done.
  rewrite bool_decide_eq_false_2; [done|]. intros ->. congruence.
Qed.

(** A decimal numeral contains no delimiter. *)
Lemma to_string_has_char c n : is_digit c = false → 0 ≤ n → has_char c (to_string n) = false.
Proof. intros. eauto using all_digits_has_char, to_string_digits. Qed.

Lemma to_string_inj n m : to_string n = to_string m → n = m.
Proof. apply (inj pretty). Qed.

Lemma to_string_nonempty n : to_string n ≠ "".
Proof.
  unfold to_string. assert (∀ p, pretty (N.pos p) ≠ "") as Hpos.
  { intros p Hp. unfold pretty, pretty_N in Hp. case_decide; [done|].
    rewrite pretty_N_go_step in Hp by lia. revert Hp.
    generalize (N.pos p `mod` 10)%N. intros r.
    generalize (N.pos p `div` 10)%N. intros x.
    assert (∀ x s, s ≠ "" → pretty_N_go x s ≠ "") as Hgo.
    { clear. intros x. induction (N.lt_wf_0 x) as [x _ IH]; intros s Hs.
      assert (x = 0 ∨ 0 < x)%N as [->|?] by lia; [done|].
      rewrite pretty_N_go_step by done. apply IH; [by apply N.div_lt|done]. }
    intros Heq. eapply Hgo; [|exact Heq]. done. }
  destruct n; [done|apply Hpos|]. simpl. done.
Qed.

(** ** [std::stoi]

    Leading white space, an optional sign and the longest run of digits; no
    digit throws [invalid_argument], a value outside [int] throws
    [out_of_range]. *)
Fixpoint skip_space (s : string) : string :=
  match s with
  | String c s' => if Ascii.is_space c then skip_space s' else s
  | EmptyString => s
  end.

Fixpoint strtol_digits (s : string) (acc : Z) : Z :=
  match s with
  | EmptyString => acc
  | String c s =>
      match Ascii.is_nat c with
      | Some d => strtol_digits s (acc * 10 + Z.of_nat d)
      | None => acc
      end
  end.

Definition stoi_unsigned (s : string) : option Z :=
  match s with
  | String c _ => if is_digit c then Some (strtol_digits s 0) else None
  | EmptyString => None
  end.

Definition stoi (s : string) : outcome Z :=
  let s := skip_space s in
  let v := match s with
           | String "-" s => Z.opp <$> stoi_unsigned s
           | String "+" s => stoi_unsigned s
           | _ => stoi_unsigned s
           end in
  match v with
  | None => Fail (Throws "invalid_argument")
  | Some n => if bool_decide (- 2 ^ 31 ≤ n ≤ INT_MAX) then Ok n
              else Fail (Throws "out_of_range")
  end.

Lemma strtol_pretty_go x s :
  strtol_digits (pretty_N_go x s) 0 = strtol_digits s (Z.of_N x).
Proof.
  revert s. induction (N.lt_wf_0 x) as [x _ IH]; intros s.
  assert (x = 0 ∨ 0 < x)%N as [->|?] by lia; [done|].
  rewrite pretty_N_go_step by done. rewrite IH by (by apply N.div_lt).
  assert (x `mod` 10 < 10)%N as Hlt by (apply N.mod_lt; lia).
  assert (Z.of_N x = Z.of_N (x `div` 10) * 10 + Z.of_N (x `mod` 10)) as Hx.
  { rewrite (N.div_mod x 10) at 1 by lia. lia. }
  revert Hlt Hx. generalize (x `mod` 10)%N. intros r Hr Hx.
  assert (r = 0 ∨ r = 1 ∨ r = 2 ∨ r = 3 ∨ r = 4 ∨ r = 5 ∨ r = 6 ∨ r = 7 ∨
          r = 8 ∨ r = 9)%N as Hcases by lia.
  rewrite Hx. clear -Hcases. by destruct_or! Hcases; subst.
Qed.

Lemma stoi_digits s :
  s ≠ "" → all_digits s = true → strtol_digits s 0 ≤ INT_MAX → 0 ≤ strtol_digits s 0 →
  stoi s = Ok (strtol_digits s 0).
Proof.
  intros Hne Hd Hmax Hmin. destruct s as [|c s]; [done|].
  assert (is_digit c = true) as Hc by (simpl in Hd; by destruct (is_digit c)).
  assert (skip_space (String c s) = String c s) as Hsk.
  { simpl. clear -Hc. destruct c as [[][][][][][][][]]; done. }
  assert (stoi_unsigned (String c s) = Some (strtol_digits (String c s) 0)) as Hu.
  { unfold stoi_unsigned. by rewrite Hc. }
  unfold stoi. rewrite Hsk.
  assert (match String c s with
           | String "-" s => Z.opp <$> stoi_unsigned s
           | String "+" s => stoi_unsigned s
           | _ => stoi_unsigned (String c s)
           end = stoi_unsigned (String c s)) as ->.
  { clear -Hc. destruct c as [[][][][][][][][]]; done. }
  rewrite Hu. unfold INT_MAX in *. rewrite bool_decide_eq_true_2; [done|lia].
Qed.

(** [stoi] inverts [to_string] on the non-negative [int]s. *)
Lemma stoi_to_string n : 0 ≤ n ≤ INT_MAX → stoi (to_string n) = Ok n.
Proof.
  intros [Hn Hmax].
  assert (strtol_digits (to_string n) 0 = n) as Hval.
  { rewrite to_string_N by done. unfold pretty, pretty_N. case_decide as Hz.
    - simpl. lia.
    - rewrite strtol_pretty_go. simpl. lia. }
  rewrite stoi_digits; rewrite ?Hval; auto using to_string_nonempty, to_string_digits.
Qed.

(** ** [std::string::find] and [substr]

    Positions are [size_t]; [npos] is the largest of them. *)
Definition npos : Z := 2 ^ 64 - 1.

Fixpoint find_char (c : ascii) (s : string) : option nat :=
  match s with
  | EmptyString => None
  | String a s => if bool_decide (a = c) then Some 0%nat else S <$> find_char c s
  end.

(** [s.find(c, pos)] *)
Definition find (s : string) (c : ascii) (pos : Z) : Z :=
  match find_char c (String.substring (Z.to_nat pos) (String.length s) s) with
  | Some i => pos + Z.of_nat i
  | None => npos
  end.

(** [s.substr(pos, len)] for a [pos] in range. *)
Definition substr (s : string) (pos len : Z) : string :=
  String.substring (Z.to_nat pos) (Z.to_nat (Z.min len (Z.of_nat (String.length s)))) s.

Lemma length_append s t : String.length (s +:+ t) = (String.length s + String.length t)%nat.
Proof. induction s as [|a s IH]; [done|]. rewrite append_cons. simpl. by rewrite IH. Qed.

Lemma substring_all s n : (String.length s ≤ n)%nat → String.substring 0 n s = s.
Proof.
  revert n. induction s as [|a s IH]; intros [|n] Hn; simpl in *; try done; [lia|].
  by rewrite IH by lia.
Qed.

Lemma substring_skip s t n :
  (String.length t ≤ n)%nat → String.substring (String.length s) n (s +:+ t) = t.
Proof.
  induction s as [|a s IH]; intros Hn; [by apply substring_all|].
  rewrite append_cons. simpl. by apply IH.
Qed.

Lemma substring_prefix s t : String.substring 0 (String.length s) (s +:+ t) = s.
Proof.
  induction s as [|a s IH]; [by destruct t|]. rewrite append_cons. simpl. by rewrite IH.
Qed.

Lemma find_char_app c s t :
  has_char c s = false → find_char c (s +:+ String c t) = Some (String.length s).
Proof.
  induction s as [|a s IH]; intros Hs.
  { rewrite append_nil_l. simpl. by rewrite bool_decide_eq_true_2. }
  apply orb_false_iff in Hs as [Ha Hs]. rewrite append_cons. simpl. by rewrite Ha, IH.
Qed.
