(* ===== verification/Ordered.v ===== *)
(** [std::map] and [std::set]: containers kept in the order of their keys.

    [ConsistentHashMap] (include/consistent_hash_map.hpp) iterates a
    [std::map] from [lower_bound] on, so the order is part of its behaviour;
    [OrderedSetLattice] holds a [std::set].  Both are modelled by one strictly
    sorted list whose elements carry a key ([fst] for a map, the element itself
    for a set). *)

From S2P Require Import Prelude.
From stdpp Require Import sorting.
From Stdlib Require Import Lia.

(** The strict order [std::less<K>]. *)
Class StrictTotal (K : Type) := {
  ltb : K → K → bool;
  ltb_irrefl k : ltb k k = false;
  ltb_trans k1 k2 k3 : ltb k1 k2 = true → ltb k2 k3 = true → ltb k1 k3 = true;
  ltb_total k1 k2 : ltb k1 k2 = false → ltb k2 k1 = false → k1 = k2;
}.

#[export] Program Instance StrictTotal_Z : StrictTotal Z := {| ltb := Z.ltb |}.
Solve Obligations with lia.

Definition string_ltb (s t : string) : bool := negb (bool_decide (String.le t s)).

Lemma string_ltb_true s t : string_ltb s t = true ↔ ¬ String.le t s.
Proof. unfold string_ltb. by rewrite negb_true_iff, bool_decide_eq_false. Qed.

Lemma string_ltb_false s t : string_ltb s t = false ↔ String.le t s.
Proof. unfold string_ltb. by rewrite negb_false_iff, bool_decide_eq_true. Qed.

#[export] Instance StrictTotal_string : StrictTotal string.
Proof.
  refine {| ltb := string_ltb |}.
  - intros s. by apply string_ltb_false.
  - intros s t u Hst%string_ltb_true Htu%string_ltb_true.
    apply string_ltb_true. intros Hus.
    destruct (total String.le s t) as [Hs|]; [|done]. apply Htu. by trans s.
  - intros s t Hst%string_ltb_false Hts%string_ltb_false.
    by apply (anti_symm String.le).
Defined.

Section ordered.
Context {K} `{StrictTotal K} {A : Type} (key : A → K).
Implicit Types (x y : A) (l : list A).

Definition key_lt x y : Prop := ltb (key x) (key y) = true.
Definition ord_sorted l : Prop := StronglySorted key_lt l.

(** [insert]: does nothing when an element with that key is present. *)
Fixpoint ord_insert x l : list A :=
  match l with
  | [] => [x]
  | y :: l' =>
      if ltb (key x) (key y) then x :: l
      else if ltb (key y) (key x) then y :: ord_insert x l'
      else l
  end.

(** [erase(key)] *)
Fixpoint ord_erase (k : K) l : list A :=
  match l with
  | [] => []
  | y :: l' =>
      if ltb k (key y) then l
      else if ltb (key y) k then y :: ord_erase k l'
      else l'
  end.

(** [lower_bound(k)]: the index of the first element whose key is not
    smaller than [k], the length of the list for [end()]. *)
Fixpoint lower_bound (k : K) l : nat :=
  match l with
  | [] => 0%nat
  | y :: l' => if ltb (key y) k then S (lower_bound k l') else 0%nat
  end.

Lemma key_lt_ne x y : key_lt x y → key x ≠ key y.
Proof. unfold key_lt. intros Hlt Heq. rewrite Heq, ltb_irrefl in Hlt. done. Qed.

Lemma elem_of_ord_insert x y l : y ∈ ord_insert x l → y = x ∨ y ∈ l.
Proof.
  induction l as [|z l IH]; simpl; [set_solver|].
  destruct (ltb (key x) (key z)); [set_solver|].
  destruct (ltb (key z) (key x)); set_solver.
Qed.

Lemma ord_insert_mono x y l : y ∈ l → y ∈ ord_insert x l.
Proof.
  induction l as [|z l IH]; simpl; [set_solver|].
  destruct (ltb (key x) (key z)); [set_solver|].
  destruct (ltb (key z) (key x)); set_solver.
Qed.

(** After [insert] an element with the key is present. *)
Lemma ord_insert_key x l : ∃ y, y ∈ ord_insert x l ∧ key y = key x.
Proof.
  induction l as [|z l IH]; simpl; [exists x; set_solver|].
  destruct (ltb (key x) (key z)) eqn:Hxz; [exists x; set_solver|].
  destruct (ltb (key z) (key x)) eqn:Hzx; [set_solver|].
  exists z. split; [set_solver|]. by apply ltb_total.
Qed.

Lemma ord_insert_fresh x l : (∀ y, y ∈ l → key y ≠ key x) → x ∈ ord_insert x l.
Proof.
  intros Hf. destruct (ord_insert_key x l) as (y & Hy & Hk).
  destruct (elem_of_ord_insert _ _ _ Hy) as [->|Hin]; [done|].
  by destruct (Hf y).
Qed.

Lemma ord_insert_present x y l :
  ord_sorted l → y ∈ l → key y = key x → ord_insert x l = l.
Proof.
  intros Hs. induction Hs as [|z l Hs IH Hf]; [set_solver|].
  intros [->|Hy]%elem_of_cons Hk; simpl.
  { by rewrite Hk, ltb_irrefl. }
  pose proof (proj1 (Forall_forall _ _) Hf y Hy) as Hzy. unfold key_lt in Hzy.
  rewrite Hk in Hzy. rewrite Hzy.
  destruct (ltb (key x) (key z)) eqn:Hxz.
  { pose proof (ltb_trans _ _ _ Hxz Hzy) as Hxx. by rewrite ltb_irrefl in Hxx. }
  by rewrite IH.
Qed.

Lemma ord_insert_sorted x l : ord_sorted l → ord_sorted (ord_insert x l).
Proof.
  unfold ord_sorted. induction 1 as [|z l Hs IH Hf]; simpl; [repeat constructor|].
  destruct (ltb (key x) (key z)) eqn:Hxz.
  { constructor; [by constructor|]. constructor; [done|].
    eapply Forall_impl; [exact Hf|]. intros y. by apply ltb_trans. }
  destruct (ltb (key z) (key x)) eqn:Hzx; [|by constructor].
  constructor; [done|]. apply Forall_forall. intros y Hy.
  destruct (elem_of_ord_insert _ _ _ Hy) as [->|Hin]; [done|].
  by eapply Forall_forall in Hf.
Qed.

Lemma elem_of_ord_erase k y l :
  ord_sorted l → y ∈ ord_erase k l ↔ y ∈ l ∧ key y ≠ k.
Proof.
  intros Hs. induction Hs as [|z l Hs IH Hf]; simpl; [set_solver|].
  assert (∀ y, y ∈ l → ltb (key z) (key y) = true) as Hz.
  { intros y' Hy'. by eapply Forall_forall in Hf. }
  destruct (ltb k (key z)) eqn:Hkz.
  { split; [|set_solver]. intros Hy. split; [done|]. intros <-.
    apply elem_of_cons in Hy as [->|Hy]; [by rewrite ltb_irrefl in Hkz|].
    pose proof (ltb_trans _ _ _ Hkz (Hz _ Hy)) as Hc. by rewrite ltb_irrefl in Hc. }
  destruct (ltb (key z) k) eqn:Hzk.
  { rewrite !elem_of_cons, IH. split; [|naive_solver].
    intros [->|[??]]; [|naive_solver]. split; [by left|]. intros <-.
    by rewrite ltb_irrefl in Hzk. }
  assert (k = key z) as -> by (by apply ltb_total).
  rewrite elem_of_cons. split; [|naive_solver].
  intros Hy. split; [by right|]. intros Heq. specialize (Hz _ Hy).
  rewrite Heq, ltb_irrefl in Hz. done.
Qed.

Lemma ord_erase_sorted k l : ord_sorted l → ord_sorted (ord_erase k l).
Proof.
  unfold ord_sorted. induction 1 as [|z l Hs IH Hf]; simpl; [constructor|].
  destruct (ltb k (key z)); [by constructor|].
  destruct (ltb (key z) k); [|done].
  constructor; [done|]. apply Forall_forall. intros y Hy.
  apply elem_of_ord_erase in Hy as [Hy _]; [|done]. by eapply Forall_forall in Hf.
Qed.

Lemma lower_bound_le k l : (lower_bound k l ≤ length l)%nat.
Proof. induction l as [|z l IH]; simpl; [lia|]. destruct (ltb (key z) k); simpl; lia. Qed.

(** [lower_bound] splits the keys: smaller ones before, the others after. *)
Lemma lower_bound_spec k l i x :
  ord_sorted l → l !! i = Some x →
  ltb (key x) k = true ↔ (i < lower_bound k l)%nat.
Proof.
  intros Hs. revert i. induction Hs as [|z l Hs IH Hf]; intros i Hi; [done|].
  destruct i as [|i]; simplify_eq/=.
  { destruct (ltb (key x) k); naive_solver lia. }
  destruct (ltb (key z) k) eqn:Hzk.
  { rewrite IH by done. lia. }
  split; [|lia]. intros Hxk. apply list_elem_of_lookup_2 in Hi.
  eapply Forall_forall in Hf; [|done].
  pose proof (ltb_trans _ _ _ Hf Hxk). congruence.
Qed.

(** The keys determine the elements. *)
Lemma ord_sorted_key_inj l x y :
  ord_sorted l → x ∈ l → y ∈ l → key x = key y → x = y.
Proof.
  intros Hs. induction Hs as [|z l Hs IH Hf]; [set_solver|].
  intros [->|Hx]%elem_of_cons [->|Hy]%elem_of_cons Hk; [done|..|by auto].
  - eapply Forall_forall in Hf; [|done]. by destruct (key_lt_ne _ _ Hf).
  - eapply Forall_forall in Hf; [|done]. by destruct (key_lt_ne _ _ Hf).
Qed.

Lemma ord_sorted_NoDup l : ord_sorted l → NoDup l.
Proof.
  unfold ord_sorted. induction 1 as [|z l Hs IH Hf]; constructor; [|done].
  intros Hz. eapply Forall_forall in Hf; [|done]. by destruct (key_lt_ne _ _ Hf).
Qed.

(** Two sorted lists with the same elements are equal. *)
Lemma ord_sorted_ext l1 l2 :
  ord_sorted l1 → ord_sorted l2 → (∀ x, x ∈ l1 ↔ x ∈ l2) → l1 = l2.
Proof.
  intros Hs1 Hs2 Heq. eapply (StronglySorted_unique_strong key_lt); [|done..|].
  - intros x y _ _ Hxy Hyx. pose proof (ltb_trans _ _ _ Hxy Hyx) as Hc.
    by rewrite ltb_irrefl in Hc.
  - apply NoDup_Permutation; auto using ord_sorted_NoDup.
Qed.

(** An inserted element is the only difference. *)
Lemma filter_ord_insert (P : A → Prop) `{∀ x, Decision (P x)} x l :
  ¬ P x → filter P (ord_insert x l) = filter P l.
Proof.
  intros Hx. induction l as [|y l IH]; simpl; [by rewrite filter_cons_False|].
  destruct (ltb (key x) (key y)); [by rewrite filter_cons_False|].
  destruct (ltb (key y) (key x)); [|done].
  rewrite !filter_cons. by rewrite IH.
Qed.

Lemma ord_sorted_filter (P : A → Prop) `{∀ x, Decision (P x)} l :
  ord_sorted l → ord_sorted (filter P l).
Proof.
  unfold ord_sorted. induction 1 as [|z l Hs IH Hf]; [constructor|].
  rewrite filter_cons. case_decide; [|done]. constructor; [done|].
  apply Forall_forall. intros x [_ Hx]%list_elem_of_filter. by eapply Forall_forall in Hf.
Qed.

Lemma ord_erase_filter k l :
  ord_sorted l → ord_erase k l = filter (λ y, ltb k (key y) || ltb (key y) k = true) l.
Proof.
  intros Hs. apply ord_sorted_ext; [by apply ord_erase_sorted|by apply ord_sorted_filter|].
  intros x. rewrite elem_of_ord_erase, list_elem_of_filter, orb_true_iff by done. split.
  - intros [Hx Hk]. split; [|done].
    destruct (ltb k (key x)) eqn:H1; [by left|].
    destruct (ltb (key x) k) eqn:H2; [by right|]. by rewrite (ltb_total _ _ H1 H2) in Hk.
  - intros [Hlt Hx]. split; [done|]. intros <-. rewrite ltb_irrefl in Hlt. naive_solver.
Qed.

(** The elements from [lower_bound] on, and those before it. *)
Lemma drop_lower_bound k l :
  ord_sorted l → drop (lower_bound k l) l = filter (λ x, ltb (key x) k = false) l.
Proof.
  unfold ord_sorted. induction 1 as [|z l Hs IH Hf]; [done|]. simpl.
  rewrite filter_cons. destruct (ltb (key z) k) eqn:Hzk; simpl; [done|].
  f_equal. symmetry. apply list_filter_all. apply Forall_forall. intros x Hx.
  eapply Forall_forall in Hf; [|done]. destruct (ltb (key x) k) eqn:Hxk; [|done].
  pose proof (ltb_trans _ _ _ Hf Hxk). congruence.
Qed.

Lemma take_lower_bound k l :
  ord_sorted l → take (lower_bound k l) l = filter (λ x, ltb (key x) k = true) l.
Proof.
  unfold ord_sorted. induction 1 as [|z l Hs IH Hf]; [done|]. simpl.
  rewrite filter_cons. destruct (ltb (key z) k) eqn:Hzk; simpl; [by rewrite IH|].
  symmetry. apply list_filter_none. apply Forall_forall. intros x Hx Hxk.
  eapply Forall_forall in Hf; [|done].
  pose proof (ltb_trans _ _ _ Hf Hxk). congruence.
Qed.
End ordered.

#[export] Hint Resolve ord_insert_sorted ord_erase_sorted : anna.

(** ** [std::set<T>] *)
Section ordered_set.
Context {T} `{StrictTotal T}.

Lemma elem_of_oset_insert (x y : T) (l : list T) : y ∈ ord_insert id x l ↔ y = x ∨ y ∈ l.
Proof.
  split; [apply elem_of_ord_insert|]. intros [->|Hy]; [|by apply ord_insert_mono].
  destruct (ord_insert_key id x l) as (z & Hz & Heq). simpl in Heq. by subst.
Qed.
End ordered_set.
