(* ===== verification/Lattices.v ===== *)
(** The lattices of common/include/lattices: what a replica stores for a key
    and how it absorbs another replica's value.

    [Lattice T] is the interface of the class template [Lattice<T>]: the
    default-constructed element and [do_merge], from the element held and the
    incoming one to the new element.  [LatticeLaws] states what the rest of
    the system relies on (the README calls merge associative, commutative and
    idempotent), on the values that satisfy [valid].  The instances prove it
    for every lattice of core_lattices.hpp, and for the last-writer-wins and
    priority lattices on histories whose timestamps or priorities identify the
    write.  The causal lattices satisfy it only for their vector clocks. *)

From S2P Require Import Prelude Ordered.
From Stdlib Require Import Lia SpecFloat.

(** ** The interface (lattice.hpp) *)

Class Lattice (T : Type) := {
  bot : T;
  do_merge : T → T → T;
}.

Class LatticeLaws (T : Type) `{Lattice T} (valid : T → Prop) : Prop := {
  merge_valid x y : valid x → valid y → valid (do_merge x y);
  merge_comm x y : valid x → valid y → do_merge x y = do_merge y x;
  merge_assoc x y z : valid x → valid y → valid z →
    do_merge x (do_merge y z) = do_merge (do_merge x y) z;
  merge_idemp x : valid x → do_merge x x = x;
}.

Arguments do_merge : simpl never.

(** Absorbing a sequence of values, in the order they arrive. *)
Definition merge_all `{Lattice T} (x : T) (l : list T) : T := foldl do_merge x l.

Section laws.
Context {T} `{LatticeLaws T valid}.
Implicit Types x y z : T.

Definition lat_le x y : Prop := do_merge x y = y.

Lemma lat_le_refl x : valid x → lat_le x x.
Proof. apply merge_idemp. Qed.

Lemma lat_le_trans x y z :
  valid x → valid y → valid z → lat_le x y → lat_le y z → lat_le x z.
Proof. unfold lat_le. intros ??? Hxy Hyz. by rewrite <-Hyz, merge_assoc, Hxy. Qed.

Lemma lat_le_antisym x y : valid x → valid y → lat_le x y → lat_le y x → x = y.
Proof. unfold lat_le. intros ?? Hxy Hyx. by rewrite <-Hyx, merge_comm, Hxy. Qed.

Lemma lat_le_merge_l x y : valid x → valid y → lat_le x (do_merge x y).
Proof. unfold lat_le. intros. by rewrite merge_assoc, merge_idemp. Qed.

Lemma lat_le_merge_r x y : valid x → valid y → lat_le y (do_merge x y).
Proof. intros. rewrite merge_comm by done. by apply lat_le_merge_l. Qed.

Lemma lat_merge_lub x y z :
  valid x → valid y → valid z → lat_le x z → lat_le y z → lat_le (do_merge x y) z.
Proof. unfold lat_le. intros ??? Hx Hy. by rewrite <-merge_assoc, Hy. Qed.

Lemma merge_all_valid x l : valid x → Forall valid l → valid (merge_all x l).
Proof.
  intros Hx Hl. revert x Hx. induction Hl; intros; [done|]. simpl.
  by apply IHHl, merge_valid.
Qed.

Lemma merge_all_ub x l :
  valid x → Forall valid l →
  lat_le x (merge_all x l) ∧ ∀ y, y ∈ l → lat_le y (merge_all x l).
Proof.
  intros Hx Hl. revert x Hx. induction Hl as [|y l Hy Hl IH]; intros x Hx; simpl.
  { split; [by apply lat_le_refl|set_solver]. }
  assert (valid (do_merge x y)) as Hxy by by apply merge_valid.
  destruct (IH _ Hxy) as [Hle Hub].
  assert (valid (merge_all (do_merge x y) l)) as Hm by by apply merge_all_valid.
  split.
  { eapply lat_le_trans; [done|exact Hxy|done|by apply lat_le_merge_l|done]. }
  intros z [->|Hz]%elem_of_cons; [|by auto].
  eapply lat_le_trans; [done|exact Hxy|done|by apply lat_le_merge_r|done].
Qed.

Lemma merge_all_lub x l z :
  valid x → Forall valid l → valid z →
  lat_le x z → (∀ y, y ∈ l → lat_le y z) → lat_le (merge_all x l) z.
Proof.
  intros Hx Hl Hz. revert x Hx. induction Hl as [|y l Hy Hl IH]; intros x Hx Hxz Hlz; [done|].
  simpl. apply IH; [by apply merge_valid|apply lat_merge_lub; set_solver|set_solver].
Qed.

(** Replicas that start from the same value and have absorbed the same set of
    updates hold the same value, whatever the order and the repetitions. *)
Lemma merge_all_same_set x l1 l2 :
  valid x → Forall valid l1 → Forall valid l2 → (∀ y, y ∈ l1 ↔ y ∈ l2) →
  merge_all x l1 = merge_all x l2.
Proof.
  intros Hx H1 H2 Heq.
  destruct (merge_all_ub x l1 Hx H1) as [Hx1 Hub1].
  destruct (merge_all_ub x l2 Hx H2) as [Hx2 Hub2].
  assert (valid (merge_all x l1)) by by apply merge_all_valid.
  assert (valid (merge_all x l2)) by by apply merge_all_valid.
  apply lat_le_antisym; auto; apply merge_all_lub; auto;
    intros y Hy; [apply Hub2|apply Hub1]; by apply Heq.
Qed.
End laws.

(** Fewer values, as long as they are closed under merge. *)
Lemma laws_restrict {T} `{LatticeLaws T valid} (valid' : T → Prop) :
  (∀ x, valid' x → valid x) → (∀ x y, valid' x → valid' y → valid' (do_merge x y)) → LatticeLaws T valid'.
Proof.
  intros Hsub Hclosed. split; [done|intros; apply merge_comm|intros; apply merge_assoc|intros; apply merge_idemp];
    by apply Hsub.
Qed.

(** ** BoolLattice *)
Module BoolLattice.
#[global] Instance lattice : Lattice bool := {| bot := false; do_merge := orb |}.

#[global] Instance laws : LatticeLaws bool (λ _, True).
Proof.
  split; [done|intros; apply orb_comm|intros; apply orb_assoc|intros; apply orb_diag].
Qed.
End BoolLattice.

(** ** MaxLattice<T>

    [do_merge] copies the element into an [int] and compares that with the
    incoming value, so the comparison happens in the common type of [int] and
    [T]: [common] is that conversion ([u32] for [unsigned], the identity for
    [int], [u64] for [unsigned long long]). *)
Module MaxLattice.
Definition do_merge_at (common : Z → Z) (element e : Z) : Z :=
  let current := int32 element in
  if bool_decide (common current < e) then e else element.

(** The instance the system uses, [MaxLattice<unsigned>]. *)
#[global] Instance lattice : Lattice Z :=
  {| bot := 0; do_merge := do_merge_at u32 |}.

Definition add (element n : Z) : Z := u32 (element + n).
Definition subtract (element n : Z) : Z := u32 (element - n).

Lemma do_merge_max x y : is_u32 x → do_merge x y = Z.max x y.
Proof.
  intros Hx. change (do_merge_at u32 x y = Z.max x y). unfold do_merge_at. rewrite u32_int32 by done. case_bool_decide; lia.
Qed.

#[global] Instance laws : LatticeLaws Z is_u32.
Proof.
  assert (∀ x y, is_u32 x → is_u32 y → is_u32 (Z.max x y)) as Hmax.
  { unfold is_u32. lia. }
  split.
  - intros x y Hx Hy. rewrite do_merge_max by done. by apply Hmax.
  - intros x y Hx Hy. rewrite !do_merge_max by done. lia.
  - intros x y z Hx Hy Hz. rewrite !(do_merge_max y), !(do_merge_max x) by done.
    rewrite do_merge_max by (by apply Hmax). lia.
  - intros x Hx. rewrite do_merge_max by done. lia.
Qed.
End MaxLattice.

(** ** SetLattice<T> ([std::unordered_set]) *)
Module SetLattice.
Section set.
Context {T} `{Countable T}.

Definition insert (element : gset T) (e : T) : gset T := {[e]} ∪ element.

Definition do_merge_into (element e : gset T) : gset T :=
  set_fold (λ elem acc, insert acc elem) element e.

#[global] Instance lattice : Lattice (gset T) :=
  {| bot := ∅; do_merge := do_merge_into |}.

Definition size (element : gset T) : Z := u32 (Z.of_nat (stdpp.base.size element)).

Definition intersect (element s : gset T) : gset T :=
  set_fold (λ that_elem res,
    set_fold (λ this_elem res,
      if bool_decide (this_elem = that_elem) then insert res this_elem else res)
      res element) ∅ s.

Definition project (element : gset T) (f : T → bool) : gset T :=
  set_fold (λ elem res, if f elem then insert res elem else res) ∅ element.

Lemma do_merge_union (x y : gset T) : do_merge x y = x ∪ y.
Proof.
  change (do_merge_into x y = x ∪ y). unfold do_merge_into, insert.
  refine (set_fold_ind_L (λ acc e, acc = x ∪ e) _ x _ _ y); [set_solver|].
  intros e X acc _ ->. set_solver.
Qed.

#[global] Instance laws : LatticeLaws (gset T) (λ _, True).
Proof. split; intros; rewrite ?do_merge_union; set_solver. Qed.

Lemma intersect_spec (x y : gset T) : intersect x y = x ∩ y.
Proof.
  unfold intersect.
  refine (set_fold_ind_L (λ acc e, acc = x ∩ e) _ ∅ _ _ y); [set_solver|].
  intros e X acc _ ->.
  assert (∀ z : gset T, set_fold (λ this_elem res,
      if bool_decide (this_elem = e) then insert res this_elem else res) (x ∩ X) z
      = (x ∩ X) ∪ (z ∩ {[e]})) as ->; [|set_solver].
  intros z. refine (set_fold_ind_L (λ acc z, acc = x ∩ X ∪ z ∩ {[e]}) _ _ _ _ z); [set_solver|].
  unfold insert. intros a Z acc _ ->. case_bool_decide; set_solver.
Qed.

Lemma project_spec (x : gset T) f : project x f = filter (λ e, f e = true) x.
Proof.
  unfold project. refine (set_fold_ind_L (λ acc e, acc = filter (λ e, f e = true) e) _ _ _ _ x).
  { set_solver. }
  unfold insert. intros e X acc _ ->. destruct (f e) eqn:Hf; apply set_eq; intros a;
    rewrite ?elem_of_union, !elem_of_filter, elem_of_union, elem_of_singleton; intuition congruence.
Qed.
End set.
End SetLattice.

(** ** OrderedSetLattice<T> ([std::set]) *)
Module OrderedSetLattice.
Section oset.
Context {T} `{StrictTotal T} `{!EqDecision T}.

Definition insert (element : list T) (e : T) : list T := ord_insert id e element.

Definition do_merge_into (element e : list T) : list T := foldl insert element e.

#[global] Instance lattice : Lattice (list T) :=
  {| bot := []; do_merge := do_merge_into |}.

Definition size (element : list T) : Z := u32 (Z.of_nat (length element)).

Definition intersect (element s : list T) : list T :=
  foldl (λ res that_elem,
    foldl (λ res this_elem,
      if bool_decide (this_elem = that_elem) then insert res this_elem else res)
      res element) [] s.

Definition project (element : list T) (f : T → bool) : list T :=
  foldl (λ res elem, if f elem then insert res elem else res) [] element.

Definition sorted : list T → Prop := ord_sorted id.

Lemma do_merge_sorted (x y : list T) : sorted x → sorted (do_merge x y).
Proof.
  change (sorted x → sorted (do_merge_into x y)).
  revert x. induction y as [|e y IH]; intros x Hx; [done|].
  simpl. by apply IH, ord_insert_sorted.
Qed.

Lemma elem_of_do_merge (x y : list T) a : a ∈ do_merge x y ↔ a ∈ x ∨ a ∈ y.
Proof.
  change (a ∈ do_merge_into x y ↔ a ∈ x ∨ a ∈ y).
  revert x. induction y as [|e y IH]; intros x; simpl; [set_solver|].
  rewrite IH. unfold insert. rewrite elem_of_oset_insert. set_solver.
Qed.

#[global] Instance laws : LatticeLaws (list T) sorted.
Proof.
  split; [by auto using do_merge_sorted|..]; intros;
    (apply (ord_sorted_ext id); [by repeat apply do_merge_sorted..|]);
    intros a; rewrite ?elem_of_do_merge; tauto.
Qed.

Lemma oset_project_spec (x : list T) f :
  sorted (project x f) ∧ ∀ a, a ∈ project x f ↔ a ∈ x ∧ f a = true.
Proof.
  unfold project. cut (∀ acc, sorted acc →
    let r := foldl (λ res elem, if f elem then insert res elem else res) acc x in
    sorted r ∧ ∀ a, a ∈ r ↔ a ∈ acc ∨ (a ∈ x ∧ f a = true)).
  { intros Hc. destruct (Hc []) as [Hs Hr]; [constructor|]. split; [done|].
    intros a. rewrite Hr. set_solver. }
  induction x as [|e x IH]; intros acc Hacc; simpl; [set_solver|].
  destruct (f e) eqn:Hf.
  - destruct (IH (insert acc e)) as [Hs Hr]; [by apply ord_insert_sorted|].
    split; [done|]. intros a. rewrite Hr. unfold insert.
    rewrite elem_of_oset_insert, elem_of_cons. intuition congruence.
  - destruct (IH acc Hacc) as [Hs Hr]. split; [done|]. intros a. rewrite Hr, elem_of_cons.
    intuition congruence.
Qed.
End oset.
End OrderedSetLattice.

(** ** MapLattice<K, V> ([std::unordered_map]) *)
Module MapLattice.
Section map.
Context {K} `{Countable K} {V : Type} `{Lattice V}.
Implicit Types (m element : gmap K V).

Definition insert_pair element (k : K) (v : V) : gmap K V :=
  match element !! k with
  | Some old => <[k := do_merge old v]> element
  | None => <[k := v]> element
  end.

Definition do_merge_into element m : gmap K V :=
  map_fold (λ k v acc, insert_pair acc k v) element m.

#[global] Instance lattice : Lattice (gmap K V) :=
  {| bot := ∅; do_merge := do_merge_into |}.

Definition size element : Z := u32 (Z.of_nat (stdpp.base.size element)).

Definition contains element (k : K) : bool := bool_decide (is_Some (element !! k)).

(** [at(k)] returns a reference into the map: the value read and the map
    after the read, with a default element where there was none. *)
Definition at_ element (k : K) : V * gmap K V :=
  (map_get bot element k, map_touch bot element k).

Definition insert element (k : K) (v : V) : gmap K V := insert_pair element k v.

Definition remove element (k : K) : gmap K V :=
  match element !! k with Some _ => delete k element | None => element end.

Definition intersect element m : gmap K V :=
  map_fold (λ k v res,
    if contains element k
    then insert_pair (insert_pair res k (map_get bot element k)) k v else res) ∅ m.

Definition project element (f : V → bool) : gmap K V :=
  map_fold (λ k v res, if f v then <[k := v]> res else res) ∅ element.

Definition key_set element : gset K :=
  map_fold (λ k _ res, SetLattice.insert res k) ∅ element.

(** Pointwise reading of a merge. *)
Definition merge_option (o1 o2 : option V) : option V :=
  match o1, o2 with
  | Some x, Some y => Some (do_merge x y)
  | Some x, None => Some x
  | None, o => o
  end.

Lemma lookup_insert_pair m k v j :
  insert_pair m k v !! j = if decide (k = j) then merge_option (m !! j) (Some v) else m !! j.
Proof.
  unfold insert_pair. case_decide as Hkj; [subst|].
  - destruct (m !! j) eqn:Hj; by rewrite lookup_insert_eq.
  - destruct (m !! k); by rewrite lookup_insert_ne.
Qed.

Lemma lookup_do_merge m1 m2 k :
  do_merge m1 m2 !! k = merge_option (m1 !! k) (m2 !! k).
Proof.
  change (do_merge_into m1 m2 !! k = merge_option (m1 !! k) (m2 !! k)).
  revert k. refine (map_fold_weak_ind (λ acc e, ∀ k,
    acc !! k = merge_option (m1 !! k) (e !! k)) _ m1 _ _ m2).
  { intros k. rewrite lookup_empty. by destruct (m1 !! k). }
  intros i v m acc Hi IH k. rewrite lookup_insert_pair, lookup_insert.
  case_decide as Hik; [subst|by rewrite IH].
  rewrite IH, Hi. by destruct (m1 !! k).
Qed.

Context (valid : V → Prop) `{!LatticeLaws V valid}.

#[global] Instance laws : LatticeLaws (gmap K V) (map_Forall (λ _, valid)).
Proof using LatticeLaws0.
  assert (∀ m k v, map_Forall (λ _, valid) m → m !! k = Some v → valid v) as Hval.
  { intros m k v Hm. apply Hm. }
  split.
  - intros x y Hx Hy k v. rewrite lookup_do_merge.
    destruct (x !! k) eqn:Hxk, (y !! k) eqn:Hyk; intros ?; simplify_eq/=; eauto.
    apply merge_valid; eauto.
  - intros x y Hx Hy. apply map_eq. intros k. rewrite !lookup_do_merge.
    destruct (x !! k) eqn:Hxk, (y !! k) eqn:Hyk; simpl; try done.
    f_equal. apply (merge_comm (valid:=valid)); eauto.
  - intros x y z Hx Hy Hz. apply map_eq. intros k. rewrite !lookup_do_merge.
    destruct (x !! k) eqn:Hxk, (y !! k) eqn:Hyk, (z !! k) eqn:Hzk; simpl; try done.
    f_equal. apply (merge_assoc (valid:=valid)); eauto.
  - intros x Hx. apply map_eq. intros k. rewrite lookup_do_merge.
    destruct (x !! k) eqn:Hxk; simpl; [|done].
    f_equal. apply (merge_idemp (valid:=valid)); eauto.
Qed.

Lemma remove_spec m k : remove m k = delete k m.
Proof.
  unfold remove. destruct (m !! k) eqn:Hk; [done|]. by rewrite delete_id.
Qed.

Lemma key_set_spec m : key_set m = dom m.
Proof.
  unfold key_set, SetLattice.insert.
  refine (map_fold_weak_ind (λ acc e, acc = dom e) _ ∅ _ _ m).
  - by rewrite dom_empty_L.
  - intros i v m' acc _ ->. by rewrite dom_insert_L.
Qed.

Lemma lookup_intersect m1 m2 k :
  intersect m1 m2 !! k =
    match m1 !! k, m2 !! k with
    | Some x, Some y => Some (do_merge x y)
    | _, _ => None
    end.
Proof.
  unfold intersect. revert k. refine (map_fold_weak_ind (λ acc e, ∀ k, acc !! k =
    match m1 !! k, e !! k with
    | Some x, Some y => Some (do_merge x y) | _, _ => None end) _ ∅ _ _ m2).
  { intros k. rewrite !lookup_empty. by destruct (m1 !! k). }
  intros i v m acc Hi IH k. unfold contains. case_bool_decide as Hc.
  - destruct Hc as [x Hx]. rewrite !lookup_insert_pair, lookup_insert.
    case_decide; subst; [|by rewrite IH]. rewrite IH, Hi, Hx. simpl.
    unfold map_get. by rewrite Hx.
  - rewrite IH, lookup_insert. case_decide; subst; [|done].
    destruct (m1 !! k) eqn:Hk; [|done]. by destruct Hc.
Qed.
End map.
End MapLattice.

(** ** Convergence of the core lattices *)

(** A vector clock, a map from node to counter merged pointwise by maximum,
    absorbs updates in any order, any number of times, with the same result,
    although [MaxLattice::do_merge] compares through an [int]. *)
Theorem vector_clock_converges (vc : gmap string Z) (us us' : list (gmap string Z)) :
  map_Forall (λ _, is_u32) vc →
  Forall (map_Forall (λ _, is_u32)) us → Forall (map_Forall (λ _, is_u32)) us' →
  (∀ u, u ∈ us ↔ u ∈ us') →
  merge_all vc us = merge_all vc us' ∧
  ∀ n, merge_all vc us !! n =
    foldl (λ o u, match o, u !! n with
                  | Some x, Some y => Some (Z.max x y)
                  | None, o' => o'
                  | o, None => o
                  end) (vc !! n) us.
Proof.
  intros Hvc Hus Hus' Hsame. split.
  { by apply (merge_all_same_set (valid:=map_Forall (λ _, is_u32))). }
  intros n. clear us' Hus' Hsame. revert vc Hvc.
  induction Hus as [|u us Hu Hus IH]; intros vc Hvc; [done|]. simpl. rewrite IH.
  - f_equal. rewrite MapLattice.lookup_do_merge. unfold MapLattice.merge_option.
    destruct (vc !! n) as [x|] eqn:Hx, (u !! n); try done.
    rewrite MaxLattice.do_merge_max; [done|]. by apply (Hvc n).
  - by apply (merge_valid (valid:=map_Forall (λ _, is_u32))).
Qed.

Lemma vector_clock_converges_witness :
  merge_all ({["a" := 1]} : gmap string Z) [{["a" := 3]}; {["b" := 4000000000]}] =
  merge_all ({["a" := 1]} : gmap string Z) [{["b" := 4000000000]}; {["a" := 3]}; {["a" := 3]}].
Proof.
  apply (vector_clock_converges {["a" := 1]} [{["a" := 3]}; {["b" := 4000000000]}]
           [{["b" := 4000000000]}; {["a" := 3]}; {["a" := 3]}]).
  - apply map_Forall_singleton. split; lia.
  - repeat (apply Forall_cons_2; [apply map_Forall_singleton; split; lia|]). apply Forall_nil_2.
  - repeat (apply Forall_cons_2; [apply map_Forall_singleton; split; lia|]). apply Forall_nil_2.
  - intros u. rewrite !elem_of_cons. intuition.
Defined.

(** [MaxLattice] over a 64-bit type is not a maximum: the element is cut to
    an [int] before the comparison, so merging a smaller value can replace a
    larger one. *)
Theorem max_lattice_64_bit_loses (x y : Z) :
  2 ^ 32 ≤ x < 2 ^ 32 + 2 ^ 31 → x - 2 ^ 32 < y < x →
  MaxLattice.do_merge_at u64 x y = y ∧ y < Z.max x y.
Proof.
  intros Hx Hy. unfold MaxLattice.do_merge_at, int32, u64.
  replace ((x + 2 ^ 31) `mod` 2 ^ 32) with (x + 2 ^ 31 - 2 ^ 32).
  2:{ apply (Z.mod_unique_pos _ _ 1); lia. }
  rewrite Z.mod_small by lia. rewrite bool_decide_eq_true_2 by lia. lia.
Qed.

Lemma max_lattice_64_bit_loses_witness :
  MaxLattice.do_merge_at u64 (2 ^ 32 + 5) 6 = 6 ∧ 6 < Z.max (2 ^ 32 + 5) 6.
Proof. apply (max_lattice_64_bit_loses (2 ^ 32 + 5) 6); lia. Defined.

(** The set operations of the core lattices compute intersection and
    filtering of the merged sets, and the key set of a merged map is the union
    of the key sets. *)
Theorem set_and_map_operations (X Y : gset string) (f : string → bool) (m1 m2 : gmap string (gset string)) :
  do_merge X Y = X ∪ Y ∧
  SetLattice.intersect X Y = X ∩ Y ∧
  (∀ e, e ∈ SetLattice.project X f ↔ e ∈ X ∧ f e = true) ∧
  MapLattice.key_set (do_merge m1 m2) = MapLattice.key_set m1 ∪ MapLattice.key_set m2 ∧
  ∀ k, MapLattice.remove m1 k !! k = None.
Proof.
  split_and!.
  - apply SetLattice.do_merge_union.
  - apply SetLattice.intersect_spec.
  - intros e. rewrite SetLattice.project_spec, elem_of_filter. intuition.
  - rewrite !MapLattice.key_set_spec. apply set_eq. intros k.
    rewrite elem_of_union, !elem_of_dom, MapLattice.lookup_do_merge. unfold is_Some.
    destruct (m1 !! k), (m2 !! k); simpl; naive_solver.
  - intros k. rewrite MapLattice.remove_spec. apply lookup_delete_eq.
Qed.
