(* ===== verification/ValueLattices.v ===== *)
(** The lattices a key's value can be stored as, built on the core lattices:
    last-writer-wins pairs (lww_pair_lattice.hpp), priority pairs
    (priority_lattice.hpp) and the two causal lattices
    (single_key_causal_lattice.hpp, multi_key_causal_lattice.hpp). *)

From S2P Require Import Prelude Ordered Lattices.
From Stdlib Require Import Lia SpecFloat.

(** ** LWWPairLattice<T> *)
Module LWWPairLattice.
Record TimestampValuePair (T : Type) := mkTVP { timestamp : Z; value : T }.
Arguments mkTVP {T} _ _.
Arguments timestamp {T} _.
Arguments value {T} _.

Section lww.
Context {T : Type} {dT : Inhabited T}.
Implicit Types p element : TimestampValuePair T.

Definition do_merge_into element p : TimestampValuePair T :=
  if bool_decide (timestamp p >= timestamp element)
  then mkTVP (timestamp p) (value p) else element.

(** [T()] of a value type is its default element; for [string] it is the
    empty string. *)
#[global] Instance lattice : Lattice (TimestampValuePair T) :=
  {| bot := mkTVP 0 inhabitant; do_merge := do_merge_into |}.

Lemma do_merge_cases element p :
  do_merge element p = if bool_decide (timestamp element ≤ timestamp p) then p else element.
Proof.
  change (do_merge element p) with (do_merge_into element p). unfold do_merge_into.
  destruct p; simpl. by repeat case_bool_decide; try lia.
Qed.

(** A history in which a timestamp identifies the value written with it. *)
Definition written (wr : Z → T) p : Prop := value p = wr (timestamp p).

#[global] Instance laws (wr : Z → T) : LatticeLaws (TimestampValuePair T) (written wr).
Proof.
  assert (∀ p q, written wr p → written wr q → timestamp p = timestamp q → p = q) as Heq.
  { intros [t1 v1] [t2 v2]. unfold written. simpl. intros -> -> ->. done. }
  split; intros; rewrite !do_merge_cases;
    repeat case_bool_decide; auto; try (apply Heq; done || lia); lia.
Qed.

(** Merging is associative and idempotent whatever the timestamps. *)
Lemma do_merge_assoc x y z : do_merge x (do_merge y z) = do_merge (do_merge x y) z.
Proof. rewrite !do_merge_cases. repeat case_bool_decide; auto; lia. Qed.

Lemma do_merge_idemp x : do_merge x x = x.
Proof. rewrite do_merge_cases. by case_bool_decide. Qed.

Lemma do_merge_bot x : 0 ≤ timestamp x → do_merge bot x = x.
Proof. intros. rewrite do_merge_cases. by case_bool_decide. Qed.
End lww.

(** [unsigned size()] at [T = string]: the value's bytes and an
    [unsigned long long]. *)
Definition size (p : TimestampValuePair string) : Z :=
  u32 (Z.of_nat (String.length (value p)) + 8).
End LWWPairLattice.

(** ** PriorityLattice<P, V, Compare> *)
Module PriorityLattice.
Record PriorityValuePair (P V : Type) := mkPVP { priority : P; value : V }.
Arguments mkPVP {P V} _ _.
Arguments priority {P V} _.
Arguments value {P V} _.

Section priority.
(** [compare] is [Compare]; [top] is [INT_MAX] converted to [P]. *)
Context {P V : Type} {dV : Inhabited V} (compare : P → P → bool) (top : P).
Implicit Types p element : PriorityValuePair P V.

Definition do_merge_into element p : PriorityValuePair P V :=
  if compare (priority p) (priority element) then p else element.

Definition lattice : Lattice (PriorityValuePair P V) :=
  {| bot := mkPVP top inhabitant; do_merge := do_merge_into |}.
End priority.

Section laws.
Context {P V : Type} `{StrictTotal P} {dV : Inhabited V} (top : P) (wr : P → V).

(** With a strict total order on priorities and one value per priority the
    lowest priority wins on every replica. *)
Lemma laws :
  @LatticeLaws _ (lattice ltb top) (λ p : PriorityValuePair P V, value p = wr (priority p)).
Proof.
  assert (∀ p q : PriorityValuePair P V, value p = wr (priority p) → value q = wr (priority q) →
    ltb (priority p) (priority q) = false → ltb (priority q) (priority p) = false → p = q) as Heq.
  { intros [p1 v1] [p2 v2]; simpl. intros -> -> H1 H2. by rewrite (ltb_total _ _ H1 H2). }
  split; unfold do_merge; cbn [lattice]; unfold do_merge_into.
  - intros x y. by destruct (ltb (priority y) (priority x)).
  - intros x y Hx Hy.
    destruct (ltb (priority y) (priority x)) eqn:Hyx, (ltb (priority x) (priority y)) eqn:Hxy; auto.
    pose proof (ltb_trans _ _ _ Hxy Hyx) as Hc. by rewrite ltb_irrefl in Hc.
  - intros x y z Hx Hy Hz.
    destruct (ltb (priority z) (priority y)) eqn:Hzy, (ltb (priority y) (priority x)) eqn:Hyx;
      rewrite ?Hyx, ?Hzy; try done.
    + by rewrite (ltb_trans _ _ _ Hzy Hyx).
    + destruct (ltb (priority z) (priority x)) eqn:Hzx; [|done].
      destruct (ltb (priority x) (priority y)) eqn:Hxy.
      * pose proof (ltb_trans _ _ _ Hzx Hxy). congruence.
      * rewrite (ltb_total _ _ Hxy Hyx) in Hzx. congruence.
  - intros x _. by rewrite ltb_irrefl.
Qed.
End laws.

(** *** The instance in use: [PriorityLattice<double, string>]

    [double] is IEEE binary64, [std::less<double>] its [<]. *)
Definition double_lt : spec_float → spec_float → bool := SFltb.
Definition double_of_int (n : Z) : spec_float := binary_normalize 53 1024 n 0 false.
Definition double_INT_MAX : spec_float := double_of_int INT_MAX.

#[global] Instance double_lattice : Lattice (PriorityValuePair spec_float string) :=
  lattice double_lt double_INT_MAX.

Definition size (p : PriorityValuePair spec_float string) : Z :=
  u32 (8 + Z.of_nat (String.length (value p))).
End PriorityLattice.

(** ** Vector clocks: [MapLattice<string, MaxLattice<unsigned>>] *)
Abbreviation VectorClock := (gmap string Z).
Definition vc_valid : VectorClock → Prop := map_Forall (λ _, is_u32).

#[global] Instance vc_laws : LatticeLaws VectorClock vc_valid := MapLattice.laws is_u32.

Definition vc_le (a b : VectorClock) : Prop := do_merge a b = b.
#[global] Instance vc_le_dec : RelDecision vc_le := λ a b, decide (do_merge a b = b).

(** ** SingleKeyCausalLattice<T> *)
Module SingleKeyCausalLattice.
Record VectorClockValuePair (T : Type) := mkVCV { vector_clock : VectorClock; value : T }.
Arguments mkVCV {T} _ _.
Arguments vector_clock {T} _.
Arguments value {T} _.

Section causal.
Context {T : Type} `{Lattice T}.
Implicit Types p element : VectorClockValuePair T.

Definition do_merge_into element p : VectorClockValuePair T :=
  let prev := vector_clock element in
  let vc := do_merge (vector_clock element) (vector_clock p) in
  if bool_decide (vc = vector_clock p) then mkVCV vc (value p)
  else if negb (bool_decide (vc = prev)) then mkVCV vc (do_merge (value element) (value p))
  else mkVCV vc (value element).

#[global] Instance lattice : Lattice (VectorClockValuePair T) :=
  {| bot := mkVCV bot bot; do_merge := do_merge_into |}.

Lemma do_merge_eq element p : do_merge element p = do_merge_into element p.
Proof. done. Qed.

Definition valid p : Prop := vc_valid (vector_clock p).

(** The incoming version dominates: it replaces the stored one. *)
Lemma merge_dominated element p :
  vc_le (vector_clock element) (vector_clock p) → do_merge element p = p.
Proof.
  unfold vc_le. intros Hle. rewrite do_merge_eq. unfold do_merge_into. rewrite Hle.
  rewrite bool_decide_eq_true_2 by done. by destruct p.
Qed.

(** The stored version strictly dominates: the incoming one is dropped. *)
Lemma merge_dominates element p :
  valid element → valid p → vc_le (vector_clock p) (vector_clock element) →
  vector_clock p ≠ vector_clock element → do_merge element p = element.
Proof.
  unfold vc_le, valid. intros Hv Hp Hle Hne. rewrite do_merge_eq. unfold do_merge_into.
  rewrite (merge_comm (valid:=vc_valid) (vector_clock element)) by done. rewrite Hle.
  rewrite bool_decide_eq_false_2 by done. rewrite bool_decide_eq_true_2 by done.
  by destruct element.
Qed.

(** Neither dominates: the clocks are joined and the values merged. *)
Lemma merge_concurrent element p :
  valid element → valid p → ¬ vc_le (vector_clock element) (vector_clock p) →
  ¬ vc_le (vector_clock p) (vector_clock element) →
  do_merge element p = mkVCV (do_merge (vector_clock element) (vector_clock p))
                             (do_merge (value element) (value p)).
Proof.
  unfold vc_le, valid. intros Hv Hp Hn1 Hn2. rewrite do_merge_eq. unfold do_merge_into.
  rewrite bool_decide_eq_false_2 by done. rewrite bool_decide_eq_false_2; [done|].
  by rewrite (merge_comm (valid:=vc_valid)).
Qed.

Lemma merge_clock element p :
  vector_clock (do_merge element p) = do_merge (vector_clock element) (vector_clock p).
Proof. rewrite do_merge_eq. unfold do_merge_into. by repeat case_bool_decide. Qed.

Lemma merge_idem element : valid element → do_merge element element = element.
Proof. intros. apply merge_dominated. unfold vc_le. by apply (merge_idemp (valid:=vc_valid)). Qed.
End causal.

Definition size (p : VectorClockValuePair (gset string)) : Z :=
  u32 (MapLattice.size (vector_clock p) * 2 * 4 + SetLattice.size (value p)).
End SingleKeyCausalLattice.

(** ** MultiKeyCausalLattice<T> *)
Module MultiKeyCausalLattice.
Record MultiKeyCausalPayload (T : Type) := mkMKC {
  vector_clock : VectorClock;
  dependencies : gmap Key VectorClock;
  value : T;
}.
Arguments mkMKC {T} _ _ _.
Arguments vector_clock {T} _.
Arguments dependencies {T} _.
Arguments value {T} _.

Section causal.
Context {T : Type} `{Lattice T}.
Implicit Types p element : MultiKeyCausalPayload T.

Definition do_merge_into element p : MultiKeyCausalPayload T :=
  let prev := vector_clock element in
  let vc := do_merge (vector_clock element) (vector_clock p) in
  if bool_decide (vc = vector_clock p) then
    mkMKC vc (dependencies p) (value p)
  else if negb (bool_decide (vc = prev)) then
    mkMKC vc (do_merge (dependencies element) (dependencies p))
          (do_merge (value element) (value p))
  else mkMKC vc (dependencies element) (value element).

#[global] Instance lattice : Lattice (MultiKeyCausalPayload T) :=
  {| bot := mkMKC bot bot bot; do_merge := do_merge_into |}.

Lemma mk_do_merge_eq element p : do_merge element p = do_merge_into element p.
Proof. done. Qed.

Definition valid p : Prop := vc_valid (vector_clock p).

Lemma mk_merge_dominated element p :
  vc_le (vector_clock element) (vector_clock p) → do_merge element p = p.
Proof.
  unfold vc_le. intros Hle. rewrite mk_do_merge_eq. unfold do_merge_into. rewrite Hle.
  rewrite bool_decide_eq_true_2 by done. by destruct p.
Qed.

Lemma mk_merge_dominates element p :
  valid element → valid p → vc_le (vector_clock p) (vector_clock element) →
  vector_clock p ≠ vector_clock element → do_merge element p = element.
Proof.
  unfold vc_le, valid. intros Hv Hp Hle Hne. rewrite mk_do_merge_eq. unfold do_merge_into.
  rewrite (merge_comm (valid:=vc_valid) (vector_clock element)) by done. rewrite Hle.
  rewrite bool_decide_eq_false_2 by done. rewrite bool_decide_eq_true_2 by done.
  by destruct element.
Qed.

Lemma mk_merge_concurrent element p :
  valid element → valid p → ¬ vc_le (vector_clock element) (vector_clock p) →
  ¬ vc_le (vector_clock p) (vector_clock element) →
  do_merge element p = mkMKC (do_merge (vector_clock element) (vector_clock p))
                             (do_merge (dependencies element) (dependencies p))
                             (do_merge (value element) (value p)).
Proof.
  unfold vc_le, valid. intros Hv Hp Hn1 Hn2. rewrite mk_do_merge_eq. unfold do_merge_into.
  rewrite bool_decide_eq_false_2 by done. rewrite bool_decide_eq_false_2; [done|].
  by rewrite (merge_comm (valid:=vc_valid)).
Qed.

Lemma mk_merge_clock element p :
  vector_clock (do_merge element p) = do_merge (vector_clock element) (vector_clock p).
Proof. rewrite mk_do_merge_eq. unfold do_merge_into. by repeat case_bool_decide. Qed.
End causal.

Definition size (p : MultiKeyCausalPayload (gset string)) : Z :=
  let dep_size := map_fold (λ k vc acc,
    u32 (u32 (acc + Z.of_nat (String.length k)) + MapLattice.size vc * 2 * 4)) 0 (dependencies p) in
  u32 (MapLattice.size (vector_clock p) * 2 * 4 + dep_size + SetLattice.size (value p)).
End MultiKeyCausalLattice.

(** ** When the value lattices are lattices *)

(** Merging two last-writer-wins values commutes exactly when their
    timestamps differ or their values are equal; with two values under one
    timestamp the last one merged stays, so replicas can disagree. *)
Theorem lww_merge_commutes_iff (p q : LWWPairLattice.TimestampValuePair string) :
  do_merge p q = do_merge q p ↔
  (LWWPairLattice.timestamp p ≠ LWWPairLattice.timestamp q ∨
   LWWPairLattice.value p = LWWPairLattice.value q).
Proof.
  rewrite !LWWPairLattice.do_merge_cases. destruct p as [t v], q as [t' v']. simpl.
  destruct (decide (t = t')) as [-> | Hne]; [|split; [by left|intros _]].
  - rewrite !bool_decide_eq_true_2 by lia. split; [intros [=]; by right|].
    by intros [Hne | ->].
  - destruct (decide (t ≤ t')).
    + rewrite bool_decide_eq_true_2, bool_decide_eq_false_2 by lia. done.
    + rewrite bool_decide_eq_false_2, bool_decide_eq_true_2 by lia. done.
Qed.

(** Merging a causal value, single or multi key: a dominating version
    replaces the stored one, a dominated one is dropped, and concurrent versions
    are joined, clock, dependencies and value set; the clock is always the join
    of the clocks. *)
Theorem causal_merge_cases (x y : SingleKeyCausalLattice.VectorClockValuePair (gset string))
    (m n : MultiKeyCausalLattice.MultiKeyCausalPayload (gset string)) :
  SingleKeyCausalLattice.valid x → SingleKeyCausalLattice.valid y →
  MultiKeyCausalLattice.valid m → MultiKeyCausalLattice.valid n →
  (let '(a, b) := (SingleKeyCausalLattice.vector_clock x, SingleKeyCausalLattice.vector_clock y) in
   SingleKeyCausalLattice.vector_clock (do_merge x y) = do_merge a b ∧
   (vc_le a b → do_merge x y = y) ∧
   (vc_le b a → b ≠ a → do_merge x y = x) ∧
   (¬ vc_le a b → ¬ vc_le b a →
      SingleKeyCausalLattice.value (do_merge x y) =
        SingleKeyCausalLattice.value x ∪ SingleKeyCausalLattice.value y)) ∧
  (let '(a, b) := (MultiKeyCausalLattice.vector_clock m, MultiKeyCausalLattice.vector_clock n) in
   MultiKeyCausalLattice.vector_clock (do_merge m n) = do_merge a b ∧
   (vc_le a b → do_merge m n = n) ∧
   (vc_le b a → b ≠ a → do_merge m n = m) ∧
   (¬ vc_le a b → ¬ vc_le b a →
      MultiKeyCausalLattice.dependencies (do_merge m n) =
        do_merge (MultiKeyCausalLattice.dependencies m) (MultiKeyCausalLattice.dependencies n) ∧
      MultiKeyCausalLattice.value (do_merge m n) =
        MultiKeyCausalLattice.value m ∪ MultiKeyCausalLattice.value n)).
Proof.
  intros Hx Hy Hm Hn. split; split_and!.
  - apply SingleKeyCausalLattice.merge_clock.
  - apply SingleKeyCausalLattice.merge_dominated.
  - intros Hle Hne. by apply SingleKeyCausalLattice.merge_dominates.
  - intros H1 H2. rewrite SingleKeyCausalLattice.merge_concurrent by done. simpl.
    by rewrite SetLattice.do_merge_union.
  - apply MultiKeyCausalLattice.mk_merge_clock.
  - apply MultiKeyCausalLattice.mk_merge_dominated.
  - intros Hle Hne. by apply MultiKeyCausalLattice.mk_merge_dominates.
  - intros H1 H2. rewrite MultiKeyCausalLattice.mk_merge_concurrent by done. simpl.
    by rewrite SetLattice.do_merge_union.
Qed.

Lemma causal_merge_cases_witness :
  let x := SingleKeyCausalLattice.mkVCV ({["a" := 1]} : VectorClock) ({["v"]} : gset string) in
  let y := SingleKeyCausalLattice.mkVCV ({["b" := 1]} : VectorClock) ({["w"]} : gset string) in
  SingleKeyCausalLattice.value (do_merge x y) = {["v"]} ∪ {["w"]}.
Proof.
  intros x y. assert (vc_valid {["a" := 1]} ∧ vc_valid {["b" := 1]}) as [Ha Hb].
  { split; apply map_Forall_singleton; split; lia. }
  destruct (causal_merge_cases x y (MultiKeyCausalLattice.mkMKC ∅ ∅ ∅) (MultiKeyCausalLattice.mkMKC ∅ ∅ ∅))
    as [[_ (_ & _ & Hjoin)] _]; [done|done|apply map_Forall_empty..|]. apply Hjoin.
  - intros Heq%(f_equal (λ m : VectorClock, m !! "a")). vm_compute in Heq. discriminate.
  - intros Heq%(f_equal (λ m : VectorClock, m !! "b")). vm_compute in Heq. discriminate.
Defined.

(** Three writes: [a] and [b] concurrent, [d] a successor of [a] alone. *)
Definition write_a : SingleKeyCausalLattice.VectorClockValuePair (gset string) :=
  SingleKeyCausalLattice.mkVCV {["x" := 1]} {["A"]}.
Definition write_b : SingleKeyCausalLattice.VectorClockValuePair (gset string) :=
  SingleKeyCausalLattice.mkVCV {["y" := 1]} {["B"]}.
Definition write_d : SingleKeyCausalLattice.VectorClockValuePair (gset string) :=
  SingleKeyCausalLattice.mkVCV {["x" := 2]} {["D"]}.

(** The causal lattice is not associative, so replicas can diverge: a
    replica that sees [a], [b], [d] in this order keeps the overwritten value
    "A", one that sees [a], [d], [b] does not, and both have the same clock. *)
Theorem causal_merge_order_matters :
  let r1 := merge_all write_a [write_b; write_d] in
  let r2 := merge_all write_a [write_d; write_b] in
  SingleKeyCausalLattice.vector_clock r1 = SingleKeyCausalLattice.vector_clock r2 ∧
  SingleKeyCausalLattice.value r1 = {["A"; "B"; "D"]} ∧
  SingleKeyCausalLattice.value r2 = {["B"; "D"]}.
Proof. split_and!; vm_compute; reflexivity. Qed.
