(* ===== verification/Wire.v ===== *)
(** Messages and their encoding.

    The message types are generated from common/proto/anna.proto,
    common/proto/shared.proto, include/proto/metadata.proto and
    include/proto/benchmark.proto; the encoder is
    Google's protobuf library.  The types are records with the fields of the
    [.proto] files; the encoder is a parameter, the class [Proto]. *)

From S2P Require Import Prelude.
From Stdlib Require Import Ascii Lia SpecFloat.

(** ** Enumerations *)

Inductive RequestType := RT_UNSPECIFIED | GET | PUT.

Inductive LatticeType :=
  | NONE | LWW | SET | SINGLE_CAUSAL | MULTI_CAUSAL | ORDERED_SET | PRIORITY.

Inductive AnnaError :=
  | NO_ERROR | KEY_DNE | WRONG_THREAD | TIMEOUT | LATTICE | NO_SERVERS.

Inductive Tier := TIER_UNSPECIFIED | MEMORY | DISK | ROUTING.

#[export] Instance RequestType_eq_dec : EqDecision RequestType.
Proof. solve_decision. Defined.
#[export] Instance LatticeType_eq_dec : EqDecision LatticeType.
Proof. solve_decision. Defined.
#[export] Instance AnnaError_eq_dec : EqDecision AnnaError.
Proof. solve_decision. Defined.
#[export] Instance Tier_eq_dec : EqDecision Tier.
Proof. solve_decision. Defined.

Definition RequestType_num (t : RequestType) : nat :=
  match t with RT_UNSPECIFIED => 0 | GET => 1 | PUT => 2 end.
Definition LatticeType_num (t : LatticeType) : nat :=
  match t with
  | NONE => 0 | LWW => 1 | SET => 2 | SINGLE_CAUSAL => 3 | MULTI_CAUSAL => 4
  | ORDERED_SET => 5 | PRIORITY => 6
  end.
Definition AnnaError_num (e : AnnaError) : nat :=
  match e with
  | NO_ERROR => 0 | KEY_DNE => 1 | WRONG_THREAD => 2 | TIMEOUT => 3 | LATTICE => 4
  | NO_SERVERS => 5
  end.
Definition Tier_num (t : Tier) : nat :=
  match t with TIER_UNSPECIFIED => 0 | MEMORY => 1 | DISK => 2 | ROUTING => 3 end.

#[export] Instance RequestType_countable : Countable RequestType.
Proof.
  refine (inj_countable' RequestType_num
    (λ n, match n with 1 => GET | 2 => PUT | _ => RT_UNSPECIFIED end%nat) _).
  by intros [].
Defined.
#[export] Instance LatticeType_countable : Countable LatticeType.
Proof.
  refine (inj_countable' LatticeType_num
    (λ n, match n with 1 => LWW | 2 => SET | 3 => SINGLE_CAUSAL | 4 => MULTI_CAUSAL
          | 5 => ORDERED_SET | 6 => PRIORITY | _ => NONE end%nat) _).
  by intros [].
Defined.
#[export] Instance AnnaError_countable : Countable AnnaError.
Proof.
  refine (inj_countable' AnnaError_num
    (λ n, match n with 1 => KEY_DNE | 2 => WRONG_THREAD | 3 => TIMEOUT | 4 => LATTICE
          | 5 => NO_SERVERS | _ => NO_ERROR end%nat) _).
  by intros [].
Defined.
#[export] Instance Tier_countable : Countable Tier.
Proof.
  refine (inj_countable' Tier_num
    (λ n, match n with 1 => MEMORY | 2 => DISK | 3 => ROUTING | _ => TIER_UNSPECIFIED end%nat) _).
  by intros [].
Defined.

(** The generated [Tier_Name] and [Tier_Parse]. *)
Definition Tier_Name (t : Tier) : string :=
  match t with
  | TIER_UNSPECIFIED => "TIER_UNSPECIFIED" | MEMORY => "MEMORY" | DISK => "DISK"
  | ROUTING => "ROUTING"
  end.
Definition Tier_Parse (s : string) : option Tier :=
  if bool_decide (s = "TIER_UNSPECIFIED") then Some TIER_UNSPECIFIED
  else if bool_decide (s = "MEMORY") then Some MEMORY
  else if bool_decide (s = "DISK") then Some DISK
  else if bool_decide (s = "ROUTING") then Some ROUTING
  else None.

Lemma Tier_Parse_Name t : Tier_Parse (Tier_Name t) = Some t.
Proof. by destruct t. Qed.

(** ** Messages of anna.proto *)

Module KeyTuple.
Record t := mk {
  key : Key;
  lattice_type : LatticeType;
  error : AnnaError;
  payload : string;
  address_cache_size : Z;
  invalidate : bool;
}.
Definition empty : t := mk "" NONE NO_ERROR "" 0 false.
Definition set_key (k : Key) (m : t) : t :=
  mk k (lattice_type m) (error m) (payload m) (address_cache_size m) (invalidate m).
Definition set_lattice_type (l : LatticeType) (m : t) : t :=
  mk (key m) l (error m) (payload m) (address_cache_size m) (invalidate m).
Definition set_error (e : AnnaError) (m : t) : t :=
  mk (key m) (lattice_type m) e (payload m) (address_cache_size m) (invalidate m).
Definition set_payload (p : string) (m : t) : t :=
  mk (key m) (lattice_type m) (error m) p (address_cache_size m) (invalidate m).
Definition set_address_cache_size (n : Z) (m : t) : t :=
  mk (key m) (lattice_type m) (error m) (payload m) n (invalidate m).
Definition set_invalidate (b : bool) (m : t) : t :=
  mk (key m) (lattice_type m) (error m) (payload m) (address_cache_size m) b.
End KeyTuple.

Module KeyRequest.
Record t := mk {
  type : RequestType;
  tuples : list KeyTuple.t;
  response_address : Address;
  request_id : string;
}.
Definition empty : t := mk RT_UNSPECIFIED [] "" "".
Definition set_type (ty : RequestType) (m : t) : t :=
  mk ty (tuples m) (response_address m) (request_id m).
Definition add_tuple (tp : KeyTuple.t) (m : t) : t :=
  mk (type m) (tuples m ++ [tp]) (response_address m) (request_id m).
Definition set_response_address (a : Address) (m : t) : t :=
  mk (type m) (tuples m) a (request_id m).
Definition set_request_id (i : string) (m : t) : t :=
  mk (type m) (tuples m) (response_address m) i.
End KeyRequest.

Module KeyResponse.
Record t := mk {
  type : RequestType;
  tuples : list KeyTuple.t;
  response_id : string;
  error : AnnaError;
}.
Definition empty : t := mk RT_UNSPECIFIED [] "" NO_ERROR.
Definition add_tuple (tp : KeyTuple.t) (m : t) : t :=
  mk (type m) (tuples m ++ [tp]) (response_id m) (error m).
End KeyResponse.

Module KeyAddressRequest.
Record t := mk { response_address : Address; keys : list Key; request_id : string }.
End KeyAddressRequest.

Module KeyAddress.
Record t := mk { key : Key; ips : list Address }.
End KeyAddress.

Module KeyAddressResponse.
Record t := mk { addresses : list KeyAddress.t; error : AnnaError; response_id : string }.
End KeyAddressResponse.

Module LWWValue.
Record t := mk { timestamp : Z; value : string }.
Definition empty : t := mk 0 "".
End LWWValue.

Module SetValue.
Record t := mk { values : list string }.
Definition empty : t := mk [].
End SetValue.

Module SingleKeyCausalValue.
Record t := mk { vector_clock : gmap string Z; values : list string }.
Definition empty : t := mk ∅ [].
End SingleKeyCausalValue.

Module KeyVersion.
Record t := mk { key : Key; vector_clock : gmap string Z }.
End KeyVersion.

Module MultiKeyCausalValue.
Record t := mk {
  vector_clock : gmap string Z;
  dependencies : list KeyVersion.t;
  values : list string;
}.
Definition empty : t := mk ∅ [] [].
End MultiKeyCausalValue.

Module PriorityValue.
Record t := mk { priority : spec_float; value : string }.
Definition empty : t := mk (S754_zero false) "".
End PriorityValue.

Module StringSet.
Record t := mk { keys : list string }.
Definition empty : t := mk [].
End StringSet.

(** ** Messages of metadata.proto *)

Module ReplicationValue.
Record t := mk { tier : Tier; value : Z }.
End ReplicationValue.

Module ReplicationFactor.
Record t := mk {
  key : Key;
  global : list ReplicationValue.t;
  local : list ReplicationValue.t;
}.
Definition empty : t := mk "" [] [].
End ReplicationFactor.

Module ReplicationFactorUpdate.
Record t := mk { updates : list ReplicationFactor.t }.
Definition empty : t := mk [].
End ReplicationFactorUpdate.

Module Server.
Record t := mk { public_ip : Address; private_ip : Address }.
End Server.
Module TierMembership.
Record t := mk { tier_id : Tier; servers : list Server.t }.
End TierMembership.
Module ClusterMembership.
Record t := mk { tiers : list TierMembership.t }.
End ClusterMembership.

Module ServerThreadStatistics.
Record t := mk { storage_consumption : Z; occupancy : spec_float; epoch : Z; access_count : Z }.
End ServerThreadStatistics.

Module KeyAccessData.
Record t := mk { keys : list (Key * Z) }.
End KeyAccessData.

Module KeySizeData.
Record t := mk { key_sizes : list (Key * Z) }.
End KeySizeData.

(** ** Messages of benchmark.proto *)

Module UserFeedback.
Record t := mk {
  uid : string;
  latency : spec_float;
  finish : bool;
  throughput : spec_float;
  warmup : bool;
  key_latency : list (Key * spec_float);
}.
Definition empty : t := mk "" (S754_zero false) false (S754_zero false) false [].
End UserFeedback.

(** ** The encoder

    [ParseFromString] fills the message and returns whether the input was well
    formed; most callers ignore that result and go on with what was filled. *)
Class Proto (A : Type) := {
  SerializeToString : A → string;
  ParseFromString : string → bool * A;
}.

Definition parse {A} `{Proto A} (s : string) : A := snd (ParseFromString s).

(** What the library documents: a message it can carry ([carries]: its
    [string] fields are UTF-8, its size is below the limit) is read back as it
    was written; the encoding of a message with every field at its default is
    the empty string, so the empty input parses to that message. *)
Class ProtoLaws (A : Type) `{Proto A} (carries : A → Prop) (empty : A) : Prop := {
  parse_serialize m : carries m → ParseFromString (SerializeToString m) = (true, m);
  parse_nothing : ParseFromString "" = (true, empty);
}.

Lemma parse_serialize' {A} `{ProtoLaws A carries dflt} (m : A) :
  carries m → parse (SerializeToString m) = m.
Proof. intros. unfold parse. by rewrite parse_serialize. Qed.

(** All message types together, as the code links them. *)
Class Protobuf := {
  #[global] proto_KeyRequest :: Proto KeyRequest.t;
  #[global] proto_KeyResponse :: Proto KeyResponse.t;
  #[global] proto_KeyAddressRequest :: Proto KeyAddressRequest.t;
  #[global] proto_KeyAddressResponse :: Proto KeyAddressResponse.t;
  #[global] proto_LWWValue :: Proto LWWValue.t;
  #[global] proto_SetValue :: Proto SetValue.t;
  #[global] proto_SingleKeyCausalValue :: Proto SingleKeyCausalValue.t;
  #[global] proto_MultiKeyCausalValue :: Proto MultiKeyCausalValue.t;
  #[global] proto_PriorityValue :: Proto PriorityValue.t;
  #[global] proto_StringSet :: Proto StringSet.t;
  #[global] proto_ReplicationFactor :: Proto ReplicationFactor.t;
  #[global] proto_ReplicationFactorUpdate :: Proto ReplicationFactorUpdate.t;
  #[global] proto_ClusterMembership :: Proto ClusterMembership.t;
  #[global] proto_ServerThreadStatistics :: Proto ServerThreadStatistics.t;
  #[global] proto_KeyAccessData :: Proto KeyAccessData.t;
  #[global] proto_KeySizeData :: Proto KeySizeData.t;
  #[global] proto_UserFeedback :: Proto UserFeedback.t;
}.

(** ** A concrete encoder

    Any countable message type has an encoder that satisfies [ProtoLaws]: the
    bits of the message's number.  It is used where a theorem about the
    protobuf library is applied to concrete messages. *)
Module BitCodec.
Fixpoint bits (p : positive) : string :=
  match p with
  | xH => "."
  | xO p => String "0" (bits p)
  | xI p => String "1" (bits p)
  end.

Fixpoint unbits (s : string) : option positive :=
  match s with
  | String "." EmptyString => Some xH
  | String "0" s => xO <$> unbits s
  | String "1" s => xI <$> unbits s
  | _ => None
  end.

Lemma unbits_bits p : unbits (bits p) = Some p.
Proof. induction p as [p IH|p IH|]; simpl; by rewrite ?IH. Qed.

Lemma bits_nonempty p : bits p ≠ "".
Proof. by destruct p. Qed.

Section codec.
Context {A} `{Countable A} (empty : A).

Definition ser (m : A) : string := if decide (m = empty) then "" else bits (encode m).
Definition par (s : string) : bool * A :=
  if decide (s = "") then (true, empty)
  else match unbits s ≫= decode with Some m => (true, m) | None => (false, empty) end.

Definition codec : Proto A := {| SerializeToString := ser; ParseFromString := par |}.

Lemma codec_laws : @ProtoLaws A codec (λ _, True) empty.
Proof.
  split; simpl; [|done]. intros m _. unfold ser, par.
  destruct (decide (m = empty)) as [->|Hne]; [done|].
  rewrite decide_False by apply bits_nonempty.
  rewrite unbits_bits. simpl. by rewrite decode_encode.
Qed.
End codec.
End BitCodec.
