(* ===== verification/WireCodec.v ===== *)
(** The concrete encoder of Wire.v at every message type: the messages are
    countable, so [bit_protobuf] is a [Protobuf] that satisfies [ProtoLaws].
    It instantiates the encoder where a theorem is applied to concrete
    messages. *)

From S2P Require Import Prelude Wire.
From Stdlib Require Import SpecFloat.

#[export] Instance spec_float_eq_dec : EqDecision spec_float.
Proof. solve_decision. Defined.

#[export] Instance spec_float_countable : Countable spec_float.
Proof.
  refine (inj_countable'
    (λ x, match x with
          | S754_zero b => (0%nat, b, 1%positive, 0)
          | S754_infinity b => (1%nat, b, 1%positive, 0)
          | S754_nan => (2%nat, false, 1%positive, 0)
          | S754_finite b m e => (3%nat, b, m, e)
          end)
    (λ '(n, b, m, e), match n with
          | 0 => S754_zero b | 1 => S754_infinity b | 2 => S754_nan
          | _ => S754_finite b m e
          end%nat) _).
  by intros [].
Defined.

#[export] Instance KeyTuple_eq_dec : EqDecision KeyTuple.t.
Proof. solve_decision. Defined.
#[export] Instance KeyTuple_countable : Countable KeyTuple.t.
Proof. refine (inj_countable' (λ m, (KeyTuple.key m, KeyTuple.lattice_type m, KeyTuple.error m, KeyTuple.payload m, KeyTuple.address_cache_size m, KeyTuple.invalidate m))
  (λ '(x0, x1, x2, x3, x4, x5), KeyTuple.mk x0 x1 x2 x3 x4 x5) _). by intros []. Defined.

#[export] Instance KeyRequest_eq_dec : EqDecision KeyRequest.t.
Proof. solve_decision. Defined.
#[export] Instance KeyRequest_countable : Countable KeyRequest.t.
Proof. refine (inj_countable' (λ m, (KeyRequest.type m, KeyRequest.tuples m, KeyRequest.response_address m, KeyRequest.request_id m))
  (λ '(x0, x1, x2, x3), KeyRequest.mk x0 x1 x2 x3) _). by intros []. Defined.

#[export] Instance KeyResponse_eq_dec : EqDecision KeyResponse.t.
Proof. solve_decision. Defined.
#[export] Instance KeyResponse_countable : Countable KeyResponse.t.
Proof. refine (inj_countable' (λ m, (KeyResponse.type m, KeyResponse.tuples m, KeyResponse.response_id m, KeyResponse.error m))
  (λ '(x0, x1, x2, x3), KeyResponse.mk x0 x1 x2 x3) _). by intros []. Defined.

#[export] Instance KeyAddressRequest_eq_dec : EqDecision KeyAddressRequest.t.
Proof. solve_decision. Defined.
#[export] Instance KeyAddressRequest_countable : Countable KeyAddressRequest.t.
Proof. refine (inj_countable' (λ m, (KeyAddressRequest.response_address m, KeyAddressRequest.keys m, KeyAddressRequest.request_id m))
  (λ '(x0, x1, x2), KeyAddressRequest.mk x0 x1 x2) _). by intros []. Defined.

#[export] Instance KeyAddress_eq_dec : EqDecision KeyAddress.t.
Proof. solve_decision. Defined.
#[export] Instance KeyAddress_countable : Countable KeyAddress.t.
Proof. refine (inj_countable' (λ m, (KeyAddress.key m, KeyAddress.ips m))
  (λ '(x0, x1), KeyAddress.mk x0 x1) _). by intros []. Defined.

#[export] Instance KeyAddressResponse_eq_dec : EqDecision KeyAddressResponse.t.
Proof. solve_decision. Defined.
#[export] Instance KeyAddressResponse_countable : Countable KeyAddressResponse.t.
Proof. refine (inj_countable' (λ m, (KeyAddressResponse.addresses m, KeyAddressResponse.error m, KeyAddressResponse.response_id m))
  (λ '(x0, x1, x2), KeyAddressResponse.mk x0 x1 x2) _). by intros []. Defined.

#[export] Instance LWWValue_eq_dec : EqDecision LWWValue.t.
Proof. solve_decision. Defined.
#[export] Instance LWWValue_countable : Countable LWWValue.t.
Proof. refine (inj_countable' (λ m, (LWWValue.timestamp m, LWWValue.value m))
  (λ '(x0, x1), LWWValue.mk x0 x1) _). by intros []. Defined.

#[export] Instance SetValue_eq_dec : EqDecision SetValue.t.
Proof. solve_decision. Defined.
#[export] Instance SetValue_countable : Countable SetValue.t.
Proof. refine (inj_countable' SetValue.values
  SetValue.mk _). by intros []. Defined.

#[export] Instance SingleKeyCausalValue_eq_dec : EqDecision SingleKeyCausalValue.t.
Proof. solve_decision. Defined.
#[export] Instance SingleKeyCausalValue_countable : Countable SingleKeyCausalValue.t.
Proof. refine (inj_countable' (λ m, (SingleKeyCausalValue.vector_clock m, SingleKeyCausalValue.values m))
  (λ '(x0, x1), SingleKeyCausalValue.mk x0 x1) _). by intros []. Defined.

#[export] Instance KeyVersion_eq_dec : EqDecision KeyVersion.t.
Proof. solve_decision. Defined.
#[export] Instance KeyVersion_countable : Countable KeyVersion.t.
Proof. refine (inj_countable' (λ m, (KeyVersion.key m, KeyVersion.vector_clock m))
  (λ '(x0, x1), KeyVersion.mk x0 x1) _). by intros []. Defined.

#[export] Instance MultiKeyCausalValue_eq_dec : EqDecision MultiKeyCausalValue.t.
Proof. solve_decision. Defined.
#[export] Instance MultiKeyCausalValue_countable : Countable MultiKeyCausalValue.t.
Proof. refine (inj_countable' (λ m, (MultiKeyCausalValue.vector_clock m, MultiKeyCausalValue.dependencies m, MultiKeyCausalValue.values m))
  (λ '(x0, x1, x2), MultiKeyCausalValue.mk x0 x1 x2) _). by intros []. Defined.

#[export] Instance PriorityValue_eq_dec : EqDecision PriorityValue.t.
Proof. solve_decision. Defined.
#[export] Instance PriorityValue_countable : Countable PriorityValue.t.
Proof. refine (inj_countable' (λ m, (PriorityValue.priority m, PriorityValue.value m))
  (λ '(x0, x1), PriorityValue.mk x0 x1) _). by intros []. Defined.

#[export] Instance StringSet_eq_dec : EqDecision StringSet.t.
Proof. solve_decision. Defined.
#[export] Instance StringSet_countable : Countable StringSet.t.
Proof. refine (inj_countable' StringSet.keys
  StringSet.mk _). by intros []. Defined.

#[export] Instance ReplicationValue_eq_dec : EqDecision ReplicationValue.t.
Proof. solve_decision. Defined.
#[export] Instance ReplicationValue_countable : Countable ReplicationValue.t.
Proof. refine (inj_countable' (λ m, (ReplicationValue.tier m, ReplicationValue.value m))
  (λ '(x0, x1), ReplicationValue.mk x0 x1) _). by intros []. Defined.

#[export] Instance ReplicationFactor_eq_dec : EqDecision ReplicationFactor.t.
Proof. solve_decision. Defined.
#[export] Instance ReplicationFactor_countable : Countable ReplicationFactor.t.
Proof. refine (inj_countable' (λ m, (ReplicationFactor.key m, ReplicationFactor.global m, ReplicationFactor.local m))
  (λ '(x0, x1, x2), ReplicationFactor.mk x0 x1 x2) _). by intros []. Defined.

#[export] Instance ReplicationFactorUpdate_eq_dec : EqDecision ReplicationFactorUpdate.t.
Proof. solve_decision. Defined.
#[export] Instance ReplicationFactorUpdate_countable : Countable ReplicationFactorUpdate.t.
Proof. refine (inj_countable' ReplicationFactorUpdate.updates
  ReplicationFactorUpdate.mk _). by intros []. Defined.

#[export] Instance Server_eq_dec : EqDecision Server.t.
Proof. solve_decision. Defined.
#[export] Instance Server_countable : Countable Server.t.
Proof. refine (inj_countable' (λ m, (Server.public_ip m, Server.private_ip m))
  (λ '(x0, x1), Server.mk x0 x1) _). by intros []. Defined.

#[export] Instance TierMembership_eq_dec : EqDecision TierMembership.t.
Proof. solve_decision. Defined.
#[export] Instance TierMembership_countable : Countable TierMembership.t.
Proof. refine (inj_countable' (λ m, (TierMembership.tier_id m, TierMembership.servers m))
  (λ '(x0, x1), TierMembership.mk x0 x1) _). by intros []. Defined.

#[export] Instance ClusterMembership_eq_dec : EqDecision ClusterMembership.t.
Proof. solve_decision. Defined.
#[export] Instance ClusterMembership_countable : Countable ClusterMembership.t.
Proof. refine (inj_countable' ClusterMembership.tiers
  ClusterMembership.mk _). by intros []. Defined.

#[export] Instance ServerThreadStatistics_eq_dec : EqDecision ServerThreadStatistics.t.
Proof. solve_decision. Defined.
#[export] Instance ServerThreadStatistics_countable : Countable ServerThreadStatistics.t.
Proof. refine (inj_countable' (λ m, (ServerThreadStatistics.storage_consumption m, ServerThreadStatistics.occupancy m, ServerThreadStatistics.epoch m, ServerThreadStatistics.access_count m))
  (λ '(x0, x1, x2, x3), ServerThreadStatistics.mk x0 x1 x2 x3) _). by intros []. Defined.

#[export] Instance KeyAccessData_eq_dec : EqDecision KeyAccessData.t.
Proof. solve_decision. Defined.
#[export] Instance KeyAccessData_countable : Countable KeyAccessData.t.
Proof. refine (inj_countable' KeyAccessData.keys
  KeyAccessData.mk _). by intros []. Defined.

#[export] Instance KeySizeData_eq_dec : EqDecision KeySizeData.t.
Proof. solve_decision. Defined.
#[export] Instance KeySizeData_countable : Countable KeySizeData.t.
Proof. refine (inj_countable' KeySizeData.key_sizes
  KeySizeData.mk _). by intros []. Defined.

#[export] Instance UserFeedback_eq_dec : EqDecision UserFeedback.t.
Proof. solve_decision. Defined.
#[export] Instance UserFeedback_countable : Countable UserFeedback.t.
Proof. refine (inj_countable' (λ m, (UserFeedback.uid m, UserFeedback.latency m, UserFeedback.finish m, UserFeedback.throughput m, UserFeedback.warmup m, UserFeedback.key_latency m))
  (λ '(x0, x1, x2, x3, x4, x5), UserFeedback.mk x0 x1 x2 x3 x4 x5) _). by intros []. Defined.

(** Not an instance: it is passed explicitly where it is used. *)
Definition bit_protobuf : Protobuf := {|
  proto_KeyRequest := BitCodec.codec KeyRequest.empty;
  proto_KeyResponse := BitCodec.codec KeyResponse.empty;
  proto_KeyAddressRequest := BitCodec.codec (KeyAddressRequest.mk "" [] "");
  proto_KeyAddressResponse := BitCodec.codec (KeyAddressResponse.mk [] NO_ERROR "");
  proto_LWWValue := BitCodec.codec LWWValue.empty;
  proto_SetValue := BitCodec.codec SetValue.empty;
  proto_SingleKeyCausalValue := BitCodec.codec SingleKeyCausalValue.empty;
  proto_MultiKeyCausalValue := BitCodec.codec MultiKeyCausalValue.empty;
  proto_PriorityValue := BitCodec.codec PriorityValue.empty;
  proto_StringSet := BitCodec.codec StringSet.empty;
  proto_ReplicationFactor := BitCodec.codec ReplicationFactor.empty;
  proto_ReplicationFactorUpdate := BitCodec.codec ReplicationFactorUpdate.empty;
  proto_ClusterMembership := BitCodec.codec (ClusterMembership.mk []);
  proto_ServerThreadStatistics := BitCodec.codec (ServerThreadStatistics.mk 0 (S754_zero false) 0 0);
  proto_KeyAccessData := BitCodec.codec (KeyAccessData.mk []);
  proto_KeySizeData := BitCodec.codec (KeySizeData.mk []);
  proto_UserFeedback := BitCodec.codec UserFeedback.empty;
|}.
