(* ===== verification/Codec.v ===== *)
(** Payloads and timestamps (common/include/common.hpp): the encoding of each
    lattice as the bytes a key's tuple carries, and [generate_timestamp]. *)

From S2P Require Import Prelude Ordered Lattices ValueLattices Wire WireCodec.
From Stdlib Require Import Lia SpecFloat.
Import LWWPairLattice(mkTVP, TimestampValuePair) PriorityLattice(mkPVP, PriorityValuePair)
  SingleKeyCausalLattice(mkVCV, VectorClockValuePair)
  MultiKeyCausalLattice(mkMKC, MultiKeyCausalPayload).

(** [T()] for a [string]. *)
#[export] Instance string_default : Inhabited string := populate "".

(** What the protobuf library promises for the payload messages: which
    messages it carries unchanged. *)
Class PayloadLaws `{Protobuf} := {
  carries_lww : LWWValue.t → Prop;
  carries_set : SetValue.t → Prop;
  carries_sk : SingleKeyCausalValue.t → Prop;
  carries_mk : MultiKeyCausalValue.t → Prop;
  carries_priority : PriorityValue.t → Prop;
  #[global] lww_proto_laws :: ProtoLaws LWWValue.t carries_lww LWWValue.empty;
  #[global] set_proto_laws :: ProtoLaws SetValue.t carries_set SetValue.empty;
  #[global] sk_proto_laws :: ProtoLaws SingleKeyCausalValue.t carries_sk SingleKeyCausalValue.empty;
  #[global] mk_proto_laws :: ProtoLaws MultiKeyCausalValue.t carries_mk MultiKeyCausalValue.empty;
  #[global] priority_proto_laws :: ProtoLaws PriorityValue.t carries_priority PriorityValue.empty;
}.

Definition bit_payload_laws : @PayloadLaws bit_protobuf :=
  @Build_PayloadLaws bit_protobuf (λ _, True) (λ _, True) (λ _, True) (λ _, True) (λ _, True)
    (BitCodec.codec_laws _) (BitCodec.codec_laws _) (BitCodec.codec_laws _)
    (BitCodec.codec_laws _) (BitCodec.codec_laws _).

(** [for (pair : vc) ptr->operator[](pair.first) = pair.second.reveal();] into an empty
    protobuf map. *)
Definition copy_clock (vc : VectorClock) : gmap string Z :=
  map_fold (λ k n acc, <[k := n]> acc) ∅ vc.

(** [for (pair : m) vc.insert(pair.first, pair.second);] into an empty clock. *)
Definition clock_of (m : gmap string Z) : VectorClock :=
  map_fold (λ k n acc, MapLattice.insert acc k n) ∅ m.

Lemma copy_clock_id vc : copy_clock vc = vc.
Proof.
  unfold copy_clock. refine (map_fold_weak_ind (λ acc e, acc = e) _ ∅ _ _ vc); [done|].
  by intros i x m acc _ ->.
Qed.

Lemma clock_of_id m : clock_of m = m.
Proof.
  unfold clock_of. refine (map_fold_weak_ind (λ acc e, acc = e) _ ∅ _ _ m); [done|].
  intros i x m' acc Hi ->. unfold MapLattice.insert, MapLattice.insert_pair. by rewrite Hi.
Qed.

Section codec.
Context `{Protobuf}.

(** ** [serialize] *)
Definition serialize_lww (l : TimestampValuePair string) : string :=
  SerializeToString (LWWValue.mk (LWWPairLattice.timestamp l) (LWWPairLattice.value l)).

Definition serialize_value (timestamp : Z) (value : string) : string :=
  SerializeToString (LWWValue.mk timestamp value).

Definition serialize_set (l : gset string) : string :=
  SerializeToString (SetValue.mk (elements l)).

Definition serialize_ordered_set (l : list string) : string :=
  SerializeToString (SetValue.mk l).

Definition serialize_causal (l : VectorClockValuePair (gset string)) : string :=
  SerializeToString (SingleKeyCausalValue.mk
    (copy_clock (SingleKeyCausalLattice.vector_clock l))
    (elements (SingleKeyCausalLattice.value l))).

Definition serialize_multi_key_causal (l : MultiKeyCausalPayload (gset string)) : string :=
  SerializeToString (MultiKeyCausalValue.mk
    (copy_clock (MultiKeyCausalLattice.vector_clock l))
    (map (λ '(k, vc), KeyVersion.mk k (copy_clock vc))
         (map_to_list (MultiKeyCausalLattice.dependencies l)))
    (elements (MultiKeyCausalLattice.value l))).

Definition serialize_priority (l : PriorityValuePair spec_float string) : string :=
  SerializeToString (PriorityValue.mk (PriorityLattice.priority l) (PriorityLattice.value l)).

(** ** [deserialize] *)
Definition deserialize_lww (serialized : string) : TimestampValuePair string :=
  let lww : LWWValue.t := parse serialized in
  mkTVP (LWWValue.timestamp lww) (LWWValue.value lww).

Definition deserialize_set (serialized : string) : gset string :=
  let s : SetValue.t := parse serialized in
  foldl SetLattice.insert ∅ (SetValue.values s).

Definition deserialize_ordered_set (serialized : string) : list string :=
  let s : SetValue.t := parse serialized in
  foldl OrderedSetLattice.insert [] (SetValue.values s).

Definition deserialize_causal (serialized : string) : SingleKeyCausalValue.t := parse serialized.

Definition deserialize_multi_key_causal (serialized : string) : MultiKeyCausalValue.t :=
  parse serialized.

Definition deserialize_priority (serialized : string) : PriorityValuePair spec_float string :=
  let pv : PriorityValue.t := parse serialized in
  mkPVP (PriorityValue.priority pv) (PriorityValue.value pv).

Definition to_vector_clock_value_pair (cv : SingleKeyCausalValue.t)
    : VectorClockValuePair (gset string) :=
  mkVCV (clock_of (SingleKeyCausalValue.vector_clock cv))
        (foldl SetLattice.insert ∅ (SingleKeyCausalValue.values cv)).

Definition to_multi_key_causal_payload (mkcv : MultiKeyCausalValue.t)
    : MultiKeyCausalPayload (gset string) :=
  mkMKC (clock_of (MultiKeyCausalValue.vector_clock mkcv))
        (foldl (λ deps dep, MapLattice.insert deps (KeyVersion.key dep)
                              (clock_of (KeyVersion.vector_clock dep)))
               ∅ (MultiKeyCausalValue.dependencies mkcv))
        (foldl SetLattice.insert ∅ (MultiKeyCausalValue.values mkcv)).
End codec.

(** ** Round trips *)

Lemma foldl_set_insert (l : list string) (X : gset string) :
  foldl SetLattice.insert X l = X ∪ list_to_set l.
Proof.
  revert X. induction l as [|x l IH]; intros X; simpl; [set_solver|].
  rewrite IH. unfold SetLattice.insert. set_solver.
Qed.

Lemma foldl_oset_insert (l : list string) :
  OrderedSetLattice.sorted l → foldl OrderedSetLattice.insert [] l = l.
Proof.
  intros Hl. apply (ord_sorted_ext id); [|done|].
  - apply (OrderedSetLattice.do_merge_sorted [] l). constructor.
  - intros a. change (foldl OrderedSetLattice.insert [] l) with (do_merge [] l).
    rewrite OrderedSetLattice.elem_of_do_merge. set_solver.
Qed.

Lemma foldl_deps_insert (deps : gmap Key VectorClock) :
  foldl (λ m dep, MapLattice.insert m (KeyVersion.key dep) (clock_of (KeyVersion.vector_clock dep)))
    ∅ (map (λ '(k, vc), KeyVersion.mk k (copy_clock vc)) (map_to_list deps)) = deps.
Proof.
  transitivity (list_to_map (map_to_list deps) : gmap Key VectorClock);
    [|apply list_to_map_to_list].
  pose proof (NoDup_fst_map_to_list deps) as Hnd. revert Hnd.
  generalize (map_to_list deps). intros l Hnd.
  cut (∀ m : gmap Key VectorClock, (∀ k, k ∈ l.*1 → m !! k = None) →
    foldl (λ m dep, MapLattice.insert m (KeyVersion.key dep)
             (clock_of (KeyVersion.vector_clock dep)))
      m (map (λ '(k, vc), KeyVersion.mk k (copy_clock vc)) l) = list_to_map l ∪ m).
  { intros Hc. rewrite Hc; [by rewrite (right_id_L ∅ (∪))|]. intros; apply lookup_empty. }
  induction l as [|[k vc] l IH]; intros m Hm; simpl; [by rewrite (left_id_L ∅ (∪))|].
  apply NoDup_cons in Hnd as [Hk Hnd]. rewrite IH; [|done|].
  - rewrite copy_clock_id, clock_of_id. unfold MapLattice.insert, MapLattice.insert_pair.
    rewrite Hm by set_solver. rewrite <-insert_union_r; [by rewrite insert_union_l|].
    by apply not_elem_of_list_to_map_1.
  - intros j Hj. rewrite copy_clock_id, clock_of_id.
    unfold MapLattice.insert. rewrite MapLattice.lookup_insert_pair.
    rewrite decide_False by set_solver. apply Hm. set_solver.
Qed.

Section roundtrip.
Context `{PayloadLaws}.

Lemma lww_roundtrip (l : TimestampValuePair string) :
  carries_lww (LWWValue.mk (LWWPairLattice.timestamp l) (LWWPairLattice.value l)) →
  deserialize_lww (serialize_lww l) = l.
Proof.
  intros. unfold deserialize_lww, serialize_lww. rewrite parse_serialize' by done. by destruct l.
Qed.

Lemma set_roundtrip (l : gset string) :
  carries_set (SetValue.mk (elements l)) → deserialize_set (serialize_set l) = l.
Proof.
  intros. unfold deserialize_set, serialize_set. rewrite parse_serialize' by done.
  simpl. rewrite foldl_set_insert, (list_to_set_elements_L l). set_solver.
Qed.

Lemma ordered_set_roundtrip (l : list string) :
  OrderedSetLattice.sorted l → carries_set (SetValue.mk l) →
  deserialize_ordered_set (serialize_ordered_set l) = l.
Proof.
  intros. unfold deserialize_ordered_set, serialize_ordered_set.
  rewrite parse_serialize' by done. by apply foldl_oset_insert.
Qed.

Lemma causal_roundtrip (l : VectorClockValuePair (gset string)) :
  carries_sk (SingleKeyCausalValue.mk (SingleKeyCausalLattice.vector_clock l)
               (elements (SingleKeyCausalLattice.value l))) →
  to_vector_clock_value_pair (deserialize_causal (serialize_causal l)) = l.
Proof.
  intros. unfold to_vector_clock_value_pair, deserialize_causal, serialize_causal.
  rewrite copy_clock_id, parse_serialize' by done. simpl.
  rewrite clock_of_id, foldl_set_insert, list_to_set_elements_L, (left_id_L ∅ (∪)).
  by destruct l.
Qed.

Lemma multi_key_causal_roundtrip (l : MultiKeyCausalPayload (gset string)) :
  carries_mk (MultiKeyCausalValue.mk (MultiKeyCausalLattice.vector_clock l)
    (map (λ '(k, vc), KeyVersion.mk k (copy_clock vc))
         (map_to_list (MultiKeyCausalLattice.dependencies l)))
    (elements (MultiKeyCausalLattice.value l))) →
  to_multi_key_causal_payload (deserialize_multi_key_causal (serialize_multi_key_causal l)) = l.
Proof.
  intros. unfold to_multi_key_causal_payload, deserialize_multi_key_causal,
    serialize_multi_key_causal.
  rewrite (copy_clock_id (MultiKeyCausalLattice.vector_clock l)).
  rewrite parse_serialize' by done.
  cbn [MultiKeyCausalValue.vector_clock MultiKeyCausalValue.dependencies
       MultiKeyCausalValue.values].
  rewrite clock_of_id, foldl_deps_insert, foldl_set_insert, list_to_set_elements_L,
    (left_id_L ∅ (∪)).
  by destruct l.
Qed.

Lemma priority_roundtrip (l : PriorityValuePair spec_float string) :
  carries_priority (PriorityValue.mk (PriorityLattice.priority l) (PriorityLattice.value l)) →
  deserialize_priority (serialize_priority l) = l.
Proof.
  intros. unfold deserialize_priority, serialize_priority.
  rewrite parse_serialize' by done. by destruct l.
Qed.
End roundtrip.

(** ** Timestamps

    [get_time()] is the wall clock in milliseconds, an argument here.  The
    loop multiplies an [unsigned] by ten; after 32 rounds the product is a
    multiple of [2^32], i.e. zero, so a loop that has not stopped after 33
    tests never does. *)
Module Timestamp.
Fixpoint pow_loop (fuel : nat) (id pow : Z) : option Z :=
  match fuel with
  | O => None
  | S fuel => if bool_decide (id >= pow) then pow_loop fuel id (u32 (pow * 10)) else Some pow
  end.

Definition generate_timestamp (time id : Z) : outcome Z :=
  pow ← of_option Diverges (pow_loop 33 id 10);
  Ok (u64 (time * pow + id)).

(** The loop stops at the first power of ten above [id]. *)
Lemma pow_loop_spec (fuel n : nat) id :
  (1 ≤ n)%nat → (n ≤ 9)%nat → (10 ≤ fuel + n)%nat → id < 10 ^ 9 →
  (n = 1%nat ∨ 10 ^ Z.of_nat (n - 1) ≤ id) →
  ∃ d : nat, (n ≤ d ≤ 9)%nat ∧ pow_loop fuel id (10 ^ Z.of_nat n) = Some (10 ^ Z.of_nat d) ∧
    id < 10 ^ Z.of_nat d ∧ (d = 1%nat ∨ 10 ^ Z.of_nat (d - 1) ≤ id).
Proof.
  intros Hn Hn9 Hfuel Hid. revert n Hn Hn9 Hfuel.
  induction fuel as [|fuel IH]; intros n Hn Hn9 Hfuel Hlow; [lia|].
  simpl. case_bool_decide as Hge; [|exists n; repeat split; auto; lia].
  assert (n ≠ 9)%nat as Hne.
  { intros ->. change (Z.of_nat 9) with 9 in Hge. lia. }
  assert (u32 (10 ^ Z.of_nat n * 10) = 10 ^ Z.of_nat (S n)) as ->.
  { rewrite Nat2Z.inj_succ, Z.pow_succ_r by lia. rewrite Z.mul_comm. apply u32_id.
    assert (10 ^ Z.of_nat n ≤ 10 ^ 8) by (apply Z.pow_le_mono_r; lia).
    assert (0 < 10 ^ Z.of_nat n) by (apply Z.pow_pos_nonneg; lia).
    unfold is_u32. lia. }
  destruct (IH (S n)) as (d & Hd & Hloop & Hlt & Hlo); [lia|lia|lia| |].
  - right. replace (S n - 1)%nat with n by lia. lia.
  - exists d. repeat split; auto; lia.
Qed.

(** [generate_timestamp] below [10^9] thread ids: the time in the high
    digits, the id in the low ones. *)
Lemma generate_timestamp_spec time id :
  0 ≤ id < 10 ^ 9 →
  ∃ d : nat, (1 ≤ d ≤ 9)%nat ∧ id < 10 ^ Z.of_nat d ∧ (d = 1%nat ∨ 10 ^ Z.of_nat (d - 1) ≤ id) ∧
    generate_timestamp time id = Ok (u64 (time * 10 ^ Z.of_nat d + id)).
Proof.
  intros Hid. destruct (pow_loop_spec 33 1 id) as (d & Hd & Hloop & Hlt & Hlo); [lia..|by left|].
  exists d. repeat split; auto; try lia.
  unfold generate_timestamp. change 10 with (10 ^ Z.of_nat 1) at 1. by rewrite Hloop.
Qed.
End Timestamp.

(** ** The encoding as a whole *)
Section payloads.
Context `{PayloadLaws}.
Definition carried (m : MultiKeyCausalPayload (gset string)) : Prop :=
  carries_mk (MultiKeyCausalValue.mk (MultiKeyCausalLattice.vector_clock m)
    (map (λ '(k, vc), KeyVersion.mk k (copy_clock vc))
         (map_to_list (MultiKeyCausalLattice.dependencies m)))
    (elements (MultiKeyCausalLattice.value m))).

(** C25: every payload the library carries decodes to the lattice it was
    encoded from: last-writer-wins pairs, sets, sorted ordered sets, single
    and multi key causal values with their clocks and dependencies, and
    priority pairs. *)
Theorem payload_roundtrip (lww : TimestampValuePair string) (s : gset string) (os : list string)
    (sk : VectorClockValuePair (gset string)) (mk : MultiKeyCausalPayload (gset string))
    (pr : PriorityValuePair spec_float string) :
  (carries_lww (LWWValue.mk (LWWPairLattice.timestamp lww) (LWWPairLattice.value lww)) →
     deserialize_lww (serialize_lww lww) = lww) ∧
  (carries_set (SetValue.mk (elements s)) → deserialize_set (serialize_set s) = s) ∧
  (OrderedSetLattice.sorted os → carries_set (SetValue.mk os) →
     deserialize_ordered_set (serialize_ordered_set os) = os) ∧
  (carries_sk (SingleKeyCausalValue.mk (SingleKeyCausalLattice.vector_clock sk)
                 (elements (SingleKeyCausalLattice.value sk))) →
     to_vector_clock_value_pair (deserialize_causal (serialize_causal sk)) = sk) ∧
  (carried mk →
     to_multi_key_causal_payload (deserialize_multi_key_causal (serialize_multi_key_causal mk)) = mk) ∧
  (carries_priority (PriorityValue.mk (PriorityLattice.priority pr) (PriorityLattice.value pr)) →
     deserialize_priority (serialize_priority pr) = pr).
Proof.
  split_and!; [apply lww_roundtrip|apply set_roundtrip|apply ordered_set_roundtrip|apply causal_roundtrip
              |apply multi_key_causal_roundtrip|apply priority_roundtrip].
Qed.
End payloads.

Lemma payload_roundtrip_witness :
  @deserialize_lww bit_protobuf (@serialize_lww bit_protobuf (mkTVP 7 "v")) = mkTVP 7 "v" ∧
  @deserialize_ordered_set bit_protobuf (@serialize_ordered_set bit_protobuf ["a"; "b"]) = ["a"; "b"].
Proof.
  destruct (@payload_roundtrip bit_protobuf bit_payload_laws (mkTVP 7 "v") ∅ ["a"; "b"]
    (mkVCV ∅ ∅) (mkMKC ∅ ∅ ∅) (mkPVP (S754_zero false) "v")) as (Hlww & _ & Hos & _).
  split; [exact (Hlww I)|]. apply Hos; [|exact I]. repeat constructor.
Defined.

(** Two timestamps generated by threads whose ids have the same number of
    digits are ordered by time first and by thread id second, so they are
    distinct unless time and id are the same. *)
Theorem timestamps_ordered (time time' id id' pow : Z) :
  0 ≤ id < 10 ^ 9 → 0 ≤ id' < 10 ^ 9 → 0 ≤ time → 0 ≤ time' →
  Timestamp.pow_loop 33 id 10 = Some pow → Timestamp.pow_loop 33 id' 10 = Some pow →
  (time + 1) * pow ≤ 2 ^ 64 → (time' + 1) * pow ≤ 2 ^ 64 →
  ∃ ts ts', Timestamp.generate_timestamp time id = Ok ts ∧
    Timestamp.generate_timestamp time' id' = Ok ts' ∧
    (ts < ts' ↔ time < time' ∨ time = time' ∧ id < id').
Proof.
  intros Hid Hid' Ht Ht' Hp Hp' Hfit Hfit'.
  destruct (Timestamp.pow_loop_spec 33 1 id) as (d & Hd & Hloop & Hlt & _); [lia..|by left|].
  destruct (Timestamp.pow_loop_spec 33 1 id') as (d' & Hd' & Hloop' & Hlt' & _); [lia..|by left|].
  change (10 ^ Z.of_nat 1) with 10 in Hloop, Hloop'.
  rewrite Hloop in Hp. rewrite Hloop' in Hp'. injection Hp as Hp. injection Hp' as Hp'.
  unfold Timestamp.generate_timestamp. rewrite Hloop, Hloop', Hp, Hp'. simpl.
  do 2 eexists. split; [done|]. split; [done|].
  rewrite Hp in Hlt. rewrite Hp' in Hlt'.
  rewrite !u64_id by (unfold is_u64; nia). nia.
Qed.

Lemma timestamps_ordered_witness :
  ∃ ts ts', Timestamp.generate_timestamp 1600000000000 3 = Ok ts ∧
    Timestamp.generate_timestamp 1600000000001 1 = Ok ts' ∧
    (ts < ts' ↔ 1600000000000 < 1600000000001 ∨ 1600000000000 = 1600000000001 ∧ 3 < 1).
Proof. apply (timestamps_ordered 1600000000000 1600000000001 3 1 10); (lia || reflexivity). Defined.

(** Timestamps of threads whose ids have different numbers of digits are
    not ordered by time: a write stamped by a thread with a two-digit id beats
    every later write of a thread with a one-digit id until the clock shows ten
    times the value. *)
Theorem timestamps_across_digits (time time' id id' : Z) :
  10 ≤ id < 100 → 0 ≤ id' < 10 → 0 ≤ time → time < time' → time' < 10 * time →
  (time' + 1) * 100 ≤ 2 ^ 64 →
  ∃ ts ts', Timestamp.generate_timestamp time id = Ok ts ∧
    Timestamp.generate_timestamp time' id' = Ok ts' ∧ ts' < ts.
Proof.
  intros Hid Hid' Ht Hlt Hlt' Hfit.
  assert (Timestamp.pow_loop 33 id 10 = Some 100) as Hp.
  { simpl. rewrite bool_decide_eq_true_2 by lia. change (u32 (10 * 10)) with 100.
    by rewrite bool_decide_eq_false_2 by lia. }
  assert (Timestamp.pow_loop 33 id' 10 = Some 10) as Hp'.
  { simpl. by rewrite bool_decide_eq_false_2 by lia. }
  unfold Timestamp.generate_timestamp. rewrite Hp, Hp'. simpl.
  do 2 eexists. split; [done|]. split; [done|].
  rewrite !u64_id by (unfold is_u64; lia). lia.
Qed.

Lemma timestamps_across_digits_witness :
  ∃ ts ts', Timestamp.generate_timestamp 1600000000000 10 = Ok ts ∧
    Timestamp.generate_timestamp 1700000000000 1 = Ok ts' ∧ ts' < ts.
Proof. apply (timestamps_across_digits 1600000000000 1700000000000 10 1); lia. Defined.
