(* ===== verification/Threads.v ===== *)
(** Threads and their addresses (include/kvs_threads.hpp,
    common/include/threads.hpp).

    Every kind of thread owns a port per message type, offset by the thread
    id.  A [ServerThread] is compared and hashed by [id()], its private IP and
    thread id, so the model gives it an equivalence coarser than equality and
    shows which of its addresses respect it. *)

From S2P Require Import Prelude Text.
From Stdlib Require Import Ascii Lia.

(** ** Ports *)
Definition kKeyAddressPort : Z := 6450.
Definition kUserResponsePort : Z := 6800.
Definition kUserKeyAddressPort : Z := 6850.
Definition kCacheUpdatePort : Z := 7150.
Definition kNodeJoinPort : Z := 6000.
Definition kNodeDepartPort : Z := 6050.
Definition kSelfDepartPort : Z := 6100.
Definition kServerReplicationResponsePort : Z := 6150.
Definition kKeyRequestPort : Z := 6200.
Definition kGossipPort : Z := 6250.
Definition kServerReplicationChangePort : Z := 6300.
Definition kCacheIpResponsePort : Z := 7050.
Definition kManagementNodeResponsePort : Z := 7100.
Definition kSeedPort : Z := 6350.
Definition kRoutingNotifyPort : Z := 6400.
Definition kRoutingReplicationResponsePort : Z := 6500.
Definition kRoutingReplicationChangePort : Z := 6550.
Definition kMonitoringNotifyPort : Z := 6600.
Definition kMonitoringResponsePort : Z := 6650.
Definition kDepartDonePort : Z := 6700.
Definition kFeedbackReportPort : Z := 6750.
Definition kBenchmarkCommandPort : Z := 6900.
Definition kKopsRestartCountPort : Z := 7000.
Definition kKopsFuncNodesPort : Z := 7002.

Definition kBindBase : string := "tcp://*:".

(** The common shapes: [base + std::to_string(tid + port)]. *)
Definition tcp_base (ip : Address) : Address := "tcp://" +:+ ip +:+ ":".
Definition connect_address (ip : Address) (tid port : Z) : Address :=
  tcp_base ip +:+ to_string (u32 (tid + port)).
Definition bind_address (tid port : Z) : Address := kBindBase +:+ to_string (u32 (tid + port)).

(** ** ServerThread

    The three-argument constructor leaves [virtual_num_] unset; it is never
    read on such a thread, and the model stores 0. *)
Module ServerThread.
Record t := mk { public_ip : Address; private_ip : Address; tid : Z; virtual_num : Z }.

Definition new (public_ip private_ip : Address) (tid : Z) : t := mk public_ip private_ip tid 0.

Definition id (st : t) : string := private_ip st +:+ ":" +:+ to_string (tid st).
Definition virtual_id (st : t) : string :=
  private_ip st +:+ ":" +:+ to_string (tid st) +:+ "_" +:+ to_string (virtual_num st).

Definition node_join_connect_address (st : t) := connect_address (private_ip st) (tid st) kNodeJoinPort.
Definition node_join_bind_address (st : t) := bind_address (tid st) kNodeJoinPort.
Definition node_depart_connect_address (st : t) := connect_address (private_ip st) (tid st) kNodeDepartPort.
Definition node_depart_bind_address (st : t) := bind_address (tid st) kNodeDepartPort.
Definition self_depart_connect_address (st : t) := connect_address (private_ip st) (tid st) kSelfDepartPort.
Definition self_depart_bind_address (st : t) := bind_address (tid st) kSelfDepartPort.
Definition key_request_connect_address (st : t) := connect_address (public_ip st) (tid st) kKeyRequestPort.
Definition key_request_bind_address (st : t) := bind_address (tid st) kKeyRequestPort.
Definition replication_response_connect_address (st : t) :=
  connect_address (private_ip st) (tid st) kServerReplicationResponsePort.
Definition replication_response_bind_address (st : t) := bind_address (tid st) kServerReplicationResponsePort.
Definition cache_ip_response_connect_address (st : t) :=
  connect_address (private_ip st) (tid st) kCacheIpResponsePort.
Definition cache_ip_response_bind_address (st : t) := bind_address (tid st) kCacheIpResponsePort.
Definition management_node_response_connect_address (st : t) :=
  connect_address (private_ip st) (tid st) kManagementNodeResponsePort.
Definition management_node_response_bind_address (st : t) := bind_address (tid st) kManagementNodeResponsePort.
Definition gossip_connect_address (st : t) := connect_address (private_ip st) (tid st) kGossipPort.
Definition gossip_bind_address (st : t) := bind_address (tid st) kGossipPort.
Definition replication_change_connect_address (st : t) :=
  connect_address (private_ip st) (tid st) kServerReplicationChangePort.
Definition replication_change_bind_address (st : t) := bind_address (tid st) kServerReplicationChangePort.

(** [operator==] *)
#[global] Instance equiv_ : Equiv t := λ l r, id l = id r.
#[global] Instance equivalence : Equivalence (≡@{t}).
Proof. split; [intros x; exact eq_refl|intros x y; apply eq_sym|intros x y z; apply eq_trans]. Qed.
#[global] Instance equiv_dec : RelDecision (≡@{t}) := λ l r, decide (id l = id r).
#[global] Instance id_proper : Proper ((≡) ==> (=)) id.
Proof. by intros ??. Qed.
End ServerThread.

(** The textual id determines the private IP and the thread id. *)
Lemma colon_suffix_inj s1 s2 t1 t2 :
  has_char ":" t1 = false → has_char ":" t2 = false →
  s1 +:+ String ":" t1 = s2 +:+ String ":" t2 → s1 = s2 ∧ t1 = t2.
Proof.
  intros H1 H2. revert s2. induction s1 as [|a s1 IH]; intros [|b s2] Heq.
  - rewrite !append_nil_l in Heq. by simplify_eq.
  - rewrite append_nil_l, append_cons in Heq. simplify_eq.
    rewrite has_char_app in H1. simpl in H1. by rewrite orb_true_r in H1.
  - rewrite append_nil_l, append_cons in Heq. simplify_eq.
    rewrite has_char_app in H2. simpl in H2. by rewrite orb_true_r in H2.
  - rewrite !append_cons in Heq. injection Heq as -> Heq.
    by destruct (IH s2 Heq) as [-> ->].
Qed.

Lemma server_thread_id_inj (l r : ServerThread.t) :
  0 ≤ ServerThread.tid l → 0 ≤ ServerThread.tid r → l ≡ r →
  ServerThread.private_ip l = ServerThread.private_ip r ∧ ServerThread.tid l = ServerThread.tid r.
Proof.
  intros Hl Hr Heq. change (ServerThread.id l = ServerThread.id r) in Heq.
  unfold ServerThread.id in Heq.
  apply colon_suffix_inj in Heq as [??%to_string_inj]; [done|..]; by apply to_string_has_char.
Qed.

(** Equal threads are reached at the same private addresses. *)
Lemma private_connect_address_equiv (l r : ServerThread.t) port :
  0 ≤ ServerThread.tid l → 0 ≤ ServerThread.tid r → l ≡ r →
  connect_address (ServerThread.private_ip l) (ServerThread.tid l) port
  = connect_address (ServerThread.private_ip r) (ServerThread.tid r) port.
Proof. intros ?? [-> ->]%server_thread_id_inj; done. Qed.

(** An address names one IP and one port. *)
Lemma connect_address_inj ip1 ip2 n1 n2 :
  is_u32 n1 → is_u32 n2 →
  tcp_base ip1 +:+ to_string n1 = tcp_base ip2 +:+ to_string n2 → ip1 = ip2 ∧ n1 = n2.
Proof.
  unfold is_u32, tcp_base. intros Hn1 Hn2. rewrite !append_assoc. intros Heq.
  apply (inj (String.app "tcp://")) in Heq.
  apply colon_suffix_inj in Heq as [-> ->%to_string_inj]; [done|..];
    apply to_string_has_char; done || lia.
Qed.

(** ** RoutingThread, MonitoringThread, BenchmarkThread *)
Module RoutingThread.
Record t := new { ip : Address; tid : Z }.
Definition seed_connect_address (r : t) := connect_address (ip r) (tid r) kSeedPort.
Definition seed_bind_address (r : t) := bind_address (tid r) kSeedPort.
Definition notify_connect_address (r : t) := connect_address (ip r) (tid r) kRoutingNotifyPort.
Definition notify_bind_address (r : t) := bind_address (tid r) kRoutingNotifyPort.
Definition key_address_connect_address (r : t) := connect_address (ip r) (tid r) kKeyAddressPort.
Definition key_address_bind_address (r : t) := bind_address (tid r) kKeyAddressPort.
Definition replication_response_connect_address (r : t) :=
  connect_address (ip r) (tid r) kRoutingReplicationResponsePort.
Definition replication_response_bind_address (r : t) := bind_address (tid r) kRoutingReplicationResponsePort.
Definition replication_change_connect_address (r : t) :=
  connect_address (ip r) (tid r) kRoutingReplicationChangePort.
Definition replication_change_bind_address (r : t) := bind_address (tid r) kRoutingReplicationChangePort.
End RoutingThread.

Module MonitoringThread.
Record t := new { ip : Address }.
Definition notify_connect_address (m : t) := connect_address (ip m) 0 kMonitoringNotifyPort.
Definition notify_bind_address := bind_address 0 kMonitoringNotifyPort.
Definition response_connect_address (m : t) := connect_address (ip m) 0 kMonitoringResponsePort.
Definition response_bind_address := bind_address 0 kMonitoringResponsePort.
Definition depart_done_connect_address (m : t) := connect_address (ip m) 0 kDepartDonePort.
Definition depart_done_bind_address := bind_address 0 kDepartDonePort.
Definition feedback_report_connect_address (m : t) := connect_address (ip m) 0 kFeedbackReportPort.
Definition feedback_report_bind_address := bind_address 0 kFeedbackReportPort.
End MonitoringThread.

Module BenchmarkThread.
Record t := new { ip : Address; tid : Z }.
Definition benchmark_command_address (b : t) := connect_address (ip b) (tid b) kBenchmarkCommandPort.
End BenchmarkThread.

(** ** Client-side threads *)
Module CacheThread.
Record t := new { ip : Address; tid : Z }.
Definition cache_get_bind_address (c : t) : Address := "ipc:///requests/get".
Definition cache_get_connect_address (c : t) : Address := "ipc:///requests/get".
Definition cache_put_bind_address (c : t) : Address := "ipc:///requests/put".
Definition cache_put_connect_address (c : t) : Address := "ipc:///requests/put".
Definition cache_update_bind_address (c : t) := bind_address (tid c) kCacheUpdatePort.
Definition cache_update_connect_address (c : t) := connect_address (ip c) (tid c) kCacheUpdatePort.
End CacheThread.

Module UserRoutingThread.
Record t := new { ip : Address; tid : Z }.
Definition key_address_connect_address (u : t) := connect_address (ip u) (tid u) kKeyAddressPort.
Definition key_address_bind_address (u : t) := bind_address (tid u) kKeyAddressPort.
End UserRoutingThread.

Module UserThread.
Record t := new { ip : Address; tid : Z }.
Definition response_connect_address (u : t) := connect_address (ip u) (tid u) kUserResponsePort.
Definition response_bind_address (u : t) := bind_address (tid u) kUserResponsePort.
Definition key_address_connect_address (u : t) := connect_address (ip u) (tid u) kUserKeyAddressPort.
Definition key_address_bind_address (u : t) := bind_address (tid u) kUserKeyAddressPort.
End UserThread.

Definition get_join_count_req_address (management_ip : string) : string :=
  "tcp://" +:+ management_ip +:+ ":" +:+ to_string kKopsRestartCountPort.
Definition get_func_nodes_req_address (management_ip : string) : string :=
  "tcp://" +:+ management_ip +:+ ":" +:+ to_string kKopsFuncNodesPort.

(** ** Socket disjointness

    The message types of a server node listen on [base + tid]; with at most 50
    threads per node no two (port, thread) pairs collide. *)
Definition server_ports : list Z :=
  [kNodeJoinPort; kNodeDepartPort; kSelfDepartPort; kServerReplicationResponsePort;
   kKeyRequestPort; kGossipPort; kServerReplicationChangePort; kCacheIpResponsePort;
   kManagementNodeResponsePort].

Definition all_ports : list Z :=
  server_ports ++
  [kSeedPort; kRoutingNotifyPort; kKeyAddressPort; kRoutingReplicationResponsePort;
   kRoutingReplicationChangePort; kMonitoringNotifyPort; kMonitoringResponsePort;
   kDepartDonePort; kFeedbackReportPort; kUserResponsePort; kUserKeyAddressPort;
   kBenchmarkCommandPort; kCacheUpdatePort].

Lemma all_ports_multiple p : p ∈ all_ports → ∃ k, p = 50 * k.
Proof.
  intros Hp. assert (Forall (λ p, p `mod` 50 = 0) all_ports) as Hall.
  { by apply (bool_decide_unpack _). }
  rewrite Forall_forall in Hall. exists (p `div` 50).
  pose proof (Z.div_mod p 50). rewrite Hall in *; [lia|done].
Qed.

(** With at most 50 threads of each kind on a machine, no two sockets of
    its server, routing, monitoring, benchmark, cache and client threads are
    bound to the same address. *)
Theorem sockets_disjoint (p q tid tid' : Z) :
  p ∈ all_ports → q ∈ all_ports → 0 ≤ tid < 50 → 0 ≤ tid' < 50 →
  bind_address tid p = bind_address tid' q → p = q ∧ tid = tid'.
Proof.
  intros Hp Hq Htid Htid' Heq.
  destruct (all_ports_multiple p Hp) as [k ->], (all_ports_multiple q Hq) as [k' ->].
  assert (∀ k, 50 * k ∈ all_ports → 0 ≤ 50 * k < 8000) as Hrange.
  { assert (Forall (λ p, 0 ≤ p < 8000) all_ports) as Hall by (by apply (bool_decide_unpack _)).
    rewrite Forall_forall in Hall. intros j. apply Hall. }
  pose proof (Hrange k Hp). pose proof (Hrange k' Hq).
  unfold bind_address in Heq. apply (inj (String.append _)) in Heq. apply to_string_inj in Heq.
  rewrite !u32_id in Heq by (unfold is_u32; lia). lia.
Qed.

Lemma sockets_disjoint_witness : kGossipPort = kGossipPort ∧ 3 = 3.
Proof.
  apply (sockets_disjoint kGossipPort kGossipPort 3 3).
  - by apply (bool_decide_unpack _).
  - by apply (bool_decide_unpack _).
  - lia.
  - lia.
  - reflexivity.
Defined.
