(* ===== verification/Metadata.v ===== *)
(** Metadata (include/metadata.hpp and the key functions of
    common/include/common.hpp): the names under which the system stores its own
    data in the store, and the replication vectors of the keys. *)

From S2P Require Import Prelude Text Wire Threads.
From Stdlib Require Import Ascii Lia.

(** ** Run-time configuration: the globals [main] fills from the YAML file *)

Module TierMetadata.
Record t := mk { id_ : Tier; thread_number_ : Z; default_replication_ : Z; node_capacity_ : Z }.
(** The default constructor, what [kTierMetadata[tier]] creates. *)
Definition empty : t := mk MEMORY 1 1 0.
End TierMetadata.

Record Config := mkConfig {
  kSelfTier : Tier;
  kThreadNum : Z;
  kMemoryThreadCount : Z;
  kEbsThreadCount : Z;
  kRoutingThreadCount : Z;
  kDefaultLocalReplication : Z;
  kMinimumReplicaNumber : Z;
  kTierMetadata : gmap Tier TierMetadata.t;
}.

Definition kSelfTierIdVector (c : Config) : list Tier := [kSelfTier c].
Definition kAllTiers : list Tier := [MEMORY; DISK].

Definition kMetadataReplicationFactor : Z := 1.
Definition kVirtualThreadNum : Z := 3000.

(** ** Key names *)

Definition kMetadataIdentifier : string := "ANNA_METADATA".
Definition kMetadataDelimiter : string := "|".
Definition kMetadataDelimiterChar : ascii := "|".
Definition kMetadataTypeReplication : string := "replication".
Definition kMetadataTypeCacheIP : string := "cache_ip".

Inductive MetadataType := replication | server_stats | key_access | key_size.
Inductive UserMetadataType := cache_ip.

(** [v[0]] of an empty key is an index past the end of an empty vector. *)
Definition is_metadata (key : Key) : outcome bool :=
  v0 ← vector_at (split key "|") 0;
  Ok (bool_decide (v0 = kMetadataIdentifier)).

Definition get_metadata_key_thread (st : ServerThread.t) (tier_id : Tier) (thread_num : Z)
    (type : MetadataType) : Key :=
  let named metadata_type :=
    kMetadataIdentifier +:+ kMetadataDelimiter +:+ metadata_type +:+ kMetadataDelimiter +:+
    ServerThread.public_ip st +:+ kMetadataDelimiter +:+ ServerThread.private_ip st +:+
    kMetadataDelimiter +:+ to_string thread_num +:+ kMetadataDelimiter +:+ Tier_Name tier_id in
  match type with
  | server_stats => named "stats"
  | key_access => named "access"
  | key_size => named "size"
  | replication => ""
  end.

Definition get_metadata_key (data_key : Key) (type : MetadataType) : Key :=
  match type with
  | replication =>
      kMetadataIdentifier +:+ kMetadataDelimiter +:+ kMetadataTypeReplication +:+
      kMetadataDelimiter +:+ data_key
  | _ => ""
  end.

Definition get_user_metadata_key (data_key : Key) (type : UserMetadataType) : Key :=
  match type with
  | cache_ip =>
      kMetadataIdentifier +:+ kMetadataDelimiter +:+ kMetadataTypeCacheIP +:+
      kMetadataDelimiter +:+ data_key
  end.

(** [get_key_from_metadata] and [get_key_from_user_metadata] differ only in
    the type they expect between the first two delimiters.  [find] returns
    [npos] when there is no further delimiter and [npos + 1] wraps to 0. *)
Definition key_after_type (expected : string) (metadata_key : Key) : Key :=
  let n_id := find metadata_key kMetadataDelimiterChar 0 in
  let n_type := find metadata_key kMetadataDelimiterChar (u64 (n_id + 1)) in
  let metadata_type :=
    substr metadata_key (u64 (n_id + 1)) (u64 (n_type - u64 (n_id + 1))) in
  if bool_decide (metadata_type = expected) then substr metadata_key (u64 (n_type + 1)) npos
  else "".

Definition get_key_from_metadata (metadata_key : Key) : Key :=
  key_after_type kMetadataTypeReplication metadata_key.

Definition get_key_from_user_metadata (metadata_key : Key) : Key :=
  key_after_type kMetadataTypeCacheIP metadata_key.

Definition split_metadata_key (key : Key) : list string := split key kMetadataDelimiterChar.

(** ** Replication vectors *)

Record KeyReplication := mkKeyReplication {
  global_replication_ : gmap Tier Z;
  local_replication_ : gmap Tier Z;
}.

#[export] Instance KeyReplication_eq_dec : EqDecision KeyReplication.
Proof. solve_decision. Defined.

(** What [key_replication_map[key]] creates for a key it does not hold. *)
Definition no_replication : KeyReplication := mkKeyReplication ∅ ∅.

Definition set_global_replication (tier : Tier) (n : Z) (rep : KeyReplication) : KeyReplication :=
  mkKeyReplication (<[tier := n]> (global_replication_ rep)) (local_replication_ rep).
Definition set_local_replication (tier : Tier) (n : Z) (rep : KeyReplication) : KeyReplication :=
  mkKeyReplication (global_replication_ rep) (<[tier := n]> (local_replication_ rep)).

(** [rep.global_replication_[tier]], read. *)
Definition global_rep (rep : KeyReplication) (tier : Tier) : Z :=
  map_get 0 (global_replication_ rep) tier.
Definition local_rep (rep : KeyReplication) (tier : Tier) : Z :=
  map_get 0 (local_replication_ rep) tier.

Record KeyProperty := mkKeyProperty { size_ : Z; type_ : LatticeType }.

#[export] Instance KeyProperty_eq_dec : EqDecision KeyProperty.
Proof. solve_decision. Defined.

(** [operator==(const KeyReplication &, const KeyReplication &)]: every entry
    of the left operand is looked up in the right one. *)
Definition entries_match (l r : gmap Tier Z) : bool :=
  forallb (λ p : Tier * Z,
    match r !! p.1 with
    | None => false
    | Some v => bool_decide (p.2 = v)
    end) (map_to_list l).

Definition KeyReplication_eqb (lhs rhs : KeyReplication) : bool :=
  entries_match (global_replication_ lhs) (global_replication_ rhs) &&
  entries_match (local_replication_ lhs) (local_replication_ rhs).

Definition tier_default_replication (c : Config) (tier : Tier) : Z :=
  TierMetadata.default_replication_ (map_get TierMetadata.empty (kTierMetadata c) tier).

Definition init_replication (c : Config) (key_replication_map : gmap Key KeyReplication)
    (key : Key) : gmap Key KeyReplication :=
  foldl (λ m tier,
    let rep := map_get no_replication m key in
    let rep := set_global_replication tier (tier_default_replication c tier) rep in
    let rep := set_local_replication tier (kDefaultLocalReplication c) rep in
    <[key := rep]> m) key_replication_map kAllTiers.

(** The eight-character name of the [i]-th warm-up key,
    [string(8 - to_string(i).length(), '0') + to_string(i)]. *)
Fixpoint zeros (n : nat) : string :=
  match n with O => "" | S n => String "0" (zeros n) end.
Definition warmup_key (i : Z) : Key :=
  zeros (8 - String.length (to_string i)) +:+ to_string i.

Definition warmup_key_replication_map_to_defaults (key_replication_map : gmap Key KeyReplication)
    (kDefaultGlobalMemoryReplication kDefaultGlobalEbsReplication kDefaultLocalReplication : Z)
    : gmap Key KeyReplication :=
  foldl (λ m i,
    let rep := map_get no_replication m (warmup_key i) in
    let rep := set_global_replication MEMORY kDefaultGlobalMemoryReplication rep in
    let rep := set_global_replication DISK kDefaultGlobalEbsReplication rep in
    let rep := set_local_replication MEMORY kDefaultLocalReplication rep in
    let rep := set_local_replication DISK kDefaultLocalReplication rep in
    <[warmup_key i := rep]> m) key_replication_map (seqZ 1 1000000).

(** *** Properties of key names *)

(** A [std::string] is shorter than [max_size()], which is below 2^63. *)
Definition string_fits (s : string) : Prop := Z.of_nat (String.length s) < 2 ^ 63.

Lemma find_at (p s : string) (c : ascii) (t : string) :
  has_char c s = false →
  find (p +:+ s +:+ String c t) c (Z.of_nat (String.length p))
  = Z.of_nat (String.length p + String.length s).
Proof.
  intros Hs. unfold find. rewrite Nat2Z.id, substring_skip.
  - rewrite find_char_app by done. lia.
  - rewrite !length_append. lia.
Qed.

Lemma substr_mid (p s t : string) :
  substr (p +:+ s +:+ t) (Z.of_nat (String.length p)) (Z.of_nat (String.length s)) = s.
Proof.
  unfold substr. rewrite Nat2Z.id.
  replace (Z.to_nat _) with (String.length s) by (rewrite !length_append; lia).
  induction p as [|a p IH]; [|exact IH].
  rewrite append_nil_l. apply substring_prefix.
Qed.

Lemma substr_rest (p t : string) (len : Z) :
  Z.of_nat (String.length t) ≤ len →
  substr (p +:+ t) (Z.of_nat (String.length p)) len = t.
Proof.
  intros Hlen. unfold substr. rewrite Nat2Z.id. apply substring_skip.
  rewrite length_append. lia.
Qed.

Lemma key_after_type_name id ty expected (key : Key) :
  has_char "|" id = false → has_char "|" ty = false →
  string_fits (id +:+ "|" +:+ ty +:+ "|" +:+ key) →
  key_after_type expected (id +:+ "|" +:+ ty +:+ "|" +:+ key) =
    if bool_decide (ty = expected) then key else "".
Proof.
  unfold string_fits. intros Hid Hty Hfit. rewrite !length_append in Hfit.
  change (String.length "|") with 1%nat in Hfit.
  unfold key_after_type, kMetadataDelimiterChar.
  assert (find (id +:+ "|" +:+ ty +:+ "|" +:+ key) "|" 0 = Z.of_nat (String.length id)) as ->.
  { apply (find_at "" id "|" (ty +:+ "|" +:+ key) Hid). }
  rewrite (u64_id (Z.of_nat (String.length id) + 1)) by (unfold is_u64; lia).
  assert (Z.of_nat (String.length id) + 1 = Z.of_nat (String.length (id +:+ "|"))) as Hp1.
  { rewrite length_append. simpl. lia. }
  assert (id +:+ "|" +:+ ty +:+ "|" +:+ key = (id +:+ "|") +:+ ty +:+ String "|" key) as Hs.
  { by rewrite append_assoc. }
  rewrite Hp1, Hs, find_at by done. clear Hs.
  set (p := id +:+ "|") in *.
  rewrite (u64_id (_ - _)) by (unfold is_u64; lia).
  replace (Z.of_nat (String.length p + String.length ty) - Z.of_nat (String.length p))
    with (Z.of_nat (String.length ty)) by lia.
  rewrite substr_mid. case_bool_decide; [|done].
  rewrite u64_id by (unfold is_u64; lia).
  assert (p +:+ ty +:+ String "|" key = (p +:+ ty +:+ "|") +:+ key) as ->.
  { by rewrite !append_assoc. }
  replace (Z.of_nat (String.length p + String.length ty) + 1)
    with (Z.of_nat (String.length (p +:+ ty +:+ "|"))).
  2:{ rewrite !length_append. change (String.length "|") with 1%nat. lia. }
  apply substr_rest. unfold npos. lia.
Qed.

(** A replication key gives back the data key it was made from, also when the
    data key itself contains delimiters. *)
Lemma get_key_from_metadata_inverse (key : Key) :
  string_fits (get_metadata_key key replication) →
  get_key_from_metadata (get_metadata_key key replication) = key.
Proof. intros Hfit. by apply (key_after_type_name kMetadataIdentifier kMetadataTypeReplication). Qed.

Lemma get_key_from_user_metadata_inverse (key : Key) :
  string_fits (get_user_metadata_key key cache_ip) →
  get_key_from_user_metadata (get_user_metadata_key key cache_ip) = key.
Proof. intros Hfit. by apply (key_after_type_name kMetadataIdentifier kMetadataTypeCacheIP). Qed.

(** Neither function takes the other's keys for its own. *)
Lemma get_key_from_metadata_user_key (key : Key) :
  string_fits (get_user_metadata_key key cache_ip) →
  get_key_from_metadata (get_user_metadata_key key cache_ip) = "".
Proof. intros Hfit. by apply (key_after_type_name kMetadataIdentifier kMetadataTypeCacheIP). Qed.

Definition server_key_type (type : MetadataType) : option string :=
  match type with
  | server_stats => Some "stats"
  | key_access => Some "access"
  | key_size => Some "size"
  | replication => None
  end.

Lemma Tier_Name_word t : has_char "|" (Tier_Name t) = false ∧ Tier_Name t ≠ "".
Proof. by destruct t. Qed.

Lemma split_metadata_key_thread (st : ServerThread.t) (tier : Tier) (tid : Z) type ty :
  server_key_type type = Some ty →
  has_char "|" (ServerThread.public_ip st) = false →
  has_char "|" (ServerThread.private_ip st) = false → 0 ≤ tid →
  split_metadata_key (get_metadata_key_thread st tier tid type) =
    [kMetadataIdentifier; ty; ServerThread.public_ip st; ServerThread.private_ip st;
     to_string tid; Tier_Name tier].
Proof.
  intros Hty Hpub Hpriv Htid.
  assert (has_char "|" ty = false) by (destruct type; simplify_eq/=; done).
  destruct (Tier_Name_word tier).
  rewrite <-(split_join "|" [kMetadataIdentifier; ty; ServerThread.public_ip st;
    ServerThread.private_ip st; to_string tid; Tier_Name tier]); [|done| |simpl; congruence].
  - by destruct type; simplify_eq/=.
  - repeat constructor; auto using to_string_has_char.
Qed.

Lemma is_metadata_prefix rest :
  is_metadata (kMetadataIdentifier +:+ kMetadataDelimiter +:+ rest) = Ok true.
Proof.
  unfold is_metadata. unfold kMetadataDelimiter. rewrite append_cons, append_nil_l.
  by rewrite split_delim.
Qed.

(** [is_metadata] returns for every key but the empty one. *)
Lemma is_metadata_total (key : Key) : key ≠ "" → ∃ b, is_metadata key = Ok b.
Proof.
  destruct key as [|c key]; [done|]. intros _. unfold is_metadata. simpl.
  case_bool_decide; simpl; [eauto|].
  destruct (split key "|"); simpl; eauto.
Qed.

Lemma entries_match_spec (l r : gmap Tier Z) : entries_match l r = true ↔ l ⊆ r.
Proof.
  unfold entries_match. rewrite forallb_forall, map_subseteq_spec. split.
  - intros H k v Hl. specialize (H (k, v)). simpl in H.
    rewrite <-list_elem_of_In, elem_of_map_to_list in H. specialize (H Hl).
    destruct (r !! k); [|done]. by apply bool_decide_eq_true in H as ->.
  - intros H [k v] Hin%list_elem_of_In%elem_of_map_to_list. simpl.
    rewrite (H k v Hin). by apply bool_decide_eq_true.
Qed.

(** The comparison is inclusion, so it is symmetric only on vectors that name
    the same tiers. *)
Lemma KeyReplication_eqb_spec (lhs rhs : KeyReplication) :
  KeyReplication_eqb lhs rhs = true ↔
  global_replication_ lhs ⊆ global_replication_ rhs ∧
  local_replication_ lhs ⊆ local_replication_ rhs.
Proof. unfold KeyReplication_eqb. by rewrite andb_true_iff, !entries_match_spec. Qed.

Definition full_replication (rep : KeyReplication) : Prop :=
  dom (global_replication_ rep) = {[MEMORY; DISK]} ∧
  dom (local_replication_ rep) = {[MEMORY; DISK]}.

Lemma subseteq_same_dom (l r : gmap Tier Z) : l ⊆ r → dom l = dom r → l = r.
Proof.
  intros Hsub Hdom. apply map_eq. intros k. destruct (l !! k) as [v|] eqn:Hk.
  - symmetry. by eapply lookup_weaken.
  - symmetry. apply not_elem_of_dom. rewrite <-Hdom. by apply not_elem_of_dom.
Qed.

Lemma KeyReplication_eqb_full (lhs rhs : KeyReplication) :
  full_replication lhs → full_replication rhs →
  KeyReplication_eqb lhs rhs = true ↔ lhs = rhs.
Proof.
  intros [Hg Hl] [Hg' Hl']. rewrite KeyReplication_eqb_spec. split.
  - intros [Hsg Hsl]. destruct lhs as [g l], rhs as [g' l']; simpl in *.
    f_equal; apply subseteq_same_dom; (done || by etrans).
  - intros ->. done.
Qed.

Lemma init_replication_other c m key k :
  k ≠ key → init_replication c m key !! k = m !! k.
Proof. intros Hk. unfold init_replication. simpl. by rewrite !lookup_insert_ne. Qed.

(** After [init_replication] the key has the default vector of every tier. *)
Lemma init_replication_spec c m key tier :
  tier ∈ kAllTiers →
  let rep := map_get no_replication (init_replication c m key) key in
  global_rep rep tier = tier_default_replication c tier ∧
  local_rep rep tier = kDefaultLocalReplication c.
Proof.
  intros Htier. unfold init_replication. simpl. rewrite !map_get_insert_eq.
  unfold global_rep, local_rep, set_global_replication, set_local_replication. simpl.
  repeat (apply elem_of_cons in Htier as [->|Htier]); [| |by apply elem_of_nil in Htier];
    by rewrite ?map_get_insert_eq, ?(map_get_insert_ne _ _ DISK MEMORY), ?map_get_insert_eq.
Qed.

(** A replication metadata key gives back the data key it was made from,
    also when that key contains delimiters; keys of the two kinds are not
    mistaken for each other; and every such key is recognised as metadata. *)
Theorem metadata_key_roundtrip (key : Key) :
  string_fits (get_metadata_key key replication) → string_fits (get_user_metadata_key key cache_ip) →
  get_key_from_metadata (get_metadata_key key replication) = key ∧
  get_key_from_user_metadata (get_user_metadata_key key cache_ip) = key ∧
  get_key_from_metadata (get_user_metadata_key key cache_ip) = "" ∧
  is_metadata (get_metadata_key key replication) = Ok true ∧
  is_metadata (get_user_metadata_key key cache_ip) = Ok true.
Proof.
  intros H1 H2. split_and!.
  - by apply get_key_from_metadata_inverse.
  - by apply get_key_from_user_metadata_inverse.
  - by apply get_key_from_metadata_user_key.
  - apply is_metadata_prefix.
  - apply is_metadata_prefix.
Qed.

Lemma metadata_key_roundtrip_witness :
  get_key_from_metadata (get_metadata_key "a|b" replication) = "a|b".
Proof.
  apply (metadata_key_roundtrip "a|b"); unfold string_fits; vm_compute; reflexivity.
Defined.

(** The statistics keys of a server thread split into the fields the
    monitor reads back: type, public IP, private IP, thread id (read with
    [stoi]) and tier. *)
Theorem server_metadata_key_roundtrip (st : ServerThread.t) (tier : Tier) (tid : Z) type ty :
  server_key_type type = Some ty →
  has_char "|" (ServerThread.public_ip st) = false →
  has_char "|" (ServerThread.private_ip st) = false → 0 ≤ tid ≤ INT_MAX →
  ∃ tid_s, split_metadata_key (get_metadata_key_thread st tier tid type) =
    [kMetadataIdentifier; ty; ServerThread.public_ip st; ServerThread.private_ip st; tid_s; Tier_Name tier] ∧
    stoi tid_s = Ok tid ∧ Tier_Parse (Tier_Name tier) = Some tier.
Proof.
  intros Hty Hpub Hpriv Htid. exists (to_string tid). split_and!.
  - apply split_metadata_key_thread; [done..|lia].
  - by apply stoi_to_string.
  - apply Tier_Parse_Name.
Qed.

Lemma server_metadata_key_roundtrip_witness :
  ∃ tid_s, split_metadata_key
      (get_metadata_key_thread (ServerThread.new "1.2.3.4" "10.0.0.1" 3) DISK 3 key_size) =
    [kMetadataIdentifier; "size"; "1.2.3.4"; "10.0.0.1"; tid_s; "DISK"] ∧
    stoi tid_s = Ok 3 ∧ Tier_Parse "DISK" = Some DISK.
Proof.
  apply (server_metadata_key_roundtrip (ServerThread.new "1.2.3.4" "10.0.0.1" 3) DISK 3 key_size "size").
  - reflexivity.
  - reflexivity.
  - reflexivity.
  - unfold INT_MAX. lia.
Defined.

(** Comparing replication vectors is inclusion of their entries; on vectors
    that name both tiers, as [init_replication] makes them, it is equality, and
    [init_replication] gives a key the defaults of every tier. *)
Theorem replication_vectors (c : Config) (m : gmap Key KeyReplication) (key : Key) (lhs rhs : KeyReplication) :
  (KeyReplication_eqb lhs rhs = true ↔
     global_replication_ lhs ⊆ global_replication_ rhs ∧ local_replication_ lhs ⊆ local_replication_ rhs) ∧
  (full_replication lhs → full_replication rhs → (KeyReplication_eqb lhs rhs = true ↔ lhs = rhs)) ∧
  (∀ tier, tier ∈ kAllTiers →
     let rep := map_get no_replication (init_replication c m key) key in
     global_rep rep tier = tier_default_replication c tier ∧
     local_rep rep tier = kDefaultLocalReplication c) ∧
  (∀ k, k ≠ key → init_replication c m key !! k = m !! k).
Proof.
  split_and!.
  - apply KeyReplication_eqb_spec.
  - apply KeyReplication_eqb_full.
  - intros tier Htier. by apply init_replication_spec.
  - intros k Hk. by apply init_replication_other.
Qed.
