(* ===== verification/KVStore.v ===== *)
(** The in-memory store of a server thread: [KVStore<K, V>]
    (include/kvs/base_kv_store.hpp), the [Serializer] interface and its six
    in-memory implementations (include/kvs/server_utils.hpp). *)

From S2P Require Import Prelude Ordered Lattices ValueLattices Wire WireCodec Codec.
From Stdlib Require Import Lia SpecFloat.
Import LWWPairLattice(TimestampValuePair) PriorityLattice(PriorityValuePair)
  SingleKeyCausalLattice(VectorClockValuePair) MultiKeyCausalLattice(MultiKeyCausalPayload).

(** ** KVStore<K, V>: a [MapLattice] behind [get]/[put]/[size]/[remove] *)
Module KVStore.
Section store.
Context {V : Type} `{Lattice V}.
Implicit Types db : gmap Key V.

(** [error] is an in/out argument: the caller's value is kept unless the key
    is missing.  [db.at(k)] creates the key it reads. *)
Definition get (k : Key) (error : AnnaError) db : V * AnnaError * gmap Key V :=
  let error := if negb (MapLattice.contains db k) then KEY_DNE else error in
  let '(v, db) := MapLattice.at_ db k in
  (v, error, db).

Definition put (k : Key) (v : V) db : gmap Key V :=
  let '(old, db) := MapLattice.at_ db k in
  <[k := do_merge old v]> db.

Definition size (vsize : V → Z) (k : Key) db : Z * gmap Key V :=
  let '(v, db) := MapLattice.at_ db k in
  (vsize v, db).

Definition remove (k : Key) db : gmap Key V := MapLattice.remove db k.

(** The value of a key: the bottom element when the key is missing. *)
Definition view db (k : Key) : V := map_get bot db k.

Lemma get_value k e db : (get k e db).1.1 = view db k.
Proof. done. Qed.

Lemma get_error k e db :
  (get k e db).1.2 = if decide (is_Some (db !! k)) then e else KEY_DNE.
Proof. unfold get, MapLattice.contains. simpl. by case_bool_decide; case_decide. Qed.

Lemma get_view k e db k' : view (get k e db).2 k' = view db k'.
Proof. apply map_touch_get. Qed.

Lemma get_creates k e db : is_Some ((get k e db).2 !! k).
Proof. simpl. rewrite map_touch_same. eauto. Qed.

Lemma put_view k v db k' :
  view (put k v db) k' = if decide (k' = k) then do_merge (view db k) v else view db k'.
Proof.
  unfold put, view, MapLattice.at_. case_decide as Hk; [subst|].
  - by rewrite map_get_insert_eq.
  - rewrite map_get_insert_ne by done. by rewrite map_touch_get.
Qed.

Lemma put_creates k v db : is_Some (put k v db !! k).
Proof. unfold put, MapLattice.at_. rewrite lookup_insert_eq. eauto. Qed.

Lemma size_view vsize k db k' : view (size vsize k db).2 k' = view db k'.
Proof. apply map_touch_get. Qed.

Lemma remove_view k db k' :
  view (remove k db) k' = if decide (k' = k) then bot else view db k'.
Proof.
  unfold remove, view, map_get. rewrite MapLattice.remove_spec, lookup_delete.
  by repeat case_decide; subst.
Qed.

(** A read does not lose the keys a store has, and creates only the key it
    reads. *)
Lemma get_dom k e db : dom (get k e db).2 = {[k]} ∪ dom db.
Proof. simpl. unfold map_touch. apply dom_insert_L. Qed.
End store.
End KVStore.

(** ** The [Serializer] interface

    [get] returns the serialized value and the caller's [error], [put] the
    size that [stored_key_map] records. *)
Record Serializer (St : Type) := mkSerializer {
  ser_get : Key → AnnaError → St → string * AnnaError * St;
  ser_put : Key → string → St → Z * St;
  ser_remove : Key → St → St;
}.
Arguments mkSerializer {St} _ _ _.
Arguments ser_get {St} _ _ _ _.
Arguments ser_put {St} _ _ _ _.
Arguments ser_remove {St} _ _ _.

(** What a serializer promises to the server: its state represents a value of
    the lattice for each key ([view]); [put] merges the payload into the value
    of its key and leaves the others alone; [get] changes no value, and what it
    returns without an error decodes to the value of the key; [remove] resets
    the key.  [inv] is the implementation's own invariant and [accepts] the
    payloads it expects. *)
Class SerializerLaws {St V : Type} `{Lattice V} (S : Serializer St) (inv : St → Prop)
    (view : St → Key → V) (decode : string → V) (accepts : string → Prop) : Prop := {
  law_put_inv st k s : inv st → inv (ser_put S k s st).2;
  law_get_inv st k e : inv st → inv (ser_get S k e st).2;
  law_remove_inv st k : inv st → inv (ser_remove S k st);
  law_put_view st k s k' : inv st → accepts s →
    view (ser_put S k s st).2 k' =
      if decide (k' = k) then do_merge (view st k) (decode s) else view st k';
  law_get_view st k e k' : inv st → view (ser_get S k e st).2 k' = view st k';
  law_get_value st k e : inv st → e ≠ KEY_DNE → (ser_get S k e st).1.2 ≠ KEY_DNE →
    (ser_get S k e st).1.2 = e ∧ decode (ser_get S k e st).1.1 = view st k;
  law_remove_view st k k' : inv st →
    view (ser_remove S k st) k' = if decide (k' = k) then bot else view st k';
}.

(** The requests a serializer serves, as a sequence. *)
Inductive StoreOp :=
  | OpGet (k : Key)
  | OpPut (k : Key) (payload : string)
  | OpRemove (k : Key).

Definition run_op {St} (S : Serializer St) (st : St) (op : StoreOp) : St :=
  match op with
  | OpGet k => (ser_get S k NO_ERROR st).2
  | OpPut k s => (ser_put S k s st).2
  | OpRemove k => ser_remove S k st
  end.
Definition run_ops {St} (S : Serializer St) : St → list StoreOp → St := foldl (run_op S).

(** The abstract store: one lattice value per key. *)
Definition spec_op {V} `{Lattice V} (decode : string → V) (f : Key → V) (op : StoreOp) : Key → V :=
  match op with
  | OpGet _ => f
  | OpPut k s => λ k', if decide (k' = k) then do_merge (f k) (decode s) else f k'
  | OpRemove k => λ k', if decide (k' = k) then bot else f k'
  end.
Definition spec_ops {V} `{Lattice V} (decode : string → V) : (Key → V) → list StoreOp → Key → V :=
  foldl (spec_op decode).

(** A serializer that keeps the interface's promises refines the abstract
    store. *)
Section refines.
Context {St V : Type} `{Lattice V} (S : Serializer St) (inv : St → Prop).
Context (view : St → Key → V) (decode : string → V) (accepts : string → Prop).
Context `{!SerializerLaws S inv view decode accepts}.

Definition op_accepted (op : StoreOp) : Prop :=
  match op with OpPut _ s => accepts s | _ => True end.

Lemma run_op_refines st op f :
  op_accepted op → inv st → (∀ k, view st k = f k) →
  inv (run_op S st op) ∧ ∀ k, view (run_op S st op) k = spec_op decode f op k.
Proof.
  intros Hop Hi Hf. destruct op as [k|k s|k]; simpl; (split; [|intros k']).
  - by eapply law_get_inv.
  - by erewrite law_get_view.
  - by eapply law_put_inv.
  - erewrite law_put_view by done. by rewrite !Hf.
  - by eapply law_remove_inv.
  - erewrite law_remove_view by done. by rewrite Hf.
Qed.

Lemma run_ops_refines ops st f :
  Forall op_accepted ops → inv st → (∀ k, view st k = f k) →
  inv (run_ops S st ops) ∧ ∀ k, view (run_ops S st ops) k = spec_ops decode f ops k.
Proof.
  revert st f. induction ops as [|op ops IH]; intros st f Hops Hi Hf; [done|].
  apply Forall_cons in Hops as [Hop Hops].
  destruct (run_op_refines st op f Hop Hi Hf) as [Hi' Hf']. by apply IH.
Qed.
End refines.

(** ** The in-memory serializers

    Each owns one [KVStore]; they differ in the payload's encoding and in what
    they call an empty value. *)
Section memory.
Context {V : Type} `{Lattice V}.
Context (encode : V → string) (decode : string → V) (vsize : V → Z).

(** [auto val = kvs_->get(key, error); if (missing(val)) error = KEY_DNE;
    return serialize(val);] *)
Definition memory_get (missing : V → bool) (key : Key) (error : AnnaError) (kvs : gmap Key V)
    : string * AnnaError * gmap Key V :=
  let '(val, error, kvs) := KVStore.get key error kvs in
  (encode val, if missing val then KEY_DNE else error, kvs).

Definition memory_put (key : Key) (serialized : string) (kvs : gmap Key V) : Z * gmap Key V :=
  let val := decode serialized in
  let kvs := KVStore.put key val kvs in
  KVStore.size vsize key kvs.

Definition memory_serializer (missing : V → bool) : Serializer (gmap Key V) :=
  mkSerializer (memory_get missing) memory_put KVStore.remove.

(** The values a store can hold and the encoding carries. *)
Context (good : V → Prop).
Hypothesis good_bot : good bot.
Hypothesis good_put : ∀ v s, good v → good (do_merge v (decode s)).
Hypothesis decode_encode : ∀ v, good v → decode (encode v) = v.

Definition memory_inv (kvs : gmap Key V) : Prop := map_Forall (λ _, good) kvs.

Lemma memory_view_good kvs k : memory_inv kvs → good (KVStore.view kvs k).
Proof.
  intros Hi. unfold KVStore.view, map_get. destruct (kvs !! k) eqn:Hk; [|done]. by eapply Hi.
Qed.

Lemma memory_laws missing :
  SerializerLaws (memory_serializer missing) memory_inv KVStore.view decode (λ _, True).
Proof.
  split; simpl.
  - intros st k s Hi. pose proof (memory_view_good st k Hi).
    unfold KVStore.put, MapLattice.at_. simpl. unfold map_touch.
    repeat apply map_Forall_insert_2; rewrite ?map_get_insert_eq; eauto.
  - intros st k e Hi. apply map_Forall_insert_2; [|done]. by apply memory_view_good.
  - intros st k Hi. unfold KVStore.remove. rewrite MapLattice.remove_spec.
    by apply map_Forall_delete.
  - intros st k s k' Hi _. etrans; [apply (KVStore.size_view vsize)|]. apply KVStore.put_view.
  - intros st k e k' _. apply (KVStore.get_view k e).
  - intros st k e Hi He. destruct (missing _); [done|].
    destruct (MapLattice.contains st k); simpl; [|done].
    intros _. split; [done|]. apply decode_encode. by apply memory_view_good.
  - intros st k k' _. apply KVStore.remove_view.
Qed.

(** Where the bottom element counts as missing, the error of a [get] is a
    function of the key's value. *)
Lemma memory_get_error missing k st :
  missing bot = true →
  (memory_get missing k NO_ERROR st).1.2 =
    if missing (KVStore.view st k) then KEY_DNE else NO_ERROR.
Proof.
  intros Hbot. simpl. change (map_get bot st k) with (KVStore.view st k).
  destruct (missing (KVStore.view st k)) eqn:Hm; [done|].
  unfold MapLattice.contains. case_bool_decide as Hk; [done|].
  unfold KVStore.view, map_get in Hm. apply eq_None_not_Some in Hk. rewrite Hk in Hm.
  simpl in Hm. congruence.
Qed.
End memory.

(** The envelope of the payload theorems: every payload is one the protobuf
    library carries (its texts are UTF-8 and its size is below 2 GB). *)
Class PayloadsCarried `{PayloadLaws} : Prop := {
  all_lww m : carries_lww m;
  all_set m : carries_set m;
  all_sk m : carries_sk m;
  all_mk m : carries_mk m;
  all_priority m : carries_priority m;
}.

Lemma bit_payloads_carried : @PayloadsCarried bit_protobuf bit_payload_laws.
Proof. by split. Qed.

Section memory_serializers.
Context `{Protobuf}.

(** MemoryLWWSerializer *)
Definition lww_missing (val : TimestampValuePair string) : bool :=
  bool_decide (LWWPairLattice.value val = "").
Definition MemoryLWWSerializer : Serializer (gmap Key (TimestampValuePair string)) :=
  memory_serializer serialize_lww deserialize_lww LWWPairLattice.size
    lww_missing.

(** MemorySetSerializer *)
Definition MemorySetSerializer : Serializer (gmap Key (gset string)) :=
  memory_serializer serialize_set deserialize_set SetLattice.size
    (λ val, bool_decide (SetLattice.size val = 0)).

(** MemoryOrderedSetSerializer: its [get] has no test of its own. *)
Definition MemoryOrderedSetSerializer : Serializer (gmap Key (list string)) :=
  memory_serializer serialize_ordered_set deserialize_ordered_set OrderedSetLattice.size
    (λ _, false).

(** MemorySingleKeyCausalSerializer *)
Definition MemorySingleKeyCausalSerializer
    : Serializer (gmap Key (VectorClockValuePair (gset string))) :=
  memory_serializer serialize_causal
    (λ s, to_vector_clock_value_pair (deserialize_causal s)) SingleKeyCausalLattice.size
    (λ val, bool_decide (SetLattice.size (SingleKeyCausalLattice.value val) = 0)).

(** MemoryMultiKeyCausalSerializer *)
Definition MemoryMultiKeyCausalSerializer
    : Serializer (gmap Key (MultiKeyCausalPayload (gset string))) :=
  memory_serializer serialize_multi_key_causal
    (λ s, to_multi_key_causal_payload (deserialize_multi_key_causal s)) MultiKeyCausalLattice.size
    (λ val, bool_decide (SetLattice.size (MultiKeyCausalLattice.value val) = 0)).

(** MemoryPrioritySerializer *)
Definition MemoryPrioritySerializer
    : Serializer (gmap Key (PriorityValuePair spec_float string)) :=
  memory_serializer serialize_priority deserialize_priority PriorityLattice.size
    (λ val, bool_decide (PriorityLattice.value val = "")).
End memory_serializers.

Definition any {A} (_ : A) : Prop := True.

Section memory_serializers_laws.
Context `{PayloadsCarried}.

Lemma memory_lww_laws :
  SerializerLaws MemoryLWWSerializer (memory_inv any) KVStore.view deserialize_lww
    (λ _, True).
Proof. apply memory_laws; [done..|]. intros. apply lww_roundtrip, all_lww. Qed.

Lemma memory_set_laws :
  SerializerLaws MemorySetSerializer (memory_inv any) KVStore.view deserialize_set
    (λ _, True).
Proof. apply memory_laws; [done..|]. intros. apply set_roundtrip, all_set. Qed.

Lemma memory_ordered_set_laws :
  SerializerLaws MemoryOrderedSetSerializer (memory_inv OrderedSetLattice.sorted)
    KVStore.view deserialize_ordered_set
    (λ _, True).
Proof.
  apply memory_laws.
  - constructor.
  - intros. by apply OrderedSetLattice.do_merge_sorted.
  - intros. apply ordered_set_roundtrip; [done|]. apply all_set.
Qed.

Lemma memory_sk_laws :
  SerializerLaws MemorySingleKeyCausalSerializer (memory_inv any) KVStore.view
    (λ s, to_vector_clock_value_pair (deserialize_causal s)) (λ _, True).
Proof. apply memory_laws; [done..|]. intros. apply causal_roundtrip, all_sk. Qed.

Lemma memory_mk_laws :
  SerializerLaws MemoryMultiKeyCausalSerializer (memory_inv any) KVStore.view
    (λ s, to_multi_key_causal_payload (deserialize_multi_key_causal s)) (λ _, True).
Proof. apply memory_laws; [done..|]. intros. apply multi_key_causal_roundtrip, all_mk. Qed.

Lemma memory_priority_laws :
  SerializerLaws MemoryPrioritySerializer (memory_inv any) KVStore.view deserialize_priority
    (λ _, True).
Proof. apply memory_laws; [done..|]. intros. apply priority_roundtrip, all_priority. Qed.
End memory_serializers_laws.
