(* ===== verification/DiskStore.v ===== *)
(** The on-disk store of a server thread: the six [Disk*Serializer] classes of
    include/kvs/server_utils.hpp, one file per key under the thread's
    directory. *)

From S2P Require Import Prelude Text Ordered Lattices ValueLattices Wire WireCodec Codec.
From S2P Require Import KVStore.
From Stdlib Require Import Ascii Lia SpecFloat.
Import LWWPairLattice(TimestampValuePair) SingleKeyCausalLattice(VectorClockValuePair)
  MultiKeyCausalLattice(MultiKeyCausalPayload).

(** The files of the machine: the bytes stored under a path. *)
Abbreviation FileSystem := (gmap string string).

(** The [ebs] entry of the configuration, with a final slash. *)
Definition ebs_root_of (conf : string) : outcome string :=
  match String.length conf with
  | O => Fail (UndefinedBehaviour "back() of an empty string")
  | S n => Ok (if bool_decide (String.get n conf = Some "/"%char) then conf else conf +:+ "/")
  end.

Section disk.
(** [can_open path]: the operating system lets the process open [path] for
    writing, creating it if need be. *)
Context (can_open : string → bool) (ebs_root_ : string) (tid_ : Z).

Definition fname (key : Key) : string :=
  ebs_root_ +:+ "ebs_" +:+ to_string tid_ +:+ "/" +:+ key.

Lemma fname_inj k k' : fname k = fname k' → k = k'.
Proof.
  unfold fname. intros Heq. by repeat apply (inj (String.append _)) in Heq.
Qed.

(** [std::fstream output(fname, out | trunc | binary);
    msg.SerializeToOstream(&output); return output.tellp();]
    The position of a stream that failed to open is -1. *)
Definition write_message {A} `{Proto A} (path : string) (msg : A) (fs : FileSystem)
    : Z * FileSystem :=
  if can_open path
  then (u32 (Z.of_nat (String.length (SerializeToString msg))), <[path := SerializeToString msg]> fs)
  else (u32 (-1), fs).

(** [std::remove] fails on a missing file, with a message on [cerr]. *)
Definition disk_remove (key : Key) (fs : FileSystem) : FileSystem :=
  match fs !! fname key with Some _ => delete (fname key) fs | None => fs end.

Section serializer.
Context {A : Type} `{Proto A}.

Definition disk_get (missing : A → bool) (key : Key) (error : AnnaError) (fs : FileSystem)
    : string * AnnaError * FileSystem :=
  match fs !! fname key with
  | None => ("", KEY_DNE, fs)
  | Some bytes =>
      let '(ok, value) := ParseFromString bytes in
      if negb ok then ("", KEY_DNE, fs)
      else if missing value then ("", KEY_DNE, fs)
      else (SerializeToString value, error, fs)
  end.

(** The body the five stream-based [put]s share.  [update original input] is
    the message to write over the original, [None] when the original stays;
    in that case the position of the input stream is returned, which is -1
    because parsing has read it past its end. *)
Definition disk_put (update : A → A → option A) (key : Key) (serialized : string)
    (fs : FileSystem) : Z * FileSystem :=
  let input_value : A := parse serialized in
  match fs !! fname key with
  | None => write_message (fname key) input_value fs
  | Some bytes =>
      let '(ok, original_value) := ParseFromString bytes in
      if negb ok then (0, fs)
      else match update original_value input_value with
           | Some new_value => write_message (fname key) new_value fs
           | None => (u32 (-1), fs)
           end
  end.

Definition disk_serializer (missing : A → bool) (update : A → A → option A)
    : Serializer FileSystem :=
  mkSerializer (disk_get missing) (disk_put update) disk_remove.
End serializer.

Context `{Protobuf}.

(** DiskLWWSerializer *)
Definition lww_update (original_value input_value : LWWValue.t) : option LWWValue.t :=
  if bool_decide (LWWValue.timestamp input_value >= LWWValue.timestamp original_value)
  then Some input_value else None.
Definition DiskLWWSerializer : Serializer FileSystem :=
  disk_serializer (λ value, bool_decide (LWWValue.value value = "")) lww_update.

(** DiskSetSerializer *)
Definition set_update (original_value input_value : SetValue.t) : option SetValue.t :=
  let set_union : gset string :=
    foldl SetLattice.insert (foldl SetLattice.insert ∅ (SetValue.values original_value))
      (SetValue.values input_value) in
  Some (SetValue.mk (elements set_union)).
Definition DiskSetSerializer : Serializer FileSystem :=
  disk_serializer (λ value, bool_decide (length (SetValue.values value) = 0%nat)) set_update.

(** DiskOrderedSetSerializer *)
Definition ordered_set_update (original_value input_value : SetValue.t) : option SetValue.t :=
  let set_union :=
    foldl (λ s val, ord_insert id val s)
      (foldl (λ s val, ord_insert id val s) [] (SetValue.values original_value))
      (SetValue.values input_value) in
  Some (SetValue.mk set_union).
Definition DiskOrderedSetSerializer : Serializer FileSystem :=
  disk_serializer (λ _ : SetValue.t, false) ordered_set_update.

(** DiskSingleKeyCausalSerializer *)
Definition causal_update (original_value input_value : SingleKeyCausalValue.t)
    : option SingleKeyCausalValue.t :=
  let orig := to_vector_clock_value_pair original_value in
  let input := to_vector_clock_value_pair input_value in
  let orig := do_merge orig input in
  Some (SingleKeyCausalValue.mk (copy_clock (SingleKeyCausalLattice.vector_clock orig))
          (elements (SingleKeyCausalLattice.value orig))).
Definition DiskSingleKeyCausalSerializer : Serializer FileSystem :=
  disk_serializer (λ value, bool_decide (length (SingleKeyCausalValue.values value) = 0%nat))
    causal_update.

(** DiskMultiKeyCausalSerializer *)
Definition multi_key_causal_update (original_value input_value : MultiKeyCausalValue.t)
    : option MultiKeyCausalValue.t :=
  let orig := to_multi_key_causal_payload original_value in
  let input := to_multi_key_causal_payload input_value in
  let orig := do_merge orig input in
  Some (MultiKeyCausalValue.mk (copy_clock (MultiKeyCausalLattice.vector_clock orig))
          (map (λ '(k, vc), KeyVersion.mk k (copy_clock vc))
               (map_to_list (MultiKeyCausalLattice.dependencies orig)))
          (elements (MultiKeyCausalLattice.value orig))).
Definition DiskMultiKeyCausalSerializer : Serializer FileSystem :=
  disk_serializer (λ value, bool_decide (length (MultiKeyCausalValue.values value) = 0%nat))
    multi_key_causal_update.

(** DiskPrioritySerializer: [put] goes through a file descriptor;
    [O_CREAT] makes an empty file, which parses as the default message. *)
Definition disk_priority_put (key : Key) (serialized : string) (fs : FileSystem)
    : Z * FileSystem :=
  let input_value : PriorityValue.t := parse serialized in
  if negb (can_open (fname key)) then (0, fs)
  else
    let fs := map_touch "" fs (fname key) in
    let bytes := map_get "" fs (fname key) in
    let '(ok, original_value) := (ParseFromString bytes : bool * PriorityValue.t) in
    if negb ok || PriorityLattice.double_lt (PriorityValue.priority input_value)
                    (PriorityValue.priority original_value)
    then (u32 (Z.of_nat (String.length (SerializeToString input_value))),
          <[fname key := SerializeToString input_value]> fs)
    else (u32 (Z.of_nat (String.length bytes)), fs).
Definition DiskPrioritySerializer : Serializer FileSystem :=
  mkSerializer (disk_get (λ value : PriorityValue.t, bool_decide (PriorityValue.value value = "")))
    disk_priority_put disk_remove.
End disk.

(** ** The stream-based serializers keep the [Serializer] promises *)
Section disk_laws.
Context (can_open : string → bool) (ebs_root_ : string) (tid_ : Z).
Context {A V : Type} `{Proto A} `{Lattice V}.
Context (abs : A → V) (missing : A → bool) (update : A → A → option A).
Context (accepts : string → Prop).

(** The disk is writable, and the library reads back what it wrote. *)
Hypothesis writable : ∀ key, can_open (fname ebs_root_ tid_ key) = true.
Hypothesis reads_back : ∀ m : A, ParseFromString (SerializeToString m) = (true, m).
(** A first write stands for a merge into the bottom element. *)
Hypothesis first_write : ∀ s, accepts s → do_merge bot (abs (parse s)) = abs (parse s).
(** Rewriting the file stands for a merge. *)
Hypothesis update_merges : ∀ a b,
  match update a b with
  | Some c => abs c = do_merge (abs a) (abs b)
  | None => do_merge (abs a) (abs b) = abs a
  end.

Definition disk_view (fs : FileSystem) (key : Key) : V :=
  match fs !! fname ebs_root_ tid_ key with
  | Some bytes => abs (parse bytes)
  | None => bot
  end.
Definition disk_inv (fs : FileSystem) : Prop :=
  ∀ key bytes, fs !! fname ebs_root_ tid_ key = Some bytes →
    (ParseFromString bytes : bool * A).1 = true.

Lemma write_message_view key (m : A) fs k' :
  disk_view (write_message can_open (fname ebs_root_ tid_ key) m fs).2 k' =
    if decide (k' = key) then abs m else disk_view fs k'.
Proof.
  unfold write_message, disk_view. rewrite writable. simpl.
  destruct (decide (k' = key)) as [->|Hne].
  - rewrite lookup_insert_eq. unfold parse. by rewrite reads_back.
  - rewrite lookup_insert_ne; [done|]. by intros ?%fname_inj.
Qed.

Lemma write_message_inv key (m : A) fs :
  disk_inv fs → disk_inv (write_message can_open (fname ebs_root_ tid_ key) m fs).2.
Proof.
  intros Hi k bytes. unfold write_message. rewrite writable. simpl.
  rewrite lookup_insert. case_decide; [|apply Hi]. intros [= <-]. by rewrite reads_back.
Qed.

Lemma disk_remove_lookup key fs k' :
  disk_remove ebs_root_ tid_ key fs !! fname ebs_root_ tid_ k' =
    if decide (k' = key) then None else fs !! fname ebs_root_ tid_ k'.
Proof.
  unfold disk_remove. destruct (decide (k' = key)) as [->|Hne].
  - destruct (fs !! _) eqn:Hk; [|done]. by rewrite lookup_delete_eq.
  - destruct (fs !! fname _ _ key); [|done]. rewrite lookup_delete_ne; [done|].
    by intros ?%fname_inj.
Qed.

Lemma disk_get_state key e fs : (disk_get ebs_root_ tid_ missing key e fs).2 = fs.
Proof.
  unfold disk_get. destruct (fs !! _); [|done]. destruct (ParseFromString _) as [[] ?]; simpl; [|done].
  by destruct (missing _).
Qed.

Lemma disk_put_view fs key s k' :
  disk_inv fs → accepts s →
  disk_view (disk_put can_open ebs_root_ tid_ update key s fs).2 k' =
    if decide (k' = key) then do_merge (disk_view fs key) (abs (parse s)) else disk_view fs k'.
Proof.
  intros Hi Hs. unfold disk_put. destruct (fs !! fname _ _ key) as [bytes|] eqn:Hf.
  - pose proof (Hi _ _ Hf) as Hok.
    assert (disk_view fs key = abs (parse bytes)) as Hview by (unfold disk_view; by rewrite Hf).
    unfold parse in Hview. destruct (ParseFromString bytes) as [ok orig]. simpl in *. subst ok. simpl.
    pose proof (update_merges orig (parse s)) as Hu. destruct (update orig (parse s)).
    + rewrite write_message_view. case_decide; [|done]. by rewrite Hu, Hview.
    + simpl. case_decide; [|done]. subst. by rewrite Hview, Hu.
  - assert (disk_view fs key = bot) as -> by (unfold disk_view; by rewrite Hf).
    rewrite write_message_view. case_decide; [|done]. by rewrite first_write.
Qed.

Lemma disk_laws :
  SerializerLaws (disk_serializer can_open ebs_root_ tid_ missing update) disk_inv disk_view
    (λ s, abs (parse s)) accepts.
Proof.
  split; cbn [disk_serializer ser_get ser_put ser_remove].
  - intros st k s Hi. unfold disk_put. destruct (st !! _); [|by apply write_message_inv].
    destruct (ParseFromString _) as [[] orig]; simpl; [|done].
    destruct (update _ _); [by apply write_message_inv|done].
  - intros st k e Hi. by rewrite disk_get_state.
  - intros st k Hi k' bytes. rewrite disk_remove_lookup. case_decide; [done|apply Hi].
  - intros. by apply disk_put_view.
  - intros st k e k' _. by rewrite disk_get_state.
  - intros st k e Hi He. unfold disk_get, disk_view.
    destruct (st !! _) as [bytes|]; [|done]. unfold parse.
    destruct (ParseFromString bytes) as [[] v]; simpl; [|done].
    destruct (missing v); [done|]. intros _. simpl. by rewrite reads_back.
  - intros st k k' _. unfold disk_view. rewrite disk_remove_lookup. by case_decide.
Qed.

(** The error of a [get] is a function of the key's value. *)
Lemma disk_get_error (vmissing : V → bool) key fs :
  vmissing bot = true → (∀ m, vmissing (abs m) = missing m) → disk_inv fs →
  (disk_get ebs_root_ tid_ missing key NO_ERROR fs).1.2 =
    if vmissing (disk_view fs key) then KEY_DNE else NO_ERROR.
Proof.
  intros Hbot Habs Hi. unfold disk_get, disk_view.
  destruct (fs !! _) as [bytes|] eqn:Hf; [|by rewrite Hbot].
  pose proof (Hi _ _ Hf) as Hok. unfold parse.
  destruct (ParseFromString bytes) as [ok v]. simpl in *. subst ok. simpl.
  rewrite Habs. by destruct (missing v).
Qed.
End disk_laws.

(** ** Memory and disk hold the same values

    Both tiers refine the abstract store, so a thread of the disk tier holds,
    for every sequence of requests, the values a thread of the memory tier
    holds, and a [get] reports the same error. *)
Section memory_disk.
Context `{PayloadsCarried} (can_open : string → bool) (ebs_root_ : string) (tid_ : Z).
Hypothesis writable : ∀ key, can_open (fname ebs_root_ tid_ key) = true.

Definition lww_abs (m : LWWValue.t) : TimestampValuePair string :=
  LWWPairLattice.mkTVP (LWWValue.timestamp m) (LWWValue.value m).
(** [timestamp] is a [uint64] field. *)
Definition lww_accepts (s : string) : Prop := 0 ≤ LWWValue.timestamp (parse s).

Lemma lww_update_merges a b :
  match lww_update a b with
  | Some c => lww_abs c = do_merge (lww_abs a) (lww_abs b)
  | None => do_merge (lww_abs a) (lww_abs b) = lww_abs a
  end.
Proof.
  unfold lww_update. rewrite LWWPairLattice.do_merge_cases. unfold lww_abs. simpl.
  repeat case_bool_decide; (lia || done).
Qed.

Lemma disk_lww_laws :
  SerializerLaws (DiskLWWSerializer can_open ebs_root_ tid_) (disk_inv (A:=LWWValue.t) ebs_root_ tid_)
    (disk_view ebs_root_ tid_ lww_abs) deserialize_lww lww_accepts.
Proof.
  apply disk_laws; [done| |..].
  - intros m. apply parse_serialize, all_lww.
  - intros s Hs. by apply LWWPairLattice.do_merge_bot.
  - apply lww_update_merges.
Qed.

Definition set_abs (m : SetValue.t) : gset string := foldl SetLattice.insert ∅ (SetValue.values m).

Lemma disk_set_laws :
  SerializerLaws (DiskSetSerializer can_open ebs_root_ tid_) (disk_inv (A:=SetValue.t) ebs_root_ tid_)
    (disk_view ebs_root_ tid_ set_abs) deserialize_set (λ _, True).
Proof.
  apply disk_laws; [done| |..].
  - intros m. apply parse_serialize, all_set.
  - intros s _. rewrite SetLattice.do_merge_union. apply (left_id_L ∅ (∪)).
  - intros a b. simpl. unfold set_abs. simpl.
    rewrite SetLattice.do_merge_union, !foldl_set_insert, list_to_set_elements_L. set_solver.
Qed.

Definition ordered_set_abs (m : SetValue.t) : list string :=
  foldl OrderedSetLattice.insert [] (SetValue.values m).

Lemma ordered_set_abs_sorted m : OrderedSetLattice.sorted (ordered_set_abs m).
Proof. apply (OrderedSetLattice.do_merge_sorted [] (SetValue.values m)). constructor. Qed.

Lemma disk_ordered_set_laws :
  SerializerLaws (DiskOrderedSetSerializer can_open ebs_root_ tid_)
    (disk_inv (A:=SetValue.t) ebs_root_ tid_)
    (disk_view ebs_root_ tid_ ordered_set_abs) deserialize_ordered_set (λ _, True).
Proof.
  apply disk_laws; [done| |..].
  - intros m. apply parse_serialize, all_set.
  - intros s _. apply foldl_oset_insert, ordered_set_abs_sorted.
  - intros a b. simpl. unfold ordered_set_abs at 1. simpl. rewrite foldl_oset_insert.
    + apply (ord_sorted_ext id).
      * apply (OrderedSetLattice.do_merge_sorted _ (SetValue.values b)), ordered_set_abs_sorted.
      * apply OrderedSetLattice.do_merge_sorted, ordered_set_abs_sorted.
      * intros x. etrans; [apply (OrderedSetLattice.elem_of_do_merge (ordered_set_abs a))|].
        rewrite OrderedSetLattice.elem_of_do_merge. f_equiv.
        etrans; [|symmetry; apply (OrderedSetLattice.elem_of_do_merge [])]. set_solver.
    + apply (OrderedSetLattice.do_merge_sorted _ (SetValue.values b)), ordered_set_abs_sorted.
Qed.

Lemma causal_encode_abs (v : VectorClockValuePair (gset string)) :
  to_vector_clock_value_pair (SingleKeyCausalValue.mk
    (copy_clock (SingleKeyCausalLattice.vector_clock v))
    (elements (SingleKeyCausalLattice.value v))) = v.
Proof.
  unfold to_vector_clock_value_pair. simpl.
  rewrite copy_clock_id, clock_of_id, foldl_set_insert, list_to_set_elements_L, (left_id_L ∅ (∪)).
  by destruct v.
Qed.

Lemma vc_le_bot (vc : VectorClock) : vc_le ∅ vc.
Proof.
  apply map_eq. intros k. rewrite MapLattice.lookup_do_merge, lookup_empty. done.
Qed.

Lemma disk_sk_laws :
  SerializerLaws (DiskSingleKeyCausalSerializer can_open ebs_root_ tid_)
    (disk_inv (A:=SingleKeyCausalValue.t) ebs_root_ tid_)
    (disk_view ebs_root_ tid_ to_vector_clock_value_pair)
    (λ s, to_vector_clock_value_pair (deserialize_causal s)) (λ _, True).
Proof.
  apply disk_laws; [done| |..].
  - intros m. apply parse_serialize, all_sk.
  - intros s _. apply SingleKeyCausalLattice.merge_dominated, vc_le_bot.
  - intros a b. apply causal_encode_abs.
Qed.

Lemma multi_key_causal_encode_abs (v : MultiKeyCausalPayload (gset string)) :
  to_multi_key_causal_payload (MultiKeyCausalValue.mk
    (copy_clock (MultiKeyCausalLattice.vector_clock v))
    (map (λ '(k, vc), KeyVersion.mk k (copy_clock vc))
         (map_to_list (MultiKeyCausalLattice.dependencies v)))
    (elements (MultiKeyCausalLattice.value v))) = v.
Proof.
  unfold to_multi_key_causal_payload.
  cbn [MultiKeyCausalValue.vector_clock MultiKeyCausalValue.dependencies MultiKeyCausalValue.values].
  rewrite (copy_clock_id (MultiKeyCausalLattice.vector_clock v)).
  rewrite clock_of_id, foldl_deps_insert, foldl_set_insert, list_to_set_elements_L, (left_id_L ∅ (∪)).
  by destruct v.
Qed.

Lemma disk_mk_laws :
  SerializerLaws (DiskMultiKeyCausalSerializer can_open ebs_root_ tid_)
    (disk_inv (A:=MultiKeyCausalValue.t) ebs_root_ tid_)
    (disk_view ebs_root_ tid_ to_multi_key_causal_payload)
    (λ s, to_multi_key_causal_payload (deserialize_multi_key_causal s)) (λ _, True).
Proof.
  apply disk_laws; [done| |..].
  - intros m. apply parse_serialize, all_mk.
  - intros s _. apply MultiKeyCausalLattice.mk_merge_dominated, vc_le_bot.
  - intros a b. apply multi_key_causal_encode_abs.
Qed.
End memory_disk.

(** *** What clients observe *)
Section observations.
Context `{PayloadsCarried} (can_open : string → bool) (ebs_root_ : string) (tid_ : Z).

(** The memory and the disk store of the same requests answer a [get] of a
    last-writer-wins key alike. *)
Definition lww_answers_agree (mem : gmap Key (TimestampValuePair string)) (fs : FileSystem)
    (k : Key) : Prop :=
  let '(m, em, _) := ser_get MemoryLWWSerializer k NO_ERROR mem in
  let '(d, ed, _) := ser_get (DiskLWWSerializer can_open ebs_root_ tid_) k NO_ERROR fs in
  em = ed ∧ (em = NO_ERROR → deserialize_lww m = deserialize_lww d).


(** A write older than the file's is dropped, and the size reported for
    the key is 2^32 - 1, the position -1 of a stream read to its end, and not
    the size of the value that stays. *)
Theorem disk_lww_stale_put_size (key : Key) (old new : LWWValue.t) (fs : FileSystem) :
  fs !! fname ebs_root_ tid_ key = Some (SerializeToString old) →
  LWWValue.timestamp new < LWWValue.timestamp old →
  ser_put (DiskLWWSerializer can_open ebs_root_ tid_) key (SerializeToString new) fs
  = (2 ^ 32 - 1, fs).
Proof.
  intros Hf Hlt. simpl. unfold disk_put. rewrite Hf, parse_serialize by apply all_lww.
  rewrite parse_serialize' by apply all_lww. simpl.
  unfold lww_update. by rewrite bool_decide_eq_false_2 by lia.
Qed.

Definition non_negative (p : spec_float) : Prop := PriorityLattice.double_lt p (S754_zero false) = false.

(** The first [put] of a priority value under a new key is lost when its
    priority is not negative: the file [open] creates is empty, which parses
    as priority 0, and the input is written only below that. *)
Theorem disk_priority_first_put_lost (key : Key) (value : PriorityValue.t) (fs : FileSystem) :
  fs !! fname ebs_root_ tid_ key = None → can_open (fname ebs_root_ tid_ key) = true →
  non_negative (PriorityValue.priority value) →
  let S := DiskPrioritySerializer can_open ebs_root_ tid_ in
  let fs' := (ser_put S key (SerializeToString value) fs).2 in
  (ser_get S key NO_ERROR fs').1 = ("", KEY_DNE).
Proof.
  intros Hf Ho Hp. simpl. unfold disk_priority_put. rewrite Ho. simpl.
  rewrite parse_serialize' by apply all_priority. rewrite map_touch_get.
  unfold map_get. rewrite Hf. simpl. rewrite parse_nothing. simpl. unfold non_negative in Hp. rewrite Hp. simpl.
  unfold disk_get. rewrite map_touch_same. unfold map_get. rewrite Hf. simpl.
  by rewrite parse_nothing.
Qed.
End observations.

(** *** The hypotheses can hold: a small disk with the concrete encoder *)
Definition example_op : StoreOp :=
  OpPut "k" (@SerializeToString _ (@proto_LWWValue bit_protobuf) (LWWValue.mk 7 "v")).


Lemma disk_lww_stale_put_size_witness :
  ser_put (@DiskLWWSerializer (λ _, true) "/ebs/" 0 bit_protobuf) "k"
    (@SerializeToString _ (@proto_LWWValue bit_protobuf) (LWWValue.mk 6 "w"))
    {[ fname "/ebs/" 0 "k" := @SerializeToString _ (@proto_LWWValue bit_protobuf) (LWWValue.mk 7 "v") ]}
  = (4294967295, {[ fname "/ebs/" 0 "k" :=
       @SerializeToString _ (@proto_LWWValue bit_protobuf) (LWWValue.mk 7 "v") ]}).
Proof.
  apply (@disk_lww_stale_put_size bit_protobuf bit_payload_laws bit_payloads_carried
           (λ _, true) "/ebs/" 0 "k" (LWWValue.mk 7 "v")).
  - apply lookup_singleton_eq.
  - simpl. lia.
Defined.

Lemma disk_priority_first_put_lost_witness :
  let S := @DiskPrioritySerializer (λ _, true) "/ebs/" 0 bit_protobuf in
  let fs' := (ser_put S "k" (@SerializeToString _ (@proto_PriorityValue bit_protobuf)
    (PriorityValue.mk (PriorityLattice.double_of_int 3) "v")) ∅).2 in
  (ser_get S "k" NO_ERROR fs').1 = ("", KEY_DNE).
Proof.
  apply (@disk_priority_first_put_lost bit_protobuf bit_payload_laws bit_payloads_carried
           (λ _, true) "/ebs/" 0 "k" (PriorityValue.mk (PriorityLattice.double_of_int 3) "v") ∅).
  - apply lookup_empty.
  - reflexivity.
  - reflexivity.
Defined.
