(* ===== verification/HashRing.v ===== *)
(** The hash rings: [ConsistentHashMap] (include/consistent_hash_map.hpp), the
    two hashers (include/hashers.hpp), [HashRing] (include/hash_ring.hpp) and
    the walks [responsible_global] and [responsible_local] that pick the
    threads of a key (src/hash_ring/hash_ring.cpp).

    [std::hash<string>] is a parameter.  The [while] loops run with fuel; one
    lap of the ring is enough, and a walk that has not stopped after one lap
    never stops. *)

From S2P Require Import Prelude Text Ordered Threads Metadata.
From Stdlib Require Import Lia.

(** [std::hash<std::string>] of the C++ library: a 64-bit value. *)
Class StdHash := std_hash : string → Z.

(** ** Hashers *)
Record Hasher := mkHasher { hash_node : ServerThread.t → Z; hash_key : Key → Z }.

Section hashers.
Context `{StdHash}.

(** The 64-bit hash is truncated to [uint32_t]. *)
Definition GlobalHasher : Hasher :=
  mkHasher (λ th, u32 (std_hash ("GLOBAL" +:+ ServerThread.virtual_id th)))
           (λ key, u32 (std_hash ("GLOBAL" +:+ key))).

Definition LocalHasher : Hasher :=
  mkHasher (λ th, std_hash (to_string (ServerThread.tid th) +:+ "_" +:+
                            to_string (ServerThread.virtual_num th)))
           (λ key, std_hash key).
End hashers.

(** ** ConsistentHashMap<ServerThread, H>: the [std::map] from hash to thread *)
Abbreviation nodes := (list (Z * ServerThread.t)).

Module ConsistentHashMap.
Section chm.
Context (hasher_ : Hasher).

Definition size (nodes_ : nodes) : nat := length nodes_.
Definition empty (nodes_ : nodes) : bool := bool_decide (nodes_ = []).

(** A node whose hash is taken is not inserted. *)
Definition insert (node : ServerThread.t) (nodes_ : nodes) : nodes :=
  ord_insert fst (hash_node hasher_ node, node) nodes_.

(** Erases whatever node has this hash. *)
Definition erase (node : ServerThread.t) (nodes_ : nodes) : nodes :=
  ord_erase fst (hash_node hasher_ node) nodes_.

(** An iterator is an index, [end()] the length. *)
Definition find_hash (hash : Z) (nodes_ : nodes) : nat :=
  if empty nodes_ then length nodes_
  else let it := lower_bound fst hash nodes_ in
       if bool_decide (it = length nodes_) then 0%nat else it.

Definition find (key : Key) (nodes_ : nodes) : nat := find_hash (hash_key hasher_ key) nodes_.

(** [++pos], then [begin()] when it reached [end()]. *)
Definition next (pos : nat) (nodes_ : nodes) : nat :=
  if bool_decide (S pos = length nodes_) then 0%nat else S pos.
End chm.
End ConsistentHashMap.

(** ** HashRing<H> *)
Module HashRing.
(** [ServerThreadSet] compares by [id()], so it is a map from that id. *)
Record t := mk {
  nodes_ : nodes;
  unique_servers : gmap string ServerThread.t;
  server_join_count : gmap string Z;
}.
Definition empty : t := mk [] ∅ ∅.

Definition get_unique_servers (r : t) : gmap string ServerThread.t := unique_servers r.

Section ring.
Context (H : Hasher).

(** [for (unsigned n = 0; n < kVirtualThreadNum; n++)] over the virtual
    nodes of a thread. *)
Definition virtual_nodes (public_ip private_ip : Address) (tid : Z) : list ServerThread.t :=
  map (ServerThread.mk public_ip private_ip tid) (seqZ 0 kVirtualThreadNum).

Definition insert (public_ip private_ip : Address) (join_count tid : Z) (r : t) : bool * t :=
  let new_thread := ServerThread.mk public_ip private_ip tid 0 in
  match unique_servers r !! ServerThread.id new_thread with
  | Some _ =>
      let count := map_get 0 (server_join_count r) private_ip in
      let touched := map_touch 0 (server_join_count r) private_ip in
      if bool_decide (count < join_count)
      then (true, mk (nodes_ r) (unique_servers r) (<[private_ip := join_count]> touched))
      else (false, mk (nodes_ r) (unique_servers r) touched)
  | None =>
      (true,
       mk (foldl (λ ns st, ConsistentHashMap.insert H st ns) (nodes_ r)
             (virtual_nodes public_ip private_ip tid))
          (<[ServerThread.id new_thread := new_thread]> (unique_servers r))
          (<[private_ip := join_count]> (server_join_count r)))
  end.

Definition remove (public_ip private_ip : Address) (tid : Z) (r : t) : t :=
  mk (foldl (λ ns st, ConsistentHashMap.erase H st ns) (nodes_ r)
        (virtual_nodes public_ip private_ip tid))
     (delete (ServerThread.id (ServerThread.mk public_ip private_ip tid 0)) (unique_servers r))
     (delete private_ip (server_join_count r)).
End ring.
  #[global] Arguments virtual_nodes : simpl never.
End HashRing.

Lemma virtual_nodes_elem pub priv tid st :
  st ∈ HashRing.virtual_nodes pub priv tid ↔
  ∃ v, 0 ≤ v < kVirtualThreadNum ∧ st = ServerThread.mk pub priv tid v.
Proof.
  unfold HashRing.virtual_nodes. rewrite list_elem_of_In, in_map_iff. split.
  - intros (v & <- & Hv%list_elem_of_In%elem_of_seqZ). exists v. split; [lia|done].
  - intros (v & Hv & ->). exists v. split; [done|]. apply list_elem_of_In, elem_of_seqZ. lia.
Qed.

(** The 3000 nodes of a thread are never listed in a proof. *)
#[global] Opaque HashRing.virtual_nodes.

(** ** The walks *)
Section walk.
(** What the walk collects from a node, and when it has it already. *)
Context {A : Type} (visit : ServerThread.t → A) (same : A → A → bool).

Definition have (acc : list A) (a : A) : bool := existsb (λ b, same b a) acc.

(** [while (i < rep) { if (new) { push_back; i += 1; } advance; }] *)
Fixpoint walk (fuel : nat) (ns : nodes) (rep i : Z) (pos : nat) (acc : list A)
    : option (list A) :=
  if bool_decide (i < rep) then
    match fuel with
    | O => None
    | S fuel =>
        match ns !! pos with
        | None => None
        | Some (_, st) =>
            let found := visit st in
            if have acc found
            then walk fuel ns rep i (ConsistentHashMap.next pos ns) acc
            else walk fuel ns rep (i + 1) (ConsistentHashMap.next pos ns) (acc ++ [found])
        end
    end
  else Some acc.

(** The whole function: an empty ring has no position to start from. *)
Definition responsible (hasher : Hasher) (key : Key) (rep : Z) (ns : nodes) : outcome (list A) :=
  let pos := ConsistentHashMap.find hasher key ns in
  if bool_decide (pos = length ns) then Ok []
  else of_option Diverges (walk (length ns) ns rep 0 pos []).
End walk.

Definition same_thread (l r : ServerThread.t) : bool := bool_decide (l ≡ r).
Definition same_tid (l r : Z) : bool := bool_decide (l = r).

Section responsible.
Context `{StdHash}.

Definition responsible_global (key : Key) (global_rep : Z) (ring : HashRing.t)
    : outcome (list ServerThread.t) :=
  responsible (λ st, st) same_thread GlobalHasher key global_rep (HashRing.nodes_ ring).

(** The set of thread ids, as the list of its elements in the order they
    were inserted. *)
Definition responsible_local (key : Key) (local_rep : Z) (ring : HashRing.t) : outcome (list Z) :=
  responsible ServerThread.tid same_tid LocalHasher key local_rep (HashRing.nodes_ ring).
End responsible.

(** ** What the walks return

    The nodes in the order a walk meets them: from the first hash not below
    the key's, around the ring. *)
Definition clockwise (h : Z) (ns : nodes) : nodes :=
  filter (λ n : Z * ServerThread.t, ltb n.1 h = false) ns ++
  filter (λ n : Z * ServerThread.t, ltb n.1 h = true) ns.

Section walk_spec.
Context {A : Type} (visit : ServerThread.t → A) (same : A → A → bool).
Implicit Types (acc l : list A) (ns : nodes).

(** The elements of [l] that are not in [acc], first occurrences only. *)
Fixpoint fresh acc l : list A :=
  match l with
  | [] => []
  | a :: l => if have same acc a then fresh acc l else a :: fresh (acc ++ [a]) l
  end.

Lemma fresh_app acc l1 l2 : fresh acc (l1 ++ l2) = fresh acc l1 ++ fresh (acc ++ fresh acc l1) l2.
Proof.
  revert acc. induction l1 as [|a l1 IH]; intros acc; simpl; [by rewrite app_nil_r|].
  destruct (have same acc a); [done|]. simpl. by rewrite IH, <-app_assoc.
Qed.

Lemma fresh_sublist acc l : fresh acc l `sublist_of` l.
Proof.
  revert acc. induction l as [|a l IH]; intros acc; simpl; [constructor|].
  destruct (have same acc a); constructor; apply IH.
Qed.

(** The nodes the walk visits in its first [fuel] steps. *)
Fixpoint visited (fuel : nat) ns (pos : nat) : list A :=
  match fuel with
  | O => []
  | S fuel =>
      match ns !! pos with
      | Some (_, st) => visit st :: visited fuel ns (ConsistentHashMap.next pos ns)
      | None => []
      end
  end.

Lemma next_lt pos ns : (pos < length ns)%nat → (ConsistentHashMap.next pos ns < length ns)%nat.
Proof. unfold ConsistentHashMap.next. case_bool_decide; lia. Qed.

(** The loop returns when it has met [rep] new elements. *)
Lemma walk_spec fuel ns rep pos acc :
  (pos < length ns)%nat → Z.of_nat (length acc) ≤ Z.max 0 rep →
  walk visit same fuel ns rep (Z.of_nat (length acc)) pos acc =
    let l := acc ++ fresh acc (visited fuel ns pos) in
    if bool_decide (rep ≤ Z.of_nat (length l)) then Some (take (Z.to_nat rep) l) else None.
Proof.
  revert pos acc. induction fuel as [|fuel IH]; intros pos acc Hpos Hacc; simpl.
  - rewrite app_nil_r. repeat case_bool_decide; try done; try lia.
    by rewrite take_ge by lia.
  - case_bool_decide as Hrep.
    + destruct (lookup_lt_is_Some_2 ns pos Hpos) as [[h st] Hst]. rewrite Hst. simpl.
      destruct (have same acc (visit st)); [by rewrite IH by (try apply next_lt; done)|].
      replace (Z.of_nat (length acc) + 1) with (Z.of_nat (length (acc ++ [visit st])))
        by (rewrite length_app; simpl; lia).
      rewrite IH; [|by apply next_lt|rewrite length_app; simpl; lia].
      simpl. by rewrite <-app_assoc.
    + rewrite bool_decide_eq_true_2 by (rewrite length_app; lia).
      f_equal. rewrite take_app_le by lia. by rewrite take_ge by lia.
Qed.

Lemma visited_app n m ns pos :
  (pos < length ns)%nat →
  visited (n + m) ns pos = visited n ns pos ++ visited m ns (Nat.iter n (λ p, ConsistentHashMap.next p ns) pos).
Proof.
  revert pos. induction n as [|n IH]; intros pos Hpos; [done|].
  simpl visited at 1 2. destruct (lookup_lt_is_Some_2 ns pos Hpos) as [[h st] Hst]. rewrite Hst.
  simpl app. f_equal. rewrite IH by (by apply next_lt). do 2 f_equal.
  apply Nat.iter_swap with (f := λ p, ConsistentHashMap.next p ns).
Qed.

Lemma visited_elem n ns pos a : a ∈ visited n ns pos → a ∈ visit <$> ns.*2.
Proof.
  revert pos. induction n as [|n IH]; intros pos; simpl; [by intros ?%elem_of_nil|].
  destruct (ns !! pos) as [[h st]|] eqn:Hst; [|by intros ?%elem_of_nil].
  intros [->|Ha]%elem_of_cons; [|by eapply IH].
  apply list_elem_of_fmap_2. apply list_elem_of_lookup_2 in Hst.
  by apply (list_elem_of_fmap_2 snd) in Hst.
Qed.

Lemma visited_straight k ns pos :
  (pos + k ≤ length ns)%nat → visited k ns pos = visit <$> (take k (drop pos ns)).*2.
Proof.
  revert pos. induction k as [|k IH]; intros pos Hk; [done|]. simpl.
  destruct (lookup_lt_is_Some_2 ns pos ltac:(lia)) as [[h st] Hst]. rewrite Hst.
  rewrite (drop_S ns _ pos Hst). simpl. f_equal.
  unfold ConsistentHashMap.next. case_bool_decide; [|apply IH; lia].
  assert (k = 0%nat) as -> by lia. done.
Qed.

Lemma iter_next ns pos j :
  (pos < length ns)%nat → (pos + j ≤ length ns)%nat →
  Nat.iter j (λ p, ConsistentHashMap.next p ns) pos =
    if bool_decide (pos + j = length ns)%nat then 0%nat else (pos + j)%nat.
Proof.
  intros Hpos. induction j as [|j IH]; intros Hj; simpl.
  { rewrite bool_decide_eq_false_2 by lia. lia. }
  rewrite IH by lia. rewrite bool_decide_eq_false_2 by lia.
  unfold ConsistentHashMap.next. by repeat case_bool_decide; try lia.
Qed.

(** One lap visits every node once. *)
Lemma visited_lap ns pos :
  (pos < length ns)%nat →
  visited (length ns) ns pos = visit <$> (drop pos ns ++ take pos ns).*2.
Proof.
  intros Hpos. replace (length ns) with ((length ns - pos) + pos)%nat at 1 by lia.
  rewrite visited_app by done. rewrite iter_next by lia.
  rewrite bool_decide_eq_true_2 by lia.
  rewrite !visited_straight by lia. rewrite <-!fmap_app. do 3 f_equal.
  rewrite take_ge; [done|]. rewrite length_drop. lia.
Qed.

Context (same_refl : ∀ a, same a a = true).

Lemma have_app acc1 acc2 a : have same (acc1 ++ acc2) a = have same acc1 a || have same acc2 a.
Proof. apply existsb_app. Qed.

Lemma have_fresh acc l a : a ∈ l → have same (acc ++ fresh acc l) a = true.
Proof.
  revert acc. induction l as [|b l IH]; intros acc; [by intros ?%elem_of_nil|].
  intros [->|Ha]%elem_of_cons; simpl.
  - destruct (have same acc b) eqn:Hb; rewrite have_app; [by rewrite Hb|].
    simpl. by rewrite same_refl, orb_true_r.
  - destruct (have same acc b); [by apply IH|].
    specialize (IH (acc ++ [b]) Ha). by rewrite <-app_assoc in IH.
Qed.

Lemma fresh_known acc l : (∀ a, a ∈ l → have same acc a = true) → fresh acc l = [].
Proof.
  induction l as [|a l IH]; intros Hall; [done|]. simpl.
  rewrite Hall by (by left). apply IH. intros b Hb. apply Hall. by right.
Qed.

(** No number of laps finds more than the first one. *)
Lemma fresh_visited_bound fuel ns pos :
  (pos < length ns)%nat →
  (length (fresh [] (visited fuel ns pos)) ≤ length (fresh [] (visited (length ns) ns pos)))%nat.
Proof.
  intros Hpos. destruct (decide (fuel ≤ length ns)%nat) as [Hle|Hgt].
  - replace (length ns) with (fuel + (length ns - fuel))%nat by lia.
    rewrite visited_app, fresh_app, length_app by done. lia.
  - replace fuel with (length ns + (fuel - length ns))%nat by lia.
    rewrite (visited_app (length ns)), fresh_app by done.
    rewrite (fresh_known (_ ++ _)); [by rewrite app_nil_r|].
    intros a Ha%visited_elem. apply have_fresh.
    rewrite visited_lap by done. rewrite fmap_app, fmap_app.
    rewrite <-(take_drop pos ns), !fmap_app in Ha. set_solver.
Qed.

(** A walk that one lap does not finish never returns. *)
Lemma walk_diverges ns rep pos fuel :
  (pos < length ns)%nat →
  walk visit same (length ns) ns rep 0 pos [] = None → walk visit same fuel ns rep 0 pos [] = None.
Proof.
  intros Hpos. rewrite !(walk_spec _ ns rep pos []) by (simpl; lia). simpl.
  pose proof (fresh_visited_bound fuel ns pos Hpos).
  repeat case_bool_decide; try done. lia.
Qed.
End walk_spec.

(** [find] starts the walk where [clockwise] does. *)
Lemma find_clockwise (h : Z) (ns : nodes) :
  ord_sorted fst ns → ns ≠ [] →
  let pos := ConsistentHashMap.find_hash h ns in
  (pos < length ns)%nat ∧ drop pos ns ++ take pos ns = clockwise h ns.
Proof.
  intros Hs Hne. unfold ConsistentHashMap.find_hash, ConsistentHashMap.empty.
  rewrite bool_decide_eq_false_2 by done.
  pose proof (lower_bound_le fst h ns) as Hle. unfold clockwise.
  rewrite <-(drop_lower_bound fst h ns Hs), <-(take_lower_bound fst h ns Hs).
  assert (length ns ≠ 0%nat) by (destruct ns; simpl; [done|lia]).
  case_bool_decide as Hend; [|split; [lia|done]]. rewrite Hend.
  split; [lia|]. by rewrite drop_0, take_0, drop_all, take_ge, app_nil_r by lia.
Qed.

(** The general form of both walks. *)
Section responsible_spec.
Context {A : Type} (visit : ServerThread.t → A) (same : A → A → bool).
Context (same_refl : ∀ a, same a a = true) (hasher : Hasher).

(** The distinct elements of the ring in the order of the walk. *)
Definition candidates (key : Key) (ns : nodes) : list A :=
  fresh same [] (visit <$> (clockwise (hash_key hasher key) ns).*2).

Lemma responsible_eq key rep ns :
  ord_sorted fst ns →
  responsible visit same hasher key rep ns =
    if bool_decide (rep ≤ Z.of_nat (length (candidates key ns)) ∨ ns = [])
    then Ok (take (Z.to_nat rep) (candidates key ns)) else Fail Diverges.
Proof.
  intros Hs. unfold responsible, ConsistentHashMap.find.
  destruct (decide (ns = [])) as [->|Hne].
  { rewrite (bool_decide_eq_true_2 (_ ∨ _)) by auto. 
    change (candidates key []) with (@nil A). by rewrite take_nil. }
  destruct (find_clockwise (hash_key hasher key) ns Hs Hne) as [Hpos Hcw].
  rewrite (bool_decide_eq_false_2 (_ = length ns)) by lia.
  rewrite (walk_spec visit same _ ns rep _ []) by (simpl; lia).
  rewrite visited_lap by done. rewrite Hcw. simpl. fold (candidates key ns).
  repeat case_bool_decide; intuition.
Qed.
End responsible_spec.

(** ** Distinctness *)
Section fresh_distinct.
Context {A : Type} (same : A → A → bool).

Definition distinct (l : list A) : Prop :=
  ∀ i j a b, l !! i = Some a → l !! j = Some b → (i < j)%nat → same a b = false.

Lemma have_false acc a : have same acc a = false ↔ ∀ b, b ∈ acc → same b a = false.
Proof.
  unfold have. rewrite <-not_true_iff_false, existsb_exists. split.
  - intros Hn b Hb. apply not_true_iff_false. intros Hs. apply Hn. exists b.
    by rewrite <-list_elem_of_In.
  - intros Hall (b & Hb & Hs). rewrite Hall in Hs; [done|]. by apply list_elem_of_In.
Qed.

Lemma distinct_snoc acc a : distinct acc → have same acc a = false → distinct (acc ++ [a]).
Proof.
  rewrite have_false. intros Hd Hn i j x y Hi Hj Hij.
  apply lookup_app_Some in Hj as [Hj|[Hlen Hj]].
  - apply (Hd i j); [|done..]. rewrite lookup_app_l in Hi; [done|].
    apply lookup_lt_Some in Hj. lia.
  - apply list_lookup_singleton_Some in Hj as [Hj ->].
    apply Hn. rewrite lookup_app_l in Hi by lia. by eapply list_elem_of_lookup_2.
Qed.

Lemma fresh_distinct acc l : distinct acc → distinct (acc ++ fresh same acc l).
Proof.
  revert acc. induction l as [|a l IH]; intros acc Hd; simpl; [by rewrite app_nil_r|].
  destruct (have same acc a) eqn:Ha; [by apply IH|].
  specialize (IH (acc ++ [a]) (distinct_snoc acc a Hd Ha)). by rewrite <-app_assoc in IH.
Qed.

Lemma distinct_take n l : distinct l → distinct (take n l).
Proof.
  intros Hd i j a b [Hi _]%lookup_take_Some [Hj _]%lookup_take_Some. by apply (Hd i j).
Qed.

(** Leaving out a class of elements before or after dropping duplicates. *)
Context (P : A → Prop) `{∀ a, Decision (P a)}.
Context (P_same : ∀ a b, same a b = true → P b → P a).

Lemma have_filter acc a : P a → have same (filter P acc) a = have same acc a.
Proof.
  intros Ha. induction acc as [|b acc IH]; [done|]. rewrite filter_cons. case_decide as Hb; simpl.
  - by rewrite IH.
  - destruct (same b a) eqn:Hs; [|done]. by destruct Hb; eapply P_same.
Qed.

Lemma fresh_filter acc l : fresh same (filter P acc) (filter P l) = filter P (fresh same acc l).
Proof.
  revert acc. induction l as [|a l IH]; intros acc; [done|]. rewrite filter_cons. simpl.
  case_decide as Ha; simpl.
  - rewrite have_filter by done. destruct (have same acc a); [done|].
    rewrite filter_cons_True by done. f_equal. rewrite <-IH. f_equal.
    by rewrite filter_app, filter_cons_True, filter_nil.
  - destruct (have same acc a); [done|]. rewrite filter_cons_False by done.
    rewrite <-IH. f_equal. by rewrite filter_app, filter_cons_False, filter_nil, app_nil_r.
Qed.
End fresh_distinct.

Lemma clockwise_filter h (P : Z * ServerThread.t → Prop) `{∀ n, Decision (P n)} ns :
  clockwise h (filter P ns) = filter P (clockwise h ns).
Proof. unfold clockwise. rewrite filter_app. f_equal; apply list_filter_comm. Qed.

Lemma filter_fmap_snd (P : ServerThread.t → Prop) `{∀ st, Decision (P st)} (ns : nodes) :
  filter P ns.*2 = (filter (λ n : Z * ServerThread.t, P n.2) ns).*2.
Proof.
  induction ns as [|n ns IH]; [done|]. rewrite fmap_cons, !filter_cons, IH.
  by destruct (decide (P n.2)).
Qed.

(** ** The ring's invariant *)
Module RingInv.
Section inv.
Context (H : Hasher).

(** Hashers look at the private IP, the thread id and the virtual number. *)
Definition hashes_by_thread : Prop := ∀ pub1 pub2 priv tid v,
  hash_node H (ServerThread.mk pub1 priv tid v) = hash_node H (ServerThread.mk pub2 priv tid v).

Definition node_ok (r : HashRing.t) (n : Z * ServerThread.t) : Prop :=
  n.1 = hash_node H n.2 ∧ 0 ≤ ServerThread.virtual_num n.2 < kVirtualThreadNum ∧
  0 ≤ ServerThread.tid n.2 ∧
  is_Some (HashRing.unique_servers r !! ServerThread.id n.2).

Definition ring_ok (r : HashRing.t) : Prop :=
  ord_sorted fst (HashRing.nodes_ r) ∧ Forall (node_ok r) (HashRing.nodes_ r).

Lemma empty_ok : ring_ok HashRing.empty.
Proof. split; constructor. Qed.

Lemma foldl_insert_sorted sts ns :
  ord_sorted fst ns → ord_sorted fst (foldl (λ ns st, ConsistentHashMap.insert H st ns) ns sts).
Proof.
  revert ns. induction sts as [|st sts IH]; intros ns Hs; [done|]. simpl. apply IH.
  by apply ord_insert_sorted.
Qed.

Lemma foldl_insert_elem sts ns n :
  n ∈ foldl (λ ns st, ConsistentHashMap.insert H st ns) ns sts →
  n ∈ ns ∨ ∃ st, st ∈ sts ∧ n = (hash_node H st, st).
Proof.
  revert ns. induction sts as [|st sts IH]; intros ns; simpl; [by left|].
  intros [Hn|(st' & Hst & ->)]%IH; [|right; exists st'; split; [by right|done]].
  apply elem_of_ord_insert in Hn as [->|Hn]; [|by left]. right. exists st. split; [by left|done].
Qed.

Lemma foldl_erase_spec sts ns :
  ord_sorted fst ns →
  ord_sorted fst (foldl (λ ns st, ConsistentHashMap.erase H st ns) ns sts) ∧
  ∀ n, n ∈ foldl (λ ns st, ConsistentHashMap.erase H st ns) ns sts ↔
       n ∈ ns ∧ ∀ st, st ∈ sts → n.1 ≠ hash_node H st.
Proof.
  revert ns. induction sts as [|st sts IH]; intros ns Hs; simpl.
  { split; [done|]. intros n. split; [|naive_solver]. intros; split; [done|]. by intros ? ?%elem_of_nil. }
  destruct (IH (ConsistentHashMap.erase H st ns)) as [Hs' Hn]; [by apply ord_erase_sorted|].
  split; [done|]. intros n. rewrite Hn. unfold ConsistentHashMap.erase.
  rewrite elem_of_ord_erase by done. setoid_rewrite elem_of_cons. naive_solver.
Qed.

Lemma insert_ok pub priv jc tid r :
  0 ≤ tid → ring_ok r → ring_ok (HashRing.insert H pub priv jc tid r).2.
Proof.
  intros Htid [Hs Hn]. unfold HashRing.insert.
  destruct (HashRing.unique_servers r !! _) eqn:Hu.
  { by case_bool_decide; (split; [done|]); simpl. }
  split; [apply foldl_insert_sorted, Hs|]. apply Forall_forall.
  intros n [Hin|(st & (v & Hv & ->)%virtual_nodes_elem & ->)]%foldl_insert_elem.
  - eapply Forall_forall in Hn; [|done]. destruct Hn as (? & ? & ? & Hid).
    split_and!; try done; try lia. simpl. rewrite lookup_insert. case_decide; eauto.
  - split_and!; simpl; try done; try lia. rewrite lookup_insert_eq. eauto.
Qed.

(** [remove] leaves no node of the thread behind. *)
Lemma remove_nodes pub priv tid r n :
  hashes_by_thread → 0 ≤ tid → ring_ok r →
  n ∈ HashRing.nodes_ (HashRing.remove H pub priv tid r) →
  n ∈ HashRing.nodes_ r ∧ ServerThread.id n.2 ≠ ServerThread.id (ServerThread.mk pub priv tid 0).
Proof.
  intros Hh Htid [Hs Hn] Hin. simpl in Hin. apply foldl_erase_spec in Hin as [Hin Hne]; [|done].
  split; [done|]. intros Hid. eapply Forall_forall in Hn; [|done].
  destruct n as [h st], Hn as (Hhash & Hv & Ht & _). simpl in *.
  destruct (server_thread_id_inj st (ServerThread.mk pub priv tid 0)) as [Hp Ht']; [done..|].
  destruct st as [pub' priv' tid' v]. simpl in *. subst.
  apply (Hne (ServerThread.mk pub priv tid v)); [|by apply Hh].
  apply virtual_nodes_elem. by exists v.
Qed.

Lemma remove_ok pub priv tid r :
  hashes_by_thread → 0 ≤ tid → ring_ok r → ring_ok (HashRing.remove H pub priv tid r).
Proof.
  intros Hh Htid Hr. pose proof (remove_nodes pub priv tid r) as Hrem.
  destruct Hr as [Hs Hn]. split; [by apply foldl_erase_spec|].
  apply Forall_forall. intros n Hin. destruct (Hrem n) as [Hin' Hid]; [done..|].
  eapply Forall_forall in Hn; [|done]. destruct Hn as (? & ? & ? & ?). split_and!; try done; try lia.
  simpl. by rewrite lookup_delete_ne.
Qed.

(** An old node is still there after a join, at its old place. *)
Lemma insert_fresh_filter pub priv jc tid r :
  ring_ok r → HashRing.unique_servers r !! ServerThread.id (ServerThread.mk pub priv tid 0) = None →
  filter (λ n : Z * ServerThread.t, ¬ n.2 ≡ ServerThread.mk pub priv tid 0)
    (HashRing.nodes_ (HashRing.insert H pub priv jc tid r).2) = HashRing.nodes_ r.
Proof.
  intros [Hs Hn] Hu. unfold HashRing.insert. rewrite Hu. simpl.
  transitivity (filter (λ n : Z * ServerThread.t, ¬ n.2 ≡ ServerThread.mk pub priv tid 0)
                  (HashRing.nodes_ r)).
  - assert (∀ st, st ∈ HashRing.virtual_nodes pub priv tid → st ≡ ServerThread.mk pub priv tid 0) as Hsts.
    { by intros st (v & _ & ->)%virtual_nodes_elem. }
    revert Hsts. generalize (HashRing.virtual_nodes pub priv tid). intros sts.
    generalize (HashRing.nodes_ r). induction sts as [|st sts IH]; intros ns Hsts; [done|].
    simpl. rewrite IH; [|intros; apply Hsts; by right]. unfold ConsistentHashMap.insert.
    apply filter_ord_insert. simpl. intros Hne. apply Hne, Hsts. by left.
  - apply list_filter_all. eapply Forall_impl; [exact Hn|].
    intros n (_ & _ & _ & Hid) Heq. rewrite Heq, Hu in Hid. by destruct Hid.
Qed.
End inv.

Lemma global_hashes_by_thread `{StdHash} : hashes_by_thread GlobalHasher.
Proof. done. Qed.
Lemma local_hashes_by_thread `{StdHash} : hashes_by_thread LocalHasher.
Proof. done. Qed.
End RingInv.

(** ** Results about [responsible_global] and [responsible_local] *)

Lemma same_thread_refl st : same_thread st st = true.
Proof. by apply bool_decide_eq_true. Qed.

Lemma same_tid_refl tid : same_tid tid tid = true.
Proof. by apply bool_decide_eq_true. Qed.

(** The threads that have a node on the ring, by id. *)
Definition ring_threads (r : HashRing.t) : gset string :=
  list_to_set (ServerThread.id <$> (HashRing.nodes_ r).*2).

Lemma elem_of_clockwise h ns n : n ∈ clockwise h ns ↔ n ∈ ns.
Proof.
  unfold clockwise. rewrite elem_of_app, !list_elem_of_filter.
  destruct (ltb n.1 h); intuition.
Qed.

Section global_spec.
Context `{StdHash}.
Implicit Types (key : Key) (r : HashRing.t).

Definition global_candidates key r : list ServerThread.t :=
  candidates (λ st, st) same_thread GlobalHasher key (HashRing.nodes_ r).

Lemma global_candidates_distinct key r : distinct same_thread (global_candidates key r).
Proof. apply (fresh_distinct same_thread []). by intros i j a b Hi; rewrite lookup_nil in Hi. Qed.

Lemma global_candidates_elem key r st :
  st ∈ global_candidates key r → st ∈ (HashRing.nodes_ r).*2.
Proof.
  intros Hst. apply (sublist_subseteq _ _ (fresh_sublist _ _ _)) in Hst.
  rewrite list_fmap_id in Hst. apply list_elem_of_fmap in Hst as (n & -> & Hn).
  apply elem_of_clockwise in Hn. by apply list_elem_of_fmap_2.
Qed.

Lemma distinct_ids (l : list ServerThread.t) :
  distinct same_thread l → NoDup (ServerThread.id <$> l).
Proof.
  intros Hd. apply NoDup_alt. intros i j x Hi Hj.
  apply list_lookup_fmap_Some in Hi as (a & -> & Ha).
  apply list_lookup_fmap_Some in Hj as (b & Hab & Hb).
  destruct (Nat.lt_trichotomy i j) as [Hlt|[?|Hlt]]; [|done|].
  - specialize (Hd i j a b Ha Hb Hlt). by apply bool_decide_eq_false in Hd.
  - specialize (Hd j i b a Hb Ha Hlt). apply bool_decide_eq_false in Hd. by destruct Hd.
Qed.

(** The walk offers every thread of the ring exactly once. *)
Lemma global_candidates_count key r :
  length (global_candidates key r) = size (ring_threads r).
Proof.
  rewrite <-(length_fmap ServerThread.id).
  rewrite <-(size_list_to_set (C:=gset string)) by apply distinct_ids, global_candidates_distinct.
  f_equal. apply set_eq. intros x. unfold ring_threads. rewrite !elem_of_list_to_set, !list_elem_of_fmap.
  split.
  - intros (st & -> & Hst%global_candidates_elem). eauto.
  - intros (st & -> & Hst). apply list_elem_of_fmap in Hst as (n & -> & Hn).
    assert (n.2 ∈ (λ st, st) <$> (clockwise (hash_key GlobalHasher key) (HashRing.nodes_ r)).*2) as Hc.
    { rewrite list_fmap_id. apply list_elem_of_fmap_2. by apply elem_of_clockwise. }
    apply (have_fresh same_thread same_thread_refl []) in Hc. simpl in Hc.
    apply existsb_exists in Hc as (st & Hst%list_elem_of_In & Heq%bool_decide_eq_true).
    exists st. split; [by symmetry|done].
Qed.

Lemma responsible_global_eq key rep r :
  RingInv.ring_ok GlobalHasher r → rep ≤ Z.of_nat (size (ring_threads r)) →
  responsible_global key rep r = Ok (take (Z.to_nat rep) (global_candidates key r)).
Proof.
  intros [Hs _] Hrep. unfold responsible_global. rewrite responsible_eq by done.
  fold (global_candidates key r). rewrite global_candidates_count.
  by rewrite bool_decide_eq_true_2 by auto.
Qed.


Lemma responsible_global_too_many key rep r :
  RingInv.ring_ok GlobalHasher r → HashRing.nodes_ r ≠ [] →
  Z.of_nat (size (ring_threads r)) < rep → responsible_global key rep r = Fail Diverges.
Proof.
  intros [Hs _] Hne Hrep. unfold responsible_global. rewrite responsible_eq by done.
  fold (global_candidates key r). rewrite global_candidates_count.
  rewrite bool_decide_eq_false_2; [done|]. intros [?|?]; [lia|done].
Qed.

(** C34: asked for more threads than a non-empty ring has, the loop of
    [responsible_global] never ends, whatever number of steps it is given. *)
Theorem responsible_global_diverges key rep r (fuel : nat) :
  RingInv.ring_ok GlobalHasher r → HashRing.nodes_ r ≠ [] →
  Z.of_nat (size (ring_threads r)) < rep →
  responsible_global key rep r = Fail Diverges ∧
  walk (λ st, st) same_thread fuel (HashRing.nodes_ r) rep 0
    (ConsistentHashMap.find GlobalHasher key (HashRing.nodes_ r)) [] = None.
Proof.
  intros Hok Hne Hrep. pose proof (responsible_global_too_many key rep r Hok Hne Hrep) as Hd.
  destruct (find_clockwise (hash_key GlobalHasher key) _ (proj1 Hok) Hne) as [Hpos Hcw].
  split; [done|]. apply (walk_diverges _ _ same_thread_refl); [done|].
  unfold responsible_global, responsible in Hd.
  rewrite bool_decide_eq_false_2 in Hd by (unfold ConsistentHashMap.find; lia).
  by destruct (walk _ _ _ _ _ _ _ _).
Qed.

(** Leaving the newcomer's nodes out of the ring leaves the newcomer out of
    the candidates. *)
Lemma global_candidates_join key pub priv jc tid r :
  RingInv.ring_ok GlobalHasher r →
  HashRing.unique_servers r !! ServerThread.id (ServerThread.mk pub priv tid 0) = None →
  global_candidates key r =
    filter (λ st, ¬ st ≡ ServerThread.mk pub priv tid 0)
      (global_candidates key (HashRing.insert GlobalHasher pub priv jc tid r).2).
Proof.
  intros Hr Hu. unfold global_candidates, candidates. rewrite !list_fmap_id.
  rewrite <-fresh_filter, filter_nil.
  - f_equal. rewrite filter_fmap_snd. f_equal.
    rewrite <-clockwise_filter. by rewrite RingInv.insert_fresh_filter.
  - intros a b Hab%bool_decide_eq_true Hb Ha. apply Hb. by rewrite <-Hab.
Qed.
End global_spec.

Lemma take_filter_elem {A} (P : A → Prop) `{∀ a, Decision (P a)} n (l : list A) a :
  a ∈ take n l → P a → a ∈ take n (filter P l).
Proof.
  intros Ha HP. rewrite <-(take_drop n l) at 1. rewrite filter_app, take_app, elem_of_app. left.
  rewrite take_ge; [by apply list_elem_of_filter|].
  etrans; [apply length_filter|]. rewrite length_take. lia.
Qed.

Lemma take_filter_all {A} (P : A → Prop) `{∀ a, Decision (P a)} n (l : list A) :
  (n ≤ length l)%nat → (∀ a, a ∈ take n l → P a) → take n (filter P l) = take n l.
Proof.
  intros Hn Hall. rewrite <-(take_drop n l) at 1. rewrite filter_app.
  rewrite (list_filter_all P (take n l)) by (by apply Forall_forall).
  rewrite take_app_le by (rewrite length_take; lia). rewrite take_take. f_equal. lia.
Qed.

Section membership.
Context `{StdHash}.
Implicit Types (key : Key) (r : HashRing.t).

Lemma foldl_insert_mono H' sts ns n :
  n ∈ ns → n ∈ foldl (λ ns st, ConsistentHashMap.insert H' st ns) ns sts.
Proof.
  revert ns. induction sts as [|st sts IH]; intros ns Hn; [done|]. simpl.
  by apply IH, ord_insert_mono.
Qed.

Lemma insert_nodes_mono H' pub priv jc tid r n :
  n ∈ HashRing.nodes_ r → n ∈ HashRing.nodes_ (HashRing.insert H' pub priv jc tid r).2.
Proof.
  intros Hn. unfold HashRing.insert. destruct (HashRing.unique_servers r !! _).
  - by case_bool_decide.
  - by apply foldl_insert_mono.
Qed.

Lemma ring_threads_join pub priv jc tid r :
  (size (ring_threads r) ≤ size (ring_threads (HashRing.insert GlobalHasher pub priv jc tid r).2))%nat.
Proof.
  apply subseteq_size. intros x. unfold ring_threads. rewrite !elem_of_list_to_set, !list_elem_of_fmap.
  intros (st & -> & Hst). exists st. split; [done|].
  apply list_elem_of_fmap in Hst as (n & -> & Hn). apply list_elem_of_fmap_2.
  by apply insert_nodes_mono.
Qed.

(** C11: consistent hashing.  When a new node joins, the only thread a key can
    gain is the newcomer: every other thread responsible for the key after
    the join was responsible before it, and a key the newcomer is not
    responsible for keeps exactly its threads. *)
Theorem responsible_global_join key rep pub priv jc tid r :
  RingInv.ring_ok GlobalHasher r → 0 ≤ tid → 0 ≤ rep ≤ Z.of_nat (size (ring_threads r)) →
  HashRing.unique_servers r !! ServerThread.id (ServerThread.mk pub priv tid 0) = None →
  ∃ before after,
    responsible_global key rep r = Ok before ∧
    responsible_global key rep (HashRing.insert GlobalHasher pub priv jc tid r).2 = Ok after ∧
    (∀ st, st ∈ after → st ≡ ServerThread.mk pub priv tid 0 ∨ st ∈ before) ∧
    ((∀ st, st ∈ after → ¬ st ≡ ServerThread.mk pub priv tid 0) → after = before).
Proof.
  intros Hr Htid Hrep Hu. pose proof (ring_threads_join pub priv jc tid r) as Hsize.
  do 2 eexists. split; [apply responsible_global_eq; [done|lia]|].
  split; [apply responsible_global_eq; [by apply RingInv.insert_ok|lia]|].
  rewrite (global_candidates_join key pub priv jc tid r) by done. split.
  - intros st Hst. destruct (decide (st ≡ ServerThread.mk pub priv tid 0)); [by left|right].
    by apply take_filter_elem.
  - intros Hall. symmetry. apply take_filter_all; [|done].
    rewrite global_candidates_count. lia.
Qed.

(** A node that departs after it joined leaves the ring as it was, when
    no virtual node of it collides with a node already on the ring. *)
Theorem remove_insert_ring pub priv jc tid r :
  RingInv.ring_ok GlobalHasher r → 0 ≤ tid →
  HashRing.unique_servers r !! ServerThread.id (ServerThread.mk pub priv tid 0) = None →
  HashRing.server_join_count r !! priv = None →
  (∀ n v, n ∈ HashRing.nodes_ r → n.1 ≠ hash_node GlobalHasher (ServerThread.mk pub priv tid v)) →
  HashRing.remove GlobalHasher pub priv tid (HashRing.insert GlobalHasher pub priv jc tid r).2 = r.
Proof.
  intros [Hs Hn] Htid Hu Hj Hcol. unfold HashRing.insert. rewrite Hu. unfold HashRing.remove.
  destruct r as [ns us jcs].
  cbn [HashRing.nodes_ HashRing.unique_servers HashRing.server_join_count snd] in *.
  rewrite !delete_insert_id by done. f_equal.
  set (sts := HashRing.virtual_nodes pub priv tid).
  assert (∀ st, st ∈ sts → ∃ v, st = ServerThread.mk pub priv tid v) as Hsts.
  { intros st (v & _ & ->)%virtual_nodes_elem. by exists v. }
  destruct (RingInv.foldl_erase_spec GlobalHasher sts
    (foldl (λ ns st, ConsistentHashMap.insert GlobalHasher st ns) ns sts)) as [Hs' Hin].
  { by apply RingInv.foldl_insert_sorted. }
  apply (ord_sorted_ext fst); [done|done|]. intros n. rewrite Hin. split.
  - intros [[Hn'|(st & Hst & ->)]%RingInv.foldl_insert_elem Hne]; [done|]. by destruct (Hne st Hst).
  - intros Hn'. split; [by apply foldl_insert_mono|].
    intros st [v ->]%Hsts. by apply Hcol.
Qed.

(** A join announced twice is recognised: the second [insert] of a server
    with the same join count changes no node and returns [false], one with a
    higher count returns [true] and records it. *)
Theorem insert_again pub priv jc jc' tid r :
  HashRing.unique_servers r !! ServerThread.id (ServerThread.mk pub priv tid 0) = None →
  let '(first, r1) := HashRing.insert GlobalHasher pub priv jc tid r in
  let '(again, r2) := HashRing.insert GlobalHasher pub priv jc' tid r1 in
  first = true ∧ again = bool_decide (jc < jc') ∧
  HashRing.nodes_ r2 = HashRing.nodes_ r1 ∧ HashRing.unique_servers r2 = HashRing.unique_servers r1 ∧
  HashRing.server_join_count r2 !! priv = Some (Z.max jc jc').
Proof.
  intros Hu. unfold HashRing.insert. rewrite Hu. simpl. rewrite lookup_insert_eq.
  rewrite map_get_insert_eq. case_bool_decide; simpl; split_and!; try done.
  - rewrite lookup_insert_eq. f_equal. lia.
  - rewrite map_touch_same, map_get_insert_eq. f_equal. lia.
Qed.
End membership.

(** ** A ring with two threads, for concrete instances of the theorems *)
Module ExampleRing.
(** A hash with three values, by the node's name. *)
#[local] Instance toy_hash : StdHash := λ s,
  if String.prefix "GLOBALa" s then 5 else if String.prefix "GLOBALb" s then 7 else 9.

Definition st_a : ServerThread.t := ServerThread.mk "A" "a" 0 0.
Definition st_b : ServerThread.t := ServerThread.mk "B" "b" 0 0.
Definition ring : HashRing.t :=
  HashRing.mk [(5, st_a); (7, st_b)]
    (<["a:0" := st_a]> {["b:0" := st_b]}) (<["a" := 0]> {["b" := 0]}).

Lemma ring_ok : RingInv.ring_ok GlobalHasher ring.
Proof.
  split; [repeat constructor|]. repeat constructor; simpl; try done; by eexists.
Qed.

Lemma ring_two_threads : size (ring_threads ring) = 2%nat.
Proof. reflexivity. Qed.


Lemma responsible_global_diverges_witness :
  responsible_global "k" 3 ring = Fail Diverges ∧
  walk (λ st, st) same_thread 1000 (HashRing.nodes_ ring) 3 0
    (ConsistentHashMap.find GlobalHasher "k" (HashRing.nodes_ ring)) [] = None.
Proof.
  apply (responsible_global_diverges "k" 3 ring 1000 ring_ok).
  - discriminate.
  - rewrite ring_two_threads. simpl. lia.
Defined.

Lemma responsible_global_join_witness :
  ∃ before after,
    responsible_global "k" 2 ring = Ok before ∧
    responsible_global "k" 2 (HashRing.insert GlobalHasher "C" "c" 0 0 ring).2 = Ok after ∧
    (∀ st, st ∈ after → st ≡ ServerThread.mk "C" "c" 0 0 ∨ st ∈ before) ∧
    ((∀ st, st ∈ after → ¬ st ≡ ServerThread.mk "C" "c" 0 0) → after = before).
Proof.
  apply (responsible_global_join "k" 2 "C" "c" 0 0 ring ring_ok).
  - lia.
  - rewrite ring_two_threads. simpl. lia.
  - reflexivity.
Defined.

Lemma remove_insert_ring_witness :
  HashRing.remove GlobalHasher "C" "c" 0 (HashRing.insert GlobalHasher "C" "c" 0 0 ring).2 = ring.
Proof.
  apply (remove_insert_ring "C" "c" 0 0 ring ring_ok).
  - lia.
  - reflexivity.
  - reflexivity.
  - intros n v. simpl. intros [->|[->|Hn%elem_of_nil]%elem_of_cons]%elem_of_cons.
    + discriminate.
    + discriminate.
    + destruct Hn.
Defined.

Lemma insert_again_witness :
  let '(first, r1) := HashRing.insert GlobalHasher "C" "c" 0 0 ring in
  let '(again, r2) := HashRing.insert GlobalHasher "C" "c" 1 0 r1 in
  first = true ∧ again = bool_decide (0 < 1) ∧
  HashRing.nodes_ r2 = HashRing.nodes_ r1 ∧ HashRing.unique_servers r2 = HashRing.unique_servers r1 ∧
  HashRing.server_join_count r2 !! "c" = Some (Z.max 0 1).
Proof. apply (insert_again "C" "c" 0 1 0 ring). reflexivity. Defined.
End ExampleRing.
