(* ===== verification/RingUtil.v ===== *)
(** Which threads are responsible for a key, on the state a process keeps
    (src/hash_ring/hash_ring.cpp, include/hash_ring.hpp), and the requests for
    metadata that the same file prepares.

    [get_responsible_threads] is a virtual method of [HashRingUtilInterface];
    the handlers call it through the global [kHashRingUtil], so it is a class
    here and [HashRingUtil] its instance. *)

From S2P Require Import Prelude Text Ordered Threads Wire WireCodec Codec Metadata HashRing.
From Stdlib Require Import Lia.

(** ** Tuples of a request (include/kvs_common.hpp) *)
Definition prepare_get_tuple (req : KeyRequest.t) (key : Key) (lattice_type : LatticeType)
    : KeyRequest.t :=
  KeyRequest.add_tuple
    (KeyTuple.set_lattice_type lattice_type (KeyTuple.set_key key KeyTuple.empty)) req.

Definition prepare_put_tuple (req : KeyRequest.t) (key : Key) (lattice_type : LatticeType)
    (payload : string) : KeyRequest.t :=
  KeyRequest.add_tuple
    (KeyTuple.set_payload payload
      (KeyTuple.set_lattice_type lattice_type (KeyTuple.set_key key KeyTuple.empty))) req.

(** ** The shared state

    [seed] is the argument of [rand_r]; [rand_state] the hidden state of
    [rand]. *)
Record RingState := mkRingState {
  global_hash_rings : gmap Tier HashRing.t;
  local_hash_rings : gmap Tier HashRing.t;
  key_replication_map : gmap Key KeyReplication;
  seed : Z;
  rand_state : Z;
}.

Definition set_global_hash_rings (g : gmap Tier HashRing.t) (s : RingState) : RingState :=
  mkRingState g (local_hash_rings s) (key_replication_map s) (seed s) (rand_state s).
Definition set_local_hash_rings (l : gmap Tier HashRing.t) (s : RingState) : RingState :=
  mkRingState (global_hash_rings s) l (key_replication_map s) (seed s) (rand_state s).
Definition set_key_replication_map (m : gmap Key KeyReplication) (s : RingState) : RingState :=
  mkRingState (global_hash_rings s) (local_hash_rings s) m (seed s) (rand_state s).
Definition set_seed (x : Z) (s : RingState) : RingState :=
  mkRingState (global_hash_rings s) (local_hash_rings s) (key_replication_map s) x (rand_state s).
Definition set_rand_state (x : Z) (s : RingState) : RingState :=
  mkRingState (global_hash_rings s) (local_hash_rings s) (key_replication_map s) (seed s) x.

(** The C library's generator: a value in [0, RAND_MAX] and the next state. *)
Class Random := rand_r : Z → Z * Z.
Class RandomLaws `{Random} : Prop := rand_nonneg s : 0 ≤ (rand_r s).1.

(** [hmap[tier]] of the ring maps: a missing ring is created empty. *)
Definition global_ring_at (tier : Tier) : M RingState HashRing.t :=
  s ← get;
  modify (set_global_hash_rings (map_touch HashRing.empty (global_hash_rings s) tier)) ;;
  mret (map_get HashRing.empty (global_hash_rings s) tier).
Definition local_ring_at (tier : Tier) : M RingState HashRing.t :=
  s ← get;
  modify (set_local_hash_rings (map_touch HashRing.empty (local_hash_rings s) tier)) ;;
  mret (map_get HashRing.empty (local_hash_rings s) tier).

(** [key_replication_map[key].global_replication_[tier]], read *)
Definition global_rep_at (key : Key) (tier : Tier) : M RingState Z :=
  s ← get;
  let rep := map_get no_replication (key_replication_map s) key in
  modify (set_key_replication_map
    (<[key := mkKeyReplication (map_touch 0 (global_replication_ rep) tier)
                               (local_replication_ rep)]> (key_replication_map s))) ;;
  mret (global_rep rep tier).
Definition local_rep_at (key : Key) (tier : Tier) : M RingState Z :=
  s ← get;
  let rep := map_get no_replication (key_replication_map s) key in
  modify (set_key_replication_map
    (<[key := mkKeyReplication (global_replication_ rep)
                               (map_touch 0 (local_replication_ rep) tier)]> (key_replication_map s))) ;;
  mret (local_rep rep tier).

(** [std::next(begin(threads), n % threads.size())->key_request_connect_address()] *)
Definition pick_thread (threads : list ServerThread.t) (n : Z) : outcome ServerThread.t :=
  if bool_decide (threads = []) then Fail (UndefinedBehaviour "remainder by zero")
  else vector_at threads (Z.to_nat (n `mod` Z.of_nat (length threads))).

Lemma pick_thread_elem threads n :
  threads ≠ [] → ∃ th, pick_thread threads n = Ok th ∧ th ∈ threads.
Proof.
  intros Hne. unfold pick_thread. rewrite bool_decide_eq_false_2 by done.
  assert (0 < Z.of_nat (length threads)) by (destruct threads; [done|simpl; lia]).
  destruct (lookup_lt_is_Some_2 threads (Z.to_nat (n `mod` Z.of_nat (length threads)))) as [th Hth].
  { pose proof (Z.mod_pos_bound n (Z.of_nat (length threads))). lia. }
  exists th. unfold vector_at. rewrite Hth. split; [done|]. by apply list_elem_of_lookup_2 in Hth.
Qed.

Section ring_util.
Context `{StdHash} `{Random} `{Protobuf} (c : Config).

(** [for (tid : tids) result.push_back(ServerThread(public_ip, private_ip, tid));] *)
Definition threads_of (thread : ServerThread.t) (tids : list Z) : list ServerThread.t :=
  map (ServerThread.new (ServerThread.public_ip thread) (ServerThread.private_ip thread)) tids.

(** The loop of [get_responsible_threads_metadata] over [threads]. *)
Fixpoint metadata_threads (key : Key) (l : HashRing.t) (threads : list ServerThread.t)
    : outcome (list ServerThread.t) :=
  match threads with
  | [] => Ok []
  | thread :: threads =>
      tids ← responsible_local key (kDefaultLocalReplication c) l;
      rest ← metadata_threads key l threads;
      Ok (threads_of thread tids ++ rest)
  end.

Definition get_responsible_threads_metadata (key : Key) (global_memory_hash_ring
    local_memory_hash_ring : HashRing.t) : outcome (list ServerThread.t) :=
  threads ← responsible_global key kMetadataReplicationFactor global_memory_hash_ring;
  metadata_threads key local_memory_hash_ring threads.

Definition issue_replication_factor_request (response_address : Address) (key : Key)
    (global_memory_hash_ring local_memory_hash_ring : HashRing.t) : M RingState unit :=
  let replication_key := get_metadata_key key replication in
  threads ← lift_outcome (get_responsible_threads_metadata replication_key
              global_memory_hash_ring local_memory_hash_ring);
  s ← get;
  let '(n, seed') := rand_r (seed s) in
  modify (set_seed seed') ;;
  target ← lift_outcome (pick_thread threads n);
  let key_request := KeyRequest.set_response_address response_address
                       (KeyRequest.set_type GET KeyRequest.empty) in
  let key_request := prepare_get_tuple key_request replication_key LWW in
  send_string (SerializeToString key_request) (ServerThread.key_request_connect_address target).

(** The loop over the tiers for a key whose replication vector is known. *)
Definition tier_threads (key : Key) (result : list ServerThread.t) (tier : Tier)
    : M RingState (list ServerThread.t) :=
  global_rep ← global_rep_at key tier;
  ring ← global_ring_at tier;
  threads ← lift_outcome (responsible_global key global_rep ring);
  for_acc threads result (λ result thread,
    local_rep ← local_rep_at key tier;
    local_ring ← local_ring_at tier;
    tids ← lift_outcome (responsible_local key local_rep local_ring);
    mret (result ++ threads_of thread tids)).

(** [HashRingUtil::get_responsible_threads]: the threads, and [succeed]. *)
Definition HashRingUtil_get_responsible_threads (response_address : Address) (key : Key)
    (metadata : bool) (tiers : list Tier) : M RingState (list ServerThread.t * bool) :=
  if metadata then
    g ← global_ring_at MEMORY;
    l ← local_ring_at MEMORY;
    threads ← lift_outcome (get_responsible_threads_metadata key g l);
    mret (threads, true)
  else
    s ← get;
    match key_replication_map s !! key with
    | None =>
        g ← global_ring_at MEMORY;
        l ← local_ring_at MEMORY;
        issue_replication_factor_request response_address key g l ;;
        mret ([], false)
    | Some _ =>
        result ← for_acc tiers [] (tier_threads key);
        mret (result, true)
    end.

(** ** Requests for metadata, collected per target address *)
Definition prepare_metadata_request (key : Key) (g l : HashRing.t)
    (addr_request_map : gmap Address KeyRequest.t) (response_address : Address) (rid : Z)
    (type : RequestType) : M RingState (Address * gmap Address KeyRequest.t * Z) :=
  threads ← lift_outcome (get_responsible_threads_metadata key g l);
  if negb (bool_decide (threads = [])) then
    s ← get;
    let '(n, rs) := rand_r (rand_state s) in
    modify (set_rand_state rs) ;;
    target ← lift_outcome (pick_thread threads n);
    let target_address := ServerThread.key_request_connect_address target in
    match addr_request_map !! target_address with
    | None =>
        let req := KeyRequest.mk type [] response_address
                     (response_address +:+ ":" +:+ to_string rid) in
        mret (target_address, <[target_address := req]> addr_request_map, u32 (rid + 1))
    | Some _ => mret (target_address, addr_request_map, rid)
    end
  else mret ("", addr_request_map, rid).

Definition prepare_metadata_get_request (key : Key) (g l : HashRing.t)
    (addr_request_map : gmap Address KeyRequest.t) (response_address : Address) (rid : Z)
    : M RingState (gmap Address KeyRequest.t * Z) :=
  '(target_address, addr_request_map, rid) ←
    prepare_metadata_request key g l addr_request_map response_address rid GET;
  if negb (bool_decide (target_address = "")) then
    let req := map_get KeyRequest.empty addr_request_map target_address in
    mret (<[target_address := prepare_get_tuple req key LWW]> addr_request_map, rid)
  else mret (addr_request_map, rid).

(** [time] is what [get_time()] returns. *)
Definition prepare_metadata_put_request (time : Z) (key : Key) (value : string) (g l : HashRing.t)
    (addr_request_map : gmap Address KeyRequest.t) (response_address : Address) (rid : Z)
    : M RingState (gmap Address KeyRequest.t * Z) :=
  '(target_address, addr_request_map, rid) ←
    prepare_metadata_request key g l addr_request_map response_address rid PUT;
  if negb (bool_decide (target_address = "")) then
    ts ← lift_outcome (Timestamp.generate_timestamp time 0);
    let req := map_get KeyRequest.empty addr_request_map target_address in
    mret (<[target_address := prepare_put_tuple req key LWW (serialize_value ts value)]>
            addr_request_map, rid)
  else mret (addr_request_map, rid).
End ring_util.

(** ** The interface the handlers use *)
Class HashRingUtilInterface := {
  get_responsible_threads : Address → Key → bool → list Tier →
    M RingState (list ServerThread.t * bool);
}.

Definition HashRingUtil `{StdHash} `{Random} `{Protobuf} (c : Config) : HashRingUtilInterface :=
  {| get_responsible_threads := HashRingUtil_get_responsible_threads c |}.

(** ** A key whose replication vector is known

    The rings and the vector as the functions read them: a missing ring reads
    as an empty one, a missing entry of a vector as 0. *)
Section known_key.
Context `{StdHash} `{Random} `{Protobuf} (c : Config).

Definition ring_reads (tier : Tier) (G L : HashRing.t) (s : RingState) : Prop :=
  map_get HashRing.empty (global_hash_rings s) tier = G ∧
  map_get HashRing.empty (local_hash_rings s) tier = L.

Definition replication_reads (key : Key) (tier : Tier) (g l : Z) (s : RingState) : Prop :=
  ∃ rep, key_replication_map s !! key = Some rep ∧ global_rep rep tier = g ∧ local_rep rep tier = l.

Definition known_key (key : Key) (tier : Tier) (G L : HashRing.t) (g l : Z) (s : RingState) : Prop :=
  ring_reads tier G L s ∧ replication_reads key tier g l s.

(** Reading leaves what is read. *)
Lemma wp_global_ring_at key tier G L g l s (Q : HashRing.t → RingState → list Msg → Prop) :
  known_key key tier G L g l s → (∀ s', known_key key tier G L g l s' → Q G s' []) →
  wp (global_ring_at tier) s Q.
Proof.
  intros [[HG HL] Hrep] HQ. unfold global_ring_at. wp_steps. simpl. rewrite HG. apply HQ.
  split; [split|]; [|done|done]. simpl. by rewrite map_touch_get.
Qed.

Lemma wp_local_ring_at key tier G L g l s (Q : HashRing.t → RingState → list Msg → Prop) :
  known_key key tier G L g l s → (∀ s', known_key key tier G L g l s' → Q L s' []) →
  wp (local_ring_at tier) s Q.
Proof.
  intros [[HG HL] Hrep] HQ. unfold local_ring_at. wp_steps. simpl. rewrite HL. apply HQ.
  split; [split|]; [done| |done]. simpl. by rewrite map_touch_get.
Qed.

Lemma wp_global_rep_at key tier G L g l s (Q : Z → RingState → list Msg → Prop) :
  known_key key tier G L g l s → (∀ s', known_key key tier G L g l s' → Q g s' []) →
  wp (global_rep_at key tier) s Q.
Proof.
  intros [Hr (rep & Hk & Hg & Hl)] HQ. unfold global_rep_at.
  assert (map_get no_replication (key_replication_map s) key = rep) as Hm
    by (unfold map_get; by rewrite Hk).
  wp_steps. simpl. rewrite Hm, Hg. apply HQ. split; [done|].
  eexists. split; [apply lookup_insert_eq|].
  unfold global_rep, local_rep. simpl. by rewrite map_touch_get.
Qed.

Lemma wp_local_rep_at key tier G L g l s (Q : Z → RingState → list Msg → Prop) :
  known_key key tier G L g l s → (∀ s', known_key key tier G L g l s' → Q l s' []) →
  wp (local_rep_at key tier) s Q.
Proof.
  intros [Hr (rep & Hk & Hg & Hl)] HQ. unfold local_rep_at.
  assert (map_get no_replication (key_replication_map s) key = rep) as Hm
    by (unfold map_get; by rewrite Hk).
  wp_steps. simpl. rewrite Hm, Hl. apply HQ. split; [done|].
  eexists. split; [apply lookup_insert_eq|].
  unfold global_rep, local_rep. simpl. by rewrite map_touch_get.
Qed.

(** The threads of one tier: every local thread of every chosen node. *)
Lemma wp_tier_threads key tier G L g l threads tids result s :
  responsible_global key g G = Ok threads → responsible_local key l L = Ok tids →
  known_key key tier G L g l s →
  wp (tier_threads key result tier) s (λ r s' out,
    r = result ++ (threads ≫= λ th, threads_of th tids) ∧ known_key key tier G L g l s' ∧ out = []).
Proof.
  intros HG HL Hs. unfold tier_threads.
  apply wp_bind. eapply wp_global_rep_at; [done|]. intros s1 Hs1.
  apply wp_bind. eapply wp_global_ring_at; [done|]. intros s2 Hs2.
  apply wp_bind. eapply wp_lift_outcome; [done|].
  eapply wp_mono.
  - apply (wp_for_acc (λ xs r s' out,
      r = result ++ (xs ≫= λ th, threads_of th tids) ∧ known_key key tier G L g l s' ∧ out = [])).
    + by rewrite app_nil_r.
    + intros xs th r s' out _ (-> & Hs' & ->).
      apply wp_bind. eapply wp_local_rep_at; [done|]. intros s3 Hs3.
      apply wp_bind. eapply wp_local_ring_at; [done|]. intros s4 Hs4.
      apply wp_bind. eapply wp_lift_outcome; [done|]. wp_steps.
      split_and!; [|done|done]. rewrite bind_app. simpl. by rewrite app_nil_r, app_assoc.
  - intros r s' out (-> & ? & ->). done.
Qed.

(** A data key whose vector is known is answered at once, from the rings. *)
Lemma responsible_known_key resp key tier G L g l threads tids s :
  responsible_global key g G = Ok threads → responsible_local key l L = Ok tids →
  known_key key tier G L g l s →
  wp (HashRingUtil_get_responsible_threads c resp key false [tier]) s (λ r s' out,
    r = (threads ≫= λ th, threads_of th tids, true) ∧ known_key key tier G L g l s' ∧ out = []).
Proof.
  intros HG HL Hs. unfold HashRingUtil_get_responsible_threads. wp_step. wp_step.
  destruct Hs as [Hr (rep & Hk & Hrep)]. rewrite Hk.
  assert (known_key key tier G L g l s) as Hs by (split; [done|by exists rep]).
  wp_step. cbn [for_acc]. wp_step. eapply wp_mono; [by eapply wp_tier_threads|].
  intros r s' out (-> & Hs' & ->). wp_steps. done.
Qed.

(** A data key whose vector is not known: nobody is named. *)
Lemma responsible_unknown_key resp key tiers s threads b s' out :
  key_replication_map s !! key = None →
  HashRingUtil_get_responsible_threads c resp key false tiers s = Ok (threads, b, s', out) →
  threads = [] ∧ b = false.
Proof.
  intros Hk. unfold HashRingUtil_get_responsible_threads, mbind, M_bind, get. simpl. rewrite Hk.
  destruct (issue_replication_factor_request _ _ _ _ _ _) as [[[[] s1] out1]|]; [|done].
  simpl. intros [= <- <- _ _]. done.
Qed.
End known_key.
