(* ===== verification/ServerState.v ===== *)
(** The state of a server thread: the locals of [run] in src/kvs/server.cpp
    that its handlers take by reference, the serializers it dispatches to by
    lattice type (the [SerializerMap] of include/kvs/server_utils.hpp), and the
    helpers of src/kvs/utils.cpp.

    [preserves] is the rule set for invariants of handlers. *)

From S2P Require Import Prelude Text Ordered Lattices ValueLattices Threads Wire WireCodec.
From S2P Require Import Codec Metadata KVStore DiskStore HashRing RingUtil.
From Stdlib Require Import Lia SpecFloat.

(** ** Pending work (include/kvs/server_utils.hpp) *)
Module PendingRequest.
Record t := mk {
  type_ : RequestType;
  lattice_type_ : LatticeType;
  payload_ : string;
  addr_ : Address;
  response_id_ : string;
}.
End PendingRequest.

Module PendingGossip.
Record t := mk { lattice_type_ : LatticeType; payload_ : string }.
End PendingGossip.

(** [AddressKeysetMap]: which keys go to which address *)
Abbreviation AddressKeysetMap := (gmap Address (gset Key)).

(** [m[address].insert(key);] *)
Definition keyset_insert (address : Address) (key : Key) (m : AddressKeysetMap) : AddressKeysetMap :=
  <[address := {[key]} ∪ map_get ∅ m address]> m.

(** [std::multiset<TimePoint>], in ascending order *)
Fixpoint multiset_insert (t : Z) (l : list Z) : list Z :=
  match l with
  | [] => [t]
  | u :: l' => if bool_decide (t < u) then t :: l else u :: multiset_insert t l'
  end.

(** ** The serializers of a thread

    [serializers[type]] of a type without an entry is a null pointer. *)
Class SerializerMap (Store : Type) := serializer_at : LatticeType → option (Serializer Store).

(** Access to a part of a larger store. *)
Definition serializer_on {S T} (proj : S → T) (upd : T → S → S) (ser : Serializer T) : Serializer S :=
  mkSerializer
    (λ k e s, let '(v, e, t) := ser_get ser k e (proj s) in (v, e, upd t s))
    (λ k p s, let '(n, t) := ser_put ser k p (proj s) in (n, upd t s))
    (λ k s, upd (ser_remove ser k (proj s)) s).

(** A serializer on a part keeps its promises on the whole. *)
Lemma serializer_on_laws {S T V} `{Lattice V} (proj : S → T) (upd : T → S → S) (ser : Serializer T)
    inv (view : T → Key → V) decode accepts :
  (∀ t s, proj (upd t s) = t) → SerializerLaws ser inv view decode accepts →
  SerializerLaws (serializer_on proj upd ser) (λ s, inv (proj s)) (λ s, view (proj s)) decode accepts.
Proof.
  intros Hproj [Hpi Hgi Hri Hpv Hgv Hval Hrv]. split; simpl; intros st k.
  - intros s Hi. specialize (Hpi (proj st) k s Hi).
    destruct (ser_put ser k s (proj st)) as [n t]. simpl in *. by rewrite Hproj.
  - intros e Hi. specialize (Hgi (proj st) k e Hi).
    destruct (ser_get ser k e (proj st)) as [[v e'] t]. simpl in *. by rewrite Hproj.
  - intros Hi. rewrite Hproj. by apply Hri.
  - intros s k' Hi Ha. specialize (Hpv (proj st) k s k' Hi Ha).
    destruct (ser_put ser k s (proj st)) as [n t]. simpl in *. by rewrite Hproj.
  - intros e k' Hi. specialize (Hgv (proj st) k e k' Hi).
    destruct (ser_get ser k e (proj st)) as [[v e'] t]. simpl in *. by rewrite Hproj.
  - intros e Hi He. specialize (Hval (proj st) k e Hi He).
    by destruct (ser_get ser k e (proj st)) as [[v e'] t].
  - intros k' Hi. rewrite Hproj. by apply Hrv.
Qed.

(** The stores of a thread of the memory tier. *)
Record MemoryStores := mkMemoryStores {
  lww_kvs : gmap Key (LWWPairLattice.TimestampValuePair string);
  set_kvs : gmap Key (gset string);
  ordered_set_kvs : gmap Key (list string);
  sk_causal_kvs : gmap Key (SingleKeyCausalLattice.VectorClockValuePair (gset string));
  mk_causal_kvs : gmap Key (MultiKeyCausalLattice.MultiKeyCausalPayload (gset string));
  priority_kvs : gmap Key (PriorityLattice.PriorityValuePair spec_float string);
}.

Definition memory_serializers `{Protobuf} : SerializerMap MemoryStores := λ type,
  match type with
  | NONE => None
  | LWW => Some (serializer_on lww_kvs
      (λ t s, mkMemoryStores t (set_kvs s) (ordered_set_kvs s) (sk_causal_kvs s)
                (mk_causal_kvs s) (priority_kvs s)) MemoryLWWSerializer)
  | SET => Some (serializer_on set_kvs
      (λ t s, mkMemoryStores (lww_kvs s) t (ordered_set_kvs s) (sk_causal_kvs s)
                (mk_causal_kvs s) (priority_kvs s)) MemorySetSerializer)
  | ORDERED_SET => Some (serializer_on ordered_set_kvs
      (λ t s, mkMemoryStores (lww_kvs s) (set_kvs s) t (sk_causal_kvs s)
                (mk_causal_kvs s) (priority_kvs s)) MemoryOrderedSetSerializer)
  | SINGLE_CAUSAL => Some (serializer_on sk_causal_kvs
      (λ t s, mkMemoryStores (lww_kvs s) (set_kvs s) (ordered_set_kvs s) t
                (mk_causal_kvs s) (priority_kvs s)) MemorySingleKeyCausalSerializer)
  | MULTI_CAUSAL => Some (serializer_on mk_causal_kvs
      (λ t s, mkMemoryStores (lww_kvs s) (set_kvs s) (ordered_set_kvs s) (sk_causal_kvs s)
                t (priority_kvs s)) MemoryMultiKeyCausalSerializer)
  | PRIORITY => Some (serializer_on priority_kvs
      (λ t s, mkMemoryStores (lww_kvs s) (set_kvs s) (ordered_set_kvs s) (sk_causal_kvs s)
                (mk_causal_kvs s) t) MemoryPrioritySerializer)
  end.

(** A thread of the disk tier: every serializer works on the same files. *)
Definition disk_serializers `{Protobuf} (can_open : string → bool) (ebs_root_ : string) (tid : Z)
    : SerializerMap FileSystem := λ type,
  match type with
  | NONE => None
  | LWW => Some (DiskLWWSerializer can_open ebs_root_ tid)
  | SET => Some (DiskSetSerializer can_open ebs_root_ tid)
  | ORDERED_SET => Some (DiskOrderedSetSerializer can_open ebs_root_ tid)
  | SINGLE_CAUSAL => Some (DiskSingleKeyCausalSerializer can_open ebs_root_ tid)
  | MULTI_CAUSAL => Some (DiskMultiKeyCausalSerializer can_open ebs_root_ tid)
  | PRIORITY => Some (DiskPrioritySerializer can_open ebs_root_ tid)
  end.

(** What the handlers rely on: every lattice type but [NONE] has a
    serializer. *)
Class SerializerMapLaws (Store : Type) `{SerializerMap Store} : Prop :=
  serializer_at_type type : is_Some (serializer_at type) ↔ type ≠ NONE.

Lemma memory_serializers_laws `{Protobuf} : @SerializerMapLaws MemoryStores memory_serializers.
Proof. intros type. split; [by destruct type; [intros []|..]|]. destruct type; by eauto. Qed.
Lemma disk_serializers_laws `{Protobuf} can_open root tid :
  @SerializerMapLaws FileSystem (disk_serializers can_open root tid).
Proof. intros type. split; [by destruct type; [intros []|..]|]. destruct type; by eauto. Qed.

(** ** The thread's state *)
Record ServerState (Store : Type) := mkServerState {
  rings : RingState;
  store : Store;
  stored_key_map : gmap Key KeyProperty;
  pending_requests : gmap Key (list PendingRequest.t);
  pending_gossip : gmap Key (list PendingGossip.t);
  key_access_tracker : gmap Key (list Z);
  access_count : Z;
  local_changeset : gset Key;
  join_remove_set : gset Key;
  join_gossip_map : AddressKeysetMap;
  extant_caches : gset Address;
  cache_ip_to_keys : gmap Address (gset Key);
  key_to_cache_ips : gmap Key (gset Address);
  rid : Z;
}.
Arguments mkServerState {Store} _ _ _ _ _ _ _ _ _ _ _ _ _ _.
Arguments rings {Store} _.
Arguments store {Store} _.
Arguments stored_key_map {Store} _.
Arguments pending_requests {Store} _.
Arguments pending_gossip {Store} _.
Arguments key_access_tracker {Store} _.
Arguments access_count {Store} _.
Arguments local_changeset {Store} _.
Arguments join_remove_set {Store} _.
Arguments join_gossip_map {Store} _.
Arguments extant_caches {Store} _.
Arguments cache_ip_to_keys {Store} _.
Arguments key_to_cache_ips {Store} _.
Arguments rid {Store} _.

Section setters.
Context {Store : Type}.
Implicit Types s : ServerState Store.

Definition set_rings x s := mkServerState x (store s) (stored_key_map s) (pending_requests s)
  (pending_gossip s) (key_access_tracker s) (access_count s) (local_changeset s) (join_remove_set s)
  (join_gossip_map s) (extant_caches s) (cache_ip_to_keys s) (key_to_cache_ips s) (rid s).
Definition set_store (x : Store) s := mkServerState (rings s) x (stored_key_map s) (pending_requests s)
  (pending_gossip s) (key_access_tracker s) (access_count s) (local_changeset s) (join_remove_set s)
  (join_gossip_map s) (extant_caches s) (cache_ip_to_keys s) (key_to_cache_ips s) (rid s).
Definition set_stored_key_map x s := mkServerState (rings s) (store s) x (pending_requests s)
  (pending_gossip s) (key_access_tracker s) (access_count s) (local_changeset s) (join_remove_set s)
  (join_gossip_map s) (extant_caches s) (cache_ip_to_keys s) (key_to_cache_ips s) (rid s).
Definition set_pending_requests x s := mkServerState (rings s) (store s) (stored_key_map s) x
  (pending_gossip s) (key_access_tracker s) (access_count s) (local_changeset s) (join_remove_set s)
  (join_gossip_map s) (extant_caches s) (cache_ip_to_keys s) (key_to_cache_ips s) (rid s).
Definition set_pending_gossip x s := mkServerState (rings s) (store s) (stored_key_map s)
  (pending_requests s) x (key_access_tracker s) (access_count s) (local_changeset s) (join_remove_set s)
  (join_gossip_map s) (extant_caches s) (cache_ip_to_keys s) (key_to_cache_ips s) (rid s).
Definition set_key_access_tracker x s := mkServerState (rings s) (store s) (stored_key_map s)
  (pending_requests s) (pending_gossip s) x (access_count s) (local_changeset s) (join_remove_set s)
  (join_gossip_map s) (extant_caches s) (cache_ip_to_keys s) (key_to_cache_ips s) (rid s).
Definition set_access_count x s := mkServerState (rings s) (store s) (stored_key_map s)
  (pending_requests s) (pending_gossip s) (key_access_tracker s) x (local_changeset s) (join_remove_set s)
  (join_gossip_map s) (extant_caches s) (cache_ip_to_keys s) (key_to_cache_ips s) (rid s).
Definition set_local_changeset x s := mkServerState (rings s) (store s) (stored_key_map s)
  (pending_requests s) (pending_gossip s) (key_access_tracker s) (access_count s) x (join_remove_set s)
  (join_gossip_map s) (extant_caches s) (cache_ip_to_keys s) (key_to_cache_ips s) (rid s).
Definition set_join_remove_set x s := mkServerState (rings s) (store s) (stored_key_map s)
  (pending_requests s) (pending_gossip s) (key_access_tracker s) (access_count s) (local_changeset s) x
  (join_gossip_map s) (extant_caches s) (cache_ip_to_keys s) (key_to_cache_ips s) (rid s).
Definition set_join_gossip_map x s := mkServerState (rings s) (store s) (stored_key_map s)
  (pending_requests s) (pending_gossip s) (key_access_tracker s) (access_count s) (local_changeset s)
  (join_remove_set s) x (extant_caches s) (cache_ip_to_keys s) (key_to_cache_ips s) (rid s).
Definition set_caches x y z s := mkServerState (rings s) (store s) (stored_key_map s)
  (pending_requests s) (pending_gossip s) (key_access_tracker s) (access_count s) (local_changeset s)
  (join_remove_set s) (join_gossip_map s) x y z (rid s).
Definition set_rid x s := mkServerState (rings s) (store s) (stored_key_map s)
  (pending_requests s) (pending_gossip s) (key_access_tracker s) (access_count s) (local_changeset s)
  (join_remove_set s) (join_gossip_map s) (extant_caches s) (cache_ip_to_keys s) (key_to_cache_ips s) x.
End setters.

(** An operation of the ring state, run by the thread. *)
Definition on_rings {Store A} (m : M RingState A) : M (ServerState Store) A := zoom rings set_rings m.

(** ** src/kvs/utils.cpp *)
Section utils.
Context {Store : Type} `{SerializerMap Store} `{Protobuf} `{StdHash} (c : Config).

Definition null_serializer : failure := UndefinedBehaviour "call through a null serializer".

Definition process_get (key : Key) (type : LatticeType) : M (ServerState Store) (string * AnnaError) :=
  serializer ← lift_outcome (of_option null_serializer (serializer_at type));
  s ← get;
  let '(res, error, st) := ser_get serializer key NO_ERROR (store s) in
  modify (set_store st) ;; mret (res, error).

Definition process_put (key : Key) (lattice_type : LatticeType) (payload : string)
    (type : LatticeType) : M (ServerState Store) unit :=
  serializer ← lift_outcome (of_option null_serializer (serializer_at type));
  s ← get;
  let '(size, st) := ser_put serializer key payload (store s) in
  modify (set_store st) ;;
  modify (λ s, set_stored_key_map (<[key := mkKeyProperty size lattice_type]> (stored_key_map s)) s).

(** The keys of one address, in the loop of [send_gossip]. *)
Definition gossip_request (req : KeyRequest.t) (key : Key) : M (ServerState Store) KeyRequest.t :=
  s ← get;
  match stored_key_map s !! key with
  | None => mret req
  | Some p =>
      '(res, error) ← process_get key (type_ p);
      if bool_decide (error = NO_ERROR) then mret (prepare_put_tuple req key (type_ p) res)
      else mret req
  end.

Definition send_gossip (addr_keyset_map : AddressKeysetMap) : M (ServerState Store) unit :=
  gossip_map ← for_acc (map_to_list addr_keyset_map) (∅ : gmap Address KeyRequest.t)
    (λ gossip_map '(address, keys),
      let req := KeyRequest.set_type PUT (map_get KeyRequest.empty gossip_map address) in
      req ← for_acc (elements keys) req gossip_request;
      mret (<[address := req]> gossip_map));
  for_each (map_to_list gossip_map) (λ '(address, req),
    send_string (SerializeToString req) address).

(** [Tier] values are compared as the enumeration's numbers. *)
Definition has_upper_tier_replica (key : Key) : M RingState bool :=
  for_acc kAllTiers false (λ acc tier,
    if bool_decide (Tier_num tier < Tier_num (kSelfTier c))%nat then
      n ← global_rep_at key tier;
      mret (if bool_decide (n > 0) then true else acc)
    else mret acc).

Definition is_primary_replica (wt : ServerThread.t) (key : Key) : M RingState bool :=
  rep ← global_rep_at key (kSelfTier c);
  if bool_decide (rep = 0) then mret false
  else
    upper ← (if bool_decide (Tier_num MEMORY < Tier_num (kSelfTier c))%nat
             then has_upper_tier_replica key else mret false);
    if upper : bool then mret false
    else
      global_ring ← global_ring_at (kSelfTier c);
      match HashRing.nodes_ global_ring
            !! ConsistentHashMap.find GlobalHasher key (HashRing.nodes_ global_ring) with
      | None => mret false
      | Some (_, global_pos) =>
          if bool_decide (ServerThread.private_ip wt = ServerThread.private_ip global_pos) then
            local_ring ← local_ring_at (kSelfTier c);
            match HashRing.nodes_ local_ring
                  !! ConsistentHashMap.find LocalHasher key (HashRing.nodes_ local_ring) with
            | None => mret false
            | Some (_, local_pos) =>
                mret (bool_decide (ServerThread.tid wt = ServerThread.tid local_pos))
            end
          else mret false
      end.
End utils.

(** ** Invariants of handlers

    [preserves I m]: whenever [m] returns, it keeps [I]. *)
Definition preserves {S A} (I : S → Prop) (m : M S A) : Prop :=
  ∀ s a s' out, m s = Ok (a, s', out) → I s → I s'.

Section preserves.
Context {S : Type} (I : S → Prop).

Lemma preserves_ret {A} (a : A) : preserves I (mret a).
Proof. intros s a' s' out Heq Hs. by injection Heq as _ <- _. Qed.

Lemma preserves_bind {A B} (m : M S A) (f : A → M S B) :
  preserves I m → (∀ a, preserves I (f a)) → preserves I (m ≫= f).
Proof.
  intros Hm Hf s b s' out Heq Hs. unfold mbind, M_bind in Heq.
  destruct (m s) as [[[a s1] out1]|] eqn:Hms; [|done].
  destruct (f a s1) as [[[b' s2] out2]|] eqn:Hfs; [|done].
  injection Heq as _ <- _. eapply Hf; [done|]. by eapply Hm.
Qed.

(** After [get] the continuation may use what it read. *)
Lemma preserves_get {B} (f : S → M S B) :
  (∀ s b s' out, f s s = Ok (b, s', out) → I s → I s') → preserves I (get ≫= f).
Proof.
  intros Hf s b s' out Heq Hs. unfold mbind, M_bind, get in Heq.
  destruct (f s s) as [[[b' s2] out2]|] eqn:Hfs; [|done].
  injection Heq as _ <- _. by eapply Hf.
Qed.

Lemma preserves_get_any {B} (f : S → M S B) : (∀ s, preserves I (f s)) → preserves I (get ≫= f).
Proof. intros Hf. apply preserves_get. intros s b s' out Heq. by eapply Hf. Qed.

Lemma preserves_modify f : (∀ s, I s → I (f s)) → preserves I (modify f).
Proof. intros Hf s a s' out Heq Hs. injection Heq as _ <- _. by apply Hf. Qed.

Lemma preserves_send body to : preserves I (send_string body to).
Proof. intros s a s' out Heq Hs. by injection Heq as _ <- _. Qed.

Lemma preserves_fail {A} e : preserves I (fail (A:=A) e).
Proof. by intros s a s' out Heq. Qed.

Lemma preserves_lift {A} (o : outcome A) : preserves I (lift_outcome o).
Proof. intros s a s' out Heq Hs. unfold lift_outcome in Heq. destruct o; [|done]. by injection Heq as _ <- _. Qed.

Lemma preserves_for_each {A} (l : list A) body :
  (∀ x, x ∈ l → preserves I (body x)) → preserves I (for_each l body).
Proof.
  induction l as [|x l IH]; intros Hb; simpl; [apply preserves_ret|].
  apply preserves_bind; [apply Hb; by left|]. intros _. apply IH. intros y Hy. apply Hb. by right.
Qed.

Lemma preserves_for_acc {A B} (l : list A) (b : B) body :
  (∀ b x, x ∈ l → preserves I (body b x)) → preserves I (for_acc l b body).
Proof.
  revert b. induction l as [|x l IH]; intros b Hb; simpl; [apply preserves_ret|].
  apply preserves_bind; [apply Hb; by left|]. intros b'. apply IH. intros b'' y Hy. apply Hb. by right.
Qed.
End preserves.

(** A handler's run on a part of the state that [I] does not mention. *)
Lemma preserves_zoom {S T A} (I : S → Prop) (proj : S → T) upd (m : M T A) :
  (∀ s t, I s → I (upd t s)) → preserves I (zoom proj upd m).
Proof.
  intros Hu s a s' out Heq Hs. unfold zoom in Heq.
  destruct (m (proj s)) as [[[a' t] out']|]; [|done]. injection Heq as _ <- _. by apply Hu.
Qed.

(** Structural steps of an invariant proof; what is left are the updates. *)
Ltac preserve_step :=
  lazymatch goal with
  | |- preserves _ (mret _) => apply preserves_ret
  | |- preserves _ (get ≫= _) => apply preserves_get_any; intros ?
  | |- preserves _ (_ ≫= _) => apply preserves_bind; [|intros ?]
  | |- preserves _ (modify _) => apply preserves_modify; intros ??
  | |- preserves _ (send_string _ _) => apply preserves_send
  | |- preserves _ (fail _) => apply preserves_fail
  | |- preserves _ (lift_outcome _) => apply preserves_lift
  | |- preserves _ (for_each _ _) => apply preserves_for_each; intros ??
  | |- preserves _ (for_acc _ _ _) => apply preserves_for_acc; intros ???
  | |- preserves _ (zoom _ _ _) => apply preserves_zoom; intros ???
  | |- preserves _ (on_rings _) => apply preserves_zoom; intros ???
  | |- preserves _ (let '(_, _) := ?p in _) => destruct p
  | |- preserves _ (match ?x with _ => _ end) => destruct x
  end; cbv beta.
Ltac preserve_steps := repeat preserve_step.
