(* ===== verification/UserRequest.v ===== *)
(** Requests and gossip at a server thread: [user_request_handler]
    (src/kvs/user_request_handler.cpp) and [gossip_handler]
    (src/kvs/gossip_handler.cpp). *)

From S2P Require Import Prelude Text Ordered Lattices ValueLattices Threads Wire WireCodec.
From S2P Require Import Codec Metadata KVStore DiskStore HashRing RingUtil ServerState.
From Stdlib Require Import Lia.

(** [std::find(threads.begin(), threads.end(), wt) != threads.end()] *)
Definition contains_thread (threads : list ServerThread.t) (wt : ServerThread.t) : bool :=
  existsb (λ st, same_thread st wt) threads.

Section handlers.
Context {Store : Type} `{SerializerMap Store} `{Protobuf} `{StdHash} `{Random}.
Context `{HashRingUtilInterface} (c : Config) (wt : ServerThread.t).
Notation Srv := (M (ServerState Store)).

(** [kHashRingUtil->get_responsible_threads(wt.replication_response_connect_address(),
    key, is_metadata(key), ..., tiers, succeed, seed)] *)
Definition responsible_threads (key : Key) (tiers : list Tier)
    : Srv (list ServerThread.t * bool) :=
  md ← lift_outcome (is_metadata key);
  on_rings (get_responsible_threads (ServerThread.replication_response_connect_address wt) key md tiers).

(** [kHashRingUtil->issue_replication_factor_request(wt.replication_response_connect_address(),
    key, global_hash_rings[MEMORY], local_hash_rings[MEMORY], pushers, seed)] *)
Definition ask_replication_factor (key : Key) : Srv unit :=
  on_rings (
    g ← global_ring_at MEMORY;
    l ← local_ring_at MEMORY;
    issue_replication_factor_request c (ServerThread.replication_response_connect_address wt) key g l).

Definition push_pending_request (key : Key) (p : PendingRequest.t) : Srv unit :=
  modify (λ s, set_pending_requests
    (<[key := map_get [] (pending_requests s) key ++ [p]]> (pending_requests s)) s).
Definition push_pending_gossip (key : Key) (p : PendingGossip.t) : Srv unit :=
  modify (λ s, set_pending_gossip
    (<[key := map_get [] (pending_gossip s) key ++ [p]]> (pending_gossip s)) s).

(** [key_access_tracker[key].insert(now)] *)
Definition track_access (key : Key) (now : Z) : Srv unit :=
  modify (λ s, set_key_access_tracker
    (<[key := multiset_insert now (map_get [] (key_access_tracker s) key)]> (key_access_tracker s)) s).
Definition count_access : Srv unit :=
  modify (λ s, set_access_count (u32 (access_count s + 1)) s).
Definition mark_changed (key : Key) : Srv unit :=
  modify (λ s, set_local_changeset ({[key]} ∪ local_changeset s) s).

(** [stored_key_map.find(key) == end() || stored_key_map[key].type_ == NONE] *)
Definition stored_type (s : ServerState Store) (key : Key) : option LatticeType :=
  match stored_key_map s !! key with
  | None => None
  | Some p => if bool_decide (type_ p = NONE) then None else Some (type_ p)
  end.

(** A PUT is refused when it has no lattice type or another one than the
    stored value. *)
Definition put_refused (s : ServerState Store) (key : Key) (lattice_type : LatticeType) : bool :=
  bool_decide (lattice_type = NONE) ||
  match stored_type s key with
  | Some t => negb (bool_decide (t = lattice_type))
  | None => false
  end.

(** Answering a GET: the tuple of the response. *)
Definition answer_get (key : Key) (tp : KeyTuple.t) : Srv KeyTuple.t :=
  s ← get;
  match stored_type s key with
  | None => mret (KeyTuple.set_error KEY_DNE tp)
  | Some type =>
      '(res, error) ← process_get key type;
      mret (KeyTuple.set_error error (KeyTuple.set_payload res (KeyTuple.set_lattice_type type tp)))
  end.

Definition answer_put (key : Key) (lattice_type : LatticeType) (payload : string)
    (tp : KeyTuple.t) : Srv KeyTuple.t :=
  s ← get;
  if put_refused s key lattice_type then mret tp
  else
    process_put key lattice_type payload lattice_type ;;
    mark_changed key ;;
    mret (KeyTuple.set_lattice_type lattice_type tp).

(** ** user_request_handler *)

(** One tuple of the request: the response so far is the local variable. *)
Definition user_request_tuple (now : Z) (request : KeyRequest.t) (response : KeyResponse.t)
    (tuple : KeyTuple.t) : Srv KeyResponse.t :=
  let key := KeyTuple.key tuple in
  let payload := KeyTuple.payload tuple in
  let pending := PendingRequest.mk (KeyRequest.type request) (KeyTuple.lattice_type tuple) payload
                   (KeyRequest.response_address request) (KeyRequest.request_id request) in
  '(threads, succeed) ← responsible_threads key (kSelfTierIdVector c);
  if succeed : bool then
    if negb (contains_thread threads wt) then
      md ← lift_outcome (is_metadata key);
      if md : bool then
        mret (KeyResponse.add_tuple
          (KeyTuple.set_error WRONG_THREAD
            (KeyTuple.set_lattice_type (KeyTuple.lattice_type tuple)
              (KeyTuple.set_key key KeyTuple.empty))) response)
      else
        ask_replication_factor key ;;
        push_pending_request key pending ;;
        mret response
    else
      let tp := KeyTuple.set_key key KeyTuple.empty in
      tp ← match KeyRequest.type request with
           | GET => answer_get key tp
           | PUT => answer_put key (KeyTuple.lattice_type tuple) payload tp
           | RT_UNSPECIFIED => mret tp
           end;
      let tp := if bool_decide (KeyTuple.address_cache_size tuple > 0) &&
                   negb (bool_decide (KeyTuple.address_cache_size tuple = Z.of_nat (length threads)))
                then KeyTuple.set_invalidate true tp else tp in
      track_access key now ;;
      count_access ;;
      mret (KeyResponse.add_tuple tp response)
  else
    push_pending_request key pending ;;
    mret response.

Definition user_request_handler (now : Z) (serialized : string) : Srv unit :=
  let request : KeyRequest.t := parse serialized in
  let response := KeyResponse.mk (KeyRequest.type request) [] (KeyRequest.request_id request) NO_ERROR in
  response ← for_acc (KeyRequest.tuples request) response (user_request_tuple now request);
  if negb (bool_decide (KeyResponse.tuples response = [])) &&
     negb (bool_decide (KeyRequest.response_address request = ""))
  then send_string (SerializeToString response) (KeyRequest.response_address request)
  else mret tt.

(** ** gossip_handler *)

(** [gossip_map[address].set_type(PUT); prepare_put_tuple(gossip_map[address], ...)] *)
Definition forward_gossip (key : Key) (lattice_type : LatticeType) (payload : string)
    (gossip_map : gmap Address KeyRequest.t) (thread : ServerThread.t) : gmap Address KeyRequest.t :=
  let address := ServerThread.gossip_connect_address thread in
  let req := match gossip_map !! address with
             | None => KeyRequest.set_type PUT KeyRequest.empty
             | Some req => req
             end in
  <[address := prepare_put_tuple req key lattice_type payload]> gossip_map.

Definition gossip_tuple (gossip_map : gmap Address KeyRequest.t) (tuple : KeyTuple.t)
    : Srv (gmap Address KeyRequest.t) :=
  let key := KeyTuple.key tuple in
  let pending := PendingGossip.mk (KeyTuple.lattice_type tuple) (KeyTuple.payload tuple) in
  '(threads, succeed) ← responsible_threads key (kSelfTierIdVector c);
  if succeed : bool then
    if contains_thread threads wt then
      s ← get;
      match stored_key_map s !! key with
      | Some p =>
          if negb (bool_decide (type_ p = KeyTuple.lattice_type tuple)) then mret gossip_map
          else process_put key (KeyTuple.lattice_type tuple) (KeyTuple.payload tuple)
                 (KeyTuple.lattice_type tuple) ;; mret gossip_map
      | None =>
          process_put key (KeyTuple.lattice_type tuple) (KeyTuple.payload tuple)
            (KeyTuple.lattice_type tuple) ;; mret gossip_map
      end
    else
      md ← lift_outcome (is_metadata key);
      if md : bool then
        mret (foldl (forward_gossip key (KeyTuple.lattice_type tuple) (KeyTuple.payload tuple))
                gossip_map threads)
      else
        ask_replication_factor key ;;
        push_pending_gossip key pending ;;
        mret gossip_map
  else
    push_pending_gossip key pending ;;
    mret gossip_map.

(** [for (gossip_pair : gossip_map) { SerializeToString; send_string }] *)
Definition send_all (gossip_map : gmap Address KeyRequest.t) : Srv unit :=
  for_each (map_to_list gossip_map) (λ '(address, req),
    send_string (SerializeToString req) address).

Definition gossip_handler (serialized : string) : Srv unit :=
  let gossip : KeyRequest.t := parse serialized in
  gossip_map ← for_acc (KeyRequest.tuples gossip) ∅ gossip_tuple;
  send_all gossip_map.
End handlers.

(** ** The storage calls as state updates *)
Section storage.
Context {Store : Type} `{SerializerMap Store} `{Protobuf}.
Implicit Types s : ServerState Store.

Definition same_pending s s' : Prop :=
  pending_requests s' = pending_requests s ∧ pending_gossip s' = pending_gossip s.

Lemma same_pending_trans s1 s2 s3 : same_pending s1 s2 → same_pending s2 s3 → same_pending s1 s3.
Proof. unfold same_pending. intros [-> ->] [-> ->]. done. Qed.

Definition put_result (ser : Serializer Store) (key : Key) (lattice_type : LatticeType)
    (payload : string) s : ServerState Store :=
  let '(size, st) := ser_put ser key payload (store s) in
  let s := set_store st s in
  set_stored_key_map (<[key := mkKeyProperty size lattice_type]> (stored_key_map s)) s.

Lemma process_put_eq ser key lt payload type s :
  serializer_at type = Some ser →
  process_put key lt payload type s = Ok (tt, put_result ser key lt payload s, []).
Proof.
  intros Hser. unfold process_put, put_result, mbind, M_bind, get, lift_outcome. rewrite Hser. simpl.
  by destruct (ser_put ser key payload (store s)).
Qed.

Lemma process_get_eq ser key type s :
  serializer_at type = Some ser →
  process_get key type s =
    Ok ((ser_get ser key NO_ERROR (store s)).1,
        set_store (ser_get ser key NO_ERROR (store s)).2 s, []).
Proof.
  intros Hser. unfold process_get, mbind, M_bind, get, lift_outcome. rewrite Hser. simpl.
  by destruct (ser_get ser key NO_ERROR (store s)) as [[res err] st].
Qed.

Lemma put_result_rings ser key lt payload s : rings (put_result ser key lt payload s) = rings s.
Proof. unfold put_result. by destruct (ser_put _ _ _ _). Qed.

Lemma put_result_pending ser key lt payload s :
  same_pending s (put_result ser key lt payload s).
Proof. unfold put_result. by destruct (ser_put _ _ _ _). Qed.

Lemma put_result_store ser key lt payload s :
  store (put_result ser key lt payload s) = (ser_put ser key payload (store s)).2.
Proof. unfold put_result. by destruct (ser_put _ _ _ _). Qed.

Lemma put_result_stored ser key lt payload s :
  stored_key_map (put_result ser key lt payload s) =
    <[key := mkKeyProperty (ser_put ser key payload (store s)).1 lt]> (stored_key_map s).
Proof. unfold put_result. by destruct (ser_put _ _ _ _). Qed.

Lemma put_result_changeset ser key lt payload s :
  local_changeset (put_result ser key lt payload s) = local_changeset s.
Proof. unfold put_result. by destruct (ser_put _ _ _ _). Qed.
End storage.

(** ** The invariant of a server thread

    Every stored key has a lattice type and, with [strict], only stored keys
    are marked as changed. *)
Definition server_ok {Store} (strict : bool) (s : ServerState Store) : Prop :=
  map_Forall (λ _ p, type_ p ≠ NONE) (stored_key_map s) ∧
  (strict = true → local_changeset s ⊆ dom (stored_key_map s)).

Section invariant.
Context {Store : Type} `{SerializerMapLaws Store} `{Protobuf} `{StdHash} `{Random}.
Context `{HashRingUtilInterface} (c : Config) (wt : ServerThread.t) (strict : bool).

Lemma server_ok_insert (s : ServerState Store) key p :
  type_ p ≠ NONE → server_ok strict s →
  server_ok strict (set_stored_key_map (<[key := p]> (stored_key_map s)) s).
Proof.
  intros Hp [Ht Hc]. split; simpl.
  - by apply map_Forall_insert_2.
  - intros Hstrict. specialize (Hc Hstrict). rewrite dom_insert_L. set_solver.
Qed.

Lemma process_put_ok key lt payload : preserves (server_ok (Store:=Store) strict) (process_put key lt payload lt).
Proof.
  intros s a s' out Heq Hs.
  destruct (serializer_at lt) as [ser|] eqn:Hser.
  - rewrite (process_put_eq ser) in Heq by done. injection Heq as _ <- _.
    unfold put_result. destruct (ser_put ser key payload (store s)) as [size st].
    apply (server_ok_insert (set_store st s)); [|done].
    simpl. apply serializer_at_type. by eexists.
  - unfold process_put, mbind, M_bind, lift_outcome in Heq. by rewrite Hser in Heq.
Qed.

Lemma process_get_ok key type : preserves (server_ok (Store:=Store) strict) (process_get key type).
Proof. unfold process_get. preserve_steps; done. Qed.

Lemma responsible_threads_ok key tiers :
  preserves (server_ok (Store:=Store) strict) (responsible_threads wt key tiers).
Proof. unfold responsible_threads. preserve_steps; done. Qed.

(** A PUT marks a key only after storing it. *)
Lemma answer_put_ok key lt payload tp :
  preserves (server_ok (Store:=Store) strict) (answer_put key lt payload tp).
Proof.
  unfold answer_put. preserve_step. destruct (put_refused _ _ _); [preserve_steps|].
  intros s1 tp' s' out Heq Hs1. destruct (serializer_at lt) as [ser|] eqn:Hser.
  - unfold mbind, M_bind in Heq. rewrite (process_put_eq ser) in Heq by done.
    simpl in Heq. injection Heq as _ <- _.
    destruct (process_put_ok key lt payload s1 tt _ [] (process_put_eq ser _ _ _ _ _ Hser) Hs1) as [Ht Hc].
    split; simpl; [done|]. intros Hstrict. specialize (Hc Hstrict).
    rewrite put_result_stored, put_result_changeset in *. rewrite dom_insert_L in *. set_solver.
  - unfold process_put, mbind, M_bind, lift_outcome in Heq. by rewrite Hser in Heq.
Qed.

Lemma user_request_handler_ok now serialized :
  preserves (server_ok (Store:=Store) strict) (user_request_handler c wt now serialized).
Proof.
  unfold user_request_handler. apply preserves_bind; [|intros; preserve_steps].
  apply preserves_for_acc. intros response tuple _. unfold user_request_tuple.
  apply preserves_bind; [apply responsible_threads_ok|]. intros [threads succeed].
  destruct succeed; [|unfold push_pending_request; preserve_steps; done].
  destruct (negb _).
  - unfold ask_replication_factor, push_pending_request. preserve_steps; done.
  - apply preserves_bind; [|intros; unfold track_access, count_access; preserve_steps; done].
    destruct (KeyRequest.type _); [preserve_steps| |apply answer_put_ok].
    unfold answer_get. preserve_step. destruct (stored_type _ _); [|preserve_steps].
    apply preserves_bind; [apply process_get_ok|]. intros []. preserve_steps.
Qed.

Lemma gossip_handler_ok serialized :
  preserves (server_ok (Store:=Store) strict) (gossip_handler c wt serialized).
Proof.
  unfold gossip_handler. apply preserves_bind; [|intros; unfold send_all; preserve_steps].
  apply preserves_for_acc. intros gm tuple _. unfold gossip_tuple.
  apply preserves_bind; [apply responsible_threads_ok|]. intros [threads succeed].
  destruct succeed; [|unfold push_pending_gossip; preserve_steps; done].
  destruct (contains_thread _ _).
  - preserve_step. destruct (stored_key_map _ !! _); [destruct (negb _); [preserve_steps|]|];
      (apply preserves_bind; [apply process_put_ok|intros; preserve_steps]).
  - unfold ask_replication_factor, push_pending_gossip. preserve_steps; done.
Qed.
End invariant.

(** ** Requests for keys the thread is responsible for *)
Section owned.
Context {Store : Type} `{SerializerMapLaws Store} `{Protobuf} `{StdHash} `{Random}.
Context `{HashRingUtilInterface} (c : Config) (wt : ServerThread.t).
(** [R]: what the rings are known to satisfy, kept by every lookup. *)
Context (R : RingState → Prop).
Implicit Types s : ServerState Store.

(** As long as [R] holds, the rings name [wt] among the threads of [key]. *)
Definition owns (key : Key) : Prop :=
  ∃ md threads, is_metadata key = Ok md ∧ contains_thread threads wt = true ∧
    ∀ r, R r →
      wp (get_responsible_threads (ServerThread.replication_response_connect_address wt) key md
            (kSelfTierIdVector c)) r
         (λ res r' out, res = (threads, true) ∧ R r' ∧ out = []).

Lemma wp_responsible_threads key s (Q : list ServerThread.t * bool → ServerState Store → list Msg → Prop) :
  owns key → R (rings s) →
  (∀ threads r', contains_thread threads wt = true → R r' → Q (threads, true) (set_rings r' s) []) →
  wp (responsible_threads wt key (kSelfTierIdVector c)) s Q.
Proof.
  intros (md & threads & Hmd & Hin & Hresp) Hr HQ. unfold responsible_threads.
  apply wp_bind. eapply wp_lift_outcome; [done|]. apply wp_zoom.
  eapply wp_mono; [by apply Hresp|]. intros res r' out (-> & Hr' & ->). by apply HQ.
Qed.

Lemma stored_type_serializer s key type :
  stored_type s key = Some type → ∃ ser, serializer_at type = Some ser.
Proof.
  unfold stored_type. destruct (stored_key_map s !! key) as [p|]; [|done].
  case_bool_decide as Hn; [done|]. intros [= <-]. by apply serializer_at_type in Hn.
Qed.

Lemma put_accepted_serializer s key lt :
  put_refused s key lt = false → ∃ ser, serializer_at lt = Some ser.
Proof.
  unfold put_refused. rewrite orb_false_iff. intros [Hn%bool_decide_eq_false _].
  by apply serializer_at_type in Hn.
Qed.

(** The tuple of an answer has the request's key; nothing is sent yet. *)
Lemma wp_answer_get key tp s :
  wp (answer_get key tp) s (λ tp' s' out,
    KeyTuple.key tp' = KeyTuple.key tp ∧ rings s' = rings s ∧
    same_pending s s' ∧ out = []).
Proof.
  unfold answer_get. wp_step. wp_step. destruct (stored_type s key) as [type|] eqn:Ht; [|by wp_step].
  destruct (stored_type_serializer s key type Ht) as [ser Hser].
  wp_step. exists (ser_get ser key NO_ERROR (store s)).1, (set_store (ser_get ser key NO_ERROR (store s)).2 s), [].
  split; [by apply process_get_eq|]. destruct (ser_get ser key NO_ERROR (store s)) as [[res err] st].
  simpl. by wp_step.
Qed.

Lemma wp_answer_put key lt payload tp s :
  wp (answer_put key lt payload tp) s (λ tp' s' out,
    KeyTuple.key tp' = KeyTuple.key tp ∧ rings s' = rings s ∧
    same_pending s s' ∧ out = []).
Proof.
  unfold answer_put. wp_step. wp_step. destruct (put_refused s key lt) eqn:Hp; [by wp_step|].
  destruct (put_accepted_serializer s key lt Hp) as [ser Hser].
  wp_step. eexists _, _, []. split; [by apply process_put_eq|].
  unfold mark_changed. wp_steps. split_and!; simpl; [done|by rewrite put_result_rings|apply put_result_pending|done].
Qed.

Lemma wp_user_request_tuple now request response tuple s :
  owns (KeyTuple.key tuple) → R (rings s) →
  wp (user_request_tuple c wt now request response tuple) s (λ response' s' out,
    (∃ tp, response' = KeyResponse.add_tuple tp response ∧ KeyTuple.key tp = KeyTuple.key tuple) ∧
    R (rings s') ∧ same_pending s s' ∧ out = []).
Proof.
  intros Hown Hr. unfold user_request_tuple. wp_step.
  apply wp_responsible_threads; [done..|]. intros threads r' Hin Hr'. rewrite Hin. simpl.
  wp_step. eapply (wp_mono _ _ (λ tp' s' out,
    KeyTuple.key tp' = KeyTuple.key tuple ∧ rings s' = r' ∧
    same_pending s s' ∧ out = [])).
  - destruct (KeyRequest.type request); [by wp_step|..];
      (eapply wp_mono; [apply wp_answer_get || apply wp_answer_put|done]).
  - intros tp' s' out (Hk & Hr2 & Hp & ->). unfold track_access, count_access. wp_steps.
    split_and!; [|simpl; by rewrite Hr2|done|done]. eexists. split; [done|]. by destruct (_ && _).
Qed.

(** C13: a thread answers a request completely: when it is responsible for
    every key of the request, the handler returns and sends one message, to
    the requester, with the request's type and id and one tuple per
    requested tuple, in the same order; nothing is left pending. *)
Theorem user_request_answered now serialized s :
  let request : KeyRequest.t := parse serialized in
  (∀ tuple, tuple ∈ KeyRequest.tuples request → owns (KeyTuple.key tuple)) → R (rings s) →
  KeyRequest.tuples request ≠ [] → KeyRequest.response_address request ≠ "" →
  wp (user_request_handler c wt now serialized) s (λ _ s' out,
    ∃ response, out = [mkMsg (KeyRequest.response_address request) (SerializeToString response)] ∧
      KeyResponse.type response = KeyRequest.type request ∧
      KeyResponse.response_id response = KeyRequest.request_id request ∧
      map KeyTuple.key (KeyResponse.tuples response) = map KeyTuple.key (KeyRequest.tuples request) ∧
      same_pending s s' ∧ R (rings s')).
Proof.
  intros request Hown Hr Hne Haddr. unfold user_request_handler. cbv zeta. fold request. wp_step.
  eapply wp_mono.
  - apply (wp_for_acc (λ xs response s' out, out = [] ∧ R (rings s') ∧ same_pending s s' ∧
      KeyResponse.type response = KeyRequest.type request ∧
      KeyResponse.response_id response = KeyRequest.request_id request ∧
      map KeyTuple.key (KeyResponse.tuples response) = map KeyTuple.key xs)); [done|].
    intros xs tuple response s' out Hin (-> & Hr' & Hp & Hty & Hid & Hks).
    eapply wp_mono; [by apply wp_user_request_tuple; [apply Hown|]|].
    intros response' s'' out' ((tp & -> & Hk) & Hr'' & Hp' & ->). split_and!; try done; [by eapply same_pending_trans|].
    simpl. rewrite !map_app, Hks. simpl. by rewrite Hk.
  - intros response s' out (-> & Hr' & Hp & Hty & Hid & Hks).
    rewrite (bool_decide_eq_false_2 (KeyRequest.response_address request = "")) by done.
    rewrite (bool_decide_eq_false_2 (KeyResponse.tuples response = [])).
    + simpl. wp_step. by exists response.
    + intros Heq. rewrite Heq in Hks. symmetry in Hks. by apply map_eq_nil in Hks.
Qed.
End owned.
