(* ===== verification/Replication.v ===== *)
(** What requests and gossip do to the values a server thread holds, through
    the promises of its serializer: a PUT or a gossiped tuple merges, a GET
    returns the merged value, and replicas that received the same updates
    agree. *)

From S2P Require Import Prelude Text Ordered Lattices ValueLattices Threads Wire WireCodec.
From S2P Require Import Codec Metadata KVStore DiskStore HashRing RingUtil ServerState.
From S2P Require Import UserRequest.
From Stdlib Require Import Lia.

Section values.
Context {Store : Type} `{SerializerMapLaws Store} `{Protobuf} `{StdHash} `{Random}.
Context `{HashRingUtilInterface} (c : Config) (wt : ServerThread.t) (R : RingState → Prop).

(** The serializer of the lattice type in question, and its promises. *)
Context {V : Type} `{Lattice V} (type : LatticeType) (ser : Serializer Store).
Context (inv : Store → Prop) (view : Store → Key → V) (decode : string → V).
Context (accepts : string → Prop) `{!SerializerLaws ser inv view decode accepts}.
Hypothesis ser_type : serializer_at type = Some ser.
Implicit Types s : ServerState Store.

(** The rings and the store are in order. *)
Definition ready s : Prop := R (rings s) ∧ inv (store s).

(** [s'] holds the values of [s] with [v] merged into [key]'s. *)
Definition merged (key : Key) (v : V) s s' : Prop :=
  ∀ k, view (store s') k = if decide (k = key) then do_merge (view (store s) key) v else view (store s) k.

Definition same_values s s' : Prop := ∀ k, view (store s') k = view (store s) k.

(** [s'] has [key] marked as changed besides what [s] has, and the same caches. *)
Definition marked (key : Key) s s' : Prop :=
  local_changeset s' = {[key]} ∪ local_changeset s ∧ key_to_cache_ips s' = key_to_cache_ips s.

(** A read changes neither the set of changes nor what is stored or cached. *)
Definition read_only s s' : Prop :=
  local_changeset s' = local_changeset s ∧ key_to_cache_ips s' = key_to_cache_ips s ∧
  stored_key_map s' = stored_key_map s.

Lemma put_result_merged key payload s :
  inv (store s) → accepts payload →
  inv (store (put_result ser key type payload s)) ∧
  merged key (decode payload) s (put_result ser key type payload s).
Proof.
  intros Hi Ha. unfold merged. rewrite put_result_store. split; [by eapply law_put_inv|].
  intros k. by erewrite law_put_view.
Qed.

(** *** PUT *)
Lemma wp_answer_put_merges key payload tp s :
  ready s → put_refused s key type = false → accepts payload →
  wp (answer_put key type payload tp) s (λ tp' s' out,
    tp' = KeyTuple.set_lattice_type type tp ∧ ready s' ∧ merged key (decode payload) s s' ∧
    marked key s s' ∧ (∃ size, stored_key_map s' !! key = Some (mkKeyProperty size type)) ∧
    join_gossip_map s' = join_gossip_map s ∧ out = []).
Proof.
  intros [Hr Hi] Hp Ha. unfold answer_put. wp_step. wp_step. rewrite Hp.
  wp_step. eexists _, _, []. split; [by apply process_put_eq|].
  destruct (put_result_merged key payload s Hi Ha) as [Hi' Hm].
  unfold mark_changed. wp_steps. split_and!; try done.
  - split; [|done]. simpl. by rewrite put_result_rings.
  - split; simpl; [by rewrite put_result_changeset|]. unfold put_result. by destruct (ser_put _ _ _ _).
  - simpl. rewrite put_result_stored, lookup_insert_eq. by eexists.
  - simpl. unfold put_result. by destruct (ser_put _ _ _ _).
Qed.

Lemma wp_user_put now serialized tuple addr id s :
  parse serialized = KeyRequest.mk PUT [tuple] addr id →
  KeyTuple.lattice_type tuple = type → owns c wt R (KeyTuple.key tuple) →
  ready s → put_refused s (KeyTuple.key tuple) type = false → accepts (KeyTuple.payload tuple) →
  wp (user_request_handler c wt now serialized) s (λ _ s' out,
    ready s' ∧ merged (KeyTuple.key tuple) (decode (KeyTuple.payload tuple)) s s' ∧
    marked (KeyTuple.key tuple) s s' ∧ stored_type s' (KeyTuple.key tuple) = Some type ∧
    join_gossip_map s' = join_gossip_map s ∧
    (addr ≠ "" → ∃ tp, out = [mkMsg addr (SerializeToString (KeyResponse.mk PUT [tp] id NO_ERROR))] ∧
       KeyTuple.key tp = KeyTuple.key tuple ∧ KeyTuple.error tp = NO_ERROR)).
Proof.
  intros Hreq Hty Hown [Hr Hi] Hp Ha. unfold user_request_handler. cbv zeta. rewrite Hreq.
  wp_step. cbn [for_acc KeyRequest.tuples]. wp_step. unfold user_request_tuple. wp_step.
  apply (wp_responsible_threads c wt R); [done..|]. intros threads r' Hin Hr'. rewrite Hin. simpl.
  wp_step. rewrite Hty. eapply wp_mono; [by apply wp_answer_put_merges|].
  intros tp s1 out1 (-> & Hs1 & Hm & Hc & (size & Hst) & Hjg & ->).
  unfold track_access, count_access. wp_steps.
  assert (type ≠ NONE) as Hne by (apply serializer_at_type; by eexists).
  assert (∀ s2 : ServerState Store, stored_key_map s2 = stored_key_map s1 →
    stored_type s2 (KeyTuple.key tuple) = Some type) as Hstored.
  { intros s2 Heq. unfold stored_type. rewrite Heq, Hst. simpl. by rewrite bool_decide_eq_false_2. }
  cbn [KeyResponse.tuples KeyResponse.add_tuple app KeyRequest.response_address].
  rewrite (bool_decide_eq_false_2 (_ :: _ = [])) by done. simpl andb.
  destruct (bool_decide_reflect (addr = "")) as [Haddr|Haddr]; simpl negb; cbv iota; wp_steps;
    (split_and!; [done..|by apply Hstored|done|]); [done|]. intros _.
  eexists. split; [done|]. by destruct (_ && _).
Qed.

(** A PUT that the thread accepts merges the payload into the key's
    value, leaves every other key alone, records the lattice type and marks
    the key for gossip. *)
Theorem user_put_merges now serialized tuple addr id s :
  parse serialized = KeyRequest.mk PUT [tuple] addr id →
  KeyTuple.lattice_type tuple = type → owns c wt R (KeyTuple.key tuple) →
  ready s → put_refused s (KeyTuple.key tuple) type = false → accepts (KeyTuple.payload tuple) →
  wp (user_request_handler c wt now serialized) s (λ _ s' _,
    ready s' ∧ merged (KeyTuple.key tuple) (decode (KeyTuple.payload tuple)) s s' ∧
    KeyTuple.key tuple ∈ local_changeset s' ∧ stored_type s' (KeyTuple.key tuple) = Some type).
Proof.
  intros. eapply wp_mono; [by eapply wp_user_put|]. intros [] s' out (? & ? & [Hc _] & ? & _).
  split_and!; try done. rewrite Hc. set_solver.
Qed.


(** *** GET *)

Lemma wp_user_get now serialized tuple addr id s :
  parse serialized = KeyRequest.mk GET [tuple] addr id → addr ≠ "" →
  owns c wt R (KeyTuple.key tuple) → ready s →
  stored_type s (KeyTuple.key tuple) = Some type →
  wp (user_request_handler c wt now serialized) s (λ _ s' out,
    ready s' ∧ same_values s s' ∧ read_only s s' ∧
    ∃ tp, out = [mkMsg addr (SerializeToString (KeyResponse.mk GET [tp] id NO_ERROR))] ∧
      KeyTuple.key tp = KeyTuple.key tuple ∧ KeyTuple.lattice_type tp = type ∧
      KeyTuple.error tp = (ser_get ser (KeyTuple.key tuple) NO_ERROR (store s)).1.2 ∧
      (KeyTuple.error tp = NO_ERROR ∧ decode (KeyTuple.payload tp) = view (store s) (KeyTuple.key tuple)
       ∨ KeyTuple.error tp = KEY_DNE)).
Proof.
  intros Hreq Haddr Hown [Hr Hi] Hst. unfold user_request_handler. cbv zeta. rewrite Hreq.
  wp_step. cbn [for_acc KeyRequest.tuples]. wp_step. unfold user_request_tuple. wp_step.
  apply (wp_responsible_threads c wt R); [done..|]. intros threads r' Hin Hr'. rewrite Hin. simpl.
  wp_step. unfold answer_get. wp_step. wp_step.
  change (stored_type (set_rings r' s) _) with (stored_type s (KeyTuple.key tuple)). rewrite Hst.
  wp_step. eexists _, _, []. split; [by apply process_get_eq|]. simpl.
  pose proof (law_get_value (SerializerLaws:=SerializerLaws0) (store s) (KeyTuple.key tuple) NO_ERROR Hi)
    as Hval.
  pose proof (law_get_inv (SerializerLaws:=SerializerLaws0) (store s) (KeyTuple.key tuple) NO_ERROR Hi)
    as Hinv.
  pose proof (λ k, law_get_view (SerializerLaws:=SerializerLaws0) (store s) (KeyTuple.key tuple)
    NO_ERROR k Hi) as Hview.
  destruct (ser_get ser (KeyTuple.key tuple) NO_ERROR (store s)) as [[res err] st]. simpl in *.
  unfold track_access, count_access. wp_steps. simpl. rewrite bool_decide_eq_false_2 by done. simpl. wp_steps.
  split; [done|]. split; [done|]. split; [done|]. eexists. split; [done|].
  assert (err = NO_ERROR ∧ decode res = view (store s) (KeyTuple.key tuple) ∨ err = KEY_DNE) as Herr.
  { destruct (decide (err = KEY_DNE)); [by right|left]. by apply Hval. }
  by destruct (_ && _).
Qed.

(** A GET of a stored key changes no value; the answer carries the
    lattice type and either a payload that decodes to the key's merged value
    or the error [KEY_DNE]. *)
Theorem user_get_returns now serialized tuple addr id s :
  parse serialized = KeyRequest.mk GET [tuple] addr id → addr ≠ "" →
  owns c wt R (KeyTuple.key tuple) → ready s →
  stored_type s (KeyTuple.key tuple) = Some type →
  wp (user_request_handler c wt now serialized) s (λ _ s' out,
    ready s' ∧ same_values s s' ∧
    ∃ response tp, out = [mkMsg addr (SerializeToString response)] ∧
      KeyResponse.tuples response = [tp] ∧ KeyTuple.key tp = KeyTuple.key tuple ∧
      KeyTuple.lattice_type tp = type ∧
      (KeyTuple.error tp = NO_ERROR ∧ decode (KeyTuple.payload tp) = view (store s) (KeyTuple.key tuple)
       ∨ KeyTuple.error tp = KEY_DNE)).
Proof.
  intros. eapply wp_mono; [by eapply wp_user_get|]. cbv beta.
  intros [] s' out (Hr & Hv & _ & tp & -> & Hk & Ht & _ & Herr). split_and!; [done|done|].
  eexists _, tp. by split_and!.
Qed.

(** *** Gossip *)

(** The key is not stored, or stored with this lattice type. *)
Definition typed (key : Key) s : Prop :=
  ∀ p, stored_key_map s !! key = Some p → type_ p = type.

Lemma wp_gossip_tuple key gm tuple s :
  KeyTuple.key tuple = key → KeyTuple.lattice_type tuple = type → accepts (KeyTuple.payload tuple) →
  owns c wt R key → ready s → typed key s →
  wp (gossip_tuple c wt gm tuple) s (λ gm' s' out,
    gm' = gm ∧ ready s' ∧ typed key s' ∧ merged key (decode (KeyTuple.payload tuple)) s s' ∧
    (local_changeset s' = local_changeset s ∧ key_to_cache_ips s' = key_to_cache_ips s ∧
     stored_type s' key = Some type ∧ (∀ k, k ≠ key → stored_key_map s' !! k = stored_key_map s !! k)) ∧
    out = []).
Proof.
  intros Hk Hty Ha Hown [Hr Hi] Htyped. unfold gossip_tuple. rewrite Hk, Hty. wp_step.
  apply (wp_responsible_threads c wt R); [done..|]. intros threads r' Hin Hr'. rewrite Hin. simpl.
  wp_step. wp_step. cbn [stored_key_map set_rings].
  set (s1 := set_rings r' s).
  assert (wp (process_put key type (KeyTuple.payload tuple) type ;; mret gm) s1 (λ gm' s' out,
    gm' = gm ∧ ready s' ∧ typed key s' ∧ merged key (decode (KeyTuple.payload tuple)) s s' ∧
    (local_changeset s' = local_changeset s ∧ key_to_cache_ips s' = key_to_cache_ips s ∧
     stored_type s' key = Some type ∧ (∀ k, k ≠ key → stored_key_map s' !! k = stored_key_map s !! k)) ∧
    out = [])) as Hput.
  { wp_step. eexists _, _, []. split; [by apply process_put_eq|]. wp_step.
    destruct (put_result_merged key (KeyTuple.payload tuple) s1 Hi Ha) as [Hi' Hm].
    split_and!; try done.
    - split; [|done]. by rewrite put_result_rings.
    - intros p. rewrite put_result_stored, lookup_insert_eq. by intros [= <-].
    - by rewrite put_result_changeset.
    - unfold put_result. by destruct (ser_put _ _ _ _).
    - unfold stored_type. rewrite put_result_stored, lookup_insert_eq. simpl.
      rewrite bool_decide_eq_false_2; [done|]. apply serializer_at_type. by exists ser.
    - intros k Hne. by rewrite put_result_stored, lookup_insert_ne. }
  destruct (stored_key_map s !! key) as [p|] eqn:Hs; [|done].
  rewrite bool_decide_eq_true_2 by (by apply Htyped). done.
Qed.

(** A gossip message about [key] alone. *)
Definition about (key : Key) (serialized : string) : Prop :=
  ∀ tuple, tuple ∈ KeyRequest.tuples (parse serialized : KeyRequest.t) →
    KeyTuple.key tuple = key ∧ KeyTuple.lattice_type tuple = type ∧ accepts (KeyTuple.payload tuple).

(** The updates a message carries. *)
Definition updates (serialized : string) : list V :=
  map (λ tuple, decode (KeyTuple.payload tuple)) (KeyRequest.tuples (parse serialized : KeyRequest.t)).

(** [s'] is [s] with a list of updates absorbed into [key]'s value. *)
Definition absorbed (key : Key) (us : list V) s s' : Prop :=
  ready s' ∧ typed key s' ∧
  ∀ k, view (store s') k = if decide (k = key) then merge_all (view (store s) key) us else view (store s) k.

Lemma absorbed_nil key s : ready s → typed key s → absorbed key [] s s.
Proof. intros. split_and!; [done..|]. intros k. by case_decide; subst. Qed.

Lemma absorbed_snoc key us u s s1 s2 :
  absorbed key us s s1 → ready s2 → typed key s2 → merged key u s1 s2 → absorbed key (us ++ [u]) s s2.
Proof.
  intros (_ & _ & Hv) Hr Ht Hm. split_and!; [done..|]. intros k. rewrite Hm, !Hv.
  unfold merge_all. rewrite foldl_app. by repeat case_decide.
Qed.

Lemma wp_gossip_handler key serialized s :
  about key serialized → owns c wt R key → ready s → typed key s →
  wp (gossip_handler c wt serialized) s (λ _ s' out, absorbed key (updates serialized) s s' ∧ out = []).
Proof.
  intros Habout Hown Hready Htyped. unfold gossip_handler. cbv zeta. wp_step.
  eapply wp_mono.
  - apply (wp_for_acc (λ xs gm s' out, gm = ∅ ∧ out = [] ∧
      absorbed key (map (λ tuple, decode (KeyTuple.payload tuple)) xs) s s')).
    + split_and!; [done..|]. by apply absorbed_nil.
    + intros xs tuple gm s' out Hin (-> & -> & Habs). destruct (Habout tuple Hin) as (Hk & Hty & Ha).
      eapply wp_mono; [apply (wp_gossip_tuple key); try done; apply Habs|].
      intros gm' s'' out' (-> & Hr' & Ht' & Hm & _ & ->). split_and!; try done.
      rewrite map_app. by eapply absorbed_snoc.
  - intros gm s' out (-> & -> & Habs). unfold send_all. rewrite map_to_list_empty. simpl. by wp_step.
Qed.

(** Delivering messages one after the other. *)
Lemma wp_gossip_sequence key msgs s :
  Forall (about key) msgs → owns c wt R key → ready s → typed key s →
  wp (for_each msgs (gossip_handler c wt)) s (λ _ s' out,
    absorbed key (msgs ≫= updates) s s' ∧ out = []).
Proof.
  intros Hmsgs Hown Hready Htyped.
  apply (wp_for_each (λ ms s' out, absorbed key (ms ≫= updates) s s' ∧ out = [])).
  - split; [|done]. by apply absorbed_nil.
  - intros ms m s' out Hin [(Hr & Ht & Hv) ->]. eapply Forall_forall in Hmsgs; [|done].
    eapply wp_mono; [by apply wp_gossip_handler|]. intros [] s'' out' [(Hr' & Ht' & Hv') ->].
    split; [|done]. split_and!; try done. intros k. rewrite Hv', !Hv.
    rewrite bind_app. simpl. rewrite app_nil_r. unfold merge_all. rewrite foldl_app. by repeat case_decide.
Qed.

End values.

(** ** A thread of a two-node cluster, for concrete instances of the theorems *)
Module ExampleServer.
#[local] Existing Instance bit_protobuf.
#[local] Existing Instance ExampleRing.toy_hash.
#[local] Existing Instance memory_serializers.
#[local] Instance still : Random := λ s, (0, s).

Definition config : Config := mkConfig MEMORY 1 1 1 1 1 1
  (<[MEMORY := TierMetadata.mk MEMORY 1 1 1000]> {[DISK := TierMetadata.mk DISK 1 0 1000]}).
#[local] Instance util : HashRingUtilInterface := HashRingUtil config.

Definition wt : ServerThread.t := ExampleRing.st_a.
Definition local_ring : HashRing.t := HashRing.mk [(9, wt)] {["a:0" := wt]} {["a" := 0]}.
Definition once : KeyReplication := mkKeyReplication {[MEMORY := 1]} {[MEMORY := 1]}.
Definition ring_state : RingState :=
  mkRingState {[MEMORY := ExampleRing.ring]} {[MEMORY := local_ring]} {["k" := once]} 0 0.
Definition no_stores : MemoryStores := mkMemoryStores ∅ ∅ ∅ ∅ ∅ ∅.
Definition fresh_server : ServerState MemoryStores :=
  mkServerState ring_state no_stores ∅ ∅ ∅ ∅ 0 ∅ ∅ ∅ ∅ ∅ ∅ 0.

(** The rings as the thread reads them for the key ["k"]. *)
Definition R : RingState → Prop := known_key "k" MEMORY ExampleRing.ring local_ring 1 1.

Lemma ring_state_R : R ring_state.
Proof. split; [done|]. by exists once. Qed.

Lemma owns_k : owns config wt R "k".
Proof.
  exists false, [ServerThread.new "A" "a" 0]. split; [done|]. split; [done|].
  intros r Hr. eapply (responsible_known_key config _ "k" MEMORY _ _ 1 1 [ExampleRing.st_a] [0]);
    [reflexivity|reflexivity|done].
Qed.

(** The serializer of last-writer-wins keys in the thread's stores. *)
Definition lww_ser : Serializer MemoryStores := serializer_on lww_kvs
  (λ t s, mkMemoryStores t (set_kvs s) (ordered_set_kvs s) (sk_causal_kvs s)
            (mk_causal_kvs s) (priority_kvs s)) MemoryLWWSerializer.
Definition lww_view (s : MemoryStores) : Key → LWWPairLattice.TimestampValuePair string :=
  KVStore.view (lww_kvs s).

Definition lww_inv (s : MemoryStores) : Prop := memory_inv any (lww_kvs s).

Lemma lww_ser_laws : SerializerLaws lww_ser lww_inv lww_view deserialize_lww (λ _, True).
Proof.
  apply (serializer_on_laws lww_kvs); [done|]. exact (@memory_lww_laws _ _ bit_payloads_carried).
Qed.

(** A request with one tuple, as it arrives. *)
Definition request (type : RequestType) (lattice_type : LatticeType) (payload : string) : KeyRequest.t :=
  KeyRequest.mk type [KeyTuple.mk "k" lattice_type NO_ERROR payload 0 false] "tcp://client:6800" "client:1".
Definition payload (ts : Z) (v : string) : string := serialize_value ts v.

Lemma parse_request (r : KeyRequest.t) : parse (SerializeToString r) = r.
Proof. apply (@parse_serialize' _ _ _ _ (BitCodec.codec_laws KeyRequest.empty)). exact I. Qed.

Lemma fresh_ready : ready R lww_inv fresh_server.
Proof. split; [exact ring_state_R|]. exact (map_Forall_empty _). Qed.

Definition stored_server : ServerState MemoryStores :=
  mkServerState ring_state no_stores {["k" := mkKeyProperty 1 LWW]} ∅ ∅ ∅ 0 ∅ ∅ ∅ ∅ ∅ ∅ 0.

Lemma stored_ready : ready R lww_inv stored_server.
Proof. split; [exact ring_state_R|exact (map_Forall_empty _)]. Qed.

Lemma user_request_answered_witness :
  wp (user_request_handler config wt 17 (SerializeToString (request GET NONE EmptyString))) fresh_server
    (λ _ s' out, ∃ response,
      out = [mkMsg "tcp://client:6800" (SerializeToString response)] ∧
      KeyResponse.type response = GET ∧ KeyResponse.response_id response = "client:1" ∧
      map KeyTuple.key (KeyResponse.tuples response) = ["k"] ∧
      same_pending fresh_server s' ∧ R (rings s')).
Proof.
  pose proof (@user_request_answered MemoryStores _ memory_serializers_laws _ _ _ _ config wt R 17
    (SerializeToString (request GET NONE EmptyString)) fresh_server) as Hthm.
  cbv zeta in Hthm. rewrite parse_request in Hthm. apply Hthm.
  - intros tuple Hin. apply list_elem_of_singleton in Hin as ->. exact owns_k.
  - exact ring_state_R.
  - discriminate.
  - discriminate.
Defined.

Lemma user_put_merges_witness :
  wp (user_request_handler config wt 17 (SerializeToString (request PUT LWW (payload 7 "v")))) fresh_server
    (λ _ s' _, ready R lww_inv s' ∧
      merged lww_view "k" (deserialize_lww (payload 7 "v")) fresh_server s' ∧
      "k" ∈ local_changeset s' ∧ stored_type s' "k" = Some LWW).
Proof.
  apply (@user_put_merges MemoryStores _ memory_serializers_laws _ _ _ _ config wt R _ _ LWW lww_ser
    lww_inv lww_view deserialize_lww _ lww_ser_laws eq_refl 17
    (SerializeToString (request PUT LWW (payload 7 "v")))
    (KeyTuple.mk "k" LWW NO_ERROR (payload 7 "v") 0 false) "tcp://client:6800" "client:1" fresh_server).
  - apply parse_request.
  - reflexivity.
  - exact owns_k.
  - exact fresh_ready.
  - reflexivity.
  - exact I.
Defined.


Lemma user_get_returns_witness :
  wp (user_request_handler config wt 17 (SerializeToString (request GET NONE EmptyString))) stored_server
    (λ _ s' out, ready R lww_inv s' ∧ same_values lww_view stored_server s' ∧
      ∃ response tp, out = [mkMsg "tcp://client:6800" (SerializeToString response)] ∧
        KeyResponse.tuples response = [tp] ∧ KeyTuple.key tp = "k" ∧ KeyTuple.lattice_type tp = LWW ∧
        (KeyTuple.error tp = NO_ERROR ∧
           deserialize_lww (KeyTuple.payload tp) = lww_view (store stored_server) "k"
         ∨ KeyTuple.error tp = KEY_DNE)).
Proof.
  apply (@user_get_returns MemoryStores _ _ _ _ _ config wt R _ _ LWW lww_ser
    lww_inv lww_view deserialize_lww _ lww_ser_laws eq_refl 17
    (SerializeToString (request GET NONE EmptyString))
    (KeyTuple.mk "k" NONE NO_ERROR EmptyString 0 false) "tcp://client:6800" "client:1" stored_server).
  - apply parse_request.
  - discriminate.
  - exact owns_k.
  - exact stored_ready.
  - reflexivity.
Defined.

(** Two updates with different timestamps, delivered in both orders and one
    of them twice. *)
Definition gossip (ts : Z) (v : string) : string := SerializeToString (request PUT LWW (payload ts v)).
Definition writes (ts : Z) : string := if bool_decide (ts = 7) then "v" else if bool_decide (ts = 8) then "w" else EmptyString.

Lemma parse_payload ts v :
  deserialize_lww (payload ts v) = LWWPairLattice.mkTVP ts v.
Proof.
  unfold deserialize_lww, payload, serialize_value.
  rewrite (@parse_serialize' _ _ _ _ (@lww_proto_laws bit_protobuf bit_payload_laws)) by exact I.
  reflexivity.
Qed.

Lemma gossip_about ts v : about LWW (λ _, True) "k" (gossip ts v).
Proof.
  intros tuple. unfold gossip. rewrite parse_request. simpl. intros Hin%list_elem_of_singleton. by subst.
Qed.

Lemma gossip_updates ts v : updates deserialize_lww (gossip ts v) = [LWWPairLattice.mkTVP ts v].
Proof. unfold updates, gossip. rewrite parse_request. simpl. by rewrite parse_payload. Qed.

End ExampleServer.
