(* ===== verification/Handlers.v ===== *)
(** The other handlers of a server thread: replication factors
    (src/kvs/replication_response_handler.cpp, replication_change_handler.cpp),
    membership (node_join_handler.cpp, node_depart_handler.cpp,
    self_depart_handler.cpp) and caches (cache_ip_response_handler.cpp,
    management_node_response_handler.cpp). *)

From S2P Require Import Prelude Text Ordered Lattices ValueLattices Threads Wire WireCodec.
From S2P Require Import Codec Metadata KVStore DiskStore HashRing RingUtil ServerState.
From S2P Require Import UserRequest Replication.
From Stdlib Require Import Ascii Lia.

(** [key_replication_map[key].global_replication_[r.tier()] = r.value();] for
    every entry of a list, then the local ones. *)
Definition set_replication (key : Key) (global local : list ReplicationValue.t)
    (m : gmap Key KeyReplication) : gmap Key KeyReplication :=
  let m := foldl (λ m r,
    <[key := set_global_replication (ReplicationValue.tier r) (ReplicationValue.value r)
               (map_get no_replication m key)]> m) m global in
  foldl (λ m r,
    <[key := set_local_replication (ReplicationValue.tier r) (ReplicationValue.value r)
               (map_get no_replication m key)]> m) m local.

(** The separator of membership messages. *)
Definition colon : ascii := ":".

Section handlers.
Context {Store : Type} `{SerializerMap Store} `{Protobuf} `{StdHash} `{Random}.
Context `{HashRingUtilInterface} (c : Config) (wt : ServerThread.t).
Notation Srv := (M (ServerState Store)).

Definition update_key_replication_map (f : gmap Key KeyReplication → gmap Key KeyReplication) : Srv unit :=
  on_rings (modify (λ r, set_key_replication_map (f (key_replication_map r)) r)).

(** ** replication_response_handler *)

(** Answering one pending request; [responsible] is whether this thread
    turned out to be responsible for the key. *)
Definition answer_pending (now : Z) (key : Key) (responsible : bool) (request : PendingRequest.t)
    : Srv unit :=
  let response := KeyResponse.mk (PendingRequest.type_ request) [] (PendingRequest.response_id_ request) NO_ERROR in
  let tp := KeyTuple.set_key key KeyTuple.empty in
  if bool_decide (PendingRequest.addr_ request = "") then
    if responsible then
      match PendingRequest.type_ request with
      | PUT =>
          s ← get;
          if put_refused s key (PendingRequest.lattice_type_ request) then mret tt
          else
            process_put key (PendingRequest.lattice_type_ request) (PendingRequest.payload_ request)
              (PendingRequest.lattice_type_ request) ;;
            track_access key now ;;
            count_access ;;
            mark_changed key
      | _ => mret tt
      end
    else mret tt
  else if responsible then
    tp ← match PendingRequest.type_ request with
         | GET => answer_get key tp
         | _ => answer_put key (PendingRequest.lattice_type_ request) (PendingRequest.payload_ request) tp
         end;
    track_access key now ;;
    count_access ;;
    send_string (SerializeToString (KeyResponse.add_tuple tp response)) (PendingRequest.addr_ request)
  else
    send_string (SerializeToString (KeyResponse.add_tuple (KeyTuple.set_error WRONG_THREAD tp) response))
      (PendingRequest.addr_ request).

(** The pending requests of the key, then [pending_requests.erase(key)]. *)
Definition process_pending_requests (now : Z) (key : Key) : Srv unit :=
  s ← get;
  match pending_requests s !! key with
  | None => mret tt
  | Some _ =>
      '(threads, succeed) ← responsible_threads wt key (kSelfTierIdVector c);
      (if succeed : bool then
         s ← get;
         for_each (map_get [] (pending_requests s) key)
           (answer_pending now key (contains_thread threads wt))
       else mret tt) ;;
      modify (λ s, set_pending_requests (delete key (pending_requests s)) s)
  end.

Definition put_gossip (key : Key) (gossip : PendingGossip.t) : Srv unit :=
  s ← get;
  match stored_type s key with
  | Some t =>
      if negb (bool_decide (t = PendingGossip.lattice_type_ gossip)) then mret tt
      else process_put key (PendingGossip.lattice_type_ gossip) (PendingGossip.payload_ gossip)
             (PendingGossip.lattice_type_ gossip)
  | None => process_put key (PendingGossip.lattice_type_ gossip) (PendingGossip.payload_ gossip)
              (PendingGossip.lattice_type_ gossip)
  end.

(** All pending gossip of the key for one thread. *)
Definition forward_pending (key : Key) (gossips : list PendingGossip.t)
    (gossip_map : gmap Address KeyRequest.t) (thread : ServerThread.t) : gmap Address KeyRequest.t :=
  let address := ServerThread.gossip_connect_address thread in
  let req := KeyRequest.set_type PUT (map_get KeyRequest.empty gossip_map address) in
  <[address := foldl (λ req g, prepare_put_tuple req key (PendingGossip.lattice_type_ g)
                                 (PendingGossip.payload_ g)) req gossips]> gossip_map.

Definition process_pending_gossip (key : Key) : Srv unit :=
  s ← get;
  match pending_gossip s !! key with
  | None => mret tt
  | Some _ =>
      '(threads, succeed) ← responsible_threads wt key (kSelfTierIdVector c);
      (if succeed : bool then
         s ← get;
         let gossips := map_get [] (pending_gossip s) key in
         if contains_thread threads wt then for_each gossips (put_gossip key)
         else send_all (foldl (forward_pending key gossips) ∅ threads)
       else mret tt) ;;
      modify (λ s, set_pending_gossip (delete key (pending_gossip s)) s)
  end.

(** [response.tuples(0)] of a response without tuples is an index past the
    end. *)
Definition replication_response_handler (now : Z) (serialized : string) : Srv unit :=
  let response : KeyResponse.t := parse serialized in
  tuple ← lift_outcome (vector_at (KeyResponse.tuples response) 0);
  let key := get_key_from_metadata (KeyTuple.key tuple) in
  match KeyTuple.error tuple with
  | NO_ERROR =>
      let lww_value : LWWValue.t := parse (KeyTuple.payload tuple) in
      let rep_data : ReplicationFactor.t := parse (LWWValue.value lww_value) in
      update_key_replication_map
        (set_replication key (ReplicationFactor.global rep_data) (ReplicationFactor.local rep_data)) ;;
      process_pending_requests now key ;;
      process_pending_gossip key
  | KEY_DNE =>
      update_key_replication_map (λ m, init_replication c m key) ;;
      process_pending_requests now key ;;
      process_pending_gossip key
  | WRONG_THREAD => ask_replication_factor c wt key
  | _ => mret tt
  end.

(** ** replication_change_handler *)

(** [for (tid = 1; tid < kThreadNum; tid++) send_string(serialized, address of thread tid)] *)
Definition tell_workers (address : ServerThread.t → Address) (serialized : string) : Srv unit :=
  for_each (seqZ 1 (kThreadNum c - 1)) (λ tid,
    send_string serialized
      (address (ServerThread.new (ServerThread.public_ip wt) (ServerThread.private_ip wt) tid))).

(** The loops that store the new factors and note whether one went down. *)
Definition apply_factors (key : Key) (global local : list ReplicationValue.t) (m : gmap Key KeyReplication)
    : bool * gmap Key KeyReplication :=
  let '(decrement, m) := foldl (λ '(decrement, m) r,
    let rep := map_get no_replication m key in
    let lower := bool_decide (ReplicationValue.value r < global_rep rep (ReplicationValue.tier r)) in
    (decrement || lower,
     <[key := set_global_replication (ReplicationValue.tier r) (ReplicationValue.value r) rep]> m))
    (false, m) global in
  foldl (λ '(decrement, m) r,
    let rep := map_get no_replication m key in
    let lower := bool_decide (ReplicationValue.value r < local_rep rep (ReplicationValue.tier r)) in
    (decrement || lower,
     <[key := set_local_replication (ReplicationValue.tier r) (ReplicationValue.value r) rep]> m))
    (decrement, m) local.

(** The locals of the loop: the keys to send and the keys to drop. *)
Record change_acc := mkChange { ch_gossip : AddressKeysetMap; ch_remove : gset Key }.

Definition gossip_to (threads : list ServerThread.t) (key : Key) (m : AddressKeysetMap) : AddressKeysetMap :=
  foldl (λ m thread, keyset_insert (ServerThread.gossip_connect_address thread) key m) m threads.

Definition change_key (acc : change_acc) (key_rep : ReplicationFactor.t) : Srv change_acc :=
  let key := ReplicationFactor.key key_rep in
  let just_update := update_key_replication_map
    (set_replication key (ReplicationFactor.global key_rep) (ReplicationFactor.local key_rep)) in
  s ← get;
  match stored_key_map s !! key with
  | None => just_update ;; mret acc
  | Some _ =>
      '(orig_threads, succeed) ← responsible_threads wt key kAllTiers;
      if succeed : bool then
        s ← get;
        let '(decrement, m) := apply_factors key (ReplicationFactor.global key_rep)
                                 (ReplicationFactor.local key_rep) (key_replication_map (rings s)) in
        update_key_replication_map (λ _, m) ;;
        '(threads, succeed) ← responsible_threads wt key kAllTiers;
        if succeed : bool then
          let acc := if negb (contains_thread threads wt)
                     then mkChange (gossip_to threads key (ch_gossip acc)) ({[key]} ∪ ch_remove acc)
                     else acc in
          if decrement : bool then mret acc
          else
            first ← lift_outcome (vector_at orig_threads 0);
            if bool_decide (ServerThread.id first = ServerThread.id wt) then
              let new_threads := filter (λ th, contains_thread orig_threads th = false) threads in
              mret (mkChange (gossip_to new_threads key (ch_gossip acc)) (ch_remove acc))
            else mret acc
        else mret acc
      else just_update ;; mret acc
  end.

(** [serializers[stored_key_map[key].type_]->remove(key); stored_key_map.erase(key);
    local_changeset.erase(key);]  A key that is not stored any more is
    created with no type by the lookup, and its serializer is null. *)
Definition remove_key (key : Key) : Srv unit :=
  s ← get;
  let p := map_get (mkKeyProperty 0 NONE) (stored_key_map s) key in
  serializer ← lift_outcome (of_option null_serializer (serializer_at (type_ p)));
  modify (λ s, set_store (ser_remove serializer key (store s)) s) ;;
  modify (λ s, set_stored_key_map (delete key (stored_key_map s)) s) ;;
  modify (λ s, set_local_changeset (local_changeset s ∖ {[key]}) s).

Definition replication_change_handler (serialized : string) : Srv unit :=
  (if bool_decide (ServerThread.tid wt = 0)
   then tell_workers ServerThread.replication_change_connect_address serialized else mret tt) ;;
  let rep_change : ReplicationFactorUpdate.t := parse serialized in
  acc ← for_acc (ReplicationFactorUpdate.updates rep_change) (mkChange ∅ ∅) change_key;
  send_gossip (ch_gossip acc) ;;
  for_each (elements (ch_remove acc)) remove_key.

(** ** node_join_handler *)

(** [Tier_Parse] leaves its argument unset on an unknown name. *)
Definition tier_of (name : string) : outcome Tier :=
  of_option (UndefinedBehaviour "tier read uninitialised") (Tier_Parse name).

(** The text a node announces itself with. *)
Definition join_message (tier : Tier) (public_ip private_ip : Address) (join_count : Z) : string :=
  Tier_Name tier +:+ ":" +:+ public_ip +:+ ":" +:+ private_ip +:+ ":" +:+ to_string join_count.

Definition parse_join (serialized : string) : outcome (Tier * Address * Address * Z) :=
  let v := split serialized colon in
  v0 ← vector_at v 0;
  tier ← tier_of v0;
  new_public_ip ← vector_at v 1;
  new_private_ip ← vector_at v 2;
  v3 ← vector_at v 3;
  join_count ← stoi v3;
  Ok (tier, new_public_ip, new_private_ip, join_count).

(** [global_hash_rings[tier].insert(...)] *)
Definition insert_server (tier : Tier) (public_ip private_ip : Address) (join_count : Z) : Srv bool :=
  on_rings (
    r ← get;
    let '(inserted, ring) := HashRing.insert GlobalHasher public_ip private_ip join_count 0
      (map_get HashRing.empty (global_hash_rings r) tier) in
    modify (set_global_hash_rings (<[tier := ring]> (global_hash_rings r))) ;;
    mret inserted).

Definition remove_server (tier : Tier) (public_ip private_ip : Address) : Srv unit :=
  on_rings (modify (λ r, set_global_hash_rings
    (<[tier := HashRing.remove GlobalHasher public_ip private_ip 0
         (map_get HashRing.empty (global_hash_rings r) tier)]> (global_hash_rings r)) r)).

(** [for (pair : global_hash_rings) for (st : pair.second.get_unique_servers())] *)
Definition all_servers (r : RingState) : list ServerThread.t :=
  map_to_list (global_hash_rings r) ≫= λ p, (map_to_list (HashRing.get_unique_servers p.2)).*2.

(** What thread 0 tells the others about a node that joined. *)
Definition announce_join (self_join_count : Z) (serialized : string)
    (new_public_ip new_private_ip : Address) : Srv unit :=
  send_string (join_message (kSelfTier c) (ServerThread.public_ip wt) (ServerThread.private_ip wt) self_join_count)
    (ServerThread.node_join_connect_address (ServerThread.new new_public_ip new_private_ip 0)) ;;
  s ← get;
  for_each (all_servers (rings s)) (λ st,
    if negb (bool_decide (ServerThread.private_ip st = ServerThread.private_ip wt)) &&
       negb (bool_decide (ServerThread.private_ip st = new_private_ip))
    then send_string serialized (ServerThread.node_join_connect_address st) else mret tt) ;;
  tell_workers ServerThread.node_join_connect_address serialized.

(** Where a stored key has to go after the join. *)
Definition join_key (join_count : Z) (new_private_ip : Address) (key : Key) : Srv unit :=
  '(threads, succeed) ← responsible_threads wt key (kSelfTierIdVector c);
  if succeed : bool then
    if bool_decide (join_count > 0) then
      modify (λ s, set_join_gossip_map
        (gossip_to (filter (λ th, ServerThread.private_ip th = new_private_ip) threads) key
           (join_gossip_map s)) s)
    else if bool_decide (join_count = 0) && negb (contains_thread threads wt) then
      modify (λ s, set_join_remove_set ({[key]} ∪ join_remove_set s) s) ;;
      modify (λ s, set_join_gossip_map (gossip_to threads key (join_gossip_map s)) s)
    else mret tt
  else mret tt.

Definition node_join_handler (self_join_count : Z) (serialized : string) : Srv unit :=
  '(tier, new_public_ip, new_private_ip, join_count) ← lift_outcome (parse_join serialized);
  inserted ← insert_server tier new_public_ip new_private_ip join_count;
  if inserted : bool then
    (if bool_decide (ServerThread.tid wt = 0)
     then announce_join self_join_count serialized new_public_ip new_private_ip else mret tt) ;;
    (if bool_decide (tier = kSelfTier c) then
       s ← get;
       for_each (map_to_list (stored_key_map s)).*1 (join_key join_count new_private_ip)
     else mret tt)
  else mret tt.

(** ** node_depart_handler *)
Definition depart_message (tier : Tier) (public_ip private_ip : Address) : string :=
  Tier_Name tier +:+ ":" +:+ public_ip +:+ ":" +:+ private_ip.

Definition parse_depart (serialized : string) : outcome (Tier * Address * Address) :=
  let v := split serialized colon in
  v0 ← vector_at v 0;
  tier ← tier_of v0;
  public_ip ← vector_at v 1;
  private_ip ← vector_at v 2;
  Ok (tier, public_ip, private_ip).

Definition node_depart_handler (serialized : string) : Srv unit :=
  '(tier, public_ip, private_ip) ← lift_outcome (parse_depart serialized);
  remove_server tier public_ip private_ip ;;
  if bool_decide (ServerThread.tid wt = 0)
  then tell_workers ServerThread.node_depart_connect_address serialized else mret tt.

(** ** self_depart_handler *)

(** [serialized] is the address the departure is reported to when done. *)
Definition announce_departure (routing_ips monitoring_ips : list Address) (serialized : string) : Srv unit :=
  let msg := depart_message (kSelfTier c) (ServerThread.public_ip wt) (ServerThread.private_ip wt) in
  s ← get;
  for_each (all_servers (rings s)) (λ st, send_string msg (ServerThread.node_depart_connect_address st)) ;;
  let msg := "depart:" +:+ msg in
  for_each routing_ips (λ address,
    send_string msg (RoutingThread.notify_connect_address (RoutingThread.new address 0))) ;;
  for_each monitoring_ips (λ address,
    send_string msg (MonitoringThread.notify_connect_address (MonitoringThread.new address))) ;;
  tell_workers ServerThread.self_depart_connect_address serialized.

Definition self_depart_handler (routing_ips monitoring_ips : list Address) (serialized : string) : Srv unit :=
  remove_server (kSelfTier c) (ServerThread.public_ip wt) (ServerThread.private_ip wt) ;;
  (if bool_decide (ServerThread.tid wt = 0)
   then announce_departure routing_ips monitoring_ips serialized else mret tt) ;;
  s ← get;
  addr_keyset_map ← for_acc (map_to_list (stored_key_map s)).*1 (∅ : AddressKeysetMap) (λ m key,
    '(threads, succeed) ← responsible_threads wt key kAllTiers;
    mret (if succeed : bool then gossip_to threads key m else m));
  send_gossip addr_keyset_map ;;
  send_string (ServerThread.public_ip wt +:+ "_" +:+ ServerThread.private_ip wt +:+ "_" +:+
               Tier_Name (kSelfTier c)) serialized.

(** ** cache_ip_response_handler *)

(** The two maps are updated for one cache: [keys] is the new list of keys
    it holds. *)
Definition update_cache (cache_ip : Address) (keys : list Key)
    (maps : gmap Address (gset Key) * gmap Key (gset Address))
    : gmap Address (gset Key) * gmap Key (gset Address) :=
  let '(cache_ip_to_keys, key_to_cache_ips) := maps in
  let deleted_keys := foldl (λ old k, old ∖ {[k]}) (map_get ∅ cache_ip_to_keys cache_ip) keys in
  let key_to_cache_ips := foldl (λ m k, <[k := map_get ∅ m k ∖ {[cache_ip]}]> m)
                            key_to_cache_ips (elements deleted_keys) in
  let cache_ip_to_keys := <[cache_ip := ∅]> cache_ip_to_keys in
  foldl (λ '(c2k, k2c) k,
    (<[cache_ip := {[k]} ∪ map_get ∅ c2k cache_ip]> c2k,
     <[k := {[cache_ip]} ∪ map_get ∅ k2c k]> k2c)) (cache_ip_to_keys, key_to_cache_ips) keys.

Definition cache_ip_response_handler (serialized : string) : Srv unit :=
  let response : KeyResponse.t := parse serialized in
  for_each (KeyResponse.tuples response) (λ tuple,
    if bool_decide (KeyTuple.error tuple = NO_ERROR) then
      let cache_ip := get_key_from_user_metadata (KeyTuple.key tuple) in
      let lww_value : LWWValue.t := parse (KeyTuple.payload tuple) in
      let key_set : StringSet.t := parse (LWWValue.value lww_value) in
      modify (λ s,
        let '(c2k, k2c) := update_cache cache_ip (StringSet.keys key_set)
                             (cache_ip_to_keys s, key_to_cache_ips s) in
        set_caches (extant_caches s) c2k k2c s)
    else mret tt).

(** ** management_node_response_handler *)

(** The caches that are gone are dropped from both maps. *)
Definition drop_caches (deleted_caches : gset Address)
    (maps : gmap Address (gset Key) * gmap Key (gset Address))
    : gmap Address (gset Key) * gmap Key (gset Address) :=
  foldl (λ '(c2k, k2c) cache_ip, (delete cache_ip c2k, (λ ips, ips ∖ {[cache_ip]}) <$> k2c))
    maps (elements deleted_caches).

Definition management_node_response_handler (serialized : string) : Srv unit :=
  let func_nodes : StringSet.t := parse serialized in
  modify (λ s,
    let '(deleted_caches, extant) := foldl (λ '(deleted, extant) node,
      (deleted ∖ {[node]}, {[node]} ∪ extant)) (extant_caches s, ∅) (StringSet.keys func_nodes) in
    let '(c2k, k2c) := drop_caches deleted_caches (cache_ip_to_keys s, key_to_cache_ips s) in
    set_caches extant c2k k2c s) ;;
  s ← get;
  addr_request_map ← for_acc (elements (extant_caches s)) ∅ (λ addr_request_map cacheip,
    let key := get_user_metadata_key cacheip cache_ip in
    s ← get;
    '(addr_request_map, rid) ← on_rings (
      g ← global_ring_at MEMORY;
      l ← local_ring_at MEMORY;
      prepare_metadata_get_request c key g l addr_request_map
        (ServerThread.cache_ip_response_connect_address wt) (rid s));
    modify (set_rid rid) ;;
    mret addr_request_map);
  for_each (map_to_list addr_request_map) (λ '(address, req),
    send_string (SerializeToString req) address).
End handlers.

(** ** Every handler keeps the thread's invariant *)
Section invariant.
Context {Store : Type} `{SerializerMapLaws Store} `{Protobuf} `{StdHash} `{Random}.
Context `{HashRingUtilInterface} (c : Config) (wt : ServerThread.t) (strict : bool).
Notation ok := (server_ok (Store:=Store) strict).

Lemma answer_get_ok key tp : preserves ok (answer_get key tp).
Proof.
  unfold answer_get. preserve_step. destruct (stored_type _ _); [|preserve_steps].
  apply preserves_bind; [apply process_get_ok|]. intros []. preserve_steps.
Qed.

Lemma put_then_mark key lt payload now :
  preserves ok (process_put key lt payload lt ;; track_access key now ;; count_access ;; mark_changed key).
Proof.
  intros s a s' out Heq Hs. destruct (serializer_at lt) as [ser|] eqn:Hser.
  - unfold mbind, M_bind in Heq. rewrite (process_put_eq ser) in Heq by done.
    simpl in Heq. injection Heq as _ <- _.
    destruct (process_put_ok strict key lt payload s tt _ [] (process_put_eq ser _ _ _ _ _ Hser) Hs) as [Ht Hc].
    split; simpl; [done|]. intros Hstrict. specialize (Hc Hstrict).
    rewrite put_result_stored, put_result_changeset in *. rewrite dom_insert_L in *. set_solver.
  - unfold process_put, mbind, M_bind, lift_outcome in Heq. by rewrite Hser in Heq.
Qed.

Lemma answer_pending_ok now key responsible request :
  preserves ok (answer_pending now key responsible request).
Proof.
  unfold answer_pending. destruct (bool_decide _).
  - destruct responsible; [|preserve_steps]. destruct (PendingRequest.type_ _); [preserve_steps..|].
    preserve_step. destruct (put_refused _ _ _); [preserve_steps|]. apply put_then_mark.
  - destruct responsible; [|preserve_steps].
    apply preserves_bind; [|intros; unfold track_access, count_access; preserve_steps; done].
    destruct (PendingRequest.type_ _); (apply answer_get_ok || apply answer_put_ok).
Qed.

Lemma process_pending_requests_ok now key : preserves ok (process_pending_requests c wt now key).
Proof.
  unfold process_pending_requests. preserve_step. destruct (pending_requests _ !! _); [|preserve_steps].
  apply preserves_bind; [apply responsible_threads_ok|]. intros [threads succeed].
  apply preserves_bind; [|intros; preserve_steps; done].
  destruct succeed; preserve_steps. apply answer_pending_ok.
Qed.

Lemma process_pending_gossip_ok key : preserves ok (process_pending_gossip c wt key).
Proof.
  unfold process_pending_gossip. preserve_step. destruct (pending_gossip _ !! _); [|preserve_steps].
  apply preserves_bind; [apply responsible_threads_ok|]. intros [threads succeed].
  apply preserves_bind; [|intros; preserve_steps; done].
  destruct succeed; [|preserve_steps]. preserve_step. destruct (contains_thread _ _).
  - apply preserves_for_each. intros g _. unfold put_gossip. preserve_step.
    destruct (stored_type _ _); [destruct (negb _); [preserve_steps|]|]; apply process_put_ok.
  - unfold send_all. preserve_steps.
Qed.

Lemma replication_response_handler_ok now serialized :
  preserves ok (replication_response_handler c wt now serialized).
Proof.
  unfold replication_response_handler. preserve_step; [preserve_steps|].
  destruct (KeyTuple.error _); try (preserve_steps; done).
  1,2: apply preserves_bind; [unfold update_key_replication_map; preserve_steps; done|intros _];
    apply preserves_bind; [apply process_pending_requests_ok|intros _; apply process_pending_gossip_ok].
  unfold ask_replication_factor. preserve_steps. done.
Qed.

Lemma send_gossip_ok m : preserves ok (send_gossip m).
Proof.
  unfold send_gossip. apply preserves_bind; [|intros; preserve_steps].
  apply preserves_for_acc. intros gm [addr ks] _. apply preserves_bind; [|intros; preserve_steps].
  apply preserves_for_acc. intros req key _. unfold gossip_request. preserve_step.
  destruct (stored_key_map _ !! _); [|preserve_steps].
  apply preserves_bind; [apply process_get_ok|]. intros []. preserve_steps.
Qed.

Lemma remove_key_ok key : preserves ok (remove_key key).
Proof.
  unfold remove_key. preserve_step. preserve_step; [preserve_steps|].
  intros s1 b s' out Heq [Ht Hc]. unfold mbind, M_bind, modify in Heq. simpl in Heq.
  injection Heq as _ <- _. split; simpl.
  - by apply map_Forall_delete.
  - intros Hstrict. specialize (Hc Hstrict). rewrite dom_delete_L. set_solver.
Qed.

Lemma replication_change_handler_ok serialized :
  preserves ok (replication_change_handler c wt serialized).
Proof.
  unfold replication_change_handler. apply preserves_bind; [unfold tell_workers; preserve_steps|intros _].
  apply preserves_bind; [|intros acc; apply preserves_bind; [apply send_gossip_ok|intros _];
    apply preserves_for_each; intros; apply remove_key_ok].
  apply preserves_for_acc. intros acc key_rep _. unfold change_key, update_key_replication_map.
  preserve_step. destruct (stored_key_map _ !! _); [|preserve_steps; done].
  apply preserves_bind; [apply responsible_threads_ok|]. intros [orig succeed].
  destruct succeed; [|preserve_steps; done]. preserve_step. destruct (apply_factors _ _ _ _).
  preserve_step; [preserve_steps; done|].
  apply preserves_bind; [apply responsible_threads_ok|]. intros [threads succeed]. preserve_steps.
Qed.

Lemma node_join_handler_ok self_join_count serialized :
  preserves ok (node_join_handler c wt self_join_count serialized).
Proof.
  unfold node_join_handler, insert_server, announce_join, tell_workers.
  preserve_step; [preserve_steps|]. destruct a as [[[tier pub] priv] jc].
  preserve_step; [preserve_steps; done|]. destruct a; [|preserve_steps].
  preserve_step; [preserve_steps|]. preserve_step; [|preserve_steps].
  preserve_step. apply preserves_for_each. intros key _. unfold join_key.
  apply preserves_bind; [apply responsible_threads_ok|]. intros [threads succeed].
  preserve_steps; done.
Qed.

Lemma node_depart_handler_ok serialized : preserves ok (node_depart_handler c wt serialized).
Proof.
  unfold node_depart_handler, remove_server, tell_workers.
  preserve_step; [preserve_steps|]. destruct a as [[tier pub] priv]. preserve_steps; done.
Qed.

Lemma self_depart_handler_ok routing_ips monitoring_ips serialized :
  preserves ok (self_depart_handler c wt routing_ips monitoring_ips serialized).
Proof.
  unfold self_depart_handler, remove_server, announce_departure, tell_workers.
  preserve_step; [preserve_steps; done|]. preserve_step; [preserve_steps|]. preserve_step.
  preserve_step; [|preserve_step; [apply send_gossip_ok|preserve_steps]].
  apply preserves_for_acc. intros m key _.
  apply preserves_bind; [apply responsible_threads_ok|]. intros [threads succeed]. preserve_steps.
Qed.

Lemma cache_ip_response_handler_ok serialized : preserves ok (cache_ip_response_handler serialized).
Proof.
  unfold cache_ip_response_handler. apply preserves_for_each. intros tuple _.
  destruct (bool_decide _); [|preserve_steps]. apply preserves_modify. intros s Hs.
  by destruct (update_cache _ _ _).
Qed.

Lemma management_node_response_handler_ok serialized :
  preserves ok (management_node_response_handler c wt serialized).
Proof.
  unfold management_node_response_handler. preserve_step.
  { apply preserves_modify. intros s Hs. destruct (foldl _ _ _). by destruct (drop_caches _ _). }
  preserve_step. preserve_step; [|preserve_steps].
  apply preserves_for_acc. intros m ip _. preserve_step. preserve_step; [preserve_steps; done|].
  destruct a. preserve_steps; done.
Qed.
End invariant.

(** ** Membership messages *)
Section messages.
Implicit Types (pub priv : Address).

(** An address that can travel in a message: no separator, not empty. *)
Definition plain_ip (a : Address) : Prop := has_char colon a = false ∧ a ≠ "".

Lemma Tier_Name_plain t : plain_ip (Tier_Name t).
Proof. by destruct t. Qed.

Lemma split_fields (fields : list string) :
  fields ≠ [] → Forall plain_ip fields → split (join colon fields) colon = fields.
Proof.
  intros Hne Hall. apply split_join; [done| |].
  - eapply Forall_impl; [exact Hall|]. by intros ? [].
  - intros Hlast. apply last_Some in Hlast as [l ->].
    apply Forall_app in Hall as [_ Hall]. apply Forall_cons in Hall as [[_ Hn] _]. done.
Qed.

Lemma split_join_message (first : list string) tier pub priv jc :
  Forall plain_ip first → plain_ip pub → plain_ip priv → 0 ≤ jc →
  split (join colon (first ++ [Tier_Name tier; pub; priv; to_string jc])) colon =
    first ++ [Tier_Name tier; pub; priv; to_string jc].
Proof.
  intros Hf Hpub Hpriv Hjc. apply split_fields; [by destruct first|].
  apply Forall_app. split; [done|]. repeat apply Forall_cons_2; try done.
  - apply Tier_Name_plain.
  - split; [by apply to_string_has_char|apply to_string_nonempty].
Qed.

Lemma split_depart_message (first : list string) tier pub priv :
  Forall plain_ip first → plain_ip pub → plain_ip priv →
  split (join colon (first ++ [Tier_Name tier; pub; priv])) colon = first ++ [Tier_Name tier; pub; priv].
Proof.
  intros Hf Hpub Hpriv. apply split_fields; [by destruct first|].
  apply Forall_app. split; [done|]. repeat apply Forall_cons_2; try done. apply Tier_Name_plain.
Qed.

Lemma parse_join_message tier pub priv jc :
  plain_ip pub → plain_ip priv → 0 ≤ jc ≤ INT_MAX →
  parse_join (join_message tier pub priv jc) = Ok (tier, pub, priv, jc).
Proof.
  intros Hpub Hpriv Hjc. unfold parse_join.
  change (join_message tier pub priv jc) with (join colon ([] ++ [Tier_Name tier; pub; priv; to_string jc])).
  rewrite split_join_message; [|constructor|done|done|lia]. simpl.
  unfold tier_of. rewrite Tier_Parse_Name. simpl. by rewrite stoi_to_string.
Qed.

Lemma parse_depart_message tier pub priv :
  plain_ip pub → plain_ip priv →
  parse_depart (depart_message tier pub priv) = Ok (tier, pub, priv).
Proof.
  intros Hpub Hpriv. unfold parse_depart.
  change (depart_message tier pub priv) with (join colon ([] ++ [Tier_Name tier; pub; priv])).
  rewrite split_depart_message; [|constructor|done|done]. simpl.
  unfold tier_of. by rewrite Tier_Parse_Name.
Qed.
End messages.

(** ** Pending requests are answered when the replication factor arrives *)
Section pending.
Context {Store : Type} `{SerializerMapLaws Store} `{Protobuf} `{StdHash} `{Random}.
Context `{HashRingUtilInterface} (c : Config) (wt : ServerThread.t).
(** [R]: what the rings are known to satisfy, kept by every lookup. *)
Context (R : RingState → Prop).
Implicit Types (s : ServerState Store) (key : Key).

(** What a replication response teaches. *)
Definition learnt (tuple : KeyTuple.t) (m : gmap Key KeyReplication) : gmap Key KeyReplication :=
  let key := get_key_from_metadata (KeyTuple.key tuple) in
  match KeyTuple.error tuple with
  | NO_ERROR =>
      let rep_data : ReplicationFactor.t := parse (LWWValue.value (parse (KeyTuple.payload tuple))) in
      set_replication key (ReplicationFactor.global rep_data) (ReplicationFactor.local rep_data) m
  | _ => init_replication c m key
  end.

(** What is sent for one pending request. *)
Definition answered key (responsible : bool) (p : PendingRequest.t) (ms : list Msg) : Prop :=
  if bool_decide (PendingRequest.addr_ p = "") then ms = []
  else ∃ response tp,
    ms = [mkMsg (PendingRequest.addr_ p) (SerializeToString response)] ∧
    KeyResponse.type response = PendingRequest.type_ p ∧
    KeyResponse.response_id response = PendingRequest.response_id_ p ∧
    KeyResponse.tuples response = [tp] ∧ KeyTuple.key tp = key ∧
    (responsible = false → KeyTuple.error tp = WRONG_THREAD).

Lemma wp_answer_pending now key responsible p s :
  wp (answer_pending now key responsible p) s (λ _ s' out,
    same_pending s s' ∧ answered key responsible p out).
Proof.
  unfold answer_pending, answered. cbv zeta. case_bool_decide as Haddr.
  - destruct responsible; [|by wp_step]. destruct (PendingRequest.type_ p); [by wp_step..|].
    wp_step. wp_step. destruct (put_refused s key _) eqn:Hp; [by wp_step|].
    destruct (put_accepted_serializer s key _ Hp) as [ser Hser].
    wp_step. eexists _, _, []. split; [by apply process_put_eq|].
    unfold track_access, count_access, mark_changed. wp_steps. split; [|done]. apply put_result_pending.
  - destruct responsible; [|wp_step; split; [done|]; by do 2 eexists].
    wp_step. eapply (wp_mono _ _ (λ tp' s' out,
      KeyTuple.key tp' = key ∧ same_pending s s' ∧ out = [])).
    + destruct (PendingRequest.type_ p);
        (eapply wp_mono; [apply wp_answer_put || apply wp_answer_get|]; naive_solver).
    + intros tp' s' out (Hk & Hsame & ->). unfold track_access, count_access. wp_steps.
      split; [done|]. do 2 eexists. split_and!; try done.
Qed.

(** The key is located: [threads] are its threads in this tier. *)
Definition located key (threads : list ServerThread.t) : Prop :=
  ∃ md, is_metadata key = Ok md ∧ ∀ r, R r →
    wp (get_responsible_threads (ServerThread.replication_response_connect_address wt) key md
          (kSelfTierIdVector c)) r
       (λ res r' out, res = (threads, true) ∧ R r' ∧ out = []).

Lemma wp_process_pending_requests now key threads s pend :
  R (rings s) → located key threads → pending_requests s !! key = Some pend →
  wp (process_pending_requests c wt now key) s (λ _ s' out,
    pending_requests s' = delete key (pending_requests s) ∧ pending_gossip s' = pending_gossip s ∧
    ∃ outs, out = concat outs ∧ Forall2 (answered key (contains_thread threads wt)) pend outs).
Proof.
  intros Hr (md & Hmd & Hloc) Hpend. unfold process_pending_requests.
  wp_step. wp_step. rewrite Hpend. wp_step. unfold responsible_threads.
  wp_step. eapply wp_lift_outcome; [done|]. apply wp_zoom.
  eapply wp_mono; [by apply Hloc|]. intros ? r1 ? (-> & Hr1 & ->).
  wp_step. wp_step. wp_step. simpl. unfold map_get. rewrite Hpend. simpl.
  eapply wp_mono; [apply (wp_for_each (λ ps s' out, same_pending s s' ∧
    ∃ outs, out = concat outs ∧ Forall2 (answered key (contains_thread threads wt)) ps outs))|].
  - split; [done|]. by exists [].
  - intros ps p s' out _ [Hsame (outs & -> & Hall)].
    eapply wp_mono; [apply wp_answer_pending|]. intros _ s'' out' [Hsame' Hans].
    split; [by eapply same_pending_trans|]. exists (outs ++ [out']). split.
    + rewrite concat_app. simpl. by rewrite app_nil_r.
    + by apply Forall2_app; [|constructor].
  - intros _ s' out [[Hp Hg] (outs & -> & Hall)]. wp_step. simpl.
    rewrite Hp, app_nil_r. split_and!; [done..|]. by exists outs.
Qed.

End pending.

(** ** The two cache maps are inverses *)
Section caches.
Implicit Types (c2k : gmap Address (gset Key)) (k2c : gmap Key (gset Address)).
Implicit Types (ip : Address) (key : Key).

Definition caches_agree (maps : gmap Address (gset Key) * gmap Key (gset Address)) : Prop :=
  ∀ ip key, key ∈ map_get ∅ maps.1 ip ↔ ip ∈ map_get ∅ maps.2 key.

Lemma foldl_erase_keys (old : gset Key) (keys : list Key) key :
  key ∈ foldl (λ old k, old ∖ {[k]}) old keys ↔ key ∈ old ∧ key ∉ keys.
Proof.
  revert old. induction keys as [|k keys IH]; intros old; simpl; [set_solver|].
  rewrite IH. set_solver.
Qed.

Lemma foldl_drop_ip ip (keys : list Key) k2c ip' key :
  ip' ∈ map_get ∅ (foldl (λ m k, <[k := map_get ∅ m k ∖ {[ip]}]> m) k2c keys) key ↔
  ip' ∈ map_get ∅ k2c key ∧ ¬ (ip' = ip ∧ key ∈ keys).
Proof.
  revert k2c. induction keys as [|k keys IH]; intros k2c; simpl; [set_solver|]. rewrite IH.
  destruct (decide (k = key)) as [->|Hne].
  - rewrite map_get_insert_eq. set_solver.
  - rewrite map_get_insert_ne by done. set_solver.
Qed.

Lemma foldl_add_keys ip (keys : list Key) c2k k2c :
  let maps := foldl (λ '(c2k, k2c) k,
    (<[ip := {[k]} ∪ map_get ∅ c2k ip]> c2k, <[k := {[ip]} ∪ map_get ∅ k2c k]> k2c)) (c2k, k2c) keys in
  (∀ ip' key, key ∈ map_get ∅ maps.1 ip' ↔ (ip' = ip ∧ key ∈ keys) ∨ key ∈ map_get ∅ c2k ip') ∧
  (∀ ip' key, ip' ∈ map_get ∅ maps.2 key ↔ (ip' = ip ∧ key ∈ keys) ∨ ip' ∈ map_get ∅ k2c key).
Proof.
  revert c2k k2c. induction keys as [|k keys IH]; intros c2k k2c; simpl; [set_solver|].
  destruct (IH (<[ip := {[k]} ∪ map_get ∅ c2k ip]> c2k) (<[k := {[ip]} ∪ map_get ∅ k2c k]> k2c))
    as [H1 H2]. split; intros ip' key.
  - rewrite H1. destruct (decide (ip = ip')) as [->|Hne].
    + rewrite map_get_insert_eq. set_solver.
    + rewrite map_get_insert_ne by done. set_solver.
  - rewrite H2. destruct (decide (k = key)) as [->|Hne].
    + rewrite map_get_insert_eq. set_solver.
    + rewrite map_get_insert_ne by done. set_solver.
Qed.

Lemma update_cache_agrees ip keys maps :
  caches_agree maps →
  caches_agree (update_cache ip keys maps) ∧
  ∀ ip' key, key ∈ map_get ∅ (update_cache ip keys maps).1 ip' ↔
    (if bool_decide (ip' = ip) then key ∈ keys else key ∈ map_get ∅ maps.1 ip').
Proof.
  destruct maps as [c2k k2c]. intros Hag. unfold update_cache.
  match goal with |- context [foldl _ (?a, ?b) keys] => destruct (foldl_add_keys ip keys a b) as [H1 H2] end.
  split.
  - intros ip' key. rewrite H1, H2, foldl_drop_ip, elem_of_elements, foldl_erase_keys.
    pose proof (Hag ip' key) as Hk. simpl in Hk. destruct (decide (ip = ip')) as [->|Hne].
    + rewrite map_get_insert_eq. destruct (decide (key ∈ keys)); set_solver.
    + rewrite map_get_insert_ne by done. set_solver.
  - intros ip' key. rewrite H1. case_bool_decide as Heq.
    + subst. rewrite map_get_insert_eq. set_solver.
    + rewrite map_get_insert_ne by done. set_solver.
Qed.

Lemma map_get_fmap_difference k2c ip key :
  map_get ∅ ((λ ips, ips ∖ {[ip]}) <$> k2c) key = map_get ∅ k2c key ∖ {[ip]}.
Proof. unfold map_get. rewrite lookup_fmap. destruct (k2c !! key); set_solver. Qed.

Lemma drop_caches_agrees deleted maps :
  caches_agree maps →
  caches_agree (drop_caches deleted maps) ∧
  ∀ ip, ip ∈ deleted → map_get ∅ (drop_caches deleted maps).1 ip = ∅.
Proof.
  intros Hag. unfold drop_caches.
  assert (∀ P, (∀ ip, ip ∈ elements deleted → P ip) → ∀ ip, ip ∈ deleted → P ip) as Helem.
  { intros P HP ip Hip. by apply HP, elem_of_elements. }
  cut (caches_agree (foldl (λ '(c2k, k2c) ip, (delete ip c2k, (λ ips, ips ∖ {[ip]}) <$> k2c)) maps
                       (elements deleted)) ∧
       ∀ ip, ip ∈ elements deleted → map_get ∅ (foldl (λ '(c2k, k2c) ip,
         (delete ip c2k, (λ ips, ips ∖ {[ip]}) <$> k2c)) maps (elements deleted)).1 ip = ∅).
  { intros [H1 H2]. split; [done|]. by apply Helem. }
  clear Helem. revert maps Hag.
  induction (elements deleted) as [|ip l IH]; intros [c2k k2c] Hag; simpl.
  { split; [done|]. by intros ? ?%elem_of_nil. }
  destruct (IH (delete ip c2k, (λ ips, ips ∖ {[ip]}) <$> k2c)) as [H1 H2].
  { intros ip' key. simpl. rewrite map_get_fmap_difference. pose proof (Hag ip' key) as Hk. simpl in Hk.
    unfold map_get at 1. destruct (decide (ip = ip')) as [->|Hne].
    - rewrite lookup_delete_eq. set_solver.
    - rewrite lookup_delete_ne by done. fold (map_get ∅ c2k ip'). set_solver. }
  split; [done|]. intros ip' [->|Hin]%elem_of_cons; [|by apply H2].
  destruct (decide (ip ∈ l)) as [Hin|Hnin]; [by apply H2|]. clear IH H1 H2 Hag.
  assert (map_get ∅ (delete ip c2k) ip = ∅) as Hd by (unfold map_get; by rewrite lookup_delete_eq).
  revert Hd. generalize (delete ip c2k) ((λ ips, ips ∖ {[ip]}) <$> k2c). clear c2k k2c.
  induction l as [|ip' l IH]; intros c2k k2c Hd; simpl; [done|].
  apply not_elem_of_cons in Hnin as [Hne Hnin]. apply IH; [done|].
  unfold map_get. by rewrite lookup_delete_ne.
Qed.
End caches.

Section cache_handlers.
Context {Store : Type} `{Protobuf} `{StdHash} `{Random} (c : Config) (wt : ServerThread.t).
Implicit Types s : ServerState Store.

Definition cache_maps s := (cache_ip_to_keys s, key_to_cache_ips s).

(** C28: the map from caches to keys and the map from keys to caches stay
    inverse to each other: a response that lists the keys of caches returns and
    keeps it, and so does a new list of caches.  An update gives one cache
    exactly the keys it listed and leaves the others, and a cache that is gone
    has no keys. *)
Theorem cache_maps_inverse serialized s :
  caches_agree (cache_maps s) →
  wp (cache_ip_response_handler serialized) s (λ _ s' out, caches_agree (cache_maps s') ∧ out = []) ∧
  preserves (λ s, caches_agree (cache_maps s)) (management_node_response_handler c wt serialized) ∧
  (∀ ip keys ip' key, key ∈ map_get ∅ (update_cache ip keys (cache_maps s)).1 ip' ↔
     if bool_decide (ip' = ip) then key ∈ keys else key ∈ map_get ∅ (cache_ip_to_keys s) ip') ∧
  (∀ deleted ip, ip ∈ deleted → map_get ∅ (drop_caches deleted (cache_maps s)).1 ip = ∅).
Proof.
  intros Hag. split_and!.
  - unfold cache_ip_response_handler. cbv zeta.
    eapply wp_mono; [apply (wp_for_each (λ _ s' out, caches_agree (cache_maps s') ∧ out = []))|]; [done| |done].
    intros _ tuple s' out _ [Hs ->]. case_bool_decide; [|by wp_step]. wp_step. split; [|done].
    destruct (update_cache_agrees (get_key_from_user_metadata (KeyTuple.key tuple))
      (StringSet.keys (parse (LWWValue.value (parse (KeyTuple.payload tuple))))) (cache_maps s') Hs) as [Hu _].
    unfold cache_maps in Hu. by destruct (update_cache _ _ _).
  - unfold management_node_response_handler. preserve_step.
    { apply preserves_modify. intros s1 Hs1. destruct (foldl _ _ _) as [deleted extant].
      destruct (drop_caches_agrees deleted (cache_maps s1) Hs1) as [Hd _].
      unfold cache_maps in Hd. by destruct (drop_caches _ _). }
    preserve_step. preserve_step; [|preserve_steps].
    apply preserves_for_acc. intros m ip _. preserve_step. preserve_step; [preserve_steps; done|].
    destruct a0. preserve_steps; done.
  - intros ip keys. apply update_cache_agrees, Hag.
  - intros deleted. apply drop_caches_agrees, Hag.
Qed.
End cache_handlers.

(** ** Concrete instances *)
Module ExampleHandlers.
#[local] Existing Instance bit_protobuf.
#[local] Existing Instance ExampleRing.toy_hash.
#[local] Existing Instance ExampleServer.still.
#[local] Existing Instance ExampleServer.util.
#[local] Existing Instance memory_serializers.

(** Two requests wait for the key ["k"], whose vector is not known yet. *)
Definition waiting : ServerState MemoryStores :=
  set_pending_requests {["k" := [PendingRequest.mk GET NONE EmptyString "tcp://x:1" "x:1";
                                 PendingRequest.mk PUT LWW (ExampleServer.payload 7 "v") EmptyString EmptyString]]}
    (set_rings (set_key_replication_map ∅ ExampleServer.ring_state) ExampleServer.fresh_server).

Definition dne : KeyTuple.t := KeyTuple.mk "ANNA_METADATA|replication|k" LWW KEY_DNE EmptyString 0 false.
Definition rep_response : KeyResponse.t := KeyResponse.mk GET [dne] EmptyString NO_ERROR.

Lemma parse_rep_response : parse (SerializeToString rep_response) = rep_response.
Proof. apply (@parse_serialize' _ _ _ _ (BitCodec.codec_laws _)). exact I. Qed.


Definition no_caches : ServerState MemoryStores := ExampleServer.fresh_server.

Lemma cache_maps_inverse_witness :
  "a" ∈ map_get ∅ (update_cache "10.0.0.9" ["a"; "b"] (cache_maps no_caches)).1 "10.0.0.9".
Proof.
  destruct (cache_maps_inverse ExampleServer.config ExampleServer.wt EmptyString no_caches) as (_ & _ & Hupd & _).
  - intros ip k. unfold cache_maps, map_get. simpl. rewrite !lookup_empty. simpl. set_solver.
  - apply (Hupd "10.0.0.9" ["a"; "b"] "10.0.0.9" "a"). by left.
Defined.
End ExampleHandlers.
