(* ===== verification/ServerLoop.v ===== *)
(** The life of a server thread: [run] of src/kvs/server.cpp.  It joins the
    cluster, then its event loop dispatches one message per socket and does the
    periodic work: gossip, statistics, redistribution after a join. *)

From S2P Require Import Prelude Text Ordered Lattices ValueLattices Threads Wire WireCodec.
From S2P Require Import Codec Metadata KVStore DiskStore HashRing RingUtil ServerState.
From S2P Require Import UserRequest Replication Handlers.
From Stdlib Require Import Lia SpecFloat.

Definition kServerReportThreshold : Z := 15.
Definition kKeyMonitoringThreshold : Z := 60.
Definition DATA_REDISTRIBUTE_THRESHOLD : nat := 50.
(** Microseconds between two rounds of gossip. *)
Definition PERIOD : Z := 10000000.

(** ** Joining the cluster *)
Section start.
Context `{StdHash} (c : Config).

(** [hash_rings[tier].insert(public_ip, private_ip, join_count, tid);] *)
Definition rings_insert (H : Hasher) (tier : Tier) (public_ip private_ip : Address) (join_count tid : Z)
    (m : gmap Tier HashRing.t) : gmap Tier HashRing.t :=
  <[tier := (HashRing.insert H public_ip private_ip join_count tid (map_get HashRing.empty m tier)).2]> m.

(** The servers the seed node named. *)
Definition populate_rings (membership : ClusterMembership.t) (m : gmap Tier HashRing.t)
    : gmap Tier HashRing.t :=
  foldl (λ m tier,
    foldl (λ m server, rings_insert GlobalHasher (TierMembership.tier_id tier) (Server.public_ip server)
                         (Server.private_ip server) 0 0 m) m (TierMembership.servers tier))
    m (ClusterMembership.tiers membership).

(** One node per thread and tier, on this machine. *)
Definition form_local_rings (public_ip private_ip : Address) (m : gmap Tier HashRing.t)
    : gmap Tier HashRing.t :=
  foldl (λ m p,
    foldl (λ m tid, rings_insert LocalHasher (TierMetadata.id_ p) public_ip private_ip 0 tid m)
      m (seqZ 0 (TierMetadata.thread_number_ p))) m (map_to_list (kTierMetadata c)).*2.
End start.

Section run.
Context {Store : Type} `{SerializerMap Store} `{Protobuf} `{StdHash} `{Random}.
Context `{HashRingUtilInterface} (c : Config) (wt : ServerThread.t).
Notation Srv := (M (ServerState Store)).

(** The locals of [run] before the cluster is known; [access_count] is not
    initialised, so its first value is arbitrary. *)
Definition blank_server (st : Store) (seed0 rand0 access0 : Z) : ServerState Store :=
  mkServerState (mkRingState ∅ ∅ ∅ seed0 rand0) st ∅ ∅ ∅ ∅ access0 ∅ ∅ ∅ ∅ ∅ ∅ 0.

(** Thread 0 tells every server, router and monitor that it has joined. *)
Definition announce_self (count_str : string) (routing_ips monitoring_ips : list Address) : Srv unit :=
  let msg := Tier_Name (kSelfTier c) +:+ ":" +:+ ServerThread.public_ip wt +:+ ":" +:+
             ServerThread.private_ip wt +:+ ":" +:+ count_str in
  s ← get;
  for_each (all_servers (rings s)) (λ st,
    if negb (bool_decide (ServerThread.private_ip st = ServerThread.private_ip wt))
    then send_string msg (ServerThread.node_join_connect_address st) else mret tt) ;;
  let msg := "join:" +:+ msg in
  for_each routing_ips (λ address,
    send_string msg (RoutingThread.notify_connect_address (RoutingThread.new address 0))) ;;
  for_each monitoring_ips (λ address,
    send_string msg (MonitoringThread.notify_connect_address (MonitoringThread.new address))).

(** [serialized_addresses] is the seed node's answer, [count_str] the
    management node's ("0" without one).  Returns [self_join_count]. *)
Definition server_start (serialized_addresses count_str : string)
    (routing_ips monitoring_ips : list Address) : Srv Z :=
  self_join_count ← lift_outcome (stoi count_str);
  on_rings (modify (λ r,
    let g := populate_rings (parse serialized_addresses) (global_hash_rings r) in
    let g := rings_insert GlobalHasher (kSelfTier c) (ServerThread.public_ip wt)
               (ServerThread.private_ip wt) self_join_count 0 g in
    let l := form_local_rings c (ServerThread.public_ip wt) (ServerThread.private_ip wt)
               (local_hash_rings r) in
    set_local_hash_rings l (set_global_hash_rings g r))) ;;
  (if bool_decide (ServerThread.tid wt = 0)
   then announce_self count_str routing_ips monitoring_ips else mret tt) ;;
  mret self_join_count.

(** ** The gossip round *)
Definition gossip_targets (m : AddressKeysetMap) (key : Key) : Srv AddressKeysetMap :=
  '(threads, succeed) ← responsible_threads wt key kAllTiers;
  let m := if succeed : bool
           then gossip_to (filter (λ th, same_thread th wt = false) threads) key m else m in
  s ← get;
  mret (match key_to_cache_ips s !! key with
        | None => m
        | Some cache_ips =>
            foldl (λ m cache_ip,
              keyset_insert (CacheThread.cache_update_connect_address (CacheThread.new cache_ip 0)) key m)
              m (elements cache_ips)
        end).

Definition gossip_round : Srv unit :=
  s ← get;
  if bool_decide (0 < size (local_changeset s))%nat then
    addr_keyset_map ← for_acc (elements (local_changeset s)) ∅ gossip_targets;
    send_gossip addr_keyset_map ;;
    modify (set_local_changeset ∅)
  else mret tt.

(** ** The report *)

(** [if (threads.size() != 0) send to one of them] *)
Definition report_metadata (key : Key) (ts : Z) (value : string) : Srv unit :=
  let req := prepare_put_tuple (KeyRequest.set_type PUT KeyRequest.empty) key LWW (serialize_value ts value) in
  on_rings (
    g ← global_ring_at MEMORY;
    l ← local_ring_at MEMORY;
    threads ← lift_outcome (get_responsible_threads_metadata c key g l);
    if negb (bool_decide (threads = [])) then
      r ← get;
      let '(n, seed') := rand_r (seed r) in
      modify (set_seed seed') ;;
      target ← lift_outcome (pick_thread threads n);
      send_string (SerializeToString req) (ServerThread.key_request_connect_address target)
    else mret tt).

(** [for (key_pair : stored_key_map) consumption += key_pair.second.size_;] *)
Definition storage_consumption (stored : gmap Key KeyProperty) : Z :=
  map_fold (λ _ p acc, u64 (acc + size_ p)) 0 stored.

(** The number of accesses reported for a key: the loop drops the first
    access older than the threshold, with its duplicates, and stops; it works
    on a copy of the list. *)
Definition reported_accesses (current_time : Z) (access_times : list Z) : nat :=
  match list_find (λ time, (current_time - time) `quot` 1000000 >= kKeyMonitoringThreshold) access_times with
  | None => length access_times
  | Some (_, time) => length (filter (λ t, t ≠ time) access_times)
  end.

(** The keys this thread is the primary replica of, with their sizes. *)
Definition primary_key_sizes : Srv (list (Key * Z)) :=
  s ← get;
  for_acc (map_to_list (stored_key_map s)) [] (λ acc '(key, p),
    primary ← on_rings (is_primary_replica c wt key);
    mret (if primary : bool then acc ++ [(key, size_ p)] else acc)).

(** [occupancy] is the share of the period spent in handlers, [stamp_time]
    the wall clock in milliseconds, [current_time] in microseconds. *)
Definition report (management_ip : Address) (epoch : Z) (occupancy : spec_float)
    (stamp_time current_time : Z) : Srv unit :=
  ts ← lift_outcome (Timestamp.generate_timestamp stamp_time (ServerThread.tid wt));
  s ← get;
  let stat := ServerThreadStatistics.mk (storage_consumption (stored_key_map s) `quot` 1000) occupancy
                epoch (access_count s) in
  report_metadata (get_metadata_key_thread wt (kSelfTier c) (ServerThread.tid wt) server_stats) ts
    (SerializeToString stat) ;;
  s ← get;
  let access := KeyAccessData.mk
    (map (λ '(key, times), (key, u32 (Z.of_nat (reported_accesses current_time times))))
         (map_to_list (key_access_tracker s))) in
  report_metadata (get_metadata_key_thread wt (kSelfTier c) (ServerThread.tid wt) key_access) ts
    (SerializeToString access) ;;
  sizes ← primary_key_sizes;
  report_metadata (get_metadata_key_thread wt (kSelfTier c) (ServerThread.tid wt) key_size) ts
    (SerializeToString (KeySizeData.mk sizes)) ;;
  (if negb (bool_decide (management_ip = "NULL"))
   then send_string (ServerThread.management_node_response_connect_address wt)
          (get_func_nodes_req_address management_ip) else mret tt) ;;
  modify (set_access_count 0).

(** ** Redistribution after a join *)

(** The keys of one address in this round: at most
    [DATA_REDISTRIBUTE_THRESHOLD] of them.  The copy [key_set] is what the
    sent keys are erased from. *)
Definition sent_keys (keys : gset Key) : list Key := take DATA_REDISTRIBUTE_THRESHOLD (elements keys).
Definition key_set_after (keys : gset Key) : gset Key := foldl (λ ks k, ks ∖ {[k]}) keys (sent_keys keys).

Definition redistribute_address (acc : AddressKeysetMap * gset Address) (p : Address * gset Key)
    : AddressKeysetMap * gset Address :=
  let '(addr_keyset_map, remove_address_set) := acc in
  let '(address, keys) := p in
  (foldl (λ m key, keyset_insert address key m) addr_keyset_map (sent_keys keys),
   if bool_decide (size (key_set_after keys) = 0%nat) then {[address]} ∪ remove_address_set
   else remove_address_set).

(** [serializers[stored_key_map[key].type_]->remove(key); stored_key_map.erase(key);] *)
Definition drop_key (key : Key) : Srv unit :=
  s ← get;
  let p := map_get (mkKeyProperty 0 NONE) (stored_key_map s) key in
  serializer ← lift_outcome (of_option null_serializer (serializer_at (type_ p)));
  modify (λ s, set_store (ser_remove serializer key (store s)) s) ;;
  modify (λ s, set_stored_key_map (delete key (stored_key_map s)) s).

Definition redistribute : Srv unit :=
  s ← get;
  if negb (bool_decide (size (join_gossip_map s) = 0%nat)) then
    let '(addr_keyset_map, remove_address_set) :=
      foldl redistribute_address (∅, ∅) (map_to_list (join_gossip_map s)) in
    modify (λ s, set_join_gossip_map
      (foldl (λ m a, delete a m) (join_gossip_map s) (elements remove_address_set)) s) ;;
    send_gossip addr_keyset_map ;;
    s ← get;
    if bool_decide (size (join_gossip_map s) = 0%nat) then
      for_each (elements (join_remove_set s)) drop_key ;;
      modify (set_join_remove_set ∅)
    else mret tt
  else mret tt.

(** ** The event loop *)
Record LoopState := mkLoop {
  srv : ServerState Store;
  working_time : Z;
  epoch : Z;
  gossip_start : Z;
  report_start : Z;
}.
Definition set_srv x l := mkLoop x (working_time l) (epoch l) (gossip_start l) (report_start l).

(** What one iteration meets: the message waiting on each socket, the time
    each event took, and the readings of the clock (microseconds;
    milliseconds for [stamp_time]). *)
Record Tick := mkTick {
  message : nat → option string;
  elapsed : nat → Z;
  now : Z;
  gossip_end : Z;
  gossip_restart : Z;
  report_end : Z;
  report_restart : Z;
  stamp_time : Z;
}.

Definition add_working_time (us : Z) : M LoopState unit :=
  modify (λ l, mkLoop (srv l) (u64 (working_time l + us)) (epoch l) (gossip_start l) (report_start l)).

(** [if (pollitems[i].revents & ZMQ_POLLIN) { recv; handler; }] *)
Definition dispatch (t : Tick) (i : nat) (handler : string → Srv unit) : M LoopState unit :=
  match message t i with
  | None => mret tt
  | Some serialized => zoom srv set_srv (handler serialized) ;; add_working_time (elapsed t i)
  end.

Definition gossip_event (t : Tick) : M LoopState unit :=
  l ← get;
  if bool_decide (gossip_end t - gossip_start l >= PERIOD) then
    zoom srv set_srv gossip_round ;;
    modify (λ l, mkLoop (srv l) (working_time l) (epoch l) (gossip_restart t) (report_start l)) ;;
    add_working_time (elapsed t 9)
  else mret tt.

(** [(double)working_time / ((double)duration * 1000000)] *)
Definition occupancy_of (working_time duration : Z) : spec_float :=
  SFdiv 53 1024 (PriorityLattice.double_of_int working_time)
    (SFmul 53 1024 (PriorityLattice.double_of_int duration) (PriorityLattice.double_of_int 1000000)).

Definition report_event (management_ip : Address) (t : Tick) : M LoopState unit :=
  l ← get;
  let duration := (report_end t - report_start l) `quot` 1000000 in
  if bool_decide (duration >= kServerReportThreshold) then
    let epoch' := u32 (epoch l + 1) in
    zoom srv set_srv (report management_ip epoch' (occupancy_of (working_time l) duration)
                        (stamp_time t) (now t)) ;;
    modify (λ l, mkLoop (srv l) 0 epoch' (gossip_start l) (report_restart t))
  else mret tt.

(** One turn of the loop; [false] when the thread has departed. *)
Definition loop_iteration (self_join_count : Z) (routing_ips monitoring_ips : list Address)
    (management_ip : Address) (t : Tick) : M LoopState bool :=
  dispatch t 0 (node_join_handler c wt self_join_count) ;;
  dispatch t 1 (node_depart_handler c wt) ;;
  match message t 2 with
  | Some serialized =>
      zoom srv set_srv (self_depart_handler c wt routing_ips monitoring_ips serialized) ;;
      mret false
  | None =>
      dispatch t 3 (user_request_handler c wt (now t)) ;;
      dispatch t 4 (gossip_handler c wt) ;;
      dispatch t 5 (replication_response_handler c wt (now t)) ;;
      dispatch t 6 (replication_change_handler c wt) ;;
      dispatch t 7 cache_ip_response_handler ;;
      dispatch t 8 (management_node_response_handler c wt) ;;
      gossip_event t ;;
      report_event management_ip t ;;
      zoom srv set_srv redistribute ;;
      mret true
  end.
End run.
Arguments mkLoop {Store} _ _ _ _ _.
Arguments srv {Store} _.
Arguments set_srv {Store} _ _.

(** ** The invariant holds from the start, whatever the messages *)
Section reachable.
Context {Store : Type} `{SerializerMapLaws Store} `{Protobuf} `{StdHash} `{Random}.
Context `{HashRingUtilInterface} (c : Config) (wt : ServerThread.t).
Notation ok := (server_ok (Store:=Store) false).
Notation loop_ok := (λ l : LoopState, ok (srv l)).

Lemma gossip_round_ok : preserves ok (gossip_round wt).
Proof.
  unfold gossip_round. preserve_step. destruct (bool_decide _); [|preserve_steps].
  apply preserves_bind.
  - apply preserves_for_acc. intros m key _. unfold gossip_targets.
    apply preserves_bind; [apply responsible_threads_ok|]. intros []. preserve_steps.
  - intros m. apply preserves_bind; [apply send_gossip_ok|]. intros _.
    apply preserves_modify. by intros s1 [Ht _].
Qed.

Lemma report_ok management_ip epoch occupancy stamp_time current_time :
  preserves ok (report c wt management_ip epoch occupancy stamp_time current_time).
Proof.
  unfold report, report_metadata, primary_key_sizes.
  repeat (preserve_step; try done).
Qed.

Lemma redistribute_ok : preserves ok redistribute.
Proof.
  unfold redistribute. preserve_step. destruct (negb _); [|preserve_steps].
  destruct (foldl _ _ _). preserve_step; [preserve_steps; done|].
  preserve_step; [apply send_gossip_ok|]. preserve_step. destruct (bool_decide _); [|preserve_steps].
  preserve_step; [|preserve_steps; done]. apply preserves_for_each. intros key _.
  unfold drop_key. preserve_step. preserve_step; [preserve_steps|].
  preserve_step; [preserve_steps; done|]. apply preserves_modify.
  intros s2 [Ht _]. split; [|done]. by apply map_Forall_delete.
Qed.

(** A handler of the thread, in the loop. *)
Lemma preserves_srv {A} (m : M (ServerState Store) A) :
  preserves ok m → preserves loop_ok (zoom srv set_srv m).
Proof.
  intros Hm l a l' out Heq Hl. unfold zoom in Heq.
  destruct (m (srv l)) as [[[a' s'] out']|] eqn:Hms; [|done]. injection Heq as _ <- _.
  by eapply Hm.
Qed.

Lemma dispatch_ok t i handler :
  (∀ serialized, preserves ok (handler serialized)) → preserves loop_ok (dispatch t i handler).
Proof.
  intros Hh. unfold dispatch. destruct (message t i); [|preserve_steps].
  apply preserves_bind; [by apply preserves_srv|]. intros _. unfold add_working_time. preserve_steps. done.
Qed.

Lemma loop_iteration_ok jc routing_ips monitoring_ips management_ip t :
  preserves loop_ok (loop_iteration c wt jc routing_ips monitoring_ips management_ip t).
Proof.
  unfold loop_iteration.
  apply preserves_bind; [apply dispatch_ok; intros; apply node_join_handler_ok|intros _].
  apply preserves_bind; [apply dispatch_ok; intros; apply node_depart_handler_ok|intros _].
  destruct (message t 2).
  { apply preserves_bind; [apply preserves_srv, self_depart_handler_ok|intros; preserve_steps]. }
  apply preserves_bind; [apply dispatch_ok; intros; apply user_request_handler_ok|intros _].
  apply preserves_bind; [apply dispatch_ok; intros; apply gossip_handler_ok|intros _].
  apply preserves_bind; [apply dispatch_ok; intros; apply replication_response_handler_ok|intros _].
  apply preserves_bind; [apply dispatch_ok; intros; apply replication_change_handler_ok|intros _].
  apply preserves_bind; [apply dispatch_ok; intros; apply cache_ip_response_handler_ok|intros _].
  apply preserves_bind; [apply dispatch_ok; intros; apply management_node_response_handler_ok|intros _].
  apply preserves_bind.
  { unfold gossip_event, add_working_time. preserve_step. destruct (bool_decide _); [|preserve_steps].
    apply preserves_bind; [apply preserves_srv, gossip_round_ok|intros _]. preserve_steps; done. }
  intros _. apply preserves_bind.
  { unfold report_event. preserve_step. destruct (bool_decide _); [|preserve_steps].
    apply preserves_bind; [apply preserves_srv, report_ok|intros _]. preserve_steps; done. }
  intros _. apply preserves_bind; [apply preserves_srv, redistribute_ok|intros; preserve_steps].
Qed.

(** The states of a thread: it starts, and every turn of its loop may find
    any messages and any clock readings. *)
Inductive reachable (routing_ips monitoring_ips : list Address) (management_ip : Address) (jc : Z)
    : LoopState (Store:=Store) → Prop :=
  | reachable_start st seed0 rand0 access0 addresses count_str s out t0 t1 :
      server_start c wt addresses count_str routing_ips monitoring_ips
        (blank_server st seed0 rand0 access0) = Ok (jc, s, out) →
      reachable routing_ips monitoring_ips management_ip jc (mkLoop s 0 0 t0 t1)
  | reachable_turn l t b l' out :
      reachable routing_ips monitoring_ips management_ip jc l →
      loop_iteration c wt jc routing_ips monitoring_ips management_ip t l = Ok (b, l', out) →
      reachable routing_ips monitoring_ips management_ip jc l'.

(** C14: in every reachable state of a server thread, each stored key has a
    lattice type with a serializer, so no handler that reads a stored key
    calls through a null serializer. *)
Theorem reachable_stored_types routing_ips monitoring_ips management_ip jc l key p :
  reachable routing_ips monitoring_ips management_ip jc l →
  stored_key_map (srv l) !! key = Some p →
  type_ p ≠ NONE ∧ ∃ ser, serializer_at (type_ p) = Some ser.
Proof.
  intros Hr Hp. assert (ok (srv l)) as [Ht _].
  { clear Hp. induction Hr as [st seed0 rand0 access0 addresses count_str s out t0 t1 Heq|l t b l' out Hr IH Heq].
    - assert (preserves ok (server_start c wt addresses count_str routing_ips monitoring_ips)) as Hpres.
      { unfold server_start, announce_self. repeat (preserve_step; try done). }
      eapply Hpres; [done|]. split; [apply map_Forall_empty|done].
    - by eapply loop_iteration_ok. }
  specialize (Ht key p Hp). split; [done|]. by apply serializer_at_type in Ht.
Qed.
End reachable.

(** ** Sending gossip returns, and touches only the store *)
Section send_gossip.
Context {Store : Type} `{SerializerMapLaws Store} `{Protobuf} `{StdHash} `{Random}.
Context `{HashRingUtilInterface} (c : Config) (wt : ServerThread.t).
Implicit Types s : ServerState Store.

Definition typed_keys s : Prop := map_Forall (λ _ p, type_ p ≠ NONE) (stored_key_map s).

(** [s'] is [s] but for the store. *)
Definition only_store s s' : Prop := ∃ st, s' = set_store st s.

Lemma only_store_refl s : only_store s s.
Proof. exists (store s). by destruct s. Qed.
Lemma only_store_trans s1 s2 s3 : only_store s1 s2 → only_store s2 s3 → only_store s1 s3.
Proof. intros [st1 ->] [st2 ->]. by exists st2. Qed.
Lemma only_store_typed s s' : only_store s s' → typed_keys s → typed_keys s'.
Proof. by intros [st ->]. Qed.

Lemma wp_gossip_request req key s :
  typed_keys s →
  wp (gossip_request req key) s (λ req' s' out,
    only_store s s' ∧ KeyRequest.type req' = KeyRequest.type req ∧ out = []).
Proof.
  intros Ht. unfold gossip_request. wp_step. wp_step.
  destruct (stored_key_map s !! key) as [p|] eqn:Hp.
  2:{ wp_step. split; [apply only_store_refl|done]. }
  destruct (proj2 (serializer_at_type (type_ p)) (Ht key p Hp)) as [ser Hser].
  wp_step. eexists _, _, []. split; [by apply process_get_eq|].
  destruct (ser_get ser key NO_ERROR (store s)) as [[res err] st]. simpl.
  destruct (bool_decide _); wp_step; (split; [by exists st|done]).
Qed.

(** One PUT request per address. *)
Lemma wp_send_gossip m s :
  typed_keys s →
  wp (send_gossip m) s (λ _ s' out,
    only_store s s' ∧ map msg_to out ≡ₚ elements (dom m)).
Proof.
  intros Ht. unfold send_gossip. wp_step. eapply wp_mono.
  - apply (wp_for_acc (λ xs (gm : gmap Address KeyRequest.t) s' out,
      dom gm = list_to_set xs.*1 ∧ only_store s s' ∧ out = [])).
    + split_and!; [done|apply only_store_refl|done].
    + intros xs [address keys] gm s' out _ (Hdom & Hs & ->). wp_step. eapply wp_mono.
      * apply (wp_for_acc (λ _ _ s'' out, only_store s s'' ∧ out = [])); [done|].
        intros ys key req s'' out _ [Hs'' ->].
        eapply wp_mono; [apply wp_gossip_request; by eapply only_store_typed|].
        intros req' s3 out' (Hs3 & _ & ->). split; [by eapply only_store_trans|done].
      * intros req s'' out [Hs'' ->]. wp_step. split_and!; try done.
        rewrite dom_insert_L, Hdom, fmap_app, list_to_set_app_L. simpl. set_solver.
  - intros gm s' out (Hdom & Hs & ->). eapply wp_mono.
    + apply (wp_for_each (λ xs s'' out, s'' = s' ∧ map msg_to out = xs.*1)); [done|].
      intros xs [address req] s'' out _ [-> Hout]. wp_step. split; [done|].
      by rewrite map_app, Hout, fmap_app.
    + intros [] s'' out [-> Hout]. split; [done|]. simpl. rewrite Hout.
      apply NoDup_Permutation; [apply NoDup_fst_map_to_list|apply NoDup_elements|].
      intros a. rewrite elem_of_elements.
      transitivity (a ∈ dom gm).
      * rewrite elem_of_dom, list_elem_of_fmap. split.
        -- intros ([a' req] & -> & Hin%elem_of_map_to_list). by eexists.
        -- intros [req Hreq]. exists (a, req). split; [done|]. by apply elem_of_map_to_list.
      * rewrite Hdom, elem_of_list_to_set, elem_of_dom, list_elem_of_fmap. split.
        -- intros ([a' ks] & -> & Hin%elem_of_map_to_list). by eexists.
        -- intros [ks Hks]. exists (a, ks). split; [done|]. by apply elem_of_map_to_list.
Qed.
End send_gossip.

(** ** Redistribution *)
Lemma key_set_after_spec (keys : gset Key) :
  size (key_set_after keys) = 0%nat ↔ (size keys ≤ DATA_REDISTRIBUTE_THRESHOLD)%nat.
Proof.
  assert (∀ (l : list Key) (X : gset Key), foldl (λ ks k, ks ∖ {[k]}) X l = X ∖ list_to_set l) as Hfold.
  { induction l as [|k l IH]; intros X; simpl; [set_solver|]. rewrite IH. set_solver. }
  unfold key_set_after, sent_keys. rewrite Hfold, size_empty_iff, leibniz_equiv_iff.
  change (size keys) with (length (elements keys)). split.
  - intros Hempty. destruct (decide (length (elements keys) ≤ DATA_REDISTRIBUTE_THRESHOLD)%nat); [done|].
    assert (keys ⊆ list_to_set (take DATA_REDISTRIBUTE_THRESHOLD (elements keys))) as Hsub by set_solver.
    apply subseteq_size in Hsub. rewrite size_list_to_set in Hsub.
    + rewrite length_take in Hsub. change (size keys) with (length (elements keys)) in Hsub. lia.
    + eapply sublist_NoDup; [apply (NoDup_elements keys)|apply sublist_take].
  - intros Hle. rewrite take_ge by done. rewrite list_to_set_elements_L. set_solver.
Qed.

Lemma redistribute_removes (l : list (Address * gset Key)) acc a :
  a ∈ (foldl redistribute_address acc l).2 ↔
  a ∈ acc.2 ∨ ∃ keys, (a, keys) ∈ l ∧ (size keys ≤ DATA_REDISTRIBUTE_THRESHOLD)%nat.
Proof.
  revert acc. induction l as [|[b ks] l IH]; intros [m r]; simpl.
  { split; [by left|]. intros [?|(? & ?%elem_of_nil & _)]; done. }
  rewrite IH. simpl. setoid_rewrite elem_of_cons. case_bool_decide as Hb; rewrite key_set_after_spec in Hb.
  - rewrite elem_of_union, elem_of_singleton. naive_solver.
  - naive_solver.
Qed.

Section redistribution.
Context {Store : Type} `{SerializerMapLaws Store} `{Protobuf} `{StdHash} `{Random}.
Implicit Types s : ServerState Store.

(** The part of [redistribute] up to the removal of keys, from what is known
    of the messages sent. *)
Lemma wp_redistribute (P : list Msg → Prop) s (Q : unit → ServerState Store → list Msg → Prop) :
  join_gossip_map s ≠ ∅ →
  let '(addr_keyset_map, remove_address_set) :=
    foldl redistribute_address (∅, ∅) (map_to_list (join_gossip_map s)) in
  let jg := foldl (λ m a, delete a m) (join_gossip_map s) (elements remove_address_set) in
  let s0 := set_join_gossip_map jg s in
  wp (send_gossip addr_keyset_map) s0 (λ _ s1 out, only_store s0 s1 ∧ P out) →
  (∀ s1 out, only_store s0 s1 → P out →
    wp (if bool_decide (size jg = 0%nat) then
          for_each (elements (join_remove_set s)) drop_key ;; modify (set_join_remove_set ∅)
        else mret tt) s1 (λ a s2 out2, Q a s2 (out ++ out2))) →
  wp redistribute s Q.
Proof.
  intros Hne. destruct (foldl _ _ _) as [akm ras] eqn:Hfold. intros jg s0 Hsend HQ.
  unfold redistribute. wp_step. wp_step.
  rewrite bool_decide_eq_false_2 by (by rewrite map_size_empty_iff). simpl. rewrite Hfold.
  wp_step. wp_step. wp_step. eapply wp_mono; [exact Hsend|].
  intros [] s1 out1 [Hs1 Hout]. wp_step. wp_step.
  assert (join_gossip_map s1 = jg ∧ join_remove_set s1 = join_remove_set s) as [-> ->].
  { by destruct Hs1 as [st ->]. }
  by apply HQ.
Qed.

(** Dropping stored keys. *)
Lemma wp_drop_keys keys s :
  typed_keys s → NoDup keys → (∀ k, k ∈ keys → is_Some (stored_key_map s !! k)) →
  wp (for_each keys drop_key) s (λ _ s' out,
    stored_key_map s' = foldl (λ m k, delete k m) (stored_key_map s) keys ∧
    join_gossip_map s' = join_gossip_map s ∧ out = []).
Proof.
  revert s. induction keys as [|k keys IH]; intros s Ht Hnd Hall; simpl; [by wp_step|].
  apply NoDup_cons in Hnd as [Hk Hnd]. destruct (Hall k) as [p Hp]; [by left|].
  destruct (proj2 (serializer_at_type (type_ p)) (Ht k p Hp)) as [ser Hser].
  wp_step. unfold drop_key. wp_step. wp_step.
  assert (map_get (mkKeyProperty 0 NONE) (stored_key_map s) k = p) as ->
    by (unfold map_get; by rewrite Hp).
  wp_step. eapply wp_lift_outcome; [by rewrite Hser|]. wp_steps.
  eapply wp_mono; [apply IH; [by apply map_Forall_delete|done|]|].
  - intros k' Hk'. simpl. rewrite lookup_delete_ne by (by intros ->). apply Hall. by right.
  - intros [] s' out (-> & -> & ->). done.
Qed.

Lemma redistribute_sends (l : list (Address * gset Key)) acc a k :
  k ∈ map_get ∅ (foldl redistribute_address acc l).1 a ↔
  k ∈ map_get ∅ acc.1 a ∨ ∃ keys, (a, keys) ∈ l ∧ k ∈ sent_keys keys.
Proof.
  revert acc. induction l as [|[b ks] l IH]; intros [m r]; simpl.
  { split; [by left|]. intros [?|(? & ?%elem_of_nil & _)]; done. }
  rewrite IH. simpl. setoid_rewrite elem_of_cons.
  assert (k ∈ map_get ∅ (foldl (λ m key, keyset_insert b key m) m (sent_keys ks)) a ↔
          k ∈ map_get ∅ m a ∨ a = b ∧ k ∈ sent_keys ks) as ->; [|naive_solver].
  clear IH. generalize (sent_keys ks) as keys. intros keys. revert m.
  induction keys as [|k' keys IH]; intros m; simpl; [set_solver|]. rewrite IH, elem_of_cons.
  unfold keyset_insert, map_get. destruct (decide (a = b)) as [-> |Hne].
  - rewrite lookup_insert_eq. simpl. set_solver.
  - rewrite lookup_insert_ne by done. naive_solver.
Qed.

(** A round that empties the work list: every key waiting for an address is
    sent to it. *)
Lemma wp_redistribute_all (P : list Msg → Prop) s :
  typed_keys s → join_gossip_map s ≠ ∅ →
  map_Forall (λ _ keys, (size keys ≤ DATA_REDISTRIBUTE_THRESHOLD)%nat) (join_gossip_map s) →
  (∀ k, k ∈ join_remove_set s → is_Some (stored_key_map s !! k)) →
  (∀ m s0, (∀ a k, k ∈ map_get ∅ m a ↔ k ∈ map_get ∅ (join_gossip_map s) a) →
    store s0 = store s → stored_key_map s0 = stored_key_map s →
    wp (send_gossip m) s0 (λ _ s1 out, only_store s0 s1 ∧ P out)) →
  wp redistribute s (λ _ s' out,
    join_gossip_map s' = ∅ ∧ join_remove_set s' = ∅ ∧
    (∀ k, stored_key_map s' !! k = if decide (k ∈ join_remove_set s) then None else stored_key_map s !! k) ∧
    P out).
Proof.
  intros Ht Hne Hall Hrem Hsend. pose proof (wp_redistribute P s) as Hwp.
  pose proof (redistribute_removes (map_to_list (join_gossip_map s)) (∅, ∅)) as Hras.
  pose proof (redistribute_sends (map_to_list (join_gossip_map s)) (∅, ∅)) as Hsends.
  destruct (foldl redistribute_address (∅, ∅) (map_to_list (join_gossip_map s))) as [akm ras]. simpl in Hsends.
  apply Hwp; [done| |]; clear Hwp.
  { apply Hsend; [|done..]. intros a k. rewrite Hsends. unfold map_get. rewrite lookup_empty. simpl.
    destruct (join_gossip_map s !! a) as [keys|] eqn:Ha.
    - simpl. assert (sent_keys keys = elements keys) as Hk.
      { unfold sent_keys. apply take_ge. change (size keys ≤ DATA_REDISTRIBUTE_THRESHOLD)%nat. by apply (Hall a). }
      rewrite <-(elem_of_elements keys k), <-Hk. split.
      + intros [?%not_elem_of_empty|(keys' & Hin%elem_of_map_to_list & Hk')]; [done|]. by simplify_eq.
      + intros Hin. right. exists keys. split; [by apply elem_of_map_to_list|done].
    - simpl. split; [|by intros ?%not_elem_of_empty].
      intros [?%not_elem_of_empty|(keys' & Hin%elem_of_map_to_list & _)]; [done|]. by simplify_eq. }
  intros s1 out [st ->] HP.
  assert (foldl (λ m a, delete a m) (join_gossip_map s) (elements ras) = ∅) as ->.
  { apply map_eq. intros a. rewrite foldl_delete_lookup, lookup_empty. case_decide as Ha; [done|].
    destruct (join_gossip_map s !! a) as [keys|] eqn:Hk; [|done]. destruct Ha.
    apply elem_of_elements, Hras. right. exists keys. split; [by apply elem_of_map_to_list|].
    by apply (Hall a). }
  rewrite bool_decide_eq_true_2 by apply map_size_empty.
  wp_step. eapply wp_mono.
  - apply wp_drop_keys; [done|apply NoDup_elements|]. intros k Hk%elem_of_elements. by apply Hrem.
  - intros [] s' out' (Hst & Hjg & ->). wp_step. rewrite !app_nil_r. split_and!; [done|done| |done].
    intros k. simpl. rewrite Hst, foldl_delete_lookup. simpl.
    repeat case_decide; try done; exfalso; set_solver.
Qed.

(** When no address has more than [DATA_REDISTRIBUTE_THRESHOLD] keys waiting,
    one round of redistribution empties the work list and drops the keys this
    thread lost. *)
Lemma redistribute_drains s :
  typed_keys s → join_gossip_map s ≠ ∅ →
  map_Forall (λ _ keys, (size keys ≤ DATA_REDISTRIBUTE_THRESHOLD)%nat) (join_gossip_map s) →
  (∀ k, k ∈ join_remove_set s → is_Some (stored_key_map s !! k)) →
  wp redistribute s (λ _ s' _,
    join_gossip_map s' = ∅ ∧ join_remove_set s' = ∅ ∧
    ∀ k, stored_key_map s' !! k = if decide (k ∈ join_remove_set s) then None else stored_key_map s !! k).
Proof.
  intros Ht Hne Hall Hrem. eapply wp_mono; [apply (wp_redistribute_all (λ _, True)); try done|naive_solver].
  intros m s0 _ _ Hst. eapply wp_mono; [apply wp_send_gossip; unfold typed_keys; by rewrite Hst|]. naive_solver.
Qed.

(** C35: an address with more than [DATA_REDISTRIBUTE_THRESHOLD] keys waiting
    is never finished: the sent keys are erased from a copy, so the round
    leaves its work list unchanged, and no lost key is ever dropped. *)
Theorem redistribute_stuck s a keys :
  typed_keys s → join_gossip_map s !! a = Some keys →
  (DATA_REDISTRIBUTE_THRESHOLD < size keys)%nat →
  wp redistribute s (λ _ s' _,
    join_gossip_map s' !! a = Some keys ∧ join_remove_set s' = join_remove_set s ∧
    stored_key_map s' = stored_key_map s).
Proof.
  intros Ht Ha Hsize. pose proof (wp_redistribute (λ _, True) s) as Hwp.
  pose proof (redistribute_removes (map_to_list (join_gossip_map s)) (∅, ∅) a) as Hras.
  destruct (foldl redistribute_address (∅, ∅) (map_to_list (join_gossip_map s))) as [akm ras].
  apply Hwp; [intros Hempty; by rewrite Hempty in Ha| |]; clear Hwp.
  { eapply wp_mono; [by apply wp_send_gossip|]. naive_solver. }
  intros s1 out [st ->] _.
  assert (foldl (λ m a, delete a m) (join_gossip_map s) (elements ras) !! a = Some keys) as Hjg.
  { rewrite foldl_delete_lookup, decide_False; [done|]. rewrite elem_of_elements, Hras.
    intros [?|(keys' & Hin%elem_of_map_to_list & Hle)]; [set_solver|].
    rewrite Ha in Hin. injection Hin as <-. lia. }
  rewrite bool_decide_eq_false_2.
  - by wp_step.
  - rewrite map_size_empty_iff. intros Hempty. by rewrite Hempty in Hjg.
Qed.
End redistribution.

(** ** Whom a gossip round reaches *)
Lemma dom_gossip_to threads key m a :
  a ∈ dom (gossip_to threads key m) ↔
  a ∈ dom m ∨ ∃ th, th ∈ threads ∧ a = ServerThread.gossip_connect_address th.
Proof.
  unfold gossip_to. revert m. induction threads as [|th threads IH]; intros m; simpl.
  { split; [by left|]. intros [?|(? & ?%elem_of_nil & _)]; done. }
  rewrite IH. unfold keyset_insert. rewrite dom_insert_L. setoid_rewrite elem_of_cons. set_solver.
Qed.

Definition cache_address (cache_ip : Address) : Address :=
  CacheThread.cache_update_connect_address (CacheThread.new cache_ip 0).

Lemma dom_cache_targets ips key m a :
  a ∈ dom (foldl (λ m cache_ip, keyset_insert (cache_address cache_ip) key m) m ips) ↔
  a ∈ dom m ∨ ∃ ip, ip ∈ ips ∧ a = cache_address ip.
Proof.
  revert m. induction ips as [|ip ips IH]; intros m; simpl.
  { split; [by left|]. intros [?|(? & ?%elem_of_nil & _)]; done. }
  rewrite IH. unfold keyset_insert. rewrite dom_insert_L. setoid_rewrite elem_of_cons. set_solver.
Qed.

Section gossip_round.
Context {Store : Type} `{SerializerMapLaws Store} `{Protobuf} `{StdHash} `{Random}.
Context `{HashRingUtilInterface} (wt : ServerThread.t) (R : RingState → Prop).
Implicit Types s : ServerState Store.

(** As long as [R] holds, [threads] are the replicas of [key] in all tiers. *)
Definition replicas (key : Key) (threads : list ServerThread.t) : Prop :=
  ∃ md, is_metadata key = Ok md ∧
    ∀ r, R r →
      wp (get_responsible_threads (ServerThread.replication_response_connect_address wt) key md kAllTiers) r
         (λ res r' out, res = (threads, true) ∧ R r' ∧ out = []).

Lemma wp_replicas key threads s (Q : list ServerThread.t * bool → ServerState Store → list Msg → Prop) :
  replicas key threads → R (rings s) → (∀ r', R r' → Q (threads, true) (set_rings r' s) []) →
  wp (responsible_threads wt key kAllTiers) s Q.
Proof.
  intros (md & Hmd & Hresp) Hr HQ. unfold responsible_threads. wp_step. eapply wp_lift_outcome; [done|].
  apply wp_zoom. eapply wp_mono; [by apply Hresp|]. intros res r' out (-> & Hr' & ->). by apply HQ.
Qed.

(** The addresses a changed key is gossiped to. *)
Definition gossip_target s (threads : list ServerThread.t) (key : Key) (a : Address) : Prop :=
  (∃ th, th ∈ threads ∧ ¬ th ≡ wt ∧ a = ServerThread.gossip_connect_address th) ∨
  (∃ ips ip, key_to_cache_ips s !! key = Some ips ∧ ip ∈ ips ∧ a = cache_address ip).

Lemma wp_gossip_targets m key threads s :
  replicas key threads → R (rings s) →
  wp (gossip_targets wt m key) s (λ m' s' out,
    (∃ r', s' = set_rings r' s ∧ R r') ∧ out = [] ∧
    ∀ a, a ∈ dom m' ↔ a ∈ dom m ∨ gossip_target s threads key a).
Proof.
  intros Hrep Hr. unfold gossip_targets. wp_step. apply (wp_replicas key threads); [done..|]. intros r' Hr'.
  wp_steps. split; [by exists r'|]. split; [done|].
  intros a. unfold gossip_target. cbn [key_to_cache_ips set_rings].
  assert (a ∈ dom (gossip_to (filter (λ th, same_thread th wt = false) threads) key m) ↔
    a ∈ dom m ∨ ∃ th, th ∈ threads ∧ ¬ th ≡ wt ∧ a = ServerThread.gossip_connect_address th) as Hths.
  { rewrite dom_gossip_to. setoid_rewrite list_elem_of_filter. unfold same_thread.
    setoid_rewrite bool_decide_eq_false. naive_solver. }
  destruct (key_to_cache_ips s !! key) as [ips|].
  - rewrite (dom_cache_targets (elements ips)), Hths. setoid_rewrite elem_of_elements. naive_solver.
  - rewrite Hths. naive_solver.
Qed.

End gossip_round.

(** ** A thread in a cluster of two, for concrete instances of the theorems *)
Module ExampleLoop.
#[local] Existing Instance bit_protobuf.
#[local] Existing Instance ExampleRing.toy_hash.
#[local] Existing Instance memory_serializers.
#[local] Existing Instance ExampleServer.still.

(** Every key has the same two replicas. *)
Definition two : list ServerThread.t := [ExampleRing.st_a; ExampleRing.st_b].
#[local] Instance both : HashRingUtilInterface :=
  {| get_responsible_threads := λ _ _ _ _ r, Ok (two, true, r, []) |}.
Definition R (_ : RingState) : Prop := True.

(** The second thread of node "a". *)
Definition wt : ServerThread.t := ServerThread.mk "A" "a" 1 0.
Definition wt0 : ServerThread.t := ExampleRing.st_a.
Definition config : Config := ExampleServer.config.

Lemma owns_any key : key ≠ EmptyString → owns config wt0 R key.
Proof.
  intros Hk. destruct (is_metadata_total key Hk) as [md Hmd]. exists md, two.
  split; [done|]. split; [done|]. intros r _. by eexists _, _, _.
Qed.

Lemma replicas_any key : key ≠ EmptyString → replicas wt0 R key two.
Proof.
  intros Hk. destruct (is_metadata_total key Hk) as [md Hmd]. exists md.
  split; [done|]. intros r _. by eexists _, _, _.
Qed.

Definition stored : gmap Key KeyProperty := {["k" := mkKeyProperty 9 LWW]}.
Definition server (changed : gset Key) (jr : gset Key) (jg : AddressKeysetMap) : ServerState MemoryStores :=
  mkServerState (mkRingState ∅ ∅ ∅ 0 0) ExampleServer.no_stores stored ∅ ∅ ∅ 0 changed jr jg ∅ ∅ ∅ 0.

Lemma server_typed changed jr jg : typed_keys (server changed jr jg).
Proof.
  intros k p Hp. change (stored !! k = Some p) in Hp. unfold stored in Hp.
  apply lookup_singleton_Some in Hp as [_ <-]. discriminate.
Qed.

Lemma redistribute_drains_witness :
  let s := server ∅ {["k"]} {["tcp://b:6250" := {["k"]}]} in
  wp redistribute s (λ _ s' _,
    join_gossip_map s' = ∅ ∧ join_remove_set s' = ∅ ∧
    ∀ k, stored_key_map s' !! k = if decide (k ∈ join_remove_set s) then None else stored_key_map s !! k).
Proof.
  intros s. apply (@redistribute_drains MemoryStores _ memory_serializers_laws _ s).
  - apply server_typed.
  - intros Heq. change (({["tcp://b:6250" := {["k"]}]} : AddressKeysetMap) = ∅) in Heq.
    by apply map_non_empty_singleton in Heq.
  - apply map_Forall_singleton. vm_compute. lia.
  - intros k Hk. change (k ∈ ({["k"]} : gset Key)) in Hk. apply elem_of_singleton in Hk. subst k. exists (mkKeyProperty 9 LWW). reflexivity.
Defined.

Definition many : gset Key := list_to_set (to_string <$> seqZ 0 51).

Lemma redistribute_stuck_witness :
  let s := server ∅ {["k"]} {["tcp://b:6250" := many]} in
  wp redistribute s (λ _ s' _,
    join_gossip_map s' !! "tcp://b:6250" = Some many ∧ join_remove_set s' = join_remove_set s ∧
    stored_key_map s' = stored_key_map s).
Proof.
  intros s. apply (@redistribute_stuck MemoryStores _ memory_serializers_laws _ s "tcp://b:6250" many).
  - apply server_typed.
  - reflexivity.
  - vm_compute. lia.
Defined.


(** A thread that is the only replica starts, and a PUT arrives. *)
Definition mine : HashRingUtilInterface :=
  {| get_responsible_threads := λ _ _ _ _ r, Ok ([wt], true, r, []) |}.
Definition put_k : string :=
  SerializeToString (ExampleServer.request PUT LWW (ExampleServer.payload 7 "v")).
Definition tick : Tick :=
  mkTick (λ i, if bool_decide (i = 3%nat) then Some put_k else None) (λ _, 1) 0 0 0 0 0 0.
Abbreviation first_turn := (@loop_iteration MemoryStores _ _ _ _ mine config wt 0 [] [] "NULL" tick).

Lemma wp_dispatch_none t i h (l : LoopState (Store:=MemoryStores)) (Q : unit → _ → list Msg → Prop) :
  message t i = None → Q tt l [] → wp (dispatch t i h) l Q.
Proof. intros Hm HQ. unfold dispatch. rewrite Hm. by wp_step. Qed.

Lemma wp_first_turn s :
  stored_key_map s = ∅ → lww_kvs (store s) = ∅ → join_gossip_map s = ∅ →
  wp first_turn (mkLoop s 0 0 0 0) (λ _ l _, is_Some (stored_key_map (srv l) !! "k")).
Proof.
  intros Hst Hkvs Hjg. unfold loop_iteration.
  do 2 (apply wp_bind, wp_dispatch_none; [done|]).
  change (message tick 2) with (@None string). cbv iota.
  wp_step. unfold dispatch at 1. change (message tick 3) with (Some put_k). cbv iota.
  wp_step. apply wp_zoom. eapply wp_mono.
  - eapply (@wp_user_put MemoryStores _ memory_serializers_laws _ _ _ mine config wt R _ _ LWW
      ExampleServer.lww_ser ExampleServer.lww_inv ExampleServer.lww_view deserialize_lww _
      ExampleServer.lww_ser_laws eq_refl (now tick) put_k
      (KeyTuple.mk "k" LWW NO_ERROR (ExampleServer.payload 7 "v") 0 false)).
    + apply ExampleServer.parse_request.
    + done.
    + exists false, [wt]. split; [done|]. split; [done|]. intros r _. by eexists _, _, _.
    + split; [exact I|]. unfold ExampleServer.lww_inv. simpl. rewrite Hkvs. apply map_Forall_empty.
    + unfold put_refused, stored_type. simpl. by rewrite Hst.
    + exact I.
  - intros [] s1 out1 (_ & _ & _ & Htype & Hjg1 & _). unfold add_working_time. wp_step.
    do 5 (apply wp_bind, wp_dispatch_none; [done|]).
    unfold gossip_event. do 3 wp_step. rewrite bool_decide_eq_false_2 by (intros Hge; by apply Hge). wp_step.
    unfold report_event. do 3 wp_step. rewrite bool_decide_eq_false_2 by (intros Hge; by apply Hge). wp_step.
    wp_step. apply wp_zoom. unfold redistribute. do 2 wp_step. simpl in *. rewrite Hjg1, Hjg.
    rewrite bool_decide_eq_true_2 by apply map_size_empty. simpl. do 2 wp_step. simpl.
    unfold stored_type in Htype. by destruct (stored_key_map s1 !! "k").
Qed.

Lemma wp_start :
  wp (@server_start MemoryStores _ _ config wt EmptyString "0" [] [])
    (blank_server ExampleServer.no_stores 0 0 0) (λ jc s _, jc = 0 ∧
      stored_key_map s = ∅ ∧ lww_kvs (store s) = ∅ ∧ join_gossip_map s = ∅).
Proof.
  unfold server_start. wp_step. eapply wp_lift_outcome; [reflexivity|].
  wp_step. unfold on_rings. wp_step. wp_step.
  rewrite bool_decide_eq_false_2 by done. wp_steps. done.
Qed.

Lemma reachable_with_key :
  ∃ l p, @reachable MemoryStores _ _ _ _ mine config wt [] [] "NULL" 0 l ∧
    stored_key_map (srv l) !! "k" = Some p.
Proof.
  destruct wp_start as (jc & s & out & Hs & -> & H1 & H2 & H3).
  destruct (wp_first_turn s H1 H2 H3) as (b & l & out' & Hl & [p Hp]).
  exists l, p. split; [|exact Hp].
  apply (reachable_turn config wt [] [] "NULL" 0 (mkLoop s 0 0 0 0) tick b l out'); [|exact Hl].
  exact (reachable_start config wt [] [] "NULL" 0 _ _ _ _ _ _ s out 0 0 Hs).
Qed.

Lemma reachable_stored_types_witness :
  ∃ p, type_ p ≠ NONE ∧ ∃ ser, @serializer_at MemoryStores _ (type_ p) = Some ser.
Proof.
  destruct reachable_with_key as (l & p & Hl & Hp). exists p.
  exact (@reachable_stored_types MemoryStores _ memory_serializers_laws _ _ _ mine config wt
    [] [] "NULL" 0 l "k" p Hl Hp).
Defined.
End ExampleLoop.
