(* ===== verification/Gossip.v ===== *)
(** Gossip between two server threads: a gossip round of one, delivered to the
    gossip handler of the other.  The threads can be of different tiers, with
    stores of different types; they share the lattice, its encoding and the
    functions that place keys. *)

From S2P Require Import Prelude Text Ordered Lattices ValueLattices Threads Wire WireCodec.
From S2P Require Import Codec Metadata KVStore DiskStore HashRing RingUtil ServerState.
From S2P Require Import UserRequest Replication Handlers ServerLoop.
From Stdlib Require Import Lia.

(** ** One thread *)
Section side.
Context {Store : Type} `{SerializerMapLaws Store} `{Protobuf} `{StdHash} `{Random}.
Context `{HashRingUtilInterface} `{!ProtoLaws KeyRequest.t carries dflt}.
Context (c : Config) (wt : ServerThread.t) (R : RingState → Prop).
Context {V : Type} `{Lattice V} (type : LatticeType) (ser : Serializer Store).
Context (inv : Store → Prop) (view : Store → Key → V) (decode : string → V).
Context (accepts : string → Prop) `{!SerializerLaws ser inv view decode accepts}.
Hypothesis ser_type : serializer_at type = Some ser.
Implicit Types s : ServerState Store.

(** The thread keeps [key] with this lattice type; [peer] is its only other
    replica and no cache holds it. *)
Record shares (key : Key) (peer : ServerThread.t) s : Prop := {
  shares_ready : ready R inv s;
  shares_type : stored_type s key = Some type;
  shares_owned : owns c wt R key;
  shares_peer : ∃ threads, replicas wt R key threads ∧
    filter (λ th, same_thread th wt = false) threads = [peer];
  shares_no_cache : key_to_cache_ips s !! key = None;
}.

(** The store finds the key. *)
Definition found (key : Key) (st : Store) : Prop := (ser_get ser key NO_ERROR st).1.2 ≠ KEY_DNE.

(** The message about [key] that carries [payload]. *)
Definition gossip_of (key : Key) (payload : string) : KeyRequest.t :=
  prepare_put_tuple (KeyRequest.set_type PUT KeyRequest.empty) key type payload.

Lemma stored_type_at s key : stored_type s key = Some type → ∃ p, stored_key_map s !! key = Some p ∧ type_ p = type.
Proof.
  unfold stored_type. destruct (stored_key_map s !! key) as [p|]; [|done].
  case_bool_decide; [done|]. intros [= <-]. by exists p.
Qed.

Lemma wp_gossip_key req key s :
  inv (store s) → stored_type s key = Some type → found key (store s) →
  wp (gossip_request req key) s (λ req' s' out,
    s' = set_store (ser_get ser key NO_ERROR (store s)).2 s ∧
    req' = prepare_put_tuple req key type (ser_get ser key NO_ERROR (store s)).1.1 ∧ out = []).
Proof.
  intros Hi (p & Hp & Hty)%stored_type_at Hfound. unfold gossip_request. wp_step. wp_step. rewrite Hp, Hty.
  wp_step. eexists _, _, []. split; [by apply process_get_eq|].
  destruct (law_get_value (store s) key NO_ERROR Hi ltac:(done) Hfound) as [Herr _].
  destruct (ser_get ser key NO_ERROR (store s)) as [[res err] st]. simpl in Herr |- *. subst err.
  rewrite bool_decide_eq_true_2 by done. by wp_steps.
Qed.

(** The keys of one address: here one key for one address. *)
Lemma wp_send_one a key s :
  inv (store s) → stored_type s key = Some type → found key (store s) →
  wp (send_gossip {[a := {[key]}]}) s (λ _ s' out,
    s' = set_store (ser_get ser key NO_ERROR (store s)).2 s ∧
    out = [mkMsg a (SerializeToString (gossip_of key (ser_get ser key NO_ERROR (store s)).1.1))]).
Proof.
  intros Hi Ht Hfound. unfold send_gossip. rewrite map_to_list_singleton. simpl.
  wp_step. wp_step. wp_step. rewrite elements_singleton. simpl. wp_step.
  eapply wp_mono; [by apply wp_gossip_key|]. intros req s' out (-> & -> & ->). wp_steps.
  rewrite insert_empty, map_to_list_singleton. simpl. by wp_steps.
Qed.

Lemma wp_gossip_one key peer s :
  shares key peer s → local_changeset s = {[key]} → found key (store s) →
  wp (gossip_round wt) s (λ _ s' out,
    shares key peer s' ∧ same_values view s s' ∧ local_changeset s' = ∅ ∧
    ∃ payload, out = [mkMsg (ServerThread.gossip_connect_address peer)
                        (SerializeToString (gossip_of key payload))] ∧
      payload = (ser_get ser key NO_ERROR (store s)).1.1 ∧ decode payload = view (store s) key).
Proof.
  intros [[Hr Hi] Ht Hown (threads & Hrep & Hpeer) Hcache] Hch Hfound.
  unfold gossip_round. wp_step. wp_step. rewrite Hch, size_singleton, elements_singleton. simpl.
  wp_step. unfold gossip_targets. wp_step. wp_step. apply (wp_replicas wt R key threads); [done..|]. intros r' Hr'.
  wp_steps.
  cbn [key_to_cache_ips set_rings]. rewrite Hcache, Hpeer.
  assert (gossip_to [peer] key ∅ = {[ServerThread.gossip_connect_address peer := {[key]}]}) as ->.
  { unfold gossip_to, keyset_insert. simpl. unfold map_get. rewrite lookup_empty. simpl.
    by rewrite union_empty_r_L. }
  eapply wp_mono; [by apply wp_send_one|]. cbn [store set_rings]. intros _ s' out [-> ->]. wp_step.
  destruct (law_get_value (store s) key NO_ERROR Hi ltac:(done) Hfound) as [_ Hval].
  split; [|split; [|split; [done|]]].
  - split; try done; [|by exists threads].
    split; [done|]. by apply (law_get_inv (store s)).
  - intros k. by apply (law_get_view (store s)).
  - eexists. by split_and!.
Qed.

Lemma wp_gossip_received key payload s :
  ready R inv s → typed type key s → owns c wt R key → accepts payload → carries (gossip_of key payload) →
  wp (gossip_handler c wt (SerializeToString (gossip_of key payload))) s (λ _ s' out,
    ready R inv s' ∧ merged view key (decode payload) s s' ∧
    local_changeset s' = local_changeset s ∧ key_to_cache_ips s' = key_to_cache_ips s ∧
    stored_type s' key = Some type ∧ out = []).
Proof.
  intros Hready Ht Hown Hacc Hc. unfold gossip_handler. rewrite parse_serialize' by done.
  change (KeyRequest.tuples (gossip_of key payload)) with
    [KeyTuple.set_payload payload (KeyTuple.set_lattice_type type (KeyTuple.set_key key KeyTuple.empty))].
  cbn [for_acc]. wp_step. wp_step. eapply wp_mono.
  - by apply (wp_gossip_tuple c wt R type ser inv view decode accepts ser_type key).
  - intros gm s' out (-> & Hr' & _ & Hm & (Hch & Hips & Hty & _) & ->). wp_step.
    unfold send_all. rewrite map_to_list_empty. simpl. wp_step. done.
Qed.

Lemma wp_gossip_shared key peer payload s :
  shares key peer s → accepts payload → carries (gossip_of key payload) →
  wp (gossip_handler c wt (SerializeToString (gossip_of key payload))) s (λ _ s' _,
    shares key peer s' ∧ merged view key (decode payload) s s' ∧ local_changeset s' = local_changeset s).
Proof.
  intros [Hready Ht Hown Hpeer Hcache] Hacc Hc. eapply wp_mono; [apply wp_gossip_received; try done|].
  - intros p Hp. destruct (stored_type_at s key Ht) as (p' & Hp' & <-). by simplify_eq.
  - intros [] s' out (Hr' & Hm & Hch & Hips & Hty & _). split_and!; try done. split; try done. by rewrite Hips.
Qed.

(** *** Several keys in one message *)

(** The message with the given keys and payloads. *)
Definition put_request (kps : list (Key * string)) : KeyRequest.t :=
  foldl (λ req kp, prepare_put_tuple req kp.1 type kp.2) (KeyRequest.set_type PUT KeyRequest.empty) kps.

(** A message that offers the values of [keys]. *)
Definition offers (value : Key → V) (keys : list Key) (req : KeyRequest.t) : Prop :=
  ∃ kps, kps.*1 = keys ∧ req = put_request kps ∧ Forall (λ kp, accepts kp.2 ∧ decode kp.2 = value kp.1) kps.

(** What the stores give out they accept, and they find [key] when they hold
    the value [v]. *)
Definition gives (key : Key) (v : V) : Prop :=
  ∀ st, inv st → view st key = v → found key st ∧ accepts (ser_get ser key NO_ERROR st).1.1.

(** The keys a thread can offer. *)
Definition offered s (key : Key) : Prop := stored_type s key = Some type ∧ gives key (view (store s) key).

(** Another store of the same keys with the same values. *)
Definition reads s s' : Prop := only_store s s' ∧ inv (store s') ∧ same_values view s s'.

Lemma reads_trans s1 s2 s3 : reads s1 s2 → reads s2 s3 → reads s1 s3.
Proof.
  intros (Ho1 & _ & Hv1) (Ho2 & ? & Hv2). split_and!; [by eapply only_store_trans|done|].
  intros k. by rewrite Hv2, Hv1.
Qed.

Lemma reads_offered s s' key : reads s s' → offered s key → offered s' key.
Proof. intros ([st ->] & _ & Hv) [Hst Hg]. split; [done|]. by rewrite Hv. Qed.

Lemma wp_put_request keys kps s :
  inv (store s) → (∀ k, k ∈ keys → offered s k) →
  wp (for_acc keys (put_request kps) gossip_request) s (λ req s' out,
    reads s s' ∧ out = [] ∧ ∃ kps', kps'.*1 = keys ∧ req = put_request (kps ++ kps') ∧
      Forall (λ kp, accepts kp.2 ∧ decode kp.2 = view (store s) kp.1) kps').
Proof.
  revert kps s. induction keys as [|k keys IH]; intros kps s Hi Hall; cbn [for_acc].
  { wp_step. split_and!; [split_and!; [apply only_store_refl|done..]|done|]. exists []. by rewrite app_nil_r. }
  destruct (Hall k) as [Hst Hg]; [by left|]. destruct (Hg _ Hi eq_refl) as [Hf Ha].
  wp_step. eapply wp_mono; [by apply wp_gossip_key|]. intros req s1 out (-> & -> & ->).
  set (p := (ser_get ser k NO_ERROR (store s)).1.1) in *. set (s1 := set_store _ s).
  assert (reads s s1) as Hr.
  { split_and!; [by eexists|by apply (law_get_inv (store s))|]. intros k'. by apply (law_get_view (store s)). }
  replace (prepare_put_tuple (put_request kps) k type p) with (put_request (kps ++ [(k, p)]))
    by (unfold put_request; by rewrite foldl_app).
  eapply wp_mono; [apply IH; [apply Hr|]|].
  { intros k' Hk'. eapply reads_offered; [done|]. apply Hall. by right. }
  cbv beta. intros req s' out (Hr' & -> & kps' & <- & -> & Hps). split_and!; [by eapply reads_trans|done|].
  exists ((k, p) :: kps'). rewrite <-app_assoc. split_and!; [done..|]. apply Forall_cons. split.
  - split; [done|]. by apply (law_get_value (store s) k NO_ERROR).
  - eapply Forall_impl; [done|]. intros kp [? ->]. split; [done|]. apply Hr.
Qed.

Lemma wp_requests (l : list (Address * gset Key)) (gm : gmap Address KeyRequest.t) s :
  NoDup l.*1 → (∀ a, a ∈ l.*1 → gm !! a = None) →
  inv (store s) → (∀ a keys k, (a, keys) ∈ l → k ∈ keys → offered s k) →
  wp (for_acc l gm (λ gm '(address, keys),
      let req := KeyRequest.set_type PUT (map_get KeyRequest.empty gm address) in
      req ← for_acc (elements keys) req gossip_request;
      mret (<[address := req]> gm))) s (λ gm' s' out,
    reads s s' ∧ out = [] ∧ (∀ a, a ∉ l.*1 → gm' !! a = gm !! a) ∧
    ∀ a keys, (a, keys) ∈ l → ∃ req, gm' !! a = Some req ∧ offers (view (store s)) (elements keys) req).
Proof.
  revert gm s. induction l as [|[a keys] l IH]; intros gm s Hnd Hnew Hi Hall; cbn [for_acc].
  { wp_step. split_and!; [split_and!; [apply only_store_refl|done..]|done..|]. by intros ?? ?%elem_of_nil. }
  apply NoDup_cons in Hnd as [Ha Hnd]. wp_step. wp_step. cbv zeta.
  unfold map_get. rewrite Hnew by (by left). change (KeyRequest.set_type PUT (default KeyRequest.empty None)) with (put_request []).
  eapply wp_mono; [apply wp_put_request; [done|]|].
  { intros k Hk%elem_of_elements. by eapply (Hall a); [left|]. }
  cbv beta. intros req s1 out (Hr & -> & kps & Hkeys & -> & Hps). wp_steps. eapply wp_mono; [apply IH; [done| |apply Hr|]|].
  - intros b Hb. rewrite lookup_insert_ne by (by intros ->). apply Hnew. by right.
  - intros b ks k Hin Hk. eapply reads_offered; [done|]. by eapply (Hall b); [right|].
  - cbv beta. intros gm' s' out (Hr' & -> & Hrest & Hoff). split_and!; [by eapply reads_trans|done|..].
    + intros b Hb. rewrite Hrest by (by intros ?; apply Hb; right). apply lookup_insert_ne. intros ->. apply Hb. by left.
    + intros b ks [[= -> ->]|Hin]%elem_of_cons.
      * exists (put_request kps). split; [by rewrite Hrest, lookup_insert_eq|]. by exists kps.
      * destruct (Hoff b ks Hin) as (req & Hreq & kps' & ? & ? & Hps'). exists req. split; [done|].
        exists kps'. split_and!; [done..|]. eapply Forall_impl; [done|]. intros kp [? ->]. split; [done|]. apply Hr.
Qed.

(** Every address gets one message, with the values of its keys. *)
Lemma wp_send_values m s :
  inv (store s) → (∀ a keys k, m !! a = Some keys → k ∈ keys → offered s k) →
  wp (send_gossip m) s (λ _ s' out, reads s s' ∧
    (∀ a keys, m !! a = Some keys → ∃ req, mkMsg a (SerializeToString req) ∈ out ∧
      offers (view (store s)) (elements keys) req) ∧
    ∀ msg, msg ∈ out → ∃ keys req, m !! msg_to msg = Some keys ∧ msg_body msg = SerializeToString req ∧
      offers (view (store s)) (elements keys) req).
Proof.
  intros Hi Hall. unfold send_gossip. wp_step. eapply wp_mono.
  - apply (wp_requests (map_to_list m) ∅ s); [apply NoDup_fst_map_to_list|done|done|].
    intros a keys k Hin%elem_of_map_to_list. by eapply Hall.
  - cbv beta. intros gm s' out (Hr & -> & Hrest & Hoff).
    assert (∀ a req, gm !! a = Some req → ∃ keys, m !! a = Some keys ∧ offers (view (store s)) (elements keys) req) as Hgm.
    { intros a req Ha. destruct (decide (a ∈ (map_to_list m).*1)) as [([a' keys] & -> & Hin)%list_elem_of_fmap|Hn].
      - destruct (Hoff a' keys Hin) as (req' & Ha' & ?). exists keys. simpl in Ha. rewrite Ha' in Ha.
        injection Ha as <-. split; [by apply elem_of_map_to_list|done].
      - by rewrite Hrest in Ha. }
    eapply wp_mono.
    + apply (wp_for_each (λ xs s'' out, s'' = s' ∧ out = map (λ x, mkMsg x.1 (SerializeToString x.2)) xs)); [done|].
      intros xs [a req] s'' out Hin [-> ->]. wp_step. split; [done|]. by rewrite map_app.
    + cbv beta. intros [] s'' out [-> ->]. split; [done|]. split.
      * intros a keys Ha. destruct (Hoff a keys) as (req & Hreq & ?); [by apply elem_of_map_to_list|].
        exists req. split; [|done]. simpl. apply list_elem_of_fmap. exists (a, req). split; [done|].
        by apply elem_of_map_to_list.
      * intros msg ([a req] & -> & Hin%elem_of_map_to_list)%list_elem_of_fmap.
        destruct (Hgm a req Hin) as (keys & ? & ?). by exists keys, req.
Qed.
End side.

(** ** Two threads *)
Section exchange.
Context `{Protobuf} `{StdHash} `{Random} `{HashRingUtilInterface}.
Context `{!ProtoLaws KeyRequest.t carries dflt} (all_carried : ∀ r, carries r).
Context {V : Type} `{Lattice V} (valid : V → Prop) `{!LatticeLaws V valid}.
Context (type : LatticeType) (decode : string → V).

(** The first thread. *)
Context {Store1 : Type} `{SerializerMapLaws Store1} (c1 : Config) (wt1 : ServerThread.t) (R1 : RingState → Prop).
Context (ser1 : Serializer Store1) (inv1 : Store1 → Prop) (view1 : Store1 → Key → V).
Context (accepts1 : string → Prop) `{!SerializerLaws ser1 inv1 view1 decode accepts1}.
Hypothesis ser1_type : serializer_at type = Some ser1.

(** The second thread. *)
Context {Store2 : Type} `{SerializerMapLaws Store2} (c2 : Config) (wt2 : ServerThread.t) (R2 : RingState → Prop).
Context (ser2 : Serializer Store2) (inv2 : Store2 → Prop) (view2 : Store2 → Key → V).
Context (accepts2 : string → Prop) `{!SerializerLaws ser2 inv2 view2 decode accepts2}.
Hypothesis ser2_type : serializer_at type = Some ser2.

(** What one store gives out for [key] the other takes. *)
Definition compatible (key : Key) : Prop :=
  (∀ st, inv1 st → found ser1 key st → accepts2 (ser_get ser1 key NO_ERROR st).1.1) ∧
  (∀ st, inv2 st → found ser2 key st → accepts1 (ser_get ser2 key NO_ERROR st).1.1).

(** C9: two replicas of a key that both changed it agree after one gossip round
    each: the first sends its value to the second alone, the second merges it
    and sends the result back, and then both hold the merge of the two values;
    the rounds clear the sets of changes and no other key changes. *)
Theorem gossip_exchange_agrees key s1 s2 :
  shares c1 wt1 R1 type inv1 key wt2 s1 → local_changeset s1 = {[key]} → found ser1 key (store s1) →
  shares c2 wt2 R2 type inv2 key wt1 s2 → local_changeset s2 = {[key]} →
  valid (view1 (store s1) key) → valid (view2 (store s2) key) → compatible key →
  let value := do_merge (view1 (store s1) key) (view2 (store s2) key) in
  (∀ st, inv2 st → view2 st key = value → found ser2 key st) →
  wp (gossip_round wt1) s1 (λ _ s1' out1,
    ∃ body1, out1 = [mkMsg (ServerThread.gossip_connect_address wt2) body1] ∧
    wp (gossip_handler c2 wt2 body1) s2 (λ _ s2' _,
      wp (gossip_round wt2) s2' (λ _ s2'' out2,
        ∃ body2, out2 = [mkMsg (ServerThread.gossip_connect_address wt1) body2] ∧
        wp (gossip_handler c1 wt1 body2) s1' (λ _ s1'' _,
          view1 (store s1'') key = value ∧ view2 (store s2'') key = value ∧
          local_changeset s1'' = ∅ ∧ local_changeset s2'' = ∅ ∧
          ∀ k, k ≠ key → view1 (store s1'') k = view1 (store s1) k ∧
                         view2 (store s2'') k = view2 (store s2) k)))).
Proof.
  intros Hs1 Hch1 Hf1 Hs2 Hch2 Hv1 Hv2 [Hc12 Hc21] value Hfound.
  eapply wp_mono; [by eapply (wp_gossip_one c1 wt1 R1 type ser1 inv1 view1 decode accepts1 ser1_type)|].
  intros _ s1' out1 (Hs1' & Hsame1 & Hempty1 & payload1 & -> & Hp1 & Hd1). eexists. split; [done|].
  eapply wp_mono; [eapply (wp_gossip_shared c2 wt2 R2 type ser2 inv2 view2 decode accepts2 ser2_type key wt1);
    [done| |done]|].
  { rewrite Hp1. apply Hc12; [apply Hs1|done]. }
  intros _ s2' _ (Hs2' & Hm2 & Hch2').
  assert (view2 (store s2') key = value) as Hval2.
  { rewrite Hm2, decide_True, Hd1 by done. by apply merge_comm. }
  eapply wp_mono; [eapply (wp_gossip_one c2 wt2 R2 type ser2 inv2 view2 decode accepts2 ser2_type key wt1);
    [done|by rewrite Hch2'|]|].
  { apply Hfound; [apply Hs2'|done]. }
  intros _ s2'' out2 (_ & Hsame2 & Hempty2 & payload2 & -> & Hp2 & Hd2). eexists. split; [done|].
  eapply wp_mono; [eapply (wp_gossip_shared c1 wt1 R1 type ser1 inv1 view1 decode accepts1 ser1_type key wt2);
    [done| |done]|].
  { rewrite Hp2. apply Hc21; [apply Hs2'|]. apply Hfound; [apply Hs2'|done]. }
  intros _ s1'' _ (_ & Hm1 & Hch1'). split_and!.
  - rewrite Hm1, decide_True, Hsame1, Hd2, Hval2 by done. unfold value.
    rewrite merge_assoc, merge_idemp by done. done.
  - by rewrite Hsame2.
  - by rewrite Hch1'.
  - done.
  - intros k Hk. rewrite Hm1, decide_False, Hsame1, Hsame2, Hm2, decide_False by done. done.
Qed.
End exchange.

(** ** Examples *)
Module ExampleGossip.
#[local] Existing Instance bit_protobuf.
#[local] Existing Instance ExampleRing.toy_hash.
#[local] Existing Instance memory_serializers.
#[local] Existing Instance ExampleServer.still.
#[local] Existing Instance ExampleLoop.both.
#[local] Existing Instance memory_serializers_laws.
Import ExampleServer(lww_ser, lww_inv, lww_view, lww_ser_laws, writes).
Import LWWPairLattice(mkTVP).

Definition holds (ts : Z) (v : string) : ServerState MemoryStores :=
  mkServerState (mkRingState ∅ ∅ ∅ 0 0) (mkMemoryStores {["k" := mkTVP ts v]} ∅ ∅ ∅ ∅ ∅)
    {["k" := mkKeyProperty 1 LWW]} ∅ ∅ ∅ 0 {["k"]} ∅ ∅ ∅ ∅ ∅ 0.

(** The two replicas of every key, one as the peer of the other. *)
Lemma holds_shares (wt peer : ServerThread.t) ts v :
  filter (λ th, same_thread th wt = false) ExampleLoop.two = [peer] →
  contains_thread ExampleLoop.two wt = true →
  shares ExampleLoop.config wt ExampleLoop.R LWW lww_inv "k" peer (holds ts v).
Proof.
  intros Hpeer Hin. split.
  - split; [exact I|]. by apply map_Forall_singleton.
  - reflexivity.
  - exists false, ExampleLoop.two. split; [reflexivity|]. split; [done|]. intros r _. by eexists _, _, _.
  - exists ExampleLoop.two. split; [|done]. exists false. split; [reflexivity|]. intros r _. by eexists _, _, _.
  - reflexivity.
Qed.

Lemma lww_found st : lww_missing (lww_view st "k") = false → found lww_ser "k" st.
Proof.
  intros Hv. unfold lww_view in Hv.
  pose proof (memory_get_error serialize_lww lww_missing "k" (lww_kvs st) eq_refl) as He. rewrite Hv in He.
  unfold found, lww_ser, serializer_on. cbn [ser_get MemoryLWWSerializer memory_serializer].
  destruct (memory_get _ _ _ _ _) as [[res err] kvs]. simpl in *. by rewrite He.
Qed.

(** "v" of time 7 on one replica, "w" of time 8 on the other. *)
Lemma gossip_exchange_agrees_witness :
  wp (gossip_round ExampleRing.st_a) (holds 7 "v") (λ _ s1' out1,
    ∃ body1, out1 = [mkMsg "tcp://b:6250" body1] ∧
    wp (gossip_handler ExampleLoop.config ExampleRing.st_b body1) (holds 8 "w") (λ _ s2' _,
      wp (gossip_round ExampleRing.st_b) s2' (λ _ s2'' out2,
        ∃ body2, out2 = [mkMsg "tcp://a:6250" body2] ∧
        wp (gossip_handler ExampleLoop.config ExampleRing.st_a body2) s1' (λ _ s1'' _,
          lww_view (store s1'') "k" = mkTVP 8 "w" ∧ lww_view (store s2'') "k" = mkTVP 8 "w" ∧
          local_changeset s1'' = ∅ ∧ local_changeset s2'' = ∅ ∧
          ∀ k, k ≠ "k" → lww_view (store s1'') k = lww_view (store (holds 7 "v")) k ∧
                         lww_view (store s2'') k = lww_view (store (holds 8 "w")) k)))).
Proof.
  apply (@gossip_exchange_agrees bit_protobuf _ _ _ (λ _, True) _ (BitCodec.codec_laws KeyRequest.empty) (λ _, I) _ _
    (LWWPairLattice.written writes) _ LWW deserialize_lww
    MemoryStores _ memory_serializers_laws ExampleLoop.config ExampleRing.st_a ExampleLoop.R
    lww_ser lww_inv lww_view (λ _, True) lww_ser_laws eq_refl
    MemoryStores _ memory_serializers_laws ExampleLoop.config ExampleRing.st_b ExampleLoop.R
    lww_ser lww_inv lww_view (λ _, True) lww_ser_laws eq_refl "k" (holds 7 "v") (holds 8 "w")).
  - by apply holds_shares.
  - reflexivity.
  - by apply lww_found.
  - by apply holds_shares.
  - reflexivity.
  - reflexivity.
  - reflexivity.
  - split; intros; exact I.
  - intros st _ Hv. apply lww_found. rewrite Hv. reflexivity.
Defined.
End ExampleGossip.
