(* ===== verification/Cluster.v ===== *)
(** The replicas of one key as a network of server threads.  A cluster is the
    state of every replica and the gossip in flight; it moves when a client's
    request is handled, when a replica's gossip round runs and when a gossip
    message, any of those in flight, is delivered.  The handlers are those of
    the server thread; nothing is assumed of the order of steps. *)

From S2P Require Import Prelude Text Ordered Lattices ValueLattices Threads Wire WireCodec.
From S2P Require Import Codec Metadata KVStore DiskStore HashRing RingUtil ServerState.
From S2P Require Import UserRequest Replication Handlers ServerLoop Gossip.
From Stdlib Require Import Lia.

(** ** Whom a round addresses *)
Lemma gossip_to_keys (threads : list ServerThread.t) key m :
  map_Forall (λ _ (keys : gset Key), keys = {[key]}) m →
  map_Forall (λ _ (keys : gset Key), keys = {[key]}) (gossip_to threads key m).
Proof.
  unfold gossip_to. revert m. induction threads as [|th threads IH]; intros m Hm; [done|]. simpl. apply IH.
  unfold keyset_insert. apply map_Forall_insert_2; [|done]. unfold map_get.
  destruct (m !! _) as [keys|] eqn:Hk; simpl; [|set_solver]. apply Hm in Hk as ->. set_solver.
Qed.

Lemma size_gossip_to (threads : list ServerThread.t) key m :
  (size (dom (gossip_to threads key m)) ≤ size (dom m) + length threads)%nat.
Proof.
  unfold gossip_to. revert m. induction threads as [|th threads IH]; intros m; simpl; [lia|].
  etrans; [apply IH|]. unfold keyset_insert. rewrite dom_insert_L.
  assert (size ({[ServerThread.gossip_connect_address th]} ∪ dom m) ≤ 1 + size (dom m))%nat; [|lia].
  rewrite size_union_alt, size_singleton. apply Nat.add_le_mono_l, subseteq_size. set_solver.
Qed.

Lemma filter_others (threads : list ServerThread.t) wt :
  wt ∈ threads → (length (filter (λ th, same_thread th wt = false) threads) < length threads)%nat.
Proof.
  intros Hin. apply (length_filter_lt _ _ wt); [done|]. unfold same_thread. by rewrite bool_decide_eq_true_2.
Qed.

(** An outcome known from [wp] keeps what the program preserves. *)
Lemma wp_preserves {S A} (P : S → Prop) (m : M S A) s (Q : A → S → list Msg → Prop) :
  preserves P m → P s → wp m s Q → wp m s (λ a s' out, Q a s' out ∧ P s').
Proof. intros Hm Hs (a & s' & out & Heq & HQ). exists a, s', out. split; [done|]. split; [done|]. by eapply Hm. Qed.

(** The other elements, when one changes. *)
Lemma list_insert_all {A} (P : A → Prop) (l : list A) i x :
  P x → (∀ j y, l !! j = Some y → P y) → ∀ j y, <[i := x]> l !! j = Some y → P y.
Proof.
  intros Hx Hall j y Hj. apply list_lookup_insert_Some in Hj as [(_ & <- & _)|[_ Hj]]; [done|]. by eapply Hall.
Qed.

Lemma length_filter_insert {A} (P : A → Prop) `{!∀ x, Decision (P x)} (l : list A) i x y :
  l !! i = Some x →
  (length (filter P (<[i := y]> l)) + (if decide (P x) then 1 else 0) =
   length (filter P l) + (if decide (P y) then 1 else 0))%nat.
Proof.
  revert i. induction l as [|z l IH]; intros [|i] Hi; simplify_eq/=.
  - rewrite !filter_cons. repeat case_decide; simpl; lia.
  - specialize (IH i Hi). rewrite !filter_cons. destruct (decide (P z)); simpl; lia.
Qed.

(** What is known of a run that ended. *)
Lemma wp_run {S A} (m : M S A) s a s' out (Q : A → S → list Msg → Prop) :
  wp m s Q → m s = Ok (a, s', out) → Q a s' out.
Proof. intros (a' & s1 & out' & Heq & HQ) Hm. rewrite Hm in Heq. by simplify_eq. Qed.

(** ** One replica *)
Section replica.
Context {Store : Type} `{SerializerMapLaws Store} `{Protobuf} `{StdHash} `{Random}.
Context `{HashRingUtilInterface} `{!ProtoLaws KeyRequest.t carries dflt} (all_carried : ∀ r, carries r).
Context (c : Config) (R : RingState → Prop).
Context {V : Type} `{Lattice V} (type : LatticeType) (ser : Serializer Store).
Context (inv : Store → Prop) (view : Store → Key → V) (decode : string → V).
Context (accepts : string → Prop) `{!SerializerLaws ser inv view decode accepts}.
Hypothesis ser_type : serializer_at type = Some ser.
Implicit Types s : ServerState Store.

(** A gossip message that offers the value [v] of [key] alone. *)
Definition tells (key : Key) (v : V) (body : string) : Prop :=
  ∃ payload, body = SerializeToString (gossip_of type key payload) ∧ decode payload = v ∧ accepts payload.
Notation gives := (gives ser inv view accepts).

Lemma wp_send_key key m s :
  map_Forall (λ _ keys, keys = {[key]}) m → inv (store s) → offered type ser inv view accepts s key →
  wp (send_gossip m) s (λ _ s' out, reads inv view s s' ∧
    Forall (λ msg, tells key (view (store s) key) (msg_body msg)) out).
Proof.
  intros Hm Hi Hoff. eapply wp_mono.
  - apply (wp_send_values type ser inv view decode accepts ser_type); [done|].
    intros a keys k Ha%Hm Hk. rewrite Ha, elem_of_singleton in Hk. by subst.
  - cbv beta. intros [] s' out (Hr & _ & Hall). split; [done|]. apply Forall_forall. intros msg Hin.
    destruct (Hall msg Hin) as (keys & req & ->%Hm & -> & kps & Hkeys & -> & Hps). rewrite elements_singleton in Hkeys.
    destruct kps as [|[k p] [|]]; simplify_eq/=. apply Forall_singleton in Hps as [? ?]. by exists p.
Qed.

(** *** The steps of a replica *)

(** [valid]: the values in play; [bot] is the least of them. *)
Context (valid : V → Prop) `{!LatticeLaws V valid}.
Hypothesis bot_valid : valid bot.
Hypothesis bot_least : ∀ x, valid x → lat_le bot x.
Context (key : Key).
Hypothesis gives_key : ∀ v, valid v → v ≠ bot → gives key v.

Lemma merge_not_bot x y : valid x → valid y → x ≠ bot → do_merge x y ≠ bot.
Proof.
  intros Hx Hy Hne Heq. apply Hne, (lat_le_antisym (valid:=valid)); [done..| |by apply bot_least].
  rewrite <-Heq. by apply (lat_le_merge_l (valid:=valid)).
Qed.

(** A replica of [key] in order, whose value is at most [bound]. *)
Record node_ok (bound : V) s : Prop := {
  node_ready : ready R inv s;
  node_stored : server_ok false s;
  node_typed : typed type key s;
  node_changes : local_changeset s ⊆ {[key]};
  node_cache : key_to_cache_ips s !! key = None;
  node_valid : valid (view (store s) key);
  node_bound : lat_le (view (store s) key) bound;
  node_kept : view (store s) key ≠ bot → stored_type s key = Some type;
  node_dirty : key ∈ local_changeset s → view (store s) key ≠ bot;
}.

Lemma node_ok_mono b b' s : valid b → valid b' → lat_le b b' → node_ok b s → node_ok b' s.
Proof. intros ??? []. split; try done. by apply (lat_le_trans (valid:=valid) _ b). Qed.

Lemma stored_typed s : stored_type s key = Some type → typed type key s.
Proof. intros (p & Hp & Hty)%(stored_type_at type ser ser_type) p' Hp'. by simplify_eq. Qed.

Lemma typed_accepts_put s : typed type key s → put_refused s key type = false.
Proof.
  intros Ht. unfold put_refused. rewrite bool_decide_eq_false_2 by (apply serializer_at_type; by exists ser).
  simpl. unfold stored_type. destruct (stored_key_map s !! key) as [p|] eqn:Hp; [|done].
  rewrite (Ht p Hp). case_bool_decide; [done|]. by rewrite bool_decide_eq_true_2.
Qed.

Lemma node_put wt now serialized tuple addr id b s :
  parse serialized = KeyRequest.mk PUT [tuple] addr id → KeyTuple.key tuple = key →
  KeyTuple.lattice_type tuple = type → accepts (KeyTuple.payload tuple) →
  let w := decode (KeyTuple.payload tuple) in valid w → w ≠ bot →
  owns c wt R key → valid b → lat_le w b → node_ok b s →
  wp (user_request_handler c wt now serialized) s (λ _ s' _,
    node_ok b s' ∧ view (store s') key = do_merge (view (store s) key) w ∧ key ∈ local_changeset s').
Proof.
  intros Hreq Hk Hty Ha w Hw Hwb Hown Hb Hle [Hr Hok Ht Hc Hca Hv Hvb Hkept Hd].
  eapply wp_mono; [apply (wp_preserves (server_ok false)); [apply user_request_handler_ok|done|];
    eapply (wp_user_put c wt R type ser inv view decode accepts ser_type); try done|].
  { by rewrite Hk. }
  { rewrite Hk. by apply typed_accepts_put. }
  cbv beta. rewrite Hk. intros [] s' out [(Hr' & Hm & [Hc' Hca'] & Hst & _) Hok'].
  assert (view (store s') key = do_merge (view (store s) key) w) as Hv'.
  { by rewrite Hm, decide_True. }
  split; [|split; [done|rewrite Hc'; set_solver]]. split; rewrite ?Hv', ?Hc', ?Hca'; try done.
  - by apply stored_typed.
  - set_solver.
  - by apply merge_valid.
  - by apply (lat_merge_lub (valid:=valid)).
  - intros _. rewrite (merge_comm (valid:=valid)) by done. by apply merge_not_bot.
Qed.

Lemma node_get wt now serialized tuple addr id b s :
  parse serialized = KeyRequest.mk GET [tuple] addr id → KeyTuple.key tuple = key → addr ≠ "" →
  owns c wt R key → node_ok b s →
  wp (user_request_handler c wt now serialized) s (λ _ s' _,
    node_ok b s' ∧ view (store s') key = view (store s) key ∧ local_changeset s' = local_changeset s).
Proof.
  intros Hreq Hk Haddr Hown [Hr Hok Ht Hc Hca Hv Hvb Hkept Hd].
  eapply (wp_mono _ _ (λ _ s' _, ready R inv s' ∧ same_values view s s' ∧ read_only s s')).
  2:{ intros _ s' _ (Hr' & Hsame & Hc' & Hca' & Hst'). split; [|done].
      split; unfold server_ok, typed, stored_type; rewrite ?Hc', ?Hca', ?Hst', ?Hsame; try done. }
  destruct (stored_type s key) as [t|] eqn:Hst.
  - assert (t = type) as ->.
    { unfold stored_type in Hst. destruct (stored_key_map s !! key) as [p|] eqn:Hp; [|done].
      case_bool_decide; [done|]. injection Hst as <-. by apply Ht. }
    eapply wp_mono; [eapply (wp_user_get c wt R type ser inv view decode accepts ser_type); try done|].
    { by rewrite Hk. }
    { by rewrite Hk. }
    naive_solver.
  - unfold user_request_handler. cbv zeta. rewrite Hreq. wp_step. cbn [for_acc KeyRequest.tuples]. wp_step.
    unfold user_request_tuple. rewrite Hk. wp_step. destruct Hr as [Hr Hi].
    apply (wp_responsible_threads c wt R); [done..|]. intros threads r' Hin Hr'. rewrite Hin. simpl.
    wp_step. unfold answer_get. wp_step. wp_step.
    change (stored_type (set_rings r' s) key) with (stored_type s key). rewrite Hst.
    unfold track_access, count_access. wp_steps. simpl. rewrite bool_decide_eq_false_2 by done. simpl.
    wp_steps. done.
Qed.

Lemma node_deliver wt v body b s :
  tells key v body → valid v → valid b → lat_le v b → owns c wt R key → node_ok b s →
  wp (gossip_handler c wt body) s (λ _ s' out,
    node_ok b s' ∧ view (store s') key = do_merge (view (store s) key) v ∧
    local_changeset s' = local_changeset s ∧ out = []).
Proof.
  intros (payload & -> & <- & Ha) Hw Hb Hle Hown [Hr Hok Ht Hc Hca Hv Hvb Hkept Hd].
  eapply wp_mono; [apply (wp_preserves (server_ok false)); [apply gossip_handler_ok|done|];
    by apply (wp_gossip_received c wt R type ser inv view decode accepts ser_type key)|].
  cbv beta. intros [] s' out [(Hr' & Hm & Hc' & Hca' & Hst & ->) Hok'].
  assert (view (store s') key = do_merge (view (store s) key) (decode payload)) as Hv'.
  { by rewrite Hm, decide_True. }
  split; [|by rewrite Hv']. split; rewrite ?Hv', ?Hc', ?Hca'; try done.
  - by apply stored_typed.
  - by apply merge_valid.
  - by apply (lat_merge_lub (valid:=valid)).
  - intros Hin. apply merge_not_bot; [done..|]. by apply Hd.
Qed.

Lemma node_gossip wt threads b s :
  wt ∈ threads → replicas wt R key threads → node_ok b s → key ∈ local_changeset s →
  wp (gossip_round wt) s (λ _ s' out,
    node_ok b s' ∧ view (store s') key = view (store s) key ∧ local_changeset s' = ∅ ∧
    (length out < length threads)%nat ∧ Forall (λ m, tells key (view (store s) key) (msg_body m)) out ∧
    ∀ a, a ∈ map msg_to out ↔ ∃ th, th ∈ threads ∧ ¬ th ≡ wt ∧ a = ServerThread.gossip_connect_address th).
Proof.
  intros Hin Hrep [[Hr Hi] Hok Ht Hc Hca Hv Hvb Hkept Hd] Hch. pose proof (Hd Hch) as Hne. pose proof (Hkept Hne) as Hst.
  unfold gossip_round. wp_step. wp_step.
  assert (local_changeset s = {[key]}) as -> by set_solver.
  rewrite size_singleton, elements_singleton. simpl.
  wp_step. unfold gossip_targets. wp_step. wp_step. apply (wp_replicas wt R key threads); [done..|]. intros r' Hr'.
  wp_steps. cbn [key_to_cache_ips set_rings]. rewrite Hca.
  set (peers := filter _ threads).
  eapply wp_mono; [apply wp_conj; [apply wp_send_gossip|apply (wp_send_key key)]|]; try done.
  { by destruct Hok. }
  { by apply gossip_to_keys, map_Forall_empty. }
  { split; [done|]. by apply gives_key. }
  cbv beta. intros [] s' out [[_ Hto] [([st ->] & Hi' & Hsame) Hout]]. wp_step. simpl app. rewrite app_nil_r.
  cbn [store set_local_changeset set_store set_rings] in *. specialize (Hsame key) as Hvk.
  cbn [store set_store set_rings] in Hvk.
  split.
  { split; cbn [store set_local_changeset set_store set_rings local_changeset]; rewrite ?Hvk; try done.
    by destruct Hok. }
  split_and!; try done.
  - rewrite <-(length_map msg_to out), Hto. change (length (elements ?X)) with (size X).
    eapply Nat.le_lt_trans; [apply size_gossip_to|]. rewrite dom_empty_L, size_empty. by apply filter_others.
  - intros a. rewrite Hto, elem_of_elements, dom_gossip_to, dom_empty_L. unfold peers.
    setoid_rewrite list_elem_of_filter. unfold same_thread. setoid_rewrite bool_decide_eq_false. set_solver.
Qed.

Lemma tells_inj v v' body : tells key v body → tells key v' body → v = v'.
Proof.
  intros (p & -> & <- & _) (p' & Heq & <- & _).
  apply (f_equal (parse (A:=KeyRequest.t))) in Heq. rewrite !parse_serialize' in Heq by done.
  unfold gossip_of, prepare_put_tuple in Heq. simpl in Heq. by injection Heq as ->.
Qed.

(** ** The cluster *)

(** The replicas of [key]: different threads, each of which knows them all. *)
Context (threads : list ServerThread.t).
Notation address := ServerThread.gossip_connect_address.
Record cluster_threads : Prop := {
  threads_replicas wt : wt ∈ threads → owns c wt R key ∧ replicas wt R key threads;
  threads_distinct : NoDup (map (λ wt, (ServerThread.private_ip wt, ServerThread.tid wt)) threads);
  threads_tids wt : wt ∈ threads → 0 ≤ ServerThread.tid wt < 2 ^ 16;
}.
Hypothesis threads_ok : cluster_threads.

Lemma threads_inj i j ti tj :
  threads !! i = Some ti → threads !! j = Some tj →
  ServerThread.private_ip ti = ServerThread.private_ip tj → ServerThread.tid ti = ServerThread.tid tj → i = j.
Proof.
  intros Hi Hj Hip Htid. eapply NoDup_lookup; [apply (threads_distinct threads_ok)|..].
  - change (map ?f ?l) with (f <$> l). rewrite list_lookup_fmap, Hi. done.
  - change (map ?f ?l) with (f <$> l). rewrite list_lookup_fmap, Hj. simpl. by rewrite Hip, Htid.
Qed.

Lemma threads_ids i j ti tj : threads !! i = Some ti → threads !! j = Some tj → ti ≡ tj → i = j.
Proof.
  intros Hi Hj [Hip Htid]%server_thread_id_inj.
  - by eapply threads_inj.
  - by apply (threads_tids threads_ok), (list_elem_of_lookup_2 _ i).
  - by apply (threads_tids threads_ok), (list_elem_of_lookup_2 _ j).
Qed.

Lemma threads_addresses i j ti tj :
  threads !! i = Some ti → threads !! j = Some tj → address ti = address tj → i = j.
Proof.
  intros Hi Hj Heq.
  pose proof (threads_tids threads_ok ti (list_elem_of_lookup_2 _ i _ Hi)).
  pose proof (threads_tids threads_ok tj (list_elem_of_lookup_2 _ j _ Hj)).
  unfold ServerThread.gossip_connect_address, connect_address in Heq. unfold kGossipPort in Heq.
  apply connect_address_inj in Heq as [Hip Hport]; [|apply u32_range..].
  rewrite !u32_id in Hport by (unfold is_u32; lia). eapply threads_inj; [done..|lia].
Qed.

(** The state of each replica and the gossip in flight; [history] records the
    values written so far, for the statements only. *)
Record Cluster := mkCluster {
  nodes : list (ServerState Store);
  network : list Msg;
  history : list V;
}.
Implicit Types k : Cluster.

(** What the replicas do by themselves: a gossip round of one that has changes
    (a round without changes does nothing), the delivery of a message. *)
Inductive background k : Cluster → Prop :=
  | bg_gossip i wt s s' out :
      threads !! i = Some wt → nodes k !! i = Some s → local_changeset s ≠ ∅ →
      gossip_round wt s = Ok (tt, s', out) →
      background k (mkCluster (<[i := s']> (nodes k)) (network k ++ out) (history k))
  | bg_deliver i wt s s' before body after out :
      threads !! i = Some wt → nodes k !! i = Some s →
      network k = before ++ mkMsg (address wt) body :: after →
      gossip_handler c wt body s = Ok (tt, s', out) →
      background k (mkCluster (<[i := s']> (nodes k)) (before ++ after ++ out) (history k)).

(** With the requests of clients, to any replica at any time; the answers
    leave the cluster. *)
Inductive step k : Cluster → Prop :=
  | step_put i wt s s' now serialized tuple addr id out :
      threads !! i = Some wt → nodes k !! i = Some s →
      parse serialized = KeyRequest.mk PUT [tuple] addr id → KeyTuple.key tuple = key →
      KeyTuple.lattice_type tuple = type → accepts (KeyTuple.payload tuple) →
      valid (decode (KeyTuple.payload tuple)) → decode (KeyTuple.payload tuple) ≠ bot →
      user_request_handler c wt now serialized s = Ok (tt, s', out) →
      step k (mkCluster (<[i := s']> (nodes k)) (network k) (history k ++ [decode (KeyTuple.payload tuple)]))
  | step_get i wt s s' now serialized tuple addr id out :
      threads !! i = Some wt → nodes k !! i = Some s →
      parse serialized = KeyRequest.mk GET [tuple] addr id → KeyTuple.key tuple = key → addr ≠ "" →
      user_request_handler c wt now serialized s = Ok (tt, s', out) →
      step k (mkCluster (<[i := s']> (nodes k)) (network k) (history k))
  | step_background k' : background k k' → step k k'.

(** Threads that have not heard of [key]. *)
Definition started k : Prop :=
  length (nodes k) = length threads ∧ network k = [] ∧ history k = [] ∧
  ∀ s, s ∈ nodes k → ready R inv s ∧ server_ok false s ∧ stored_key_map s !! key = None ∧
    local_changeset s = ∅ ∧ key_to_cache_ips s !! key = None ∧ view (store s) key = bot.

Definition reached k : Prop := ∃ k0, started k0 ∧ rtc step k0 k.

(** The merge of all that was written. *)
Definition joined k : V := merge_all bot (history k).

(** Nothing left to gossip. *)
Definition settled k : Prop := network k = [] ∧ ∀ s, s ∈ nodes k → local_changeset s = ∅.

(** *** The invariant *)

(** A replica that still has to gossip holds [w]. *)
Definition to_gossip (ns : list (ServerState Store)) (w : V) : Prop :=
  ∃ i s, ns !! i = Some s ∧ key ∈ local_changeset s ∧ lat_le w (view (store s) key).

(** A message to [a] holds [w]. *)
Definition in_flight (net : list Msg) (a : Address) (w : V) : Prop :=
  ∃ m v, m ∈ net ∧ msg_to m = a ∧ tells key v (msg_body m) ∧ valid v ∧ lat_le w v.

Definition covered ns net (w : V) : Prop :=
  ∀ i wt s, threads !! i = Some wt → ns !! i = Some s →
    lat_le w (view (store s) key) ∨ to_gossip ns w ∨ in_flight net (address wt) w.

Definition msg_ok (bound : V) (m : Msg) : Prop :=
  ∃ v wt, wt ∈ threads ∧ msg_to m = address wt ∧ tells key v (msg_body m) ∧ valid v ∧ lat_le v bound.

Record cluster_ok k : Prop := {
  ok_length : length (nodes k) = length threads;
  ok_nodes i s : nodes k !! i = Some s → node_ok (joined k) s;
  ok_network m : m ∈ network k → msg_ok (joined k) m;
  ok_history : Forall valid (history k);
  ok_written w : w ∈ history k → w ≠ bot;
  ok_covered w : w ∈ history k → covered (nodes k) (network k) w;
}.

Lemma joined_valid k : Forall valid (history k) → valid (joined k).
Proof. intros. by apply merge_all_valid. Qed.

Lemma joined_snoc k w : joined (mkCluster (nodes k) (network k) (history k ++ [w])) = do_merge (joined k) w.
Proof. unfold joined, merge_all. simpl. by rewrite foldl_app. Qed.

Lemma msg_ok_mono b b' m : valid b → valid b' → lat_le b b' → msg_ok b m → msg_ok b' m.
Proof.
  intros ??? (v & wt & ? & ? & ? & ? & ?). exists v, wt. split_and!; try done.
  by apply (lat_le_trans (valid:=valid) _ b).
Qed.

(** A replica's step that lets its value grow and forgets no change. *)
Lemma covered_grows ns net i s s' w :
  valid w → ns !! i = Some s → valid (view (store s) key) → valid (view (store s') key) →
  lat_le (view (store s) key) (view (store s') key) →
  (key ∈ local_changeset s → key ∈ local_changeset s') →
  covered ns net w → covered (<[i := s']> ns) net w.
Proof.
  intros Hw Hi Hv Hv' Hle Hch Hcov j wt sj Ht Hj.
  assert (∀ x, lat_le w x → x = view (store s) key → lat_le w (view (store s') key)) as Hup.
  { intros x Hwx ->. by apply (lat_le_trans (valid:=valid) _ (view (store s) key)). }
  assert (to_gossip ns w → to_gossip (<[i := s']> ns) w) as Hdirty.
  { intros (n & sn & Hn & Hin & Hwn). destruct (decide (n = i)) as [-> |Hne].
    - simplify_eq. exists i, s'. rewrite list_lookup_insert_eq by (by eapply lookup_lt_Some). eauto.
    - exists n, sn. by rewrite list_lookup_insert_ne. }
  destruct (decide (j = i)) as [-> |Hne].
  - rewrite list_lookup_insert_eq in Hj by (by eapply lookup_lt_Some). simplify_eq.
    destruct (Hcov i wt s Ht Hi) as [|[|]]; eauto.
  - rewrite list_lookup_insert_ne in Hj by done. destruct (Hcov j wt sj Ht Hj) as [|[|]]; eauto.
Qed.

Lemma started_ok k : started k → cluster_ok k.
Proof.
  intros (Hlen & Hnet & Hhist & Hall). split; [done| | | | |].
  - intros i s Hi. destruct (Hall s) as (Hr & Hok & Hst & Hch & Hca & Hv); [by eapply list_elem_of_lookup_2|].
    split; rewrite ?Hv, ?Hch; try done; [by intros p; rewrite Hst|].
    unfold joined. rewrite Hhist. by apply bot_least.
  - rewrite Hnet. by intros m ?%elem_of_nil.
  - rewrite Hhist. done.
  - rewrite Hhist. by intros w ?%elem_of_nil.
  - rewrite Hhist. by intros w ?%elem_of_nil.
Qed.

Lemma step_put_ok k i s s' w :
  cluster_ok k → nodes k !! i = Some s → valid w → w ≠ bot →
  let k' := mkCluster (<[i := s']> (nodes k)) (network k) (history k ++ [w]) in
  node_ok (joined k') s' → view (store s') key = do_merge (view (store s) key) w → key ∈ local_changeset s' →
  cluster_ok k'.
Proof.
  intros [Hlen Hns Hnet Hhist Hwr Hcov] Hi Hw Hwb k' Hok Hv Hch.
  assert (valid (joined k)) as Hj by by apply joined_valid.
  assert (joined k' = do_merge (joined k) w) as Hj' by apply joined_snoc.
  assert (lat_le (joined k) (joined k')) as Hle by (rewrite Hj'; by apply (lat_le_merge_l (valid:=valid))).
  assert (valid (joined k')) as Hvj' by (rewrite Hj'; by apply merge_valid).
  pose proof (node_valid _ _ (Hns i s Hi)) as Hvs.
  split; simpl.
  - by rewrite length_insert.
  - apply list_insert_all; [done|]. intros j sj Hsj. by apply (node_ok_mono (joined k)); [..|by eapply Hns].
  - intros m Hm. by apply (msg_ok_mono (joined k)), Hnet.
  - apply Forall_app. split; [done|by apply Forall_singleton].
  - intros w' [Hw'| ->%list_elem_of_singleton]%elem_of_app; auto.
  - intros w' [Hw'| ->%list_elem_of_singleton]%elem_of_app.
    + eapply (covered_grows _ _ i s); try done; [by eapply Forall_forall|by rewrite Hv; apply merge_valid| |by apply Hcov].
      rewrite Hv. by apply (lat_le_merge_l (valid:=valid)).
    + intros j wt sj Ht Hsj. right. left. exists i, s'.
      rewrite list_lookup_insert_eq by (by eapply lookup_lt_Some). split_and!; try done.
      rewrite Hv. by apply (lat_le_merge_r (valid:=valid)).
Qed.

Lemma step_get_ok k i s s' :
  cluster_ok k → nodes k !! i = Some s → node_ok (joined k) s' →
  view (store s') key = view (store s) key → local_changeset s' = local_changeset s →
  cluster_ok (mkCluster (<[i := s']> (nodes k)) (network k) (history k)).
Proof.
  intros [Hlen Hns Hnet Hhist Hwr Hcov] Hi Hok Hv Hch. pose proof (node_valid _ _ (Hns i s Hi)) as Hvs. split; simpl.
  - by rewrite length_insert.
  - by apply list_insert_all.
  - done.
  - done.
  - done.
  - intros w Hw. eapply (covered_grows _ _ i s); rewrite ?Hv, ?Hch; try done; [by eapply Forall_forall| |by apply Hcov].
    by apply (lat_le_refl (valid:=valid)).
Qed.

Lemma step_deliver_ok k i wt s s' before body after v :
  cluster_ok k → threads !! i = Some wt → nodes k !! i = Some s →
  network k = before ++ mkMsg (address wt) body :: after → tells key v body → valid v →
  node_ok (joined k) s' → view (store s') key = do_merge (view (store s) key) v →
  local_changeset s' = local_changeset s →
  cluster_ok (mkCluster (<[i := s']> (nodes k)) (before ++ after) (history k)).
Proof.
  intros [Hlen Hns Hnet Hhist Hwr Hcov] Ht Hi Hk Hoff Hvv Hok Hv Hch.
  pose proof (node_valid _ _ (Hns i s Hi)) as Hvs. split; simpl.
  - by rewrite length_insert.
  - by apply list_insert_all.
  - intros m Hm. apply Hnet. rewrite Hk. set_solver.
  - done.
  - done.
  - intros w Hw. assert (valid w) as Hvw by (by eapply Forall_forall).
    assert (covered (<[i := s']> (nodes k)) (network k) w) as Hcov'.
    { eapply (covered_grows _ _ i s); rewrite ?Hv, ?Hch; try done; [by apply merge_valid| |by apply Hcov].
      by apply (lat_le_merge_l (valid:=valid)). }
    intros j wtj sj Htj Hsj. destruct (Hcov' j wtj sj Htj Hsj) as [?|[?|(m & u & Hm & Hto & Hu & Hvu & Hle)]];
      [by left|by right; left|].
    rewrite Hk in Hm. apply elem_of_app in Hm as [Hm|[-> |Hm]%elem_of_cons].
    + right. right. exists m, u. set_solver.
    + left. simpl in Hto, Hu. assert (i = j) as <- by (by eapply threads_addresses).
      rewrite list_lookup_insert_eq in Hsj by (by eapply lookup_lt_Some). simplify_eq.
      rewrite (tells_inj _ _ _ Hu Hoff) in Hle. rewrite Hv.
      apply (lat_le_trans (valid:=valid) _ v); try done; [by apply merge_valid|by apply (lat_le_merge_r (valid:=valid))].
    + right. right. exists m, u. set_solver.
Qed.

Lemma step_gossip_ok k i wt s s' out :
  cluster_ok k → threads !! i = Some wt → nodes k !! i = Some s → node_ok (joined k) s' →
  view (store s') key = view (store s) key → local_changeset s' = ∅ →
  Forall (λ m, tells key (view (store s) key) (msg_body m)) out →
  (∀ a, a ∈ map msg_to out ↔ ∃ th, th ∈ threads ∧ ¬ th ≡ wt ∧ a = address th) →
  cluster_ok (mkCluster (<[i := s']> (nodes k)) (network k ++ out) (history k)).
Proof.
  intros [Hlen Hns Hnet Hhist Hwr Hcov] Ht Hi Hok Hv Hch Hoff Hto.
  pose proof (Hns i s Hi) as Hoks. rewrite Forall_forall in Hoff. split; simpl.
  - by rewrite length_insert.
  - by apply list_insert_all.
  - intros m [Hm|Hm]%elem_of_app; [by apply Hnet|].
    destruct (proj1 (Hto (msg_to m))) as (th & Hth & _ & Ha); [by apply list_elem_of_fmap; eauto|].
    exists (view (store s) key), th. split_and!; [done..|by apply Hoff|apply Hoks|apply Hoks].
  - done.
  - done.
  - intros w Hw j wtj sj Htj Hsj.
    assert (∀ sj0, nodes k !! j = Some sj0 → view (store sj) key = view (store sj0) key) as Hsame.
    { intros sj0 Hj0. apply list_lookup_insert_Some in Hsj as [(<- & <- & _)|[_ Hsj]]; by simplify_eq. }
    destruct (lookup_lt_is_Some_2 (nodes k) j) as [sj0 Hj0].
    { rewrite Hlen. by eapply lookup_lt_Some. }
    rewrite (Hsame sj0 Hj0).
    destruct (Hcov w Hw j wtj sj0 Htj Hj0) as [?|[(n & sn & Hn & Hin & Hwn)|(m & u & Hm & Hrest)]]; [by left| |].
    + destruct (decide (n = i)) as [-> |Hne].
      2:{ right. left. exists n, sn. by rewrite list_lookup_insert_ne. }
      simplify_eq. destruct (decide (j = i)) as [-> |Hji]; [simplify_eq; by left|]. right. right.
      assert (address wtj ∈ map msg_to out) as (m & Ha & Hm)%list_elem_of_fmap.
      { apply Hto. exists wtj. split_and!; [by eapply list_elem_of_lookup_2| |done].
        intros Heq. by apply Hji, (threads_ids _ _ wtj wt). }
      exists m, (view (store s) key). split_and!; [by apply elem_of_app; right|done|by apply Hoff|apply Hoks|done].
    + right. right. exists m, u. split; [by apply elem_of_app; left|done].
Qed.

(** *** Runs *)

(** The replicas that have something to gossip may each send a message to
    every other one, and every message in flight is still to be delivered. *)
Definition changed s : Prop := local_changeset s ≠ ∅.
Definition budget k : nat := length threads * length (filter changed (nodes k)) + length (network k).

Lemma changed_key b s : node_ok b s → changed s → key ∈ local_changeset s.
Proof. intros [_ _ _ Hc _ _ _ _ _] (x & Hx)%set_choose_L. by pose proof (Hc x Hx) as <-%elem_of_singleton. Qed.

Lemma background_gossip k i wt s s' out :
  cluster_ok k → threads !! i = Some wt → nodes k !! i = Some s → changed s →
  let k' := mkCluster (<[i := s']> (nodes k)) (network k ++ out) (history k) in
  gossip_round wt s = Ok (tt, s', out) → cluster_ok k' ∧ (budget k' < budget k)%nat.
Proof.
  intros Hk Ht Hi Hch k' Heq.
  pose proof (ok_nodes k Hk i s Hi) as Hok. pose proof (list_elem_of_lookup_2 _ _ _ Ht) as Hin.
  destruct (threads_replicas threads_ok wt Hin) as [_ Hrep].
  pose proof (wp_run _ _ _ _ _ _ (node_gossip wt threads (joined k) s Hin Hrep Hok (changed_key _ s Hok Hch)) Heq)
    as (Hok' & Hv & Hch' & Hlen & Hoff & Hto).
  split; [by eapply step_gossip_ok|]. unfold budget, k'. simpl. rewrite length_app.
  pose proof (length_filter_insert changed (nodes k) i s s' Hi) as Hf.
  rewrite (decide_True (P:=changed s)), (decide_False (P:=changed s')) in Hf by (done || by intros []). nia.
Qed.

Lemma background_deliver k i wt s s' before body after out :
  cluster_ok k → threads !! i = Some wt → nodes k !! i = Some s →
  network k = before ++ mkMsg (address wt) body :: after →
  let k' := mkCluster (<[i := s']> (nodes k)) (before ++ after ++ out) (history k) in
  gossip_handler c wt body s = Ok (tt, s', out) → cluster_ok k' ∧ (budget k' < budget k)%nat.
Proof.
  intros Hk Ht Hi Hnet k' Heq. pose proof (ok_nodes k Hk i s Hi) as Hok.
  destruct (threads_replicas threads_ok wt (list_elem_of_lookup_2 _ _ _ Ht)) as [Hown _].
  destruct (ok_network k Hk (mkMsg (address wt) body)) as (v & _ & _ & _ & Hoff & Hv & Hle).
  { rewrite Hnet. set_solver. }
  assert (valid (joined k)) as Hj by apply joined_valid, Hk.
  pose proof (wp_run _ _ _ _ _ _ (node_deliver wt v body (joined k) s Hoff Hv Hj Hle Hown Hok) Heq)
    as (Hok' & Hm & Hch & ->). unfold k'. rewrite app_nil_r.
  split; [by eapply step_deliver_ok|]. unfold budget. rewrite Hnet. simpl. rewrite !length_app. simpl.
  pose proof (length_filter_insert changed (nodes k) i s s' Hi) as Hf.
  assert (changed s' ↔ changed s) as Hiff by (unfold changed; by rewrite Hch).
  destruct (decide (changed s)), (decide (changed s')); tauto || lia.
Qed.

Lemma background_ok k k' :
  cluster_ok k → background k k' → cluster_ok k' ∧ (budget k' < budget k)%nat ∧ history k' = history k.
Proof.
  intros Hk [i wt s s' out Ht Hi Hch Heq|i wt s s' before body after out Ht Hi Hnet Heq].
  - by destruct (background_gossip k i wt s s' out).
  - by destruct (background_deliver k i wt s s' before body after out).
Qed.

Lemma background_run_ok k k' :
  rtc background k k' → cluster_ok k → cluster_ok k' ∧ history k' = history k.
Proof.
  induction 1 as [k|k k1 k2 Hstep Hrun IH]; intros Hk; [done|].
  destruct (background_ok k k1 Hk Hstep) as (Hk1 & _ & <-). by apply IH.
Qed.

Lemma step_ok k k' : cluster_ok k → step k k' → cluster_ok k'.
Proof.
  intros Hk Hstep. destruct Hstep as [i wt s s' now serialized tuple addr id out Ht Hi Hreq Hkey Hty Ha Hw Hwb Heq
    |i wt s s' now serialized tuple addr id out Ht Hi Hreq Hkey Haddr Heq|k' Hbg].
  3:{ by apply (background_ok k). }
  all: destruct (threads_replicas threads_ok wt (list_elem_of_lookup_2 _ _ _ Ht)) as [Hown _];
    pose proof (ok_nodes k Hk i s Hi) as Hok; assert (valid (joined k)) as Hj by apply joined_valid, Hk.
  - set (b := do_merge (joined k) (decode (KeyTuple.payload tuple))).
    assert (valid b) as Hb by by apply merge_valid.
    assert (node_ok b s) as Hokb.
    { apply (node_ok_mono (joined k)); try done. by apply (lat_le_merge_l (valid:=valid)). }
    eapply wp_run in Heq; [|eapply (node_put wt now serialized tuple addr id b s); try done;
      by apply (lat_le_merge_r (valid:=valid))].
    destruct Heq as (Hok' & Hv & Hch). apply (step_put_ok k i s); try done.
    unfold b in Hok'. by rewrite <-joined_snoc in Hok'.
  - eapply wp_run in Heq; [|by eapply (node_get wt now serialized tuple addr id (joined k) s)].
    destruct Heq as (Hok' & Hv & Hch). by apply (step_get_ok k i s).
Qed.

Lemma reached_ok k : reached k → cluster_ok k.
Proof. intros (k0 & Hk0%started_ok & Hrun). induction Hrun; [done|]. eauto using step_ok. Qed.

(** Every replica takes a write at any time. *)
Lemma put_possible k i wt (now : Z) serialized tuple addr id :
  cluster_ok k → threads !! i = Some wt →
  parse serialized = KeyRequest.mk PUT [tuple] addr id → KeyTuple.key tuple = key →
  KeyTuple.lattice_type tuple = type → accepts (KeyTuple.payload tuple) →
  let w := decode (KeyTuple.payload tuple) in valid w → w ≠ bot →
  ∃ k', step k k' ∧ history k' = history k ++ [w].
Proof.
  intros Hk Ht Hreq Hkey Hty Ha w Hw Hwb. destruct (lookup_lt_is_Some_2 (nodes k) i) as [s Hi].
  { rewrite (ok_length k Hk). by eapply lookup_lt_Some. }
  destruct (threads_replicas threads_ok wt (list_elem_of_lookup_2 _ _ _ Ht)) as [Hown _].
  assert (valid (joined k)) as Hj by apply joined_valid, Hk.
  destruct (node_put wt now serialized tuple addr id (do_merge (joined k) w) s) as ([] & s' & out & Heq & _); try done.
  - by apply merge_valid.
  - by apply (lat_le_merge_r (valid:=valid)).
  - apply (node_ok_mono (joined k)); [done|by apply merge_valid|by apply (lat_le_merge_l (valid:=valid))|].
    by eapply ok_nodes.
  - eexists. split; [by eapply step_put|]. done.
Qed.

(** A replica with changes can gossip, a message in flight can be delivered. *)
Lemma background_possible k : cluster_ok k → settled k ∨ ∃ k', background k k'.
Proof.
  intros Hk. destruct (decide (Forall (λ s, local_changeset s = ∅) (nodes k))) as [Hall|Hch].
  - destruct (network k) as [|[a body] net] eqn:Hnet.
    { left. split; [done|]. by apply Forall_forall. }
    right. destruct (ok_network k Hk (mkMsg a body)) as (v & wt & Hin & Ha & Hoff & Hv & Hle).
    { rewrite Hnet. by left. }
    simpl in Ha. subst a. destruct (list_elem_of_lookup_1 _ _ Hin) as [i Ht].
    destruct (lookup_lt_is_Some_2 (nodes k) i) as [s Hi].
    { rewrite (ok_length k Hk). by eapply lookup_lt_Some. }
    destruct (threads_replicas threads_ok wt Hin) as [Hown _].
    assert (valid (joined k)) as Hj by apply joined_valid, Hk.
    destruct (node_deliver wt v body (joined k) s Hoff Hv Hj Hle Hown (ok_nodes k Hk i s Hi))
      as ([] & s' & out & Heq & _).
    eexists. by apply (bg_deliver k i wt s s' [] body net out).
  - right. apply not_Forall_Exists in Hch as Hch; [|apply _].
    apply Exists_exists in Hch as (s & (i & Hi)%list_elem_of_lookup & Hch).
    destruct (lookup_lt_is_Some_2 threads i) as [wt Ht].
    { rewrite <-(ok_length k Hk). by eapply lookup_lt_Some. }
    pose proof (ok_nodes k Hk i s Hi) as Hok. pose proof (list_elem_of_lookup_2 _ _ _ Ht) as Hin.
    destruct (threads_replicas threads_ok wt Hin) as [_ Hrep].
    destruct (node_gossip wt threads (joined k) s Hin Hrep Hok (changed_key _ s Hok Hch)) as ([] & s' & out & Heq & _).
    eexists. by apply (bg_gossip k i wt s s' out).
Qed.

Lemma eventually_settled k : cluster_ok k → ∃ k', rtc background k k' ∧ settled k'.
Proof.
  remember (budget k) as n eqn:Hn. revert k Hn. induction (lt_wf n) as [n _ IH]. intros k -> Hk.
  destruct (background_possible k Hk) as [Hq|[k1 Hstep]]; [by exists k|].
  destruct (background_ok k k1 Hk Hstep) as (Hk1 & Hlt & _).
  destruct (IH (budget k1) Hlt k1 eq_refl Hk1) as (k' & Hrun & Hq). exists k'. split; [by eapply rtc_l|done].
Qed.

Lemma joined_not_bot k : cluster_ok k → history k ≠ [] → joined k ≠ bot.
Proof.
  intros Hk Hne Heq. destruct (history k) as [|w ws] eqn:Hh; [done|].
  assert (w ∈ history k) as Hw by (rewrite Hh; by left). apply (ok_written k Hk w Hw).
  assert (valid w) as Hvw by (eapply Forall_forall; [apply Hk|done]).
  apply (lat_le_antisym (valid:=valid)); [done..| |by apply bot_least]. rewrite <-Heq.
  apply (merge_all_ub (valid:=valid) bot (history k)); [done|apply Hk|done].
Qed.

Lemma settled_agrees k s : cluster_ok k → settled k → s ∈ nodes k → view (store s) key = joined k.
Proof.
  intros Hk [Hnet Hch] Hs. destruct (list_elem_of_lookup_1 _ _ Hs) as [i Hi].
  destruct (lookup_lt_is_Some_2 threads i) as [wt Ht].
  { rewrite <-(ok_length k Hk). by eapply lookup_lt_Some. }
  pose proof (ok_nodes k Hk i s Hi) as Hok. assert (valid (joined k)) as Hj by apply joined_valid, Hk.
  apply (lat_le_antisym (valid:=valid)); [apply Hok|done|apply Hok|].
  apply (merge_all_lub (valid:=valid)); [done|apply Hk|apply Hok|apply bot_least, Hok|].
  intros w Hw. destruct (ok_covered k Hk w Hw i wt s Ht Hi) as [?|[(j & sj & Hj' & Hin & _)|(m & v & Hm & _)]]; [done|..].
  - rewrite (Hch sj) in Hin by (by eapply list_elem_of_lookup_2). by apply not_elem_of_empty in Hin.
  - rewrite Hnet in Hm. by apply elem_of_nil in Hm.
Qed.

(** C1: strong eventual consistency.  However the writes and reads of clients
    at the replicas of a key, the gossip rounds and the deliveries of gossip
    are interleaved, and whatever order messages arrive in, once no replica has
    changes to gossip and nothing is in flight every replica holds the merge of
    all the values written, and a GET at any of them is answered with it. *)
Theorem cluster_converges k i wt s now serialized tuple addr id :
  reached k → settled k → history k ≠ [] →
  threads !! i = Some wt → nodes k !! i = Some s →
  parse serialized = KeyRequest.mk GET [tuple] addr id → KeyTuple.key tuple = key → addr ≠ "" →
  view (store s) key = merge_all bot (history k) ∧
  wp (user_request_handler c wt now serialized) s (λ _ _ out,
    ∃ tp, out = [mkMsg addr (SerializeToString (KeyResponse.mk GET [tp] id NO_ERROR))] ∧
      KeyTuple.error tp = NO_ERROR ∧ decode (KeyTuple.payload tp) = merge_all bot (history k)).
Proof.
  intros Hk%reached_ok Hq Hne Ht Hi Hreq Hkey Haddr.
  pose proof (settled_agrees k s Hk Hq (list_elem_of_lookup_2 _ _ _ Hi)) as Hv. split; [done|].
  pose proof (ok_nodes k Hk i s Hi) as [Hr _ _ _ _ Hvalid _ Hkept _].
  destruct (threads_replicas threads_ok wt (list_elem_of_lookup_2 _ _ _ Ht)) as [Hown _].
  assert (view (store s) key ≠ bot) as Hnb.
  { rewrite Hv. by apply joined_not_bot. }
  destruct (gives_key _ Hvalid Hnb (store s) (proj2 Hr) eq_refl) as [Hfound _].
  eapply wp_mono; [eapply (wp_user_get c wt R type ser inv view decode accepts ser_type); try done|].
  { by rewrite Hkey. }
  { rewrite Hkey. by apply Hkept. }
  cbv beta. rewrite Hkey. intros [] s' out (_ & _ & _ & tp & -> & _ & _ & Herr & Hval). exists tp. split; [done|].
  destruct Hval as [[He Hval]|He]; [by rewrite Hval, Hv|]. destruct Hfound. by rewrite <-Herr.
Qed.

(** C2: the replicas settle.  From every state the cluster can reach, the
    gossip rounds and deliveries that can follow one another without a new
    request are bounded in number, whatever their order; none of the handlers
    fails; and when none is possible any more, every replica holds the merge of
    all the values written. *)
Theorem cluster_settles k :
  reached k →
  (∀ n k', nsteps background n k k' → (n ≤ budget k)%nat) ∧
  ∀ k', rtc background k k' →
    (∃ k'', background k' k'') ∨
    settled k' ∧ ∀ s, s ∈ nodes k' → view (store s) key = merge_all bot (history k).
Proof.
  intros Hk%reached_ok. split.
  - intros n k' Hrun. revert Hk. induction Hrun as [k|n k k1 k2 Hstep Hrun IH]; intros Hk; [lia|].
    destruct (background_ok k k1 Hk Hstep) as (Hk1 & Hlt & _). specialize (IH Hk1). lia.
  - intros k' Hrun. assert (cluster_ok k' ∧ history k' = history k) as [Hk' Hh].
    { by apply background_run_ok. }
    destruct (background_possible k' Hk') as [Hq|Hstep]; [right|by left]. split; [done|].
    intros s Hs. rewrite (settled_agrees k' s Hk' Hq Hs). unfold joined. by rewrite Hh.
Qed.
End replica.

(** ** Two replicas in memory, for concrete instances of the theorems *)
Module ExampleCluster.
#[local] Existing Instance bit_protobuf.
#[local] Existing Instance ExampleRing.toy_hash.
#[local] Existing Instance memory_serializers.
#[local] Existing Instance ExampleServer.still.
#[local] Existing Instance ExampleLoop.both.
#[local] Existing Instance memory_serializers_laws.
#[local] Existing Instance ExampleServer.lww_ser_laws.
#[local] Instance requests_carried : ProtoLaws KeyRequest.t (λ _, True) KeyRequest.empty := BitCodec.codec_laws _.
Import ExampleServer(lww_ser, lww_inv, lww_view, writes, payload, request).
Import LWWPairLattice(mkTVP, TimestampValuePair).

(** The history in which time 7 wrote "v" and time 8 "w"; an empty value is
    no value. *)
Definition proper (p : TimestampValuePair string) : Prop :=
  LWWPairLattice.written writes p ∧ 0 ≤ LWWPairLattice.timestamp p ∧ (LWWPairLattice.value p = "" → p = bot).

#[local] Instance proper_laws : LatticeLaws (TimestampValuePair string) proper.
Proof.
  apply (laws_restrict (valid:=LWWPairLattice.written writes)); [by intros p []|].
  intros x y Hx Hy. rewrite LWWPairLattice.do_merge_cases. by case_bool_decide.
Qed.

Lemma proper_bot : proper bot.
Proof. by split_and!. Qed.

Lemma proper_least x : proper x → lat_le bot x.
Proof. intros (_ & Hts & _). by apply LWWPairLattice.do_merge_bot. Qed.

Lemma proper_gives v : proper v → v ≠ bot → gives lww_ser lww_inv lww_view (λ _, True) "k" v.
Proof.
  intros (_ & _ & Hv) Hne st _ Heq. split; [|done]. apply ExampleGossip.lww_found. rewrite Heq.
  unfold lww_missing. apply bool_decide_eq_false_2. intros He. by apply Hne, Hv.
Qed.

Lemma two_threads : cluster_threads ExampleLoop.config ExampleLoop.R "k" ExampleLoop.two.
Proof.
  split.
  - intros wt Hin. assert (contains_thread ExampleLoop.two wt = true) as Hc.
    { unfold ExampleLoop.two in Hin. apply elem_of_cons in Hin as [-> | ->%list_elem_of_singleton]; reflexivity. }
    split; [exists false, ExampleLoop.two|exists false]; (split_and!; [reflexivity|try done..]);
      intros r _; by eexists _, _, _.
  - simpl. apply NoDup_cons. split; [|apply NoDup_singleton]. by intros ?%list_elem_of_singleton.
  - intros wt [-> | ->%list_elem_of_singleton]%elem_of_cons; done.
Qed.

Definition empty_server : ServerState MemoryStores :=
  mkServerState (mkRingState ∅ ∅ ∅ 0 0) ExampleServer.no_stores ∅ ∅ ∅ ∅ 0 ∅ ∅ ∅ ∅ ∅ ∅ 0.
Abbreviation LWWCluster := (Cluster (Store:=MemoryStores) (V:=TimestampValuePair string)).
Definition start : LWWCluster := mkCluster [empty_server; empty_server] [] [].
Abbreviation cluster_reached := (@reached MemoryStores _ bit_protobuf _ _ ExampleLoop.both ExampleLoop.config
  ExampleLoop.R _ _ LWW lww_inv lww_view deserialize_lww (λ _, True) proper "k" ExampleLoop.two).

Lemma start_started :
  started (V:=TimestampValuePair string) ExampleLoop.R lww_inv lww_view "k" ExampleLoop.two start.
Proof.
  split_and!; [done..|]. intros s Hs. assert (s = empty_server) as ->.
  { by apply elem_of_cons in Hs as [-> | ->%list_elem_of_singleton]. }
  by split_and!.
Qed.

(** A client writes "v" at one replica, another "w" at the other. *)
Definition put_k (ts : Z) (v : string) : string := SerializeToString (request PUT LWW (payload ts v)).

Lemma reached_put k i wt ts v :
  cluster_reached k → ExampleLoop.two !! i = Some wt →
  proper (mkTVP ts v) → mkTVP ts v ≠ bot →
  ∃ k', cluster_reached k' ∧ history k' = history k ++ [mkTVP ts v].
Proof.
  intros Hk Ht Hp Hne. pose proof (ExampleServer.parse_payload ts v) as Hd.
  destruct (put_possible (carries:=λ _, True) (λ _, I) ExampleLoop.config ExampleLoop.R LWW lww_ser lww_inv lww_view deserialize_lww (λ _, True)
    eq_refl proper proper_bot proper_least "k" proper_gives ExampleLoop.two two_threads k i wt 17 (put_k ts v)
    (KeyTuple.mk "k" LWW NO_ERROR (payload ts v) 0 false) "tcp://client:6800" "client:1")
    as (k' & Hstep & Hh); try done.
  - by apply (reached_ok (carries:=λ _, True) (λ _, I) ExampleLoop.config ExampleLoop.R LWW lww_ser lww_inv lww_view deserialize_lww (λ _, True)
    eq_refl proper proper_bot proper_least "k" proper_gives ExampleLoop.two two_threads).
  - apply ExampleServer.parse_request.
  - simpl. by rewrite Hd.
  - simpl. by rewrite Hd.
  - exists k'. simpl in Hh. rewrite Hd in Hh. split; [|done].
    destruct Hk as (k0 & H0 & Hrun). exists k0. split; [done|]. by eapply rtc_r.
Qed.

Definition both_written : list (TimestampValuePair string) := [mkTVP 7 "v"; mkTVP 8 "w"].

Lemma reached_both : ∃ k, cluster_reached k ∧ history k = both_written.
Proof.
  assert (cluster_reached start) as H0 by (exists start; split; [apply start_started|done]).
  destruct (reached_put start 0 ExampleRing.st_a 7 "v") as (k1 & H1 & Hh1); try done.
  destruct (reached_put k1 1 ExampleRing.st_b 8 "w") as (k2 & H2 & Hh2); try done.
  exists k2. split; [done|]. by rewrite Hh2, Hh1.
Qed.

Lemma settled_both : ∃ k, cluster_reached k ∧ settled k ∧ history k = both_written.
Proof.
  destruct reached_both as (k & Hk & Hh).
  pose proof (reached_ok (carries:=λ _, True) (λ _, I) ExampleLoop.config ExampleLoop.R LWW lww_ser lww_inv lww_view
    deserialize_lww (λ _, True) eq_refl proper proper_bot proper_least "k" proper_gives ExampleLoop.two two_threads k Hk) as Hok.
  destruct (eventually_settled (carries:=λ _, True) (λ _, I) ExampleLoop.config ExampleLoop.R LWW lww_ser lww_inv lww_view
    deserialize_lww (λ _, True) eq_refl proper proper_bot proper_least "k" proper_gives ExampleLoop.two two_threads k Hok) as (k' & Hrun & Hq).
  pose proof (background_run_ok (carries:=λ _, True) (λ _, I) ExampleLoop.config ExampleLoop.R LWW lww_ser lww_inv lww_view
    deserialize_lww (λ _, True) eq_refl proper proper_bot proper_least "k" proper_gives ExampleLoop.two two_threads k k' Hrun Hok) as [_ Hh'].
  exists k'. split; [|split; [done|congruence]]. destruct Hk as (k0 & H0 & Hsteps). exists k0. split; [done|].
  etrans; [done|]. eapply rtc_subrel; [|done]. intros k1 k2. apply step_background.
Qed.

(** Both replicas answer a GET with "w" of time 8. *)
Lemma cluster_converges_witness :
  ∃ k : LWWCluster, cluster_reached k ∧ history k = both_written ∧
    ∀ i wt s, ExampleLoop.two !! i = Some wt → nodes k !! i = Some s →
      lww_view (store s) "k" = mkTVP 8 "w" ∧
      wp (user_request_handler ExampleLoop.config wt 17 (SerializeToString (request GET NONE EmptyString))) s
        (λ _ _ out, ∃ tp,
          out = [mkMsg "tcp://client:6800" (SerializeToString (KeyResponse.mk GET [tp] "client:1" NO_ERROR))] ∧
          KeyTuple.error tp = NO_ERROR ∧ deserialize_lww (KeyTuple.payload tp) = mkTVP 8 "w").
Proof.
  destruct settled_both as (k & Hk & Hq & Hh). exists k. split; [exact Hk|]. split; [exact Hh|]. intros i wt s Ht Hi.
  change (mkTVP 8 "w") with (merge_all bot both_written). rewrite <-Hh.
  apply (cluster_converges (carries:=λ _, True) (λ _, I) ExampleLoop.config ExampleLoop.R LWW lww_ser lww_inv lww_view
    deserialize_lww (λ _, True) eq_refl proper proper_bot proper_least "k" proper_gives ExampleLoop.two two_threads
    k i wt s 17 (SerializeToString (request GET NONE EmptyString))
    (KeyTuple.mk "k" NONE NO_ERROR EmptyString 0 false)); try assumption.
  - rewrite Hh. discriminate.
  - apply ExampleServer.parse_request.
  - reflexivity.
  - discriminate.
Defined.

(** From where both writes have just been handled. *)
Lemma cluster_settles_witness :
  ∃ k : LWWCluster, cluster_reached k ∧ history k = both_written ∧
    (∀ n k', nsteps (background ExampleLoop.config ExampleLoop.two) n k k' → (n ≤ budget ExampleLoop.two k)%nat) ∧
    ∀ k', rtc (background ExampleLoop.config ExampleLoop.two) k k' →
      (∃ k'', background ExampleLoop.config ExampleLoop.two k' k'') ∨
      settled k' ∧ ∀ s, s ∈ nodes k' → lww_view (store s) "k" = mkTVP 8 "w".
Proof.
  destruct reached_both as (k & Hk & Hh). exists k. split; [exact Hk|]. split; [exact Hh|].
  change (mkTVP 8 "w") with (merge_all bot both_written). rewrite <-Hh.
  exact (cluster_settles (carries:=λ _, True) (λ _, I) ExampleLoop.config ExampleLoop.R LWW lww_ser lww_inv lww_view
    deserialize_lww (λ _, True) eq_refl proper proper_bot proper_least "k" proper_gives ExampleLoop.two two_threads k Hk).
Defined.
End ExampleCluster.
