(* ===== verification/Handover.v ===== *)
(** Handing keys over: what a departing thread, a thread that lost keys to a
    new node and a thread told of a change of replication send, and what the
    threads that receive it hold afterwards. *)

From S2P Require Import Prelude Text Ordered Lattices ValueLattices Threads Wire WireCodec.
From S2P Require Import Codec Metadata KVStore DiskStore HashRing RingUtil ServerState.
From S2P Require Import UserRequest Replication Handlers ServerLoop Gossip.
From Stdlib Require Import Lia.

(** ** Receiving several keys *)
Section receive.
Context {Store : Type} `{SerializerMapLaws Store} `{Protobuf} `{StdHash} `{Random}.
Context `{HashRingUtilInterface} `{!ProtoLaws KeyRequest.t carries dflt} (all_carried : ∀ r, carries r).
Context (c : Config) (wt : ServerThread.t) (R : RingState → Prop).
Context {V : Type} `{Lattice V} (type : LatticeType) (ser : Serializer Store).
Context (inv : Store → Prop) (view : Store → Key → V) (decode : string → V).
Context (accepts : string → Prop) `{!SerializerLaws ser inv view decode accepts}.
Hypothesis ser_type : serializer_at type = Some ser.
Implicit Types s : ServerState Store.

(** The thread takes gossip about [key]. *)
Definition takes s (key : Key) : Prop := owns c wt R key ∧ typed type key s.

(** [s'] holds the values of [s] with those of [keys] merged with [value]. *)
Definition merged_keys (value : Key → V) (keys : list Key) s s' : Prop :=
  ∀ k, view (store s') k = if decide (k ∈ keys) then do_merge (view (store s) k) (value k) else view (store s) k.

Definition tuple_of (kp : Key * string) : KeyTuple.t :=
  KeyTuple.set_payload kp.2 (KeyTuple.set_lattice_type type (KeyTuple.set_key kp.1 KeyTuple.empty)).

Lemma put_request_tuples kps : KeyRequest.tuples (put_request type kps) = map tuple_of kps.
Proof.
  unfold put_request. induction kps as [|kp kps IH] using rev_ind; [done|].
  by rewrite foldl_app, map_app, <-IH.
Qed.

Lemma wp_gossip_tuples value kps gm s :
  NoDup kps.*1 → Forall (λ kp, accepts kp.2 ∧ decode kp.2 = value kp.1) kps →
  ready R inv s → (∀ k, k ∈ kps.*1 → takes s k) →
  wp (for_acc (map tuple_of kps) gm (gossip_tuple c wt)) s (λ gm' s' out,
    gm' = gm ∧ ready R inv s' ∧ merged_keys value kps.*1 s s' ∧
    (∀ k, k ∈ kps.*1 → stored_type s' k = Some type) ∧
    (∀ k, k ∉ kps.*1 → stored_key_map s' !! k = stored_key_map s !! k) ∧ out = []).
Proof.
  revert s. induction kps as [|[k p] kps IH]; intros s Hnd Hps Hr Hall; cbn [map for_acc].
  { wp_step. split_and!; try done. by intros k ?%elem_of_nil. }
  apply NoDup_cons in Hnd as [Hk Hnd]. apply Forall_cons in Hps as [[Ha Hv] Hps]. simpl in Ha, Hv, Hk.
  destruct (Hall k) as [Hown Hty]; [by left|]. wp_step.
  eapply wp_mono; [by apply (wp_gossip_tuple c wt R type ser inv view decode accepts ser_type k)|].
  cbv beta. intros gm' s1 out (-> & Hr1 & _ & Hm & (_ & _ & Hst & Hsame) & ->).
  eapply wp_mono; [apply IH; try done|].
  - intros k' Hk'. assert (k' ≠ k) by (by intros ->). destruct (Hall k') as [? Hty']; [by right|].
    split; [done|]. intros q. rewrite Hsame by done. apply Hty'.
  - cbv beta. intros gm' s' out (-> & Hr' & Hm' & Hst' & Hsame' & ->). split_and!; try done.
    + intros k'. rewrite Hm', Hm. simpl in *. destruct (decide (k' = k)) as [-> |Hne].
      * rewrite decide_False by done. rewrite (decide_True (P:=k ∈ k :: _)) by (by left). by rewrite Hv.
      * destruct (decide (k' ∈ kps.*1)); [rewrite decide_True by (by right)|rewrite decide_False by set_solver]; done.
    + intros k' [-> |Hk']%elem_of_cons; [|by apply Hst']. simpl. unfold stored_type. by rewrite Hsame'.
    + intros k' Hk'. simpl in Hk'. rewrite Hsame', Hsame by set_solver. done.
Qed.

(** Receiving an offer of different keys. *)
Lemma wp_gossip_offer value keys req s :
  offers type decode accepts value keys req → NoDup keys → ready R inv s → (∀ k, k ∈ keys → takes s k) →
  wp (gossip_handler c wt (SerializeToString req)) s (λ _ s' out,
    ready R inv s' ∧ merged_keys value keys s s' ∧ (∀ k, k ∈ keys → stored_type s' k = Some type) ∧ out = []).
Proof.
  intros (kps & <- & -> & Hps) Hnd Hr Hall. unfold gossip_handler. cbv zeta. rewrite parse_serialize' by done.
  rewrite put_request_tuples. wp_step. eapply wp_mono; [by eapply (wp_gossip_tuples value)|].
  cbv beta. intros gm s' out (-> & Hr' & Hm & Hst & _ & ->). unfold send_all. rewrite map_to_list_empty. simpl.
  by wp_step.
Qed.
End receive.

(** A message that hands keys over: [given k th] says that [th] gets [k].  A
    thread at the address [th], in order and responsible for the keys given to
    this address, returns from the message with each of its keys stored and
    [value] merged in. *)
Section handed.
Context {Store : Type} `{SerializerMapLaws Store} `{Protobuf} `{StdHash} `{Random}.
Context `{HashRingUtilInterface} `{!ProtoLaws KeyRequest.t carries dflt} (all_carried : ∀ r, carries r).
Context {V : Type} `{Lattice V} (type : LatticeType) (ser : Serializer Store).
Context (inv : Store → Prop) (view : Store → Key → V) (decode : string → V).
Context (accepts : string → Prop) `{!SerializerLaws ser inv view decode accepts}.
Hypothesis ser_type : serializer_at type = Some ser.

Definition handed (value : Key → V) (given : Key → ServerThread.t → Prop) (th : ServerThread.t) (body : string) : Prop :=
  ∀ c R (r : ServerState Store), ready R inv r →
    (∀ k th', given k th' → ServerThread.gossip_connect_address th' = ServerThread.gossip_connect_address th →
       takes c th R type r k) →
    wp (gossip_handler c th body) r (λ _ r' _, ∀ k, given k th →
      stored_type r' k = Some type ∧ view (store r') k = do_merge (view (store r) k) (value k)).

Lemma offer_handed value given th (keys : gset Key) req :
  offers type decode accepts value (elements keys) req →
  (∀ k, k ∈ keys ↔ ∃ th', given k th' ∧ ServerThread.gossip_connect_address th = ServerThread.gossip_connect_address th') →
  handed value given th (SerializeToString req).
Proof.
  intros Hoff Hkeys c R r Hready Htakes.
  eapply wp_mono; [apply (wp_gossip_offer all_carried c th R type ser inv view decode accepts ser_type
    value (elements keys)); [done|apply NoDup_elements|done|]|].
  { intros k (th' & Hg & Heq)%elem_of_elements%Hkeys. by apply (Htakes k th'). }
  cbv beta. intros [] r1 _ (_ & Hv & Hst & _) k Hg.
  assert (k ∈ elements keys) by (apply elem_of_elements, Hkeys; eauto).
  split; [by apply Hst|]. by rewrite Hv, decide_True.
Qed.
End handed.

(** ** Work lists *)
Lemma gossip_to_waiting (threads : list ServerThread.t) key m a k :
  k ∈ map_get ∅ (gossip_to threads key m) a ↔
  k ∈ map_get ∅ m a ∨ k = key ∧ ∃ th, th ∈ threads ∧ a = ServerThread.gossip_connect_address th.
Proof.
  unfold gossip_to. revert m. induction threads as [|th threads IH]; intros m; simpl.
  { split; [by left|]. intros [?|(_ & ? & ?%elem_of_nil & _)]; done. }
  rewrite IH. unfold keyset_insert, map_get. setoid_rewrite elem_of_cons.
  destruct (decide (a = ServerThread.gossip_connect_address th)) as [-> |Hne].
  - rewrite lookup_insert_eq. simpl. set_solver.
  - rewrite lookup_insert_ne by done. set_solver.
Qed.

Lemma waiting_lookup (m : AddressKeysetMap) a k : k ∈ map_get ∅ m a → ∃ keys, m !! a = Some keys ∧ k ∈ keys.
Proof. unfold map_get. destruct (m !! a) as [keys|]; [by exists keys|set_solver]. Qed.

Lemma stored_keys_elem {Store} (s : ServerState Store) k : k ∈ (map_to_list (stored_key_map s)).*1 ↔ k ∈ dom (stored_key_map s).
Proof.
  rewrite elem_of_dom, list_elem_of_fmap. split.
  - intros ([k' p] & -> & Hp%elem_of_map_to_list). by exists p.
  - intros [p Hp]. exists (k, p). split; [done|]. by apply elem_of_map_to_list.
Qed.

(** Steps that only send. *)
Lemma wp_sends {S A} (l : list A) (f : A → M S unit) s :
  (∀ x s', wp (f x) s' (λ _ s'' _, s'' = s')) → wp (for_each l f) s (λ _ s' _, s' = s).
Proof. intros Hf. apply (wp_for_each (λ _ s' _, s' = s)); [done|]. intros xs x s' out _ ->. apply Hf. Qed.

Ltac wp_sends := wp_step; eapply wp_mono; [apply wp_sends; intros; by wp_step|intros _ ? ? ->].

(** ** Departure *)
Section departure.
Context {Store : Type} `{SerializerMapLaws Store} `{Protobuf} `{StdHash} `{Random}.
Context `{HashRingUtilInterface} `{!ProtoLaws KeyRequest.t carries dflt} (all_carried : ∀ r, carries r).
Context (c : Config) (wt : ServerThread.t) (R : RingState → Prop).
Context {V : Type} `{Lattice V} (type : LatticeType) (ser : Serializer Store).
Context (inv : Store → Prop) (view : Store → Key → V) (decode : string → V).
Context (accepts : string → Prop) `{!SerializerLaws ser inv view decode accepts}.
Hypothesis ser_type : serializer_at type = Some ser.
Notation address := ServerThread.gossip_connect_address.
Implicit Types s : ServerState Store.

(** The rings without this node. *)
Definition rings_without_self (r : RingState) : RingState := set_global_hash_rings
  (<[kSelfTier c := HashRing.remove GlobalHasher (ServerThread.public_ip wt) (ServerThread.private_ip wt) 0
       (map_get HashRing.empty (global_hash_rings r) (kSelfTier c))]> (global_hash_rings r)) r.

Lemma wp_announce_departure routing_ips monitoring_ips serialized s :
  wp (announce_departure c wt routing_ips monitoring_ips serialized) s (λ _ s' _, s' = s).
Proof.
  unfold announce_departure, tell_workers. wp_step. wp_step. do 3 wp_sends.
  apply wp_sends. intros. by wp_step.
Qed.

(** The keys of every address, after all were looked up. *)
Lemma wp_departure_targets (threads : Key → list ServerThread.t) keys s :
  R (rings s) → (∀ k, k ∈ keys → replicas wt R k (threads k)) →
  wp (for_acc keys (∅ : AddressKeysetMap) (λ m key,
    '(threads, succeed) ← responsible_threads wt key kAllTiers;
    mret (if succeed : bool then gossip_to threads key m else m))) s (λ m s' out,
    (∃ r', s' = set_rings r' s ∧ R r') ∧ out = [] ∧
    ∀ a k, k ∈ map_get ∅ m a ↔ k ∈ keys ∧ ∃ th, th ∈ threads k ∧ a = address th).
Proof.
  intros Hr Hall. apply (wp_for_acc (λ xs m s' out, (∃ r', s' = set_rings r' s ∧ R r') ∧ out = [] ∧
    ∀ a k, k ∈ map_get ∅ m a ↔ k ∈ xs ∧ ∃ th, th ∈ threads k ∧ a = address th)).
  - split; [exists (rings s); split; [by destruct s|done]|]. split; [done|].
    intros a k. unfold map_get. rewrite lookup_empty. simpl. split; [set_solver|]. by intros [?%elem_of_nil _].
  - intros xs key m s' out Hin ((r' & -> & Hr') & -> & Hm).
    wp_step. apply (wp_replicas wt R key (threads key)); [by apply Hall|done|]. intros r1 Hr1. wp_steps.
    split; [by exists r1|]. split; [done|]. intros a k. rewrite gossip_to_waiting, Hm, elem_of_app, list_elem_of_singleton.
    naive_solver.
Qed.

End departure.

(** ** A node joins *)
Section join.
Context {Store : Type} `{SerializerMapLaws Store} `{Protobuf} `{StdHash} `{Random}.
Context `{HashRingUtilInterface} `{!ProtoLaws KeyRequest.t carries dflt} (all_carried : ∀ r, carries r).
Context (c : Config) (wt : ServerThread.t) (R : RingState → Prop).
Context {V : Type} `{Lattice V} (type : LatticeType) (ser : Serializer Store).
Context (inv : Store → Prop) (view : Store → Key → V) (decode : string → V).
Context (accepts : string → Prop) `{!SerializerLaws ser inv view decode accepts}.
Hypothesis ser_type : serializer_at type = Some ser.
Notation address := ServerThread.gossip_connect_address.
Notation offered := (offered type ser inv view accepts).
Implicit Types s : ServerState Store.

(** [threads k]: who is responsible for [k] once the node has joined. *)
Context (threads : Key → list ServerThread.t).

(** The thread keeps [k] no longer. *)
Definition lost (k : Key) : Prop := contains_thread (threads k) wt = false.
#[local] Instance lost_dec k : Decision (lost k) := decide (contains_thread (threads k) wt = false).

(** [s'] is [s] with the lost keys of [keys] on the work lists. *)
Record listed (keys : list Key) s s' : Prop := {
  listed_store : store s' = store s;
  listed_keys : stored_key_map s' = stored_key_map s;
  listed_rings : R (rings s');
  listed_removes k : k ∈ join_remove_set s' ↔ k ∈ join_remove_set s ∨ k ∈ keys ∧ lost k;
  listed_gossip a k : k ∈ map_get ∅ (join_gossip_map s') a ↔
    k ∈ map_get ∅ (join_gossip_map s) a ∨ k ∈ keys ∧ lost k ∧ ∃ th, th ∈ threads k ∧ a = address th;
}.

Lemma wp_join_keys keys new_private_ip s :
  R (rings s) → (∀ k, k ∈ keys → located c wt R k (threads k)) →
  wp (for_each keys (join_key c wt 0 new_private_ip)) s (λ _ s' _, listed keys s s').
Proof.
  intros Hr Hall. apply (wp_for_each (λ xs s' _, listed xs s s')).
  - split; try done; intros; set_solver.
  - intros xs k s' out Hin [Hst Hkeys Hr' Hrem Hgos]. destruct (Hall k Hin) as (md & Hmd & Hresp).
    unfold join_key, responsible_threads. wp_step. wp_step. eapply wp_lift_outcome; [done|]. apply wp_zoom.
    eapply wp_mono; [by apply Hresp|]. intros res r1 out1 (-> & Hr1 & ->). simpl.
    destruct (contains_thread (threads k) wt) eqn:Hc; simpl.
    + wp_step. split; simpl; try done.
      * intros k'. rewrite Hrem, elem_of_app, list_elem_of_singleton. unfold lost. naive_solver congruence.
      * intros a k'. rewrite Hgos, elem_of_app, list_elem_of_singleton. unfold lost. naive_solver congruence.
    + wp_steps. split; simpl; try done.
      * intros k'. rewrite elem_of_union, elem_of_singleton, Hrem, elem_of_app, list_elem_of_singleton.
        unfold lost. naive_solver.
      * intros a k'. rewrite gossip_to_waiting, Hgos, elem_of_app, list_elem_of_singleton. unfold lost. naive_solver.
Qed.

Lemma wp_announce_join jc serialized new_public_ip new_private_ip s :
  wp (announce_join c wt jc serialized new_public_ip new_private_ip) s (λ _ s' _, s' = s).
Proof.
  unfold announce_join, tell_workers. wp_step. wp_step. wp_step. wp_step.
  wp_step. eapply wp_mono; [apply wp_sends; intros; destruct (_ && _); by wp_step|]. intros _ ? ? ->.
  apply wp_sends. intros. by wp_step.
Qed.

(** A new node of this thread's tier. *)
Lemma wp_node_join jc serialized pub priv ring s :
  parse_join serialized = Ok (kSelfTier c, pub, priv, 0) →
  HashRing.insert GlobalHasher pub priv 0 0
    (map_get HashRing.empty (global_hash_rings (rings s)) (kSelfTier c)) = (true, ring) →
  R (set_global_hash_rings (<[kSelfTier c := ring]> (global_hash_rings (rings s))) (rings s)) →
  (∀ k, k ∈ dom (stored_key_map s) → located c wt R k (threads k)) →
  wp (node_join_handler c wt jc serialized) s (λ _ s' _, listed (map_to_list (stored_key_map s)).*1 s s').
Proof.
  intros Hparse Hins Hr Hall. unfold node_join_handler. wp_step. eapply wp_lift_outcome; [done|]. cbv beta iota.
  wp_step. unfold insert_server. apply wp_zoom. wp_step. wp_step. rewrite Hins. wp_steps.
  set (s1 := set_rings _ s). eapply (wp_mono _ _ (λ _ s' _, s' = s1)).
  { destruct (bool_decide _); [apply wp_announce_join|by wp_step]. }
  intros [] s' out ->. rewrite bool_decide_eq_true_2 by done. wp_step. wp_step.
  eapply wp_mono; [apply wp_join_keys; [done|]|].
  { intros k Hk%stored_keys_elem. by apply Hall. }
  intros _ s2 _ []. by split.
Qed.

(** The round that follows sends every lost key to its new threads. *)
Lemma wp_redistribute_lost s s1 :
  listed (map_to_list (stored_key_map s)).*1 s s1 → join_gossip_map s = ∅ → join_remove_set s = ∅ →
  (size (dom (stored_key_map s)) ≤ DATA_REDISTRIBUTE_THRESHOLD)%nat → inv (store s) →
  (∀ k, k ∈ dom (stored_key_map s) → offered s k) → join_gossip_map s1 ≠ ∅ →
  wp redistribute s1 (λ _ s2 out,
    join_gossip_map s2 = ∅ ∧ join_remove_set s2 = ∅ ∧
    (∀ k, stored_key_map s2 !! k = if decide (k ∈ join_remove_set s1) then None else stored_key_map s1 !! k) ∧
    ∀ a, (∃ k, k ∈ map_get ∅ (join_gossip_map s1) a) → ∃ (keys : gset Key) req,
      (∀ k, k ∈ keys ↔ k ∈ map_get ∅ (join_gossip_map s1) a) ∧
      mkMsg a (SerializeToString req) ∈ out ∧ offers type decode accepts (view (store s)) (elements keys) req).
Proof.
  intros [Hst Hkeys Hr Hrem Hgos] Hjg Hjr Hsize Hi Hall Hne.
  assert (∀ k, k ∈ join_remove_set s1 → k ∈ dom (stored_key_map s)) as Hremd.
  { intros k [Hk|[Hk%stored_keys_elem _]]%Hrem; [by rewrite Hjr in Hk|done]. }
  assert (∀ a k, k ∈ map_get ∅ (join_gossip_map s1) a → k ∈ dom (stored_key_map s)) as Hgosd.
  { intros a k [Hk|[Hk%stored_keys_elem _]]%Hgos; [|done]. by rewrite Hjg in Hk. }
  apply (wp_redistribute_all (λ out, ∀ a, (∃ k, k ∈ map_get ∅ (join_gossip_map s1) a) → ∃ (keys : gset Key) req,
      (∀ k, k ∈ keys ↔ k ∈ map_get ∅ (join_gossip_map s1) a) ∧
      mkMsg a (SerializeToString req) ∈ out ∧ offers type decode accepts (view (store s)) (elements keys) req)); [|done|..].
  - intros k p Hp. rewrite Hkeys in Hp. destruct (Hall k) as [Ht _]; [by apply elem_of_dom_2 in Hp|].
    unfold stored_type in Ht. rewrite Hp in Ht. by case_bool_decide.
  - intros a keys Ha. etrans; [|exact Hsize]. apply subseteq_size. intros k Hk. apply (Hgosd a). unfold map_get. by rewrite Ha.
  - intros k Hk%Hremd. rewrite Hkeys. by apply elem_of_dom.
  - intros m s0 Hm Hs0 Hk0. eapply wp_mono; [apply (wp_send_values type ser inv view decode accepts ser_type)|].
    + by rewrite Hs0, Hst.
    + intros a keys k Ha Hk. destruct (Hall k) as [? ?].
      { apply (Hgosd a), Hm. unfold map_get. by rewrite Ha. }
      split; [by unfold stored_type; rewrite Hk0, Hkeys|by rewrite Hs0, Hst].
    + cbv beta. intros [] s2 out ((Hs2 & _) & Hsent & _). split; [done|]. intros a (k & Hk%Hm).
      destruct (waiting_lookup m a k Hk) as (keys & Ha & _). destruct (Hsent a keys Ha) as (req & Hreq & Hoff).
      exists keys, req. rewrite Hs0, Hst in Hoff. split_and!; try done.
      intros k'. rewrite <-Hm. unfold map_get. by rewrite Ha.
Qed.

(** The work lists after the announcement, when they were empty before. *)
Lemma listed_fresh s s1 :
  listed (map_to_list (stored_key_map s)).*1 s s1 → join_gossip_map s = ∅ → join_remove_set s = ∅ →
  (∀ k, k ∈ join_remove_set s1 ↔ k ∈ dom (stored_key_map s) ∧ lost k) ∧
  (∀ a k, k ∈ map_get ∅ (join_gossip_map s1) a ↔
    k ∈ dom (stored_key_map s) ∧ lost k ∧ ∃ th, th ∈ threads k ∧ a = address th) ∧
  ∀ k, (if decide (k ∈ join_remove_set s1) then None else stored_key_map s1 !! k) =
       if decide (lost k) then None else stored_key_map s !! k.
Proof.
  intros Hl Hjg Hjr.
  assert (∀ k, k ∈ join_remove_set s1 ↔ k ∈ dom (stored_key_map s) ∧ lost k) as Hrem.
  { intros k. rewrite (listed_removes _ _ _ Hl), stored_keys_elem, Hjr. set_solver. }
  split_and!; [done| |].
  - intros a k. rewrite (listed_gossip _ _ _ Hl), stored_keys_elem, Hjg. unfold map_get. rewrite lookup_empty. set_solver.
  - intros k. rewrite (listed_keys _ _ _ Hl). destruct (decide (lost k)), (decide (k ∈ join_remove_set s1)) as [Hk|Hk]; try done.
    + rewrite Hrem in Hk. apply not_elem_of_dom. intros ?. by apply Hk.
    + by apply Hrem in Hk as [_ ?].
Qed.

Lemma nothing_lost s s1 k :
  (∀ a k, k ∈ map_get ∅ (join_gossip_map s1) a ↔
    k ∈ dom (stored_key_map s) ∧ lost k ∧ ∃ th, th ∈ threads k ∧ a = address th) →
  join_gossip_map s1 = ∅ → k ∈ dom (stored_key_map s) → threads k ≠ [] → ¬ lost k.
Proof.
  intros Hgos Hempty Hk Hths Hlost. destruct (threads k) as [|th ths] eqn:Hth; [done|].
  assert (k ∈ map_get ∅ (join_gossip_map s1) (address th)) as Hin.
  { apply Hgos. split_and!; [done..|]. exists th. rewrite Hth. split; [by left|done]. }
  rewrite Hempty in Hin. unfold map_get in Hin. by rewrite lookup_empty in Hin.
Qed.

Lemma wp_redistribute_idle s (Q : unit → ServerState Store → list Msg → Prop) :
  join_gossip_map s = ∅ → Q tt s [] → wp redistribute s Q.
Proof.
  intros Hjg HQ. unfold redistribute. wp_step. wp_step. rewrite Hjg, bool_decide_eq_true_2 by apply map_size_empty.
  simpl. by wp_step.
Qed.

(** C7: a new node takes keys over.  A thread of its tier with nothing left to
    redistribute and at most [DATA_REDISTRIBUTE_THRESHOLD] keys handles the
    announcement of the node, and the redistribution of the same turn drops
    exactly the keys it is no longer responsible for and sends each thread that
    now is a message that, handled there, stores them with their values merged
    in. *)
Theorem join_hands_over jc serialized pub priv ring s :
  parse_join serialized = Ok (kSelfTier c, pub, priv, 0) →
  HashRing.insert GlobalHasher pub priv 0 0
    (map_get HashRing.empty (global_hash_rings (rings s)) (kSelfTier c)) = (true, ring) →
  R (set_global_hash_rings (<[kSelfTier c := ring]> (global_hash_rings (rings s))) (rings s)) →
  join_gossip_map s = ∅ → join_remove_set s = ∅ →
  (size (dom (stored_key_map s)) ≤ DATA_REDISTRIBUTE_THRESHOLD)%nat → inv (store s) →
  (∀ k, k ∈ dom (stored_key_map s) → offered s k ∧ located c wt R k (threads k) ∧ threads k ≠ []) →
  wp (node_join_handler c wt jc serialized) s (λ _ s1 _,
    wp redistribute s1 (λ _ s2 out,
      join_gossip_map s2 = ∅ ∧ join_remove_set s2 = ∅ ∧
      (∀ k, stored_key_map s2 !! k = if decide (lost k) then None else stored_key_map s !! k) ∧
      ∀ k th, k ∈ dom (stored_key_map s) → lost k → th ∈ threads k → ∃ body, mkMsg (address th) body ∈ out ∧
        handed type inv view (view (store s))
          (λ k th, k ∈ dom (stored_key_map s) ∧ lost k ∧ th ∈ threads k) th body)).
Proof.
  intros Hparse Hins Hr Hjg Hjr Hsize Hi Hall.
  eapply wp_mono; [eapply (wp_node_join jc serialized pub priv ring); try done; intros; by apply Hall|].
  cbv beta. intros [] s1 _ Hl. destruct (listed_fresh s s1 Hl Hjg Hjr) as (Hrem & Hgos & Hdrop).
  destruct (decide (join_gossip_map s1 = ∅)) as [Hempty|Hne].
  - assert (∀ k, k ∈ dom (stored_key_map s) → ¬ lost k) as Hnone.
    { intros k Hk. destruct (Hall k Hk) as (_ & _ & Hths). by apply (nothing_lost s s1). }
    apply wp_redistribute_idle; [done|]. split_and!; [done| | |].
    + apply set_eq. intros k. rewrite Hrem. split; [|set_solver]. intros [? ?]. by destruct (Hnone k).
    + intros k. rewrite <-Hdrop, decide_False; [done|]. rewrite Hrem. intros [? ?]. by destruct (Hnone k).
    + intros k th Hk Hlost. by destruct (Hnone k Hk Hlost).
  - eapply wp_mono; [apply (wp_redistribute_lost s s1); try done; intros; by apply Hall|].
    cbv beta. intros [] s2 out (? & ? & Hst & Hsent). split_and!; try done; [intros k; by rewrite Hst|].
    intros k th Hk Hlost Hth. destruct (Hsent (address th)) as (keys & req & Hkeys & Hin & Hoff).
    { exists k. apply Hgos. eauto. }
    exists (SerializeToString req). split; [done|].
    apply (offer_handed all_carried type ser inv view decode accepts ser_type _ _ _ keys); [done|].
    intros k'. rewrite Hkeys, Hgos. split; [intros (? & ? & th' & ? & ?); by exists th'|intros (th' & (? & ? & ?) & ?); eauto].
Qed.
End join.

(** ** A change of replication *)
Lemma some_recipient {A} (E C : Prop) (P Q D F : A → Prop) :
  (∀ x, D x ↔ F x) →
  (E ∧ C ∧ (∃ x, P x ∧ Q x) ∨ E ∧ ∃ x, (F x ∧ P x) ∧ Q x) ↔ E ∧ ∃ x, (P x ∧ (C ∨ D x)) ∧ Q x.
Proof. intros HDF. setoid_rewrite HDF. naive_solver. Qed.

Section change.
Context {Store : Type} `{SerializerMapLaws Store} `{Protobuf} `{StdHash} `{Random}.
Context `{HashRingUtilInterface} `{!ProtoLaws KeyRequest.t carries dflt} (all_carried : ∀ r, carries r).
Context (c : Config) (wt : ServerThread.t).
Context {V : Type} `{Lattice V} (type : LatticeType) (ser : Serializer Store).
Context (inv : Store → Prop) (view : Store → Key → V) (decode : string → V).
Context (accepts : string → Prop) `{!SerializerLaws ser inv view decode accepts}.
Hypothesis ser_type : serializer_at type = Some ser.
Notation address := ServerThread.gossip_connect_address.
Implicit Types s : ServerState Store.

(** The change of one key: [before] and [after] are what the rings satisfy
    before and with the new factors, [orig] and [threads] who is responsible
    then, and [decrement] whether a factor went down. *)
Context (update : ReplicationFactor.t) (before after : RingState → Prop).
Context (orig threads : list ServerThread.t) (decrement : bool).
Notation key := (ReplicationFactor.key update).
Notation apply m := (apply_factors key (ReplicationFactor.global update) (ReplicationFactor.local update) m).

Record changes : Prop := {
  changes_orig : replicas wt before key orig;
  changes_threads : replicas wt after key threads;
  changes_factors r : before r → (apply (key_replication_map r)).1 = decrement ∧
    after (set_key_replication_map (apply (key_replication_map r)).2 r);
}.

(** The threads this thread sends the key to: all that are responsible now when
    it no longer is; those that were not before when no factor went down and it
    is the first of those that were. *)
Definition recipient (th : ServerThread.t) : Prop :=
  th ∈ threads ∧ (contains_thread threads wt = false ∨
    decrement = false ∧ head (ServerThread.id <$> orig) = Some (ServerThread.id wt) ∧ contains_thread orig th = false).

Lemma wp_change_key s :
  changes → before (rings s) → key ∈ dom (stored_key_map s) → orig ≠ [] →
  wp (change_key wt (mkChange ∅ ∅) update) s (λ acc s' out,
    (∃ r', s' = set_rings r' s ∧ after r') ∧ out = [] ∧
    (∀ a k, k ∈ map_get ∅ (ch_gossip acc) a ↔ k = key ∧ ∃ th, recipient th ∧ a = address th) ∧
    ch_remove acc = if contains_thread threads wt then ∅ else {[key]}).
Proof.
  intros [Horig Hthreads Hfactors] Hr (p & Hp)%elem_of_dom Hne. unfold change_key. wp_step. wp_step. rewrite Hp.
  wp_step. apply (wp_replicas wt before key orig); [done..|]. intros r1 Hr1. wp_step. wp_step. cbn [rings set_rings].
  destruct (Hfactors r1 Hr1) as [Hdec Hafter].
  destruct (apply (key_replication_map r1)) as [dec m]. simpl in Hdec, Hafter. subst dec.
  unfold update_key_replication_map. wp_step. apply wp_zoom. wp_step.
  wp_step. apply (wp_replicas wt after key threads); [done..|]. intros r2 Hr2. cbv beta iota.
  set (acc := if negb (contains_thread threads wt) then _ else _).
  assert (∀ a k, k ∈ map_get ∅ (ch_gossip acc) a ↔
    k = key ∧ contains_thread threads wt = false ∧ ∃ th, th ∈ threads ∧ a = address th) as Hacc.
  { intros a k. unfold acc. destruct (contains_thread threads wt); cbn [negb ch_gossip];
      rewrite ?gossip_to_waiting; unfold map_get; rewrite lookup_empty; set_solver. }
  assert (ch_remove acc = if contains_thread threads wt then ∅ else {[key]}) as Hrem.
  { unfold acc. destruct (contains_thread threads wt); [done|]. simpl. set_solver. }
  assert (∃ r', set_rings r2 (set_rings (set_key_replication_map m r1) (set_rings r1 s)) = set_rings r' s ∧ after r')
    as Hrings by by exists r2.
  destruct orig as [|first others] eqn:Horig'; [done|]. unfold recipient. rewrite Horig'. destruct decrement.
  { wp_step. split_and!; [done..| |done]. intros a k.
    rewrite Hacc, <-(some_recipient _ _ _ _ _ (λ _, False)) by (split; [by intros (? & _)|done]).
    clear. naive_solver. }
  wp_step. eapply wp_lift_outcome; [done|]. cbn [fmap list_fmap head].
  destruct (bool_decide_reflect (ServerThread.id first = ServerThread.id wt)) as [Hid|Hid]; wp_step;
    (split_and!; [done..| |done]); intros a k.
  - cbn [ch_gossip]. rewrite gossip_to_waiting, Hacc. setoid_rewrite list_elem_of_filter. apply some_recipient.
    intros th. rewrite Hid. clear. naive_solver.
  - rewrite Hacc, <-(some_recipient _ _ _ _ _ (λ _, False)); [clear; naive_solver|].
    intros th. split; [|done]. intros (_ & Heq & _). by injection Heq.
Qed.

(** [k] is the key, and this thread no longer responsible for it. *)
Definition gone (k : Key) : Prop := k = key ∧ contains_thread threads wt = false.
#[local] Instance gone_dec k : Decision (gone k) := _.

(** Dropping the key, or not. *)
Lemma wp_remove_lost s :
  inv (store s) → stored_type s key = Some type →
  wp (for_each (elements (if contains_thread threads wt then ∅ else {[key]} : gset Key)) remove_key) s (λ _ s' out,
    rings s' = rings s ∧ out = [] ∧
    ∀ k, stored_key_map s' !! k = (if decide (gone k) then None else stored_key_map s !! k) ∧
         view (store s') k = if decide (gone k) then bot else view (store s) k).
Proof.
  intros Hi (p & Hp & Hty)%(stored_type_at type ser ser_type).
  destruct (contains_thread threads wt) eqn:Hc; [rewrite elements_empty|rewrite elements_singleton]; cbn [for_each].
  { wp_step. split_and!; try done. intros k. by rewrite !decide_False by (intros [_ Hf]; by rewrite Hf in Hc). }
  wp_step. unfold remove_key. wp_step. wp_step.
  assert (map_get (mkKeyProperty 0 NONE) (stored_key_map s) key = p) as -> by (unfold map_get; by rewrite Hp).
  rewrite Hty. wp_step. eapply wp_lift_outcome; [by rewrite ser_type|]. wp_steps. split_and!; try done.
  intros k. simpl. rewrite law_remove_view by done. destruct (decide (k = key)) as [-> |Hne].
  - rewrite !decide_True by done. by rewrite lookup_delete_eq.
  - rewrite !decide_False by (by intros [? _]). by rewrite lookup_delete_ne.
Qed.

(** C8: a thread applies a change of replication.  From the message about a key
    it stores, it learns the new factors, keeps the key exactly when it is still
    responsible, and sends every thread that has to get the key from it a
    message that, handled there, stores it with the value merged in; no other
    key changes. *)
Theorem change_hands_over serialized s :
  parse serialized = ReplicationFactorUpdate.mk [update] → changes → before (rings s) → orig ≠ [] →
  inv (store s) → offered type ser inv view accepts s key →
  wp (replication_change_handler c wt serialized) s (λ _ s' out,
    after (rings s') ∧
    (∀ k, stored_key_map s' !! k = (if decide (gone k) then None else stored_key_map s !! k) ∧
          view (store s') k = if decide (gone k) then bot else view (store s) k) ∧
    ∀ th, recipient th → ∃ body, mkMsg (address th) body ∈ out ∧
      handed type inv view (view (store s)) (λ k th, k = key ∧ recipient th) th body).
Proof.
  intros Hparse Hch Hb Hne Hi Hoff. unfold replication_change_handler. rewrite Hparse.
  wp_step. eapply (wp_mono _ _ (λ _ s' _, s' = s)).
  { destruct (bool_decide _); [|by wp_step]. apply wp_sends. intros. by wp_step. }
  intros [] s' out1 ->. cbn [ReplicationFactorUpdate.updates for_acc]. wp_step. wp_step.
  destruct (stored_type_at type ser ser_type s key (proj1 Hoff)) as (p & Hp & _).
  eapply wp_mono; [apply wp_change_key; try done; by apply elem_of_dom_2 in Hp|].
  cbv beta. intros acc s1 out2 ((r' & -> & Hr') & -> & Hgos & Hrem). wp_step. wp_step.
  eapply wp_mono; [apply (wp_send_values type ser inv view decode accepts ser_type); [done|]|].
  { intros a keys k Ha Hk. assert (k = key) as ->; [|done]. apply (Hgos a k). unfold map_get. by rewrite Ha. }
  cbv beta. intros [] s2 out3 (([st ->] & Hi2 & Hv2) & Hsent & _). rewrite Hrem.
  eapply wp_mono; [apply wp_remove_lost; [done|exact (proj1 Hoff)]|].
  cbv beta. intros [] s3 out4 (Hr3 & -> & Hkeys). split; [by rewrite Hr3|]. split.
  { intros k. destruct (Hkeys k) as [-> ->]. by rewrite Hv2. }
  intros th Hth. destruct (waiting_lookup (ch_gossip acc) (address th) key) as (keys & Ha & _).
  { apply Hgos. split; [done|]. by exists th. }
  destruct (Hsent _ _ Ha) as (req & Hreq & Hoffer). exists (SerializeToString req). split; [set_solver|].
  apply (offer_handed all_carried type ser inv view decode accepts ser_type _ _ _ keys); [done|].
  intros k. pose proof (Hgos (address th) k) as Hk. unfold map_get in Hk. rewrite Ha in Hk. simpl in Hk.
  rewrite Hk. split; [intros (? & th' & ? & ?); by exists th'|intros (th' & [? ?] & ?); split; [done|by exists th']].
Qed.
End change.

(** ** Two nodes, for concrete instances of the theorems *)
Module ExampleHandover.
#[local] Existing Instance bit_protobuf.
#[local] Existing Instance ExampleRing.toy_hash.
#[local] Existing Instance memory_serializers.
#[local] Existing Instance ExampleServer.still.
#[local] Existing Instance memory_serializers_laws.
#[local] Existing Instance ExampleServer.lww_ser_laws.
#[local] Instance requests_carried : ProtoLaws KeyRequest.t (λ _, True) KeyRequest.empty := BitCodec.codec_laws _.
Import ExampleServer(lww_ser, lww_inv, lww_view).
Import ExampleGossip(holds).

(** Every key is node b's: node a has departed, or b has just joined. *)
#[local] Instance only_b : HashRingUtilInterface :=
  {| get_responsible_threads := λ _ _ _ _ r, Ok ([ExampleRing.st_b], true, r, []) |}.
Definition R (_ : RingState) : Prop := True.
Definition config : Config := ExampleServer.config.
Definition wt : ServerThread.t := ExampleRing.st_a.

Lemma holds_keys ts v k : k ∈ dom (stored_key_map (holds ts v)) → k = "k".
Proof.
  change (stored_key_map (holds ts v)) with ({["k" := mkKeyProperty 1 LWW]} : gmap Key KeyProperty).
  rewrite dom_singleton_L. apply elem_of_singleton.
Qed.

Lemma holds_offered : offered LWW lww_ser lww_inv lww_view (λ _, True) (holds 7 "v") "k".
Proof.
  split; [reflexivity|]. intros st _ Hv. split; [|exact I]. apply ExampleGossip.lww_found. rewrite Hv. reflexivity.
Qed.

Lemma holds_inv : lww_inv (store (holds 7 "v")).
Proof. by apply map_Forall_singleton. Qed.


Lemma join_hands_over_witness :
  wp (node_join_handler config wt 0 (join_message MEMORY "B" "b" 0)) (holds 7 "v") (λ _ s1 _,
    wp redistribute s1 (λ _ s2 out,
      join_gossip_map s2 = ∅ ∧ join_remove_set s2 = ∅ ∧ stored_key_map s2 !! "k" = None ∧
      ∃ body, mkMsg "tcp://b:6250" body ∈ out ∧
        handed LWW lww_inv lww_view (lww_view (store (holds 7 "v")))
          (λ k th, k ∈ dom (stored_key_map (holds 7 "v")) ∧ lost wt (λ _, [ExampleRing.st_b]) k ∧
             th ∈ [ExampleRing.st_b]) ExampleRing.st_b body)).
Proof.
  eapply wp_mono; [apply (join_hands_over (carries:=λ _, True) (λ _, I) config wt R LWW lww_ser lww_inv lww_view
    deserialize_lww (λ _, True) eq_refl (λ _, [ExampleRing.st_b]) 0 (join_message MEMORY "B" "b" 0) "B" "b"
    (HashRing.insert GlobalHasher "B" "b" 0 0 HashRing.empty).2 (holds 7 "v"))|].
  - reflexivity.
  - reflexivity.
  - exact I.
  - reflexivity.
  - reflexivity.
  - change (stored_key_map (holds 7 "v")) with ({["k" := mkKeyProperty 1 LWW]} : gmap Key KeyProperty).
    rewrite dom_singleton_L, size_singleton. unfold DATA_REDISTRIBUTE_THRESHOLD. lia.
  - exact holds_inv.
  - intros k ->%holds_keys. split; [exact holds_offered|]. split; [|done]. exists false. split; [reflexivity|].
    intros r _. by eexists _, _, _.
  - intros a1 s1 out1 Hwp. eapply wp_mono; [exact Hwp|]. intros _ s2 out (Hjg & Hjr & Hst & Hout).
    split; [exact Hjg|]. split; [exact Hjr|]. split; [rewrite Hst; reflexivity|].
    apply (Hout "k" ExampleRing.st_b); [|reflexivity|by left].
    change (stored_key_map (holds 7 "v")) with ({["k" := mkKeyProperty 1 LWW]} : gmap Key KeyProperty).
    rewrite dom_singleton_L. by apply elem_of_singleton.
Defined.

(** The first thread alone while a key has one replica in memory, both with two. *)
#[local] Instance by_factor : HashRingUtilInterface :=
  {| get_responsible_threads := λ _ key _ _ r,
       Ok (if bool_decide (2 ≤ global_rep (map_get no_replication (key_replication_map r) key) MEMORY)
           then ExampleLoop.two else [wt], true, r, []) |}.
Definition one_replica (r : RingState) : Prop := key_replication_map r = {["k" := ExampleServer.once]}.
Definition two_replicas (r : RingState) : Prop :=
  global_rep (map_get no_replication (key_replication_map r) "k") MEMORY = 2.
Definition twice : ReplicationFactor.t := ReplicationFactor.mk "k" [ReplicationValue.mk MEMORY 2] [].

Lemma twice_changes : changes wt twice one_replica two_replicas [wt] ExampleLoop.two false.
Proof.
  split.
  - exists false. split; [reflexivity|]. intros r Hr. exists ([wt], true), r, []. split; [|done].
    unfold one_replica in Hr. simpl. by rewrite Hr.
  - exists false. split; [reflexivity|]. intros r Hr. exists (ExampleLoop.two, true), r, []. split; [|done].
    unfold two_replicas in Hr. simpl. by rewrite Hr.
  - intros r Hr. unfold one_replica in Hr. unfold two_replicas. simpl. rewrite Hr. split; reflexivity.
Qed.

Definition holds_once : ServerState MemoryStores :=
  set_rings (mkRingState ∅ ∅ {["k" := ExampleServer.once]} 0 0) (holds 7 "v").

Lemma change_hands_over_witness :
  wp (replication_change_handler config wt (SerializeToString (ReplicationFactorUpdate.mk [twice]))) holds_once
    (λ _ s' out, two_replicas (rings s') ∧ lww_view (store s') "k" = LWWPairLattice.mkTVP 7 "v" ∧
      ∃ body, mkMsg "tcp://b:6250" body ∈ out ∧
        handed LWW lww_inv lww_view (lww_view (store holds_once))
          (λ k th, k = "k" ∧ recipient wt [wt] ExampleLoop.two false th) ExampleRing.st_b body).
Proof.
  eapply wp_mono; [apply (change_hands_over (carries:=λ _, True) (λ _, I) config wt LWW lww_ser lww_inv lww_view
    deserialize_lww (λ _, True) eq_refl twice one_replica two_replicas [wt] ExampleLoop.two false
    (SerializeToString (ReplicationFactorUpdate.mk [twice])) holds_once)|].
  - apply (@parse_serialize' _ _ _ _ (BitCodec.codec_laws ReplicationFactorUpdate.empty)). exact I.
  - exact twice_changes.
  - reflexivity.
  - discriminate.
  - exact holds_inv.
  - exact holds_offered.
  - intros u s' out (Hr & Hv & Hout). split; [exact Hr|]. split; [by destruct (Hv "k") as [_ ->]|].
    apply (Hout ExampleRing.st_b). split; [right; by left|]. right. split; [reflexivity|]. split; reflexivity.
Defined.
End ExampleHandover.
