(* ===== verification/Routing.v ===== *)
(** The routing tier (src/route): seed_handler.cpp, membership_handler.cpp,
    address_handler.cpp, replication_response_handler.cpp,
    replication_change_handler.cpp and the event loop of routing.cpp.

    A routing thread tells clients which server threads to ask for a key. *)

From S2P Require Import Prelude Text Ordered Lattices Threads Wire WireCodec Codec Metadata.
From S2P Require Import HashRing RingUtil ServerState UserRequest Replication Handlers ServerLoop.
From Stdlib Require Import Lia.

(** ** State: the locals of [run] of src/route/routing.cpp

    The name space keeps the handlers apart from the servers' handlers of the
    same names. *)
Module Routing.
Record RoutingState := mkRouting {
  rings : RingState;
  pending_requests : gmap Key (list (Address * string));
}.

Definition set_rings (r : RingState) (s : RoutingState) : RoutingState :=
  mkRouting r (pending_requests s).
Definition set_pending_requests (p : gmap Key (list (Address * string))) (s : RoutingState)
    : RoutingState := mkRouting (rings s) p.

Notation Rt := (M RoutingState).

Definition on_rings {A} (m : M RingState A) : Rt A := zoom rings set_rings m.

(** ** seed_handler *)
Definition tier_membership (p : Tier * HashRing.t) : TierMembership.t :=
  TierMembership.mk p.1
    (map (λ q : string * ServerThread.t, Server.mk (ServerThread.public_ip q.2) (ServerThread.private_ip q.2))
       (map_to_list (HashRing.get_unique_servers p.2))).

Definition seed_handler `{Protobuf} (rings : gmap Tier HashRing.t) : string :=
  SerializeToString (ClusterMembership.mk (map tier_membership (map_to_list rings))).

Section handlers.
Context `{Protobuf} `{StdHash} `{Random} `{HashRingUtilInterface}.
Context (c : Config) (rt : RoutingThread.t).

(** [for (tid = 1; tid < kRoutingThreadCount; tid++)] *)
Definition tell_routers (address : RoutingThread.t → Address) (serialized : string) : Rt unit :=
  for_each (seqZ 1 (kRoutingThreadCount c - 1)) (λ tid,
    send_string serialized (address (RoutingThread.new (RoutingThread.ip rt) tid))).

(** ** membership_handler *)

(** A server joins; [msg] is the announcement as the servers expect it. *)
Definition server_joined (tier : Tier) (public_ip private_ip : Address) (join_count : Z)
    (msg serialized : string) : Rt unit :=
  r ← on_rings get;
  let '(inserted, ring) := HashRing.insert GlobalHasher public_ip private_ip join_count 0
    (map_get HashRing.empty (global_hash_rings r) tier) in
  on_rings (modify (set_global_hash_rings (<[tier := ring]> (global_hash_rings r)))) ;;
  if inserted && bool_decide (RoutingThread.tid rt = 0) then
    r ← on_rings get;
    for_each (all_servers r) (λ st,
      if negb (bool_decide (ServerThread.private_ip st = private_ip))
      then send_string msg (ServerThread.node_join_connect_address st) else mret tt) ;;
    tell_routers RoutingThread.notify_connect_address serialized
  else mret tt.

(** A server departs.  The sizes that are logged are read with [operator[]],
    which creates the rings of the tiers that have none. *)
Definition server_departed (tier : Tier) (public_ip private_ip : Address) (serialized : string) : Rt unit :=
  on_rings (modify (λ r, set_global_hash_rings
    (<[tier := HashRing.remove GlobalHasher public_ip private_ip 0
         (map_get HashRing.empty (global_hash_rings r) tier)]> (global_hash_rings r)) r)) ;;
  (if bool_decide (RoutingThread.tid rt = 0)
   then tell_routers RoutingThread.notify_connect_address serialized else mret tt) ;;
  on_rings (for_each kAllTiers (λ tier, global_ring_at tier ;; mret tt)).

Definition membership_handler (serialized : string) : Rt unit :=
  let v := split serialized colon in
  type ← lift_outcome (vector_at v 0);
  v1 ← lift_outcome (vector_at v 1);
  public_ip ← lift_outcome (vector_at v 2);
  private_ip ← lift_outcome (vector_at v 3);
  if bool_decide (type = "join") then
    v4 ← lift_outcome (vector_at v 4);
    join_count ← lift_outcome (stoi v4);
    tier ← lift_outcome (tier_of v1);
    server_joined tier public_ip private_ip join_count
      (v1 +:+ ":" +:+ public_ip +:+ ":" +:+ private_ip +:+ ":" +:+ v4) serialized
  else if bool_decide (type = "depart") then
    tier ← lift_outcome (tier_of v1);
    server_departed tier public_ip private_ip serialized
  else mret tt.

(** ** address_handler *)

(** [int num_servers] summed over the rings. *)
Definition num_servers (m : gmap Tier HashRing.t) : Z :=
  foldl (λ n p, int32 (n + Z.of_nat (ConsistentHashMap.size (HashRing.nodes_ p.2)))) 0 (map_to_list m).

(** The loop over the tiers: the threads of the first tier that has some;
    [None] when the replication vector of the key is not known. *)
Fixpoint first_tier (key : Key) (metadata : bool) (tiers : list Tier) : Rt (option (list ServerThread.t)) :=
  match tiers with
  | [] => mret (Some [])
  | tier :: tiers =>
      '(threads, succeed) ← on_rings (get_responsible_threads
          (RoutingThread.replication_response_connect_address rt) key metadata [tier]);
      if bool_decide (0 < length threads)%nat then mret (Some threads)
      else if negb succeed then mret None
      else first_tier key metadata tiers
  end.

(** An empty key gets an empty answer. *)
Definition key_threads (key : Key) : Rt (option (list ServerThread.t)) :=
  if bool_decide (0 < String.length key)%nat then
    md ← lift_outcome (is_metadata key);
    first_tier key md kAllTiers
  else mret (Some []).

Definition key_address (key : Key) (threads : list ServerThread.t) : KeyAddress.t :=
  KeyAddress.mk key (map ServerThread.key_request_connect_address threads).

Definition push_pending (key : Key) (p : Address * string) : Rt unit :=
  modify (λ s, set_pending_requests
    (<[key := map_get [] (pending_requests s) key ++ [p]]> (pending_requests s)) s).

(** The loop over the keys; [None] is the early [return]. *)
Fixpoint collect_addresses (addr_request : KeyAddressRequest.t) (addresses : list KeyAddress.t)
    (keys : list Key) : Rt (option (list KeyAddress.t)) :=
  match keys with
  | [] => mret (Some addresses)
  | key :: keys =>
      threads ← key_threads key;
      match threads with
      | None =>
          push_pending key (KeyAddressRequest.response_address addr_request,
                            KeyAddressRequest.request_id addr_request) ;;
          mret None
      | Some threads => collect_addresses addr_request (addresses ++ [key_address key threads]) keys
      end
  end.

Definition address_handler (serialized : string) : Rt unit :=
  let addr_request : KeyAddressRequest.t := parse serialized in
  let respond addresses error :=
    send_string (SerializeToString
      (KeyAddressResponse.mk addresses error (KeyAddressRequest.request_id addr_request)))
      (KeyAddressRequest.response_address addr_request) in
  r ← on_rings get;
  if bool_decide (num_servers (global_hash_rings r) = 0) then
    respond (map (λ key, KeyAddress.mk key []) (KeyAddressRequest.keys addr_request)) NO_SERVERS
  else
    res ← collect_addresses addr_request [] (KeyAddressRequest.keys addr_request);
    match res with
    | None => mret tt
    | Some [] => mret tt
    | Some addresses => respond addresses NO_ERROR
    end.

(** ** replication_response_handler *)
Definition answer_address (key : Key) (threads : list ServerThread.t) (p : Address * string) : Rt unit :=
  send_string (SerializeToString (KeyAddressResponse.mk [key_address key threads] NO_ERROR p.2)) p.1.

Definition process_pending (key : Key) : Rt unit :=
  s ← get;
  match pending_requests s !! key with
  | None => mret tt
  | Some _ =>
      res ← first_tier key false kAllTiers;
      match res with
      | None => mret tt
      | Some threads =>
          s ← get;
          for_each (map_get [] (pending_requests s) key) (answer_address key threads) ;;
          modify (λ s, set_pending_requests (delete key (pending_requests s)) s)
      end
  end.

Definition update_key_replication_map (f : gmap Key KeyReplication → gmap Key KeyReplication) : Rt unit :=
  on_rings (modify (λ r, set_key_replication_map (f (key_replication_map r)) r)).

Definition replication_response_handler (serialized : string) : Rt unit :=
  let response : KeyResponse.t := parse serialized in
  tuple ← lift_outcome (vector_at (KeyResponse.tuples response) 0);
  let key := get_key_from_metadata (KeyTuple.key tuple) in
  match KeyTuple.error tuple with
  | NO_ERROR =>
      let lww_value : LWWValue.t := parse (KeyTuple.payload tuple) in
      let rep_data : ReplicationFactor.t := parse (LWWValue.value lww_value) in
      update_key_replication_map
        (set_replication key (ReplicationFactor.global rep_data) (ReplicationFactor.local rep_data)) ;;
      process_pending key
  | KEY_DNE =>
      update_key_replication_map (λ m, init_replication c m key) ;;
      process_pending key
  | WRONG_THREAD =>
      on_rings (
        g ← global_ring_at MEMORY;
        l ← local_ring_at MEMORY;
        issue_replication_factor_request c (RoutingThread.replication_response_connect_address rt) key g l)
  | _ => mret tt
  end.

(** ** replication_change_handler *)
Definition replication_change_handler (serialized : string) : Rt unit :=
  (if bool_decide (RoutingThread.tid rt = 0)
   then tell_routers RoutingThread.replication_change_connect_address serialized else mret tt) ;;
  let update : ReplicationFactorUpdate.t := parse serialized in
  for_each (ReplicationFactorUpdate.updates update) (λ key_rep,
    update_key_replication_map (set_replication (ReplicationFactor.key key_rep)
      (ReplicationFactor.global key_rep) (ReplicationFactor.local key_rep))).

(** ** run *)

(** Before the loop: the monitors are told, the local rings formed. *)
Definition routing_start (monitoring_ips : list Address) : Rt unit :=
  (if bool_decide (RoutingThread.tid rt = 0) then
     for_each monitoring_ips (λ address,
       send_string ("join:" +:+ Tier_Name ROUTING +:+ ":" +:+ RoutingThread.ip rt +:+ ":NULL")
         (MonitoringThread.notify_connect_address (MonitoringThread.new address)))
   else mret tt) ;;
  on_rings (modify (λ r, set_local_hash_rings
    (form_local_rings c (RoutingThread.ip rt) (RoutingThread.ip rt) (local_hash_rings r)) r)).

(** What [poll] found: at most one message per socket. *)
Record Polled := mkPolled {
  seed_request : bool;
  notification : option string;
  replication_response : option string;
  replication_change : option string;
  key_address_request : option string;
}.

Definition on_message (m : option string) (handler : string → Rt unit) : Rt unit :=
  match m with Some serialized => handler serialized | None => mret tt end.

(** One turn of the loop; the result is what the seed socket replied. *)
Definition routing_iteration (p : Polled) : Rt (option string) :=
  reply ← (if seed_request p then
             r ← on_rings get; mret (Some (seed_handler (global_hash_rings r)))
           else mret None);
  on_message (notification p) membership_handler ;;
  on_message (replication_response p) replication_response_handler ;;
  on_message (replication_change p) replication_change_handler ;;
  on_message (key_address_request p) address_handler ;;
  mret reply.
End handlers.

(** ** What a new server learns from the seed node *)
Section membership.
Context `{StdHash}.
Implicit Types (m : gmap Tier HashRing.t) (us : gmap string ServerThread.t).

(** The servers of a ring are known as thread 0 under their own id. *)
Definition server_ok (id : string) (st : ServerThread.t) : Prop :=
  st = ServerThread.mk (ServerThread.public_ip st) (ServerThread.private_ip st) 0 0 ∧ id = ServerThread.id st.

Definition servers_of m (tier : Tier) : gmap string ServerThread.t :=
  HashRing.unique_servers (map_get HashRing.empty m tier).

Lemma servers_of_insert_ne H' t t' pub priv jc tid m :
  t ≠ t' → servers_of (rings_insert H' t pub priv jc tid m) t' = servers_of m t'.
Proof. intros. unfold servers_of, rings_insert. by rewrite map_get_insert_ne. Qed.

Lemma servers_of_insert H' t pub priv jc tid m id :
  id = ServerThread.id (ServerThread.mk pub priv tid 0) → servers_of m t !! id = None →
  servers_of (rings_insert H' t pub priv jc tid m) t =
    <[id := ServerThread.mk pub priv tid 0]> (servers_of m t).
Proof.
  intros -> Hn. unfold servers_of, rings_insert in *. rewrite map_get_insert_eq.
  unfold HashRing.insert. by rewrite Hn.
Qed.

Notation insert_server_of t := (λ m server,
  rings_insert GlobalHasher t (Server.public_ip server) (Server.private_ip server) 0 0 m).
Notation as_server := (λ q : string * ServerThread.t,
  Server.mk (ServerThread.public_ip q.2) (ServerThread.private_ip q.2)).

(** The inner loop: the servers of one tier. *)
Lemma populate_tier t (L : list (string * ServerThread.t)) m :
  NoDup L.*1 → Forall (λ q, server_ok q.1 q.2) L → (∀ id, id ∈ L.*1 → servers_of m t !! id = None) →
  servers_of (foldl (insert_server_of t) m (map as_server L)) t = list_to_map L ∪ servers_of m t ∧
  ∀ t', t ≠ t' → servers_of (foldl (insert_server_of t) m (map as_server L)) t' = servers_of m t'.
Proof.
  revert m. induction L as [|[id st] L IH]; intros m Hnd Hok Hfresh; simpl.
  { by rewrite (left_id_L ∅ (∪)). }
  apply NoDup_cons in Hnd as [Hid Hnd]. apply Forall_cons in Hok as [[Hst Hi] Hok]. simpl in *.
  assert (servers_of (rings_insert GlobalHasher t (ServerThread.public_ip st)
            (ServerThread.private_ip st) 0 0 m) t = <[id := st]> (servers_of m t)) as Hins.
  { rewrite (servers_of_insert _ _ _ _ _ _ _ id); [by rewrite <-Hst|by rewrite <-Hst|].
    apply Hfresh. by left. }
  destruct (IH (rings_insert GlobalHasher t (ServerThread.public_ip st)
            (ServerThread.private_ip st) 0 0 m)) as [H1 H2]; [done|done| |].
  { intros id' Hin. rewrite Hins, lookup_insert_ne by (intros <-; done). apply Hfresh. by right. }
  split.
  - rewrite H1, Hins. rewrite <-insert_union_l, <-insert_union_r; [done|].
    apply not_elem_of_list_to_map_1. done.
  - intros t' Ht. rewrite H2 by done. by apply servers_of_insert_ne.
Qed.

(** The outer loop: the tiers. *)
Lemma populate_tiers (T : list (Tier * HashRing.t)) m :
  NoDup T.*1 → (∀ t r, (t, r) ∈ T → map_Forall server_ok (HashRing.unique_servers r)) →
  (∀ t, t ∈ T.*1 → servers_of m t = ∅) →
  let m' := populate_rings (ClusterMembership.mk (map tier_membership T)) m in
  (∀ t r, (t, r) ∈ T → servers_of m' t = HashRing.unique_servers r) ∧
  (∀ t, t ∉ T.*1 → servers_of m' t = servers_of m t).
Proof.
  unfold populate_rings. simpl. revert m.
  induction T as [|[t r] T IH]; intros m Hnd Hok Hfresh; simpl.
  { split; [by intros ? ? ?%elem_of_nil|done]. }
  apply NoDup_cons in Hnd as [Ht Hnd]. simpl in *.
  destruct (populate_tier t (map_to_list (HashRing.unique_servers r)) m) as [H1 H2].
  { apply NoDup_fst_map_to_list. }
  { apply Forall_forall. intros [id st] Hin%elem_of_map_to_list. apply (Hok t r); [by left|done]. }
  { intros id _. rewrite Hfresh by (by left). apply lookup_empty. }
  rewrite list_to_map_to_list, (Hfresh t), (right_id_L ∅ (∪)) in H1 by (by left).
  destruct (IH (foldl (insert_server_of t) m
    (map as_server (map_to_list (HashRing.unique_servers r))))) as [H3 H4].
  { done. }
  { intros t' r' Hin. apply (Hok t'). by right. }
  { intros t' Hin. rewrite H2 by (intros <-; done). apply Hfresh. by right. }
  split.
  - intros t' r' [[= -> ->]|Hin]%elem_of_cons; [|by apply H3]. by rewrite H4.
  - intros t' [Hne Hnin]%not_elem_of_cons. rewrite H4 by done. by apply H2.
Qed.

(** C23: a server that starts from the seed node's answer puts the same servers
    on its global rings as the seed node has on its own, for every tier. *)
Theorem seed_membership_learnt `{Protobuf} `{!ProtoLaws ClusterMembership.t carries dflt} m tier :
  (∀ t r, m !! t = Some r → map_Forall server_ok (HashRing.unique_servers r)) →
  carries (ClusterMembership.mk (map tier_membership (map_to_list m))) →
  servers_of (populate_rings (parse (seed_handler m)) ∅) tier = servers_of m tier.
Proof.
  intros Hok Hc. unfold seed_handler. rewrite parse_serialize' by done.
  destruct (populate_tiers (map_to_list m) ∅) as [H1 H2].
  { apply NoDup_fst_map_to_list. }
  { intros t r Hin%elem_of_map_to_list. by apply (Hok t). }
  { intros t _. unfold servers_of, map_get. by rewrite lookup_empty. }
  destruct (m !! tier) as [r|] eqn:Hm.
  - rewrite (H1 tier r) by (by apply elem_of_map_to_list). unfold servers_of, map_get. by rewrite Hm.
  - rewrite H2; [unfold servers_of, map_get; by rewrite Hm, lookup_empty|].
    intros ([t r] & -> & Hin%elem_of_map_to_list)%list_elem_of_fmap. simpl in Hm. by rewrite Hm in Hin.
Qed.
End membership.

(** ** Announcements *)
Section announcements.
Context `{StdHash} (c : Config) (rt : RoutingThread.t).

(** C24: the announcements of a server are understood by servers and routers
    alike: both read the same tier, addresses and join count, and a router
    passes on exactly the text a server sends. *)
Theorem announcements_understood tier pub priv jc s :
  plain_ip pub → plain_ip priv → 0 ≤ jc ≤ INT_MAX →
  parse_join (join_message tier pub priv jc) = Ok (tier, pub, priv, jc) ∧
  membership_handler c rt ("join:" +:+ join_message tier pub priv jc) s =
    server_joined c rt tier pub priv jc (join_message tier pub priv jc)
      ("join:" +:+ join_message tier pub priv jc) s ∧
  parse_depart (depart_message tier pub priv) = Ok (tier, pub, priv) ∧
  membership_handler c rt ("depart:" +:+ depart_message tier pub priv) s =
    server_departed c rt tier pub priv ("depart:" +:+ depart_message tier pub priv) s.
Proof.
  intros Hpub Hpriv Hjc.
  split_and!.
  - by apply parse_join_message.
  - unfold membership_handler. set (msg := _ +:+ _).
    change (split msg colon) with (split (join colon (["join"] ++ [Tier_Name tier; pub; priv; to_string jc])) colon).
    rewrite split_join_message; [|by repeat constructor|done|done|lia].
    unfold mbind, M_bind, lift_outcome. simpl. rewrite stoi_to_string by done. unfold tier_of.
    rewrite Tier_Parse_Name. simpl. by destruct (server_joined _ _ _ _ _ _ _ _ _) as [[[]]|].
  - by apply parse_depart_message.
  - unfold membership_handler. set (msg := _ +:+ _).
    change (split msg colon) with (split (join colon (["depart"] ++ [Tier_Name tier; pub; priv])) colon).
    rewrite split_depart_message; [|by repeat constructor|done|done].
    unfold mbind, M_bind, lift_outcome. simpl. unfold tier_of.
    rewrite Tier_Parse_Name. simpl. by destruct (server_departed _ _ _ _ _ _ _) as [[[]]|].
Qed.
End announcements.

(** ** Answering clients *)
Section answers.
Context `{Protobuf} `{StdHash} `{Random} `{HashRingUtilInterface} (c : Config) (rt : RoutingThread.t).
(** [R]: what the rings are known to satisfy, kept by every lookup. *)
Context (R : RingState → Prop).
Implicit Types (s : RoutingState) (key : Key).

(** [get_responsible_threads] names [threads tier] for the key, in each tier. *)
Definition located_as key (md : bool) (threads : Tier → list ServerThread.t) : Prop :=
  ∀ tier r, tier ∈ kAllTiers → R r →
    wp (get_responsible_threads (RoutingThread.replication_response_connect_address rt) key md [tier]) r
       (λ res r' out, res = (threads tier, true) ∧ R r' ∧ out = []).

Definition located key (threads : Tier → list ServerThread.t) : Prop :=
  key ≠ "" ∧ ∃ md, is_metadata key = Ok md ∧ located_as key md threads.

(** The vector of the key is not known: [ask] is sent to learn it. *)
Definition unlocated key (ask : Msg) : Prop :=
  key ≠ "" ∧ ∃ md, is_metadata key = Ok md ∧ ∀ r, R r →
    wp (get_responsible_threads (RoutingThread.replication_response_connect_address rt) key md [MEMORY]) r
       (λ res r' out, res = ([], false) ∧ R r' ∧ out = [ask]).

(** The threads a client is told: memory first. *)
Definition chosen (threads : Tier → list ServerThread.t) : list ServerThread.t :=
  match threads MEMORY with [] => threads DISK | ths => ths end.

Lemma wp_first_tier key md threads s :
  located_as key md threads → R (rings s) →
  wp (first_tier rt key md kAllTiers) s (λ res s' out,
    res = Some (chosen threads) ∧ R (rings s') ∧ pending_requests s' = pending_requests s ∧ out = []).
Proof.
  intros Hloc Hr. unfold kAllTiers, chosen. simpl.
  wp_step. apply wp_zoom. eapply wp_mono; [apply Hloc; [by left|done]|]. intros ? r1 ? (-> & Hr1 & ->).
  destruct (threads MEMORY) as [|th ths]; simpl; [|by wp_steps].
  wp_step. apply wp_zoom. eapply wp_mono; [apply Hloc; [right; by left|done]|]. intros ? r2 ? (-> & Hr2 & ->).
  destruct (threads DISK) as [|th ths]; simpl; by wp_steps.
Qed.

Lemma nonempty_length key : key ≠ "" → bool_decide (0 < String.length key)%nat = true.
Proof. intros. apply bool_decide_eq_true. destruct key; [done|simpl; lia]. Qed.

Lemma wp_key_threads key threads s :
  located key threads → R (rings s) →
  wp (key_threads rt key) s (λ res s' out,
    res = Some (chosen threads) ∧ R (rings s') ∧ pending_requests s' = pending_requests s ∧ out = []).
Proof.
  intros (Hne & md & Hmd & Hloc) Hr. unfold key_threads. rewrite nonempty_length by done.
  wp_step. eapply wp_lift_outcome; [done|]. eapply wp_mono; [by apply wp_first_tier|]. done.
Qed.

Lemma wp_collect req (threads : Key → Tier → list ServerThread.t) keys rest acc s
    (Q : option (list KeyAddress.t) → RoutingState → list Msg → Prop) :
  (∀ key, key ∈ keys → located key (threads key)) → R (rings s) →
  (∀ s', R (rings s') → pending_requests s' = pending_requests s →
     wp (collect_addresses rt req (acc ++ map (λ key, key_address key (chosen (threads key))) keys) rest)
        s' Q) →
  wp (collect_addresses rt req acc (keys ++ rest)) s Q.
Proof.
  revert acc s. induction keys as [|key keys IH]; intros acc s Hloc Hr HQ; simpl.
  { specialize (HQ s Hr eq_refl). by rewrite app_nil_r in HQ. }
  wp_step. eapply wp_mono; [apply wp_key_threads; [apply Hloc; by left|done]|].
  intros ? s1 ? (-> & Hr1 & Hp & ->). apply IH; [intros; apply Hloc; by right|done|].
  intros s' Hr' Hp'. rewrite <-app_assoc. simpl. apply HQ; [done|congruence].
Qed.

(** C21: an address request whose keys can all be located is answered with one
    response: one entry per key, in order, with the addresses of the key's
    threads in the memory tier, or in the disk tier when memory has none. *)
Theorem addresses_answered (threads : Key → Tier → list ServerThread.t) serialized s :
  let req : KeyAddressRequest.t := parse serialized in
  (∀ key, key ∈ KeyAddressRequest.keys req → located key (threads key)) →
  R (rings s) → num_servers (global_hash_rings (rings s)) ≠ 0 → KeyAddressRequest.keys req ≠ [] →
  wp (address_handler rt serialized) s (λ _ s' out,
    out = [mkMsg (KeyAddressRequest.response_address req) (SerializeToString (KeyAddressResponse.mk
             (map (λ key, key_address key (chosen (threads key))) (KeyAddressRequest.keys req))
             NO_ERROR (KeyAddressRequest.request_id req)))] ∧
    pending_requests s' = pending_requests s ∧ R (rings s')).
Proof.
  intros req Hloc Hr Hn Hks. unfold address_handler. fold req. cbv zeta.
  wp_step. apply wp_zoom, wp_get. rewrite bool_decide_eq_false_2 by done. wp_step.
  rewrite <-(app_nil_r (KeyAddressRequest.keys req)).
  apply (wp_collect _ threads); [done|done|]. intros s' Hr' Hp. simpl. wp_step.
  rewrite app_nil_r. destruct (KeyAddressRequest.keys req) as [|k ks]; [done|]. simpl.
  wp_step. by rewrite Hp.
Qed.

(** C37: one key whose replication factor is not known silences the whole
    request: the addresses found for the keys before it are dropped, the keys
    after it are not looked at, and only this key is remembered as pending. *)
Theorem address_request_cut_short (threads : Key → Tier → list ServerThread.t) ask serialized s
    before key after :
  let req : KeyAddressRequest.t := parse serialized in
  KeyAddressRequest.keys req = before ++ key :: after →
  (∀ k, k ∈ before → located k (threads k)) → unlocated key ask →
  R (rings s) → num_servers (global_hash_rings (rings s)) ≠ 0 →
  wp (address_handler rt serialized) s (λ _ s' out,
    out = [ask] ∧
    pending_requests s' =
      <[key := map_get [] (pending_requests s) key ++
               [(KeyAddressRequest.response_address req, KeyAddressRequest.request_id req)]]>
        (pending_requests s)).
Proof.
  intros req Hks Hloc (Hne & md & Hmd & Hask) Hr Hn. unfold address_handler. fold req. cbv zeta.
  wp_step. apply wp_zoom, wp_get. rewrite bool_decide_eq_false_2 by done. wp_step. rewrite Hks.
  apply (wp_collect _ threads); [done|done|]. intros s' Hr' Hp. simpl.
  wp_step. unfold key_threads. rewrite nonempty_length by done.
  wp_step. eapply wp_lift_outcome; [done|]. unfold kAllTiers. simpl. wp_step. apply wp_zoom.
  eapply wp_mono; [by apply Hask|]. intros ? r1 ? (-> & Hr1 & ->). simpl. wp_step.
  unfold push_pending. wp_steps. simpl. by rewrite Hp.
Qed.

(** The answers to the requests that waited for a key. *)
Notation answers_to key threads pend := (map (λ p : Address * string, mkMsg p.1 (SerializeToString
  (KeyAddressResponse.mk [key_address key (chosen threads)] NO_ERROR p.2))) pend).

Lemma wp_process_pending key threads s pend :
  R (rings s) → located_as key false threads → pending_requests s !! key = Some pend →
  wp (process_pending rt key) s (λ _ s' out,
    out = answers_to key threads pend ∧ pending_requests s' = delete key (pending_requests s)).
Proof.
  intros Hr Hloc Hpend. unfold process_pending. wp_step. wp_step. rewrite Hpend. wp_step.
  eapply wp_mono; [by apply (wp_first_tier _ _ threads)|]. intros ? s2 ? (-> & Hr2 & Hp & ->).
  wp_step. wp_step. wp_step.
  eapply wp_mono; [apply (wp_for_each (λ ps s' out,
    pending_requests s' = pending_requests s ∧ out = answers_to key threads ps)); [done|]|].
  - intros ps p s' out _ [Hs' ->]. unfold answer_address. wp_step. split; [done|]. by rewrite map_app.
  - intros [] s' out [Hs' ->]. wp_step. simpl. rewrite Hs', app_nil_r. split; [|done].
    unfold map_get. by rewrite Hp, Hpend.
Qed.

(** C22: when the replication factor of a key arrives (or the default one is
    used), every request that waited for the key gets an answer under its own
    request id, in order of arrival, and none is left waiting. *)
Theorem pending_addresses_answered (threads : Tier → list ServerThread.t) serialized tuple rest s pend :
  let key := get_key_from_metadata (KeyTuple.key tuple) in
  KeyResponse.tuples (parse serialized) = tuple :: rest →
  KeyTuple.error tuple = NO_ERROR ∨ KeyTuple.error tuple = KEY_DNE →
  R (set_key_replication_map (learnt c tuple (key_replication_map (rings s))) (rings s)) →
  located_as key false threads → pending_requests s !! key = Some pend →
  wp (replication_response_handler c rt serialized) s (λ _ s' out,
    out = map (λ p : Address * string, mkMsg p.1 (SerializeToString
                (KeyAddressResponse.mk [key_address key (chosen threads)] NO_ERROR p.2))) pend ∧
    pending_requests s' = delete key (pending_requests s)).
Proof.
  intros key Htuples Herr Hr Hloc Hpend. unfold replication_response_handler. cbv zeta.
  rewrite Htuples. wp_step. eapply wp_lift_outcome; [reflexivity|]. fold key.
  unfold learnt in Hr.
  destruct Herr as [He|He]; rewrite He in *; wp_step; apply wp_zoom, wp_modify;
    exact (wp_process_pending _ threads (set_rings _ s) _ Hr Hloc Hpend).
Qed.
End answers.
End Routing.

(** ** A routing thread of a two-node cluster *)
Module ExampleRouting.
#[local] Existing Instance bit_protobuf.
#[local] Existing Instance ExampleRing.toy_hash.
#[local] Existing Instance ExampleServer.still.
#[local] Existing Instance ExampleServer.util.

Definition rt : RoutingThread.t := RoutingThread.new "r" 0.
Definition both : KeyReplication :=
  mkKeyReplication (<[MEMORY := 1]> {[DISK := 0]}) (<[MEMORY := 1]> {[DISK := 1]}).
Definition rings_with (m : gmap Key KeyReplication) : RingState :=
  mkRingState (<[MEMORY := ExampleRing.ring]> {[DISK := HashRing.empty]})
    (<[MEMORY := ExampleServer.local_ring]> {[DISK := HashRing.empty]}) m 0 0.
Definition ring_state : RingState := rings_with {["k" := both]}.
Definition threads (tier : Tier) : list ServerThread.t :=
  match tier with MEMORY => [ServerThread.new "A" "a" 0] | _ => [] end.

Lemma locates_k : Routing.located_as rt (eq ring_state) "k" false threads.
Proof.
  intros tier r Htier <-. apply elem_of_cons in Htier as [->|Htier]; [|apply list_elem_of_singleton in Htier as ->];
    (eexists _, _, _; split; [vm_compute; reflexivity|]; split_and!; reflexivity).
Qed.

(** The question about the key ["u"], whatever the encoder. *)
Definition ask (P : Protobuf) : Msg := mkMsg "tcp://A:6200" (SerializeToString (KeyRequest.mk GET
  [KeyTuple.mk "ANNA_METADATA|replication|u" LWW NO_ERROR EmptyString 0 false]
  "tcp://r:6500" EmptyString)).

Lemma asks_u (P : Protobuf) :
  @Routing.unlocated (HashRingUtil ExampleServer.config) rt (eq ring_state) "u" (ask P).
Proof.
  split; [discriminate|]. exists false. split; [reflexivity|]. intros r <-.
  eexists _, _, _. split; [vm_compute; reflexivity|]. split_and!; reflexivity.
Qed.

Definition addr_request (keys : list Key) : KeyAddressRequest.t :=
  KeyAddressRequest.mk "tcp://client:6850" keys "client:1".

Lemma parse_addr_request (r : KeyAddressRequest.t) : parse (SerializeToString r) = r.
Proof. apply (@parse_serialize' _ _ _ _ (BitCodec.codec_laws _)). exact I. Qed.

Lemma parse_response (r : KeyResponse.t) : parse (SerializeToString r) = r.
Proof. apply (@parse_serialize' _ _ _ _ (BitCodec.codec_laws _)). exact I. Qed.

Lemma addresses_answered_witness :
  wp (Routing.address_handler rt (SerializeToString (addr_request ["k"]))) (Routing.mkRouting ring_state ∅)
    (λ _ s' out, out = [mkMsg "tcp://client:6850" (SerializeToString (KeyAddressResponse.mk
       [KeyAddress.mk "k" ["tcp://A:6200"]] NO_ERROR "client:1"))] ∧
     Routing.pending_requests s' = ∅ ∧ ring_state = Routing.rings s').
Proof.
  pose proof (Routing.addresses_answered rt (eq ring_state) (λ _, threads)
    (SerializeToString (addr_request ["k"])) (Routing.mkRouting ring_state ∅)) as Hthm.
  cbv zeta in Hthm. rewrite parse_addr_request in Hthm. apply Hthm.
  - intros key Hin. apply list_elem_of_singleton in Hin as ->. split; [discriminate|].
    exists false. split; [reflexivity|exact locates_k].
  - reflexivity.
  - discriminate.
  - discriminate.
Defined.

Lemma address_request_cut_short_witness :
  wp (Routing.address_handler rt (SerializeToString (addr_request ["k"; "u"]))) (Routing.mkRouting ring_state ∅)
    (λ _ s' out, out = [ask _] ∧ Routing.pending_requests s' = {["u" := [("tcp://client:6850", "client:1")]]}).
Proof.
  pose proof (Routing.address_request_cut_short rt (eq ring_state) (λ _, threads) (ask _)
    (SerializeToString (addr_request ["k"; "u"])) (Routing.mkRouting ring_state ∅) ["k"] "u" []) as Hthm.
  cbv zeta in Hthm. rewrite parse_addr_request in Hthm. apply Hthm.
  - reflexivity.
  - intros key Hin. apply list_elem_of_singleton in Hin as ->. split; [discriminate|].
    exists false. split; [reflexivity|exact locates_k].
  - exact (asks_u bit_protobuf).
  - reflexivity.
  - discriminate.
Defined.

Definition rep_response : KeyResponse.t := KeyResponse.mk GET
  [KeyTuple.mk "ANNA_METADATA|replication|k" LWW KEY_DNE EmptyString 0 false] EmptyString NO_ERROR.

Lemma pending_addresses_answered_witness :
  wp (Routing.replication_response_handler ExampleServer.config rt (SerializeToString rep_response))
    (Routing.mkRouting (rings_with ∅) {["k" := [("x", "1"); ("y", "2")]]})
    (λ _ s' out, out = [mkMsg "x" (SerializeToString (KeyAddressResponse.mk
         [KeyAddress.mk "k" ["tcp://A:6200"]] NO_ERROR "1"));
       mkMsg "y" (SerializeToString (KeyAddressResponse.mk
         [KeyAddress.mk "k" ["tcp://A:6200"]] NO_ERROR "2"))] ∧
     Routing.pending_requests s' = ∅).
Proof.
  assert (get_key_from_metadata "ANNA_METADATA|replication|k" = "k") as Hk by reflexivity.
  eapply wp_mono; [apply (Routing.pending_addresses_answered ExampleServer.config rt (eq ring_state) threads
    (SerializeToString rep_response) (KeyTuple.mk "ANNA_METADATA|replication|k" LWW KEY_DNE EmptyString 0 false) []
    (Routing.mkRouting (rings_with ∅) {["k" := [("x", "1"); ("y", "2")]]}) [("x", "1"); ("y", "2")])|].
  - rewrite parse_response. reflexivity.
  - by right.
  - vm_compute. reflexivity.
  - exact locates_k.
  - reflexivity.
  - intros _ s' out [-> ->]. cbn [KeyTuple.key]. rewrite Hk. split; reflexivity.
Defined.

Lemma announcements_understood_witness :
  parse_join (join_message MEMORY "10.0.0.1" "10.1.0.1" 3) = Ok (MEMORY, "10.0.0.1", "10.1.0.1", 3).
Proof.
  apply (Routing.announcements_understood ExampleServer.config rt MEMORY "10.0.0.1" "10.1.0.1" 3
    (Routing.mkRouting ring_state ∅)).
  - split; [reflexivity|discriminate].
  - split; [reflexivity|discriminate].
  - unfold INT_MAX. lia.
Defined.

Lemma seed_membership_learnt_witness :
  Routing.servers_of (populate_rings (parse (Routing.seed_handler (global_hash_rings ring_state))) ∅) MEMORY =
  Routing.servers_of (global_hash_rings ring_state) MEMORY.
Proof.
  apply (@Routing.seed_membership_learnt _ bit_protobuf _ _ (BitCodec.codec_laws _) (global_hash_rings ring_state) MEMORY).
  - intros t r Hr. unfold ring_state, rings_with in Hr. cbn [global_hash_rings] in Hr.
    apply lookup_insert_Some in Hr as [[<- <-]|[_ Hr]].
    + intros id st Hst. unfold ExampleRing.ring in Hst. cbn [HashRing.unique_servers] in Hst.
      apply lookup_insert_Some in Hst as [[<- <-]|[_ Hst]]; [by split|].
      apply lookup_singleton_Some in Hst as [<- <-]. by split.
    + apply lookup_singleton_Some in Hr as [<- <-]. apply map_Forall_empty.
  - exact I.
Defined.
End ExampleRouting.
