(* ===== verification/Requests.v ===== *)
(** Synchronous requests (common/include/requests.hpp): [receive] waits for the
    responses to a set of request ids, [make_request] sends one request and
    waits for its response. *)

From S2P Require Import Prelude Wire WireCodec.
From Stdlib Require Import Lia.

(** [recv_socket.recv] gives a message or, after the socket's timeout, nothing;
    the socket is the list of what it will give.  The result is [None] while
    the loop still waits; otherwise it has what the socket still holds. *)
Section receive.
Context {RES : Type} `{Proto RES} (response_id : RES → string).

Fixpoint receive_loop (events : list (option string)) (request_ids : gset string) (timeout_limit : Z)
    (responses : list RES) : option (bool * gset string * list RES * list (option string)) :=
  match events with
  | [] => None
  | Some serialized_resp :: events =>
      let response : RES := parse serialized_resp in
      let resp_id := response_id response in
      let '(request_ids, responses) :=
        if bool_decide (resp_id ∈ request_ids)
        then (request_ids ∖ {[resp_id]}, responses ++ [response])
        else (request_ids, responses) in
      if bool_decide (size request_ids = 0%nat) then Some (true, request_ids, responses, events)
      else receive_loop events request_ids timeout_limit responses
  | None :: events =>
      let timeout_limit := u32 (timeout_limit - 1) in
      if bool_decide (timeout_limit = 0) then Some (false, request_ids, [], events)
      else receive_loop events request_ids timeout_limit responses
  end.

Definition receive (events : list (option string)) (request_ids : gset string) (responses : list RES)
    : option (bool * gset string * list RES * list (option string)) :=
  receive_loop events request_ids (u32 (Z.of_nat (size request_ids))) responses.

(** The response, [succeed], and what the socket still holds; [RES()] is
    [dflt]. *)
Definition make_request (dflt : RES) (request_id : string) (events : list (option string))
    : option (outcome RES * bool * list (option string)) :=
  match receive events {[request_id]} [] with
  | None => None
  | Some (succeed, _, responses, rest) =>
      Some (if succeed : bool then vector_at responses 0 else Ok dflt, succeed, rest)
  end.

Lemma elem_of_difference_singleton (ids : gset string) x y : x ∈ ids ∖ {[y]} ↔ x ∈ ids ∧ x ≠ y.
Proof. by rewrite elem_of_difference, elem_of_singleton. Qed.

(** The number of timeouts among the events. *)
Definition timeouts (events : list (option string)) : nat := length (filter (λ e, e = None) events).

Lemma receive_loop_spec events ids limit (responses : list RES) :
  ids ≠ ∅ → 1 ≤ limit < 2 ^ 32 → limit ≤ Z.of_nat (timeouts events) →
  ∃ b ids' rs rest, receive_loop events ids limit responses = Some (b, ids', rs, rest) ∧
    if b : bool then ids' = ∅ ∧ ∃ rs', rs = responses ++ rs' ∧ NoDup (map response_id rs') ∧
                      ∀ id, id ∈ map response_id rs' ↔ id ∈ ids
    else rs = [].
Proof.
  revert ids limit responses. induction events as [|[m|] events IH]; intros ids limit responses Hne Hl Ht.
  { unfold timeouts in Ht. simpl in Ht. lia. }
  - simpl. assert (timeouts (Some m :: events) = timeouts events) as Hto by done. rewrite Hto in Ht.
    case_bool_decide as Hin.
    + case_bool_decide as Hs.
      * do 4 eexists. split; [done|]. assert (ids ∖ {[response_id (parse m)]} = ∅) as He
          by (apply size_empty_inv in Hs; by unfold_leibniz). split; [done|].
        exists [parse m]. split; [done|]. simpl. split; [apply NoDup_singleton|]. intros id.
        rewrite list_elem_of_singleton. split; [by intros ->|]. intros Hid.
        destruct (decide (id = response_id (parse m))); [done|]. exfalso.
        apply (not_elem_of_empty (C:=gset string) id). rewrite <-He. by apply elem_of_difference_singleton.
      * destruct (IH (ids ∖ {[response_id (parse m)]}) limit (responses ++ [parse m]))
          as (b & ids' & rs & rest & -> & Hb); [|done|done|].
        { intros He. apply Hs. rewrite He. apply size_empty. }
        do 4 eexists. split; [done|]. destruct b; [|done]. destruct Hb as (-> & rs' & -> & Hnd & Hids).
        split; [done|]. exists (parse m :: rs'). split; [by rewrite <-app_assoc|]. simpl. split.
        -- apply NoDup_cons. split; [|done]. rewrite Hids, elem_of_difference_singleton. by intros [_ ?].
        -- intros id. rewrite elem_of_cons, Hids, elem_of_difference_singleton.
           destruct (decide (id = response_id (parse m))) as [->|]; tauto.
    + rewrite bool_decide_eq_false_2 by (rewrite size_empty_iff; unfold_leibniz; done). by apply IH.
  - simpl. assert (timeouts (None :: events) = S (timeouts events)) as Hto by done. rewrite Hto in Ht.
    rewrite u32_id by (unfold is_u32; lia). case_bool_decide; [by do 4 eexists|]. apply IH; [done|lia|lia].
Qed.

(** C31: [receive] returns once as many receives timed out as requests were
    made, if not before; when it succeeds it has exactly one response for each
    request id, and otherwise none. *)
Theorem receive_matches_ids events ids :
  ids ≠ ∅ → Z.of_nat (size ids) < 2 ^ 32 → (size ids ≤ timeouts events)%nat →
  ∃ b ids' rs rest, receive events ids [] = Some (b, ids', rs, rest) ∧
    if b : bool then NoDup (map response_id rs) ∧ ∀ id, id ∈ map response_id rs ↔ id ∈ ids
    else rs = [].
Proof.
  intros Hne Hs Ht. unfold receive. rewrite u32_id by (unfold is_u32; lia).
  assert (size ids ≠ 0%nat) by (rewrite size_empty_iff; unfold_leibniz; done).
  destruct (receive_loop_spec events ids (Z.of_nat (size ids)) []) as (b & ids' & rs & rest & -> & Hb);
    [done|lia|lia|].
  do 4 eexists. split; [done|]. destruct b; [|done]. by destruct Hb as (_ & rs' & -> & ? & ?).
Qed.
End receive.

(** ** A request whose response never comes *)
Module ExampleRequests.
#[local] Existing Instance bit_protobuf.

Definition key_response (id : string) : KeyResponse.t := KeyResponse.mk GET [] id NO_ERROR.

(** A response to somebody else, a timeout. *)
Lemma receive_matches_ids_witness :
  ∃ b ids' rs rest, receive KeyResponse.response_id [Some (SerializeToString (key_response "2")); None]
    {["1"]} [] = Some (b, ids', rs, rest).
Proof.
  destruct (receive_matches_ids KeyResponse.response_id
    [Some (SerializeToString (key_response "2")); None] {["1"]}) as (b & ids' & rs & rest & Heq & _).
  - set_solver.
  - rewrite size_singleton. lia.
  - rewrite size_singleton. done.
  - eauto.
Defined.
End ExampleRequests.
