(* ===== verification/Client.v ===== *)
(** The client library: [KvsClient] of common/include/client/kvs_client.hpp,
    which finds the server threads of a key through the routing tier, sends
    requests and matches responses to them.

    Times are nanoseconds; the clock is read once per call of the interface. *)

From S2P Require Import Prelude Text Ordered Threads Wire WireCodec Codec Metadata RingUtil Handlers.
From Stdlib Require Import Lia Ascii.

Module KvsClient.
Record PendingRequest := mkPending {
  tp_ : Z;
  worker_addr_ : Address;
  request_ : KeyRequest.t;
}.
(** What [map[key]] creates. *)
Definition no_request : PendingRequest := mkPending 0 "" KeyRequest.empty.

Record ClientState := mkClient {
  rid_ : Z;
  seed_ : Z;
  key_address_cache_ : gmap Key (gset Address);
  pending_request_map_ : gmap Key (Z * list KeyRequest.t);
  pending_get_response_map_ : gmap Key PendingRequest;
  pending_put_response_map_ : gmap Key (gmap string PendingRequest);
}.

Definition set_rid (x : Z) s := mkClient x (seed_ s) (key_address_cache_ s) (pending_request_map_ s)
  (pending_get_response_map_ s) (pending_put_response_map_ s).
Definition set_seed (x : Z) s := mkClient (rid_ s) x (key_address_cache_ s) (pending_request_map_ s)
  (pending_get_response_map_ s) (pending_put_response_map_ s).
Definition set_cache x s := mkClient (rid_ s) (seed_ s) x (pending_request_map_ s)
  (pending_get_response_map_ s) (pending_put_response_map_ s).
Definition set_pending_request_map x s := mkClient (rid_ s) (seed_ s) (key_address_cache_ s) x
  (pending_get_response_map_ s) (pending_put_response_map_ s).
Definition set_pending_get x s := mkClient (rid_ s) (seed_ s) (key_address_cache_ s) (pending_request_map_ s)
  x (pending_put_response_map_ s).
Definition set_pending_put x s := mkClient (rid_ s) (seed_ s) (key_address_cache_ s) (pending_request_map_ s)
  (pending_get_response_map_ s) x.

Notation Cl := (M ClientState).

(** [duration_cast<milliseconds>(now - tp).count()] *)
Definition elapsed (now tp : Z) : Z := Z.quot (now - tp) 1000000.

(** [tokens[1]] of an address split at colons: the host. *)
Definition signature (address : Address) : outcome string := vector_at (split address colon) 1.

Section client.
Context `{Protobuf} `{Random}.
Context (routing_threads_ : list UserRoutingThread.t) (ut_ : UserThread.t) (timeout_ : Z).

(** ** Helpers *)

(** [if (++rid_ % 10000 == 0) rid_ = 0; return ... + std::to_string(rid_++);] *)
Definition get_request_id : Cl string :=
  s ← get;
  let r := u32 (rid_ s + 1) in
  let r := if bool_decide (r `mod` 10000 = 0) then 0 else r in
  modify (set_rid (u32 (r + 1))) ;;
  mret (UserThread.ip ut_ +:+ ":" +:+ to_string (UserThread.tid ut_) +:+ "_" +:+ to_string r).

(** [rand_r(&seed_) % n] *)
Definition random_below (n : nat) : Cl nat :=
  s ← get;
  let '(x, seed') := rand_r (seed_ s) in
  modify (set_seed seed') ;;
  if bool_decide (n = 0%nat) then fail (UndefinedBehaviour "remainder by zero")
  else mret (Z.to_nat (x `mod` Z.of_nat n)).

Definition get_routing_thread : Cl Address :=
  i ← random_below (length routing_threads_);
  t ← lift_outcome (vector_at routing_threads_ i);
  mret (UserRoutingThread.key_address_connect_address t).

Definition query_routing_async (key : Key) : Cl unit :=
  id ← get_request_id;
  let request := KeyAddressRequest.mk (UserThread.key_address_connect_address ut_) [key] id in
  rt_thread ← get_routing_thread;
  send_string (SerializeToString request) rt_thread.

Definition get_all_worker_threads (key : Key) : Cl (gset Address) :=
  s ← get;
  let cached := map_get ∅ (key_address_cache_ s) key in
  if bool_decide (cached = ∅) then
    (match pending_request_map_ s !! key with
     | None => query_routing_async key
     | Some _ => mret tt
     end) ;;
    mret ∅
  else mret cached.

Definition get_worker_thread (key : Key) : Cl Address :=
  local_cache ← get_all_worker_threads key;
  if bool_decide (size local_cache = 0%nat) then mret ""
  else
    i ← random_below (size local_cache);
    lift_outcome (vector_at (elements local_cache) i).

Definition prepare_data_request (type : RequestType) (key : Key) : Cl KeyRequest.t :=
  id ← get_request_id;
  mret (KeyRequest.mk type [KeyTuple.set_key key KeyTuple.empty]
          (UserThread.response_connect_address ut_) id).

(** [request.mutable_tuples(0)->set_address_cache_size(n)] *)
Definition with_cache_size (n : Z) (request : KeyRequest.t) : KeyRequest.t :=
  match KeyRequest.tuples request with
  | [] => request
  | tp :: tps => KeyRequest.mk (KeyRequest.type request) (KeyTuple.set_address_cache_size n tp :: tps)
                   (KeyRequest.response_address request) (KeyRequest.request_id request)
  end.

(** The request waits for the addresses of its key. *)
Definition wait_for_address (now : Z) (key : Key) (request : KeyRequest.t) : Cl unit :=
  modify (λ s,
    let '(tp, reqs) := default (now, []) (pending_request_map_ s !! key) in
    set_pending_request_map (<[key := (tp, reqs ++ [request])]> (pending_request_map_ s)) s).

(** The request was sent to [worker] and waits for its response. *)
Definition wait_for_response (now : Z) (key : Key) (worker : Address) (request : KeyRequest.t) : Cl unit :=
  match KeyRequest.type request with
  | GET => modify (λ s,
      let p := default (mkPending now "" request) (pending_get_response_map_ s !! key) in
      set_pending_get (<[key := mkPending (tp_ p) worker (request_ p)]> (pending_get_response_map_ s)) s)
  | _ => modify (λ s,
      let m := map_get ∅ (pending_put_response_map_ s) key in
      let id := KeyRequest.request_id request in
      let p := default (mkPending now "" request) (m !! id) in
      set_pending_put (<[key := <[id := mkPending (tp_ p) worker (request_ p)]> m]>
                         (pending_put_response_map_ s)) s)
  end.

(** The request is passed by reference; the result is the request as it was
    left. *)
Definition try_request (now : Z) (request : KeyRequest.t) : Cl KeyRequest.t :=
  tp ← lift_outcome (vector_at (KeyRequest.tuples request) 0);
  let key := KeyTuple.key tp in
  worker ← get_worker_thread key;
  if bool_decide (worker = "") then
    wait_for_address now key request ;;
    mret request
  else
    s ← get;
    let request := with_cache_size (Z.of_nat (size (map_get ∅ (key_address_cache_ s) key))) request in
    send_string (SerializeToString request) worker ;;
    wait_for_response now key worker request ;;
    mret request.

Definition invalidate_cache_for_key (key : Key) : Cl unit :=
  modify (λ s, set_cache (delete key (key_address_cache_ s)) s).

(** [v[1] == signature] for some address of the key *)
Fixpoint any_on_host (host : string) (addresses : list Address) (found : bool) : outcome bool :=
  match addresses with
  | [] => Ok found
  | a :: addresses =>
      v1 ← signature a;
      any_on_host host addresses (found || bool_decide (v1 = host))
  end.

Definition invalidate_cache_for_worker (worker : Address) : Cl unit :=
  host ← lift_outcome (signature worker);
  s ← get;
  remove_set ← for_acc (map_to_list (key_address_cache_ s)) [] (λ remove_set '(key, addresses),
    found ← lift_outcome (any_on_host host (elements addresses) false);
    mret (if found : bool then remove_set ++ [key] else remove_set));
  modify (λ s, set_cache (foldl (λ m key, delete key m) (key_address_cache_ s) remove_set) s).

(** Whether the request has to be issued again. *)
Definition check_tuple (tuple : KeyTuple.t) : Cl bool :=
  if bool_decide (KeyTuple.error tuple = WRONG_THREAD) then
    invalidate_cache_for_key (KeyTuple.key tuple) ;;
    mret true
  else
    (if KeyTuple.invalidate tuple then invalidate_cache_for_key (KeyTuple.key tuple) else mret tt) ;;
    mret false.

Definition generate_bad_response (req : KeyRequest.t) : outcome KeyResponse.t :=
  tp ← vector_at (KeyRequest.tuples req) 0;
  let answer := KeyTuple.set_key (KeyTuple.key tp) KeyTuple.empty in
  let answer := match KeyRequest.type req with
                | PUT => KeyTuple.set_payload (KeyTuple.payload tp)
                           (KeyTuple.set_lattice_type (KeyTuple.lattice_type tp) answer)
                | _ => answer
                end in
  Ok (KeyResponse.mk (KeyRequest.type req) [answer] (KeyRequest.request_id req) TIMEOUT).

(** ** The interface *)
Definition put_async (now : Z) (key : Key) (payload : string) (lattice_type : LatticeType) : Cl string :=
  request ← prepare_data_request PUT key;
  let request := KeyRequest.mk PUT
    [KeyTuple.set_payload payload (KeyTuple.set_lattice_type lattice_type
       (KeyTuple.set_key key KeyTuple.empty))]
    (KeyRequest.response_address request) (KeyRequest.request_id request) in
  request ← try_request now request;
  mret (KeyRequest.request_id request).

Definition get_async (now : Z) (key : Key) : Cl unit :=
  s ← get;
  match pending_get_response_map_ s !! key with
  | Some _ => mret tt
  | None =>
      request ← prepare_data_request GET key;
      try_request now request ;;
      mret tt
  end.

Definition clear_cache : Cl unit := modify (set_cache ∅).

(** *** receive_async: an answer of the routing tier

    [try_request] of a request whose key still has no address appends to the
    vector that the loop runs over, which invalidates its iterators. *)
Definition retry (now : Z) (key : Key) (req : KeyRequest.t) : Cl unit :=
  s ← get;
  try_request now req ;;
  s' ← get;
  if bool_decide (pending_request_map_ s' !! key = pending_request_map_ s !! key) then mret tt
  else fail (UndefinedBehaviour "vector changed while iterated over").

Definition on_address (now : Z) (serialized : string) : Cl unit :=
  let response : KeyAddressResponse.t := parse serialized in
  a ← lift_outcome (vector_at (KeyAddressResponse.addresses response) 0);
  let key := KeyAddress.key a in
  s ← get;
  match pending_request_map_ s !! key with
  | None => mret tt
  | Some (_, reqs) =>
      if bool_decide (KeyAddressResponse.error response = NO_SERVERS) then
        modify (set_pending_request_map (<[key := (now, reqs)]> (pending_request_map_ s))) ;;
        query_routing_async key
      else
        modify (λ s, set_cache (foldl (λ m ip, <[key := {[ip]} ∪ map_get ∅ m key]> m)
                                  (key_address_cache_ s) (KeyAddress.ips a)) s) ;;
        for_each reqs (retry now key) ;;
        modify (λ s, set_pending_request_map (delete key (pending_request_map_ s)) s)
  end.

(** *** receive_async: a response of a server *)
Definition on_get_response (now : Z) (key : Key) (tuple : KeyTuple.t) (response : KeyResponse.t)
    : Cl (list KeyResponse.t) :=
  s ← get;
  match pending_get_response_map_ s !! key with
  | None => mret []
  | Some p =>
      again ← check_tuple tuple;
      if again : bool then
        request ← try_request now (request_ p);
        modify (λ s,
          let p := default no_request (pending_get_response_map_ s !! key) in
          set_pending_get (<[key := mkPending now (worker_addr_ p) request]>
                             (pending_get_response_map_ s)) s) ;;
        mret []
      else
        modify (λ s, set_pending_get (delete key (pending_get_response_map_ s)) s) ;;
        mret [response]
  end.

Definition on_put_response (now : Z) (key : Key) (tuple : KeyTuple.t) (response : KeyResponse.t)
    : Cl (list KeyResponse.t) :=
  s ← get;
  let id := KeyResponse.response_id response in
  match pending_put_response_map_ s !! key ≫= lookup id with
  | None => mret []
  | Some p =>
      again ← check_tuple tuple;
      if again : bool then
        request ← try_request now (request_ p);
        modify (λ s,
          let m := map_get ∅ (pending_put_response_map_ s) key in
          let p := default no_request (m !! id) in
          set_pending_put (<[key := <[id := mkPending now (worker_addr_ p) request]> m]>
                             (pending_put_response_map_ s)) s) ;;
        mret []
      else
        modify (λ s,
          let m := delete id (map_get ∅ (pending_put_response_map_ s) key) in
          set_pending_put (if bool_decide (size m = 0%nat) then delete key (pending_put_response_map_ s)
                           else <[key := m]> (pending_put_response_map_ s)) s) ;;
        mret [response]
  end.

Definition on_response (now : Z) (serialized : string) : Cl (list KeyResponse.t) :=
  let response : KeyResponse.t := parse serialized in
  tuple ← lift_outcome (vector_at (KeyResponse.tuples response) 0);
  match KeyResponse.type response with
  | GET => on_get_response now (KeyTuple.key tuple) tuple response
  | _ => on_put_response now (KeyTuple.key tuple) tuple response
  end.

(** *** receive_async: requests that timed out *)
Definition expired (now tp : Z) : bool := bool_decide (timeout_ < elapsed now tp).

Definition gc_requests (now : Z) : Cl (list KeyResponse.t) :=
  s ← get;
  '(result, to_remove) ← for_acc (map_to_list (pending_request_map_ s)) ([], [])
    (λ '(result, to_remove) '(key, (tp, reqs)),
      if expired now tp then
        bad ← for_acc reqs [] (λ bad req, r ← lift_outcome (generate_bad_response req); mret (bad ++ [r]));
        mret (result ++ bad, to_remove ++ [key])
      else mret (result, to_remove));
  modify (λ s, set_pending_request_map
    (foldl (λ m key, delete key m) (pending_request_map_ s) to_remove) s) ;;
  mret result.

Definition gc_gets (now : Z) : Cl (list KeyResponse.t) :=
  s ← get;
  '(result, to_remove) ← for_acc (map_to_list (pending_get_response_map_ s)) ([], [])
    (λ '(result, to_remove) '(key, p),
      if expired now (tp_ p) then
        r ← lift_outcome (generate_bad_response (request_ p));
        invalidate_cache_for_worker (worker_addr_ p) ;;
        mret (result ++ [r], to_remove ++ [key])
      else mret (result, to_remove));
  modify (λ s, set_pending_get (foldl (λ m key, delete key m) (pending_get_response_map_ s) to_remove) s) ;;
  mret result.

(** The ids are erased from the map of their key, which stays, empty or not. *)
Definition gc_puts (now : Z) : Cl (list KeyResponse.t) :=
  s ← get;
  '(result, to_remove) ← for_acc (map_to_list (pending_put_response_map_ s)) ([], [])
    (λ acc '(key, m), for_acc (map_to_list m) acc (λ '(result, to_remove) '(id, p),
      if expired now (tp_ p) then
        r ← lift_outcome (generate_bad_response (request_ p));
        invalidate_cache_for_worker (worker_addr_ p) ;;
        mret (result ++ [r], to_remove ++ [(key, id)])
      else mret (result, to_remove)));
  modify (λ s, set_pending_put
    (foldl (λ m '(key, id), <[key := delete id (map_get ∅ m key)]> m)
       (pending_put_response_map_ s) to_remove) s) ;;
  mret result.

(** At most one message of each socket, then the three collections. *)
Definition receive_async (now : Z) (address response : option string) : Cl (list KeyResponse.t) :=
  (match address with Some serialized => on_address now serialized | None => mret tt end) ;;
  answers ← (match response with Some serialized => on_response now serialized | None => mret [] end);
  r1 ← gc_requests now;
  r2 ← gc_gets now;
  r3 ← gc_puts now;
  mret (answers ++ r1 ++ r2 ++ r3).
End client.

(** ** No request is lost

    [awaits_get], [awaits_put]: a request is outstanding, waiting for the
    addresses of its key or for its response. *)
Definition request_ok (key : Key) (req : KeyRequest.t) : Prop :=
  ∃ tp tps, KeyRequest.tuples req = tp :: tps ∧ KeyTuple.key tp = key.

Definition address_ok (a : Address) : Prop := ∃ host, signature a = Ok host.

Definition is_get (req : KeyRequest.t) : Prop := KeyRequest.type req = GET.

Definition get_ok (key : Key) (p : PendingRequest) : Prop :=
  request_ok key (request_ p) ∧ is_get (request_ p) ∧ address_ok (worker_addr_ p).
Definition put_ok (key : Key) (id : string) (p : PendingRequest) : Prop :=
  request_ok key (request_ p) ∧ ¬ is_get (request_ p) ∧ KeyRequest.request_id (request_ p) = id ∧
  address_ok (worker_addr_ p).

Record client_ok (s : ClientState) : Prop := {
  ok_requests key tp reqs : pending_request_map_ s !! key = Some (tp, reqs) → Forall (request_ok key) reqs;
  ok_gets key p : pending_get_response_map_ s !! key = Some p → get_ok key p;
  ok_puts key m id p : pending_put_response_map_ s !! key = Some m → m !! id = Some p → put_ok key id p;
  ok_cache key a : a ∈ map_get ∅ (key_address_cache_ s) key → address_ok a;
}.

Definition has_get s (key : Key) : Prop := is_Some (pending_get_response_map_ s !! key).
Definition has_put s (key : Key) (id : string) : Prop :=
  is_Some (pending_put_response_map_ s !! key ≫= lookup id).
Definition queued s (key : Key) (req : KeyRequest.t) : Prop :=
  ∃ tp reqs, pending_request_map_ s !! key = Some (tp, reqs) ∧ req ∈ reqs.

Definition awaits_get s (key : Key) : Prop := has_get s key ∨ ∃ req, queued s key req ∧ is_get req.
Definition awaits_put s (key : Key) (id : string) : Prop :=
  has_put s key id ∨ ∃ req, queued s key req ∧ ¬ is_get req ∧ KeyRequest.request_id req = id.

(** The response maps only gain requests. *)
Definition grows s s' : Prop :=
  (∀ key, has_get s key → has_get s' key) ∧ (∀ key id, has_put s key id → has_put s' key id).

(** Requests are only taken away. *)
Definition shrinks s s' : Prop :=
  (∀ key e, pending_request_map_ s' !! key = Some e → pending_request_map_ s !! key = Some e) ∧
  (∀ key p, pending_get_response_map_ s' !! key = Some p → pending_get_response_map_ s !! key = Some p) ∧
  (∀ key id p, map_get ∅ (pending_put_response_map_ s') key !! id = Some p →
     map_get ∅ (pending_put_response_map_ s) key !! id = Some p).

Lemma shrinks_refl s : shrinks s s.
Proof. done. Qed.

Lemma shrinks_trans s1 s2 s3 : shrinks s1 s2 → shrinks s2 s3 → shrinks s1 s3.
Proof. intros (? & ? & ?) (? & ? & ?). split_and!; eauto. Qed.

(** The request has been sent and waits for its response. *)
Definition placed s (key : Key) (req : KeyRequest.t) : Prop :=
  (is_get req → has_get s key) ∧ (¬ is_get req → has_put s key (KeyRequest.request_id req)).

(** A response that ends a request. *)
Definition ends_get (key : Key) (r : KeyResponse.t) : Prop :=
  KeyResponse.type r = GET ∧ ∃ tp tps, KeyResponse.tuples r = tp :: tps ∧ KeyTuple.key tp = key.
Definition ends_put (id : string) (r : KeyResponse.t) : Prop :=
  KeyResponse.type r ≠ GET ∧ KeyResponse.response_id r = id.

(** From [s] to [s'], every request is still outstanding or ended by a
    response of [result]. *)
Definition accounted s s' (result : list KeyResponse.t) : Prop :=
  (∀ key, awaits_get s key → awaits_get s' key ∨ ∃ r, r ∈ result ∧ ends_get key r) ∧
  (∀ key id, awaits_put s key id → awaits_put s' key id ∨ ∃ r, r ∈ result ∧ ends_put id r).

Lemma accounted_refl s : accounted s s [].
Proof. split; auto. Qed.

Lemma accounted_trans s1 s2 s3 r1 r2 :
  accounted s1 s2 r1 → accounted s2 s3 r2 → accounted s1 s3 (r1 ++ r2).
Proof.
  intros [Hg1 Hp1] [Hg2 Hp2]. split.
  - intros key [H|(r & Hr & He)]%Hg1; [|right; exists r; set_solver].
    apply Hg2 in H as [H|(r & Hr & He)]; [by left|right; exists r; set_solver].
  - intros key id [H|(r & Hr & He)]%Hp1; [|right; exists r; set_solver].
    apply Hp2 in H as [H|(r & Hr & He)]; [by left|right; exists r; set_solver].
Qed.

(** Steps that touch neither the queue nor the response maps. *)
Lemma accounted_same s s' :
  pending_request_map_ s' = pending_request_map_ s →
  pending_get_response_map_ s' = pending_get_response_map_ s →
  pending_put_response_map_ s' = pending_put_response_map_ s → accounted s s' [].
Proof.
  intros Hr Hg Hp. unfold accounted, awaits_get, awaits_put, queued, has_get, has_put.
  rewrite Hr, Hg, Hp. split; auto.
Qed.

Lemma accounted_grows s s' :
  grows s s' → (∀ key req, queued s key req → queued s' key req) → accounted s s' [].
Proof.
  intros [Hg Hp] Hq. split.
  - intros key [H|(req & H & Hge)]; left; [left; auto|right; eauto].
  - intros key id [H|(req & H & Hge)]; left; [left; auto|right; eauto].
Qed.

(** Steps that draw a request id or a random number. *)
Definition quiet s s' : Prop :=
  key_address_cache_ s' = key_address_cache_ s ∧ pending_request_map_ s' = pending_request_map_ s ∧
  pending_get_response_map_ s' = pending_get_response_map_ s ∧
  pending_put_response_map_ s' = pending_put_response_map_ s.

Lemma quiet_ok s s' : quiet s s' → client_ok s → client_ok s'.
Proof.
  intros (Hc & Hr & Hg & Hp) [H1 H2 H3 H4]. constructor; rewrite ?Hc, ?Hr, ?Hg, ?Hp; eauto.
Qed.

Lemma quiet_grows s s' : quiet s s' → grows s s' ∧ ∀ key req, queued s key req → queued s' key req.
Proof.
  intros (Hc & Hr & Hg & Hp). unfold grows, has_get, has_put, queued. rewrite Hr, Hg, Hp. auto.
Qed.

Lemma grows_trans s1 s2 s3 : grows s1 s2 → grows s2 s3 → grows s1 s3.
Proof. intros [] []. split; eauto. Qed.

Lemma address_ok_nonempty a : address_ok a → a ≠ "".
Proof. intros [host Hh] ->. discriminate Hh. Qed.

Lemma with_cache_size_type n req : KeyRequest.type (with_cache_size n req) = KeyRequest.type req.
Proof. unfold with_cache_size. by destruct (KeyRequest.tuples req). Qed.
Lemma with_cache_size_id n req : KeyRequest.request_id (with_cache_size n req) = KeyRequest.request_id req.
Proof. unfold with_cache_size. by destruct (KeyRequest.tuples req). Qed.
Lemma with_cache_size_ok n key req : request_ok key req → request_ok key (with_cache_size n req).
Proof.
  intros (tp & tps & Ht & Hk). unfold with_cache_size. rewrite Ht.
  exists (KeyTuple.set_address_cache_size n tp), tps. by split.
Qed.

Lemma sent_get_ok key n req tp w :
  request_ok key req → is_get req → address_ok w → get_ok key (mkPending tp w (with_cache_size n req)).
Proof.
  intros Hreq Hget Hw. split; [by apply with_cache_size_ok|]. split; [|done].
  unfold is_get. simpl. by rewrite with_cache_size_type.
Qed.

Lemma sent_put_ok key n req tp w :
  request_ok key req → ¬ is_get req → address_ok w →
  put_ok key (KeyRequest.request_id req) (mkPending tp w (with_cache_size n req)).
Proof.
  intros Hreq Hput Hw. split; [by apply with_cache_size_ok|]. split; [|split; [apply with_cache_size_id|done]].
  unfold is_get. simpl. by rewrite with_cache_size_type.
Qed.

Section no_loss.
Context `{Protobuf} `{Random}.
Context (routing_threads_ : list UserRoutingThread.t) (ut_ : UserThread.t) (timeout_ : Z).
Hypothesis some_router : routing_threads_ ≠ [].
Implicit Types (s : ClientState) (key : Key) (req : KeyRequest.t).

Lemma wp_random_below n s (Q : nat → ClientState → list Msg → Prop) :
  n ≠ 0%nat → (∀ i s', (i < n)%nat → quiet s s' → Q i s' []) → wp (random_below n) s Q.
Proof.
  intros Hn HQ. unfold random_below. wp_step. wp_step. destruct (rand_r (seed_ s)) as [x seed'].
  wp_step. wp_step. rewrite bool_decide_eq_false_2 by done. wp_step. apply HQ; [|done].
  pose proof (Z.mod_pos_bound x (Z.of_nat n)). lia.
Qed.

Lemma wp_vector_at {A} (l : list A) i s (Q : A → ClientState → list Msg → Prop) :
  (i < length l)%nat → (∀ a, a ∈ l → Q a s []) → wp (lift_outcome (vector_at l i)) s Q.
Proof.
  intros Hi HQ. destruct (lookup_lt_is_Some_2 l i Hi) as [a Ha].
  eapply wp_lift_outcome; [unfold vector_at; by rewrite Ha|]. apply HQ. by eapply list_elem_of_lookup_2.
Qed.

Lemma wp_query key s (Q : unit → ClientState → list Msg → Prop) :
  (∀ s' out, quiet s s' → Q tt s' out) → wp (query_routing_async routing_threads_ ut_ key) s Q.
Proof.
  intros HQ. unfold query_routing_async, get_request_id, get_routing_thread. do 7 wp_step.
  wp_step. apply wp_random_below; [by destruct routing_threads_|]. intros i s' Hi Hquiet.
  wp_step. apply wp_vector_at; [done|]. intros a Ha. wp_step. wp_step. apply HQ.
  destruct Hquiet as (? & ? & ? & ?). done.
Qed.

Lemma wp_get_worker_thread key s (Q : Address → ClientState → list Msg → Prop) :
  client_ok s →
  (∀ w s' out, quiet s s' →
     (if decide (map_get ∅ (key_address_cache_ s) key = ∅) then w = "" else address_ok w) → Q w s' out) →
  wp (get_worker_thread routing_threads_ ut_ key) s Q.
Proof.
  intros Hok HQ. unfold get_worker_thread, get_all_worker_threads. wp_step. wp_step. wp_step.
  case_bool_decide as Hc.
  - wp_step. destruct (pending_request_map_ s !! key).
    + wp_step. wp_step. rewrite bool_decide_eq_true_2 by done. wp_step.
      apply HQ; [done|]. by rewrite decide_True.
    + apply wp_query. intros s' out Hq. wp_step. rewrite bool_decide_eq_true_2 by done. wp_step.
      apply HQ; [done|]. by rewrite decide_True.
  - wp_step. assert (size (map_get ∅ (key_address_cache_ s) key) ≠ 0%nat) as Hs.
    { rewrite size_empty_iff. unfold_leibniz. done. }
    rewrite bool_decide_eq_false_2 by done. wp_step.
    apply wp_random_below; [done|]. intros i s' Hi Hq.
    apply wp_vector_at; [done|]. intros a Ha%elem_of_elements. apply HQ; [done|].
    rewrite decide_False by done. by eapply (ok_cache s).
Qed.

(** What [try_request] does with a request for [key]. *)
Definition tried key req s s' : Prop :=
  client_ok s' ∧ grows s s' ∧ (∀ k r, queued s k r → queued s' k r) ∧
  key_address_cache_ s' = key_address_cache_ s ∧
  if decide (map_get ∅ (key_address_cache_ s) key = ∅)
  then queued s' key req
  else pending_request_map_ s' = pending_request_map_ s ∧ placed s' key req.

Lemma wait_for_address_tried now key req s s1 :
  client_ok s → request_ok key req → quiet s s1 → map_get ∅ (key_address_cache_ s) key = ∅ →
  wp (wait_for_address now key req) s1 (λ _ s' _, tried key req s s').
Proof.
  intros Hok Hreq Hq Hc. pose proof (quiet_ok _ _ Hq Hok) as Hok1. destruct (quiet_grows _ _ Hq) as [Hg Hqd].
  unfold wait_for_address. wp_step.
  destruct (default (now, []) (pending_request_map_ s1 !! key)) as [tp reqs] eqn:Hd.
  unfold tried. rewrite decide_True by done. split_and!.
  - destruct Hok1 as [H1 H2 H3 H4]. constructor; simpl; eauto. intros k tp' reqs' Hk.
    apply lookup_insert_Some in Hk as [[<- [= <- <-]]|[_ Hk]]; [|by eapply H1].
    apply Forall_app. split; [|by repeat constructor].
    destruct (pending_request_map_ s1 !! key) as [[]|] eqn:Hp; simpl in Hd; simplify_eq; [by eapply H1|constructor].
  - done.
  - intros k r (tp' & reqs' & Hk & Hr)%Hqd. unfold queued. simpl. destruct (decide (key = k)) as [<-|Hne].
    + rewrite Hk in Hd. simpl in Hd. simplify_eq. rewrite lookup_insert_eq. do 2 eexists. split; [done|]. set_solver.
    + rewrite lookup_insert_ne by done. eauto.
  - apply Hq.
  - unfold queued. simpl. rewrite lookup_insert_eq. do 2 eexists. split; [done|]. set_solver.
Qed.

Lemma wait_for_response_tried now key worker req n s s1 :
  client_ok s → request_ok key req → quiet s s1 → map_get ∅ (key_address_cache_ s) key ≠ ∅ →
  address_ok worker →
  wp (wait_for_response now key worker (with_cache_size n req)) s1 (λ _ s' _, tried key req s s').
Proof.
  intros Hok Hreq Hq Hc Hw. pose proof (quiet_ok _ _ Hq Hok) as [H1 H2 H3 H4].
  destruct (quiet_grows _ _ Hq) as [Hg Hqd]. destruct Hq as (Hqc & Hqr & Hqg & Hqp).
  unfold wait_for_response. rewrite with_cache_size_type, with_cache_size_id.
  pose proof (with_cache_size_ok n key req Hreq) as Hreq'.
  destruct (decide (is_get req)) as [Hget|Hput].
  - rewrite Hget. wp_step. unfold tried. rewrite decide_False by done. split_and!; try done.
    + constructor; simpl; eauto. intros k p Hk. apply lookup_insert_Some in Hk as [[<- <-]|[_ Hk]]; [|eauto].
      destruct (pending_get_response_map_ s1 !! key) as [p|] eqn:Hp; simpl.
      * destruct (H2 _ _ Hp) as (? & ? & _). by split.
      * by apply sent_get_ok.
    + destruct Hg as [Hgg Hgp]. split; [|done]. intros k Hk%Hgg. unfold has_get in *. simpl.
      destruct (decide (key = k)) as [<-|]; [by rewrite lookup_insert_eq|by rewrite lookup_insert_ne].
    + split; [|done]. intros _. unfold has_get. simpl. by rewrite lookup_insert_eq.
  - assert (∀ X (a b : X), match KeyRequest.type req with GET => a | _ => b end = b) as Hty.
    { intros. unfold is_get in Hput. by destruct (KeyRequest.type req). }
    rewrite Hty. wp_step. unfold tried. rewrite decide_False by done. split_and!; try done.
    + constructor; simpl; eauto. intros k m id p Hk Hid.
      apply lookup_insert_Some in Hk as [[<- <-]|[_ Hk]]; [|eauto].
      unfold map_get in Hid. destruct (pending_put_response_map_ s1 !! key) as [m|] eqn:Hm; simpl in Hid;
        apply lookup_insert_Some in Hid as [[<- <-]|[_ Hid]]; eauto; try by rewrite lookup_empty in Hid.
      * destruct (m !! KeyRequest.request_id req) as [p|] eqn:Hp; simpl.
        -- destruct (H3 _ _ _ _ Hm Hp) as (? & ? & ? & _). by split_and!.
        -- by apply sent_put_ok.
      * by apply sent_put_ok.
    + destruct Hg as [Hgg Hgp]. split; [done|]. intros k id Hk%Hgp. unfold has_put in *. simpl.
      destruct (decide (key = k)) as [<-|]; [rewrite lookup_insert_eq|by rewrite lookup_insert_ne].
      unfold map_get. destruct (pending_put_response_map_ s1 !! key) as [m|]; [|by destruct Hk]. simpl in *.
      destruct (decide (KeyRequest.request_id req = id)) as [<-|];
        [by rewrite lookup_insert_eq|by rewrite lookup_insert_ne].
    + split; [done|]. intros _. unfold has_put. simpl. rewrite lookup_insert_eq. simpl. by rewrite lookup_insert_eq.
Qed.

Lemma wp_try_request now key req s :
  client_ok s → request_ok key req →
  wp (try_request routing_threads_ ut_ now req) s (λ req' s' _,
    tried key req s s' ∧ request_ok key req' ∧ KeyRequest.type req' = KeyRequest.type req ∧
    KeyRequest.request_id req' = KeyRequest.request_id req).
Proof.
  intros Hok Hreq. pose proof Hreq as (tp & tps & Htp & Hk). unfold try_request. rewrite Htp.
  wp_step. eapply wp_lift_outcome; [reflexivity|]. rewrite Hk. wp_step.
  apply wp_get_worker_thread; [done|]. intros w s1 out Hq Hw.
  destruct (decide (map_get ∅ (key_address_cache_ s) key = ∅)) as [Hc|Hc].
  - subst w. rewrite bool_decide_eq_true_2 by done. wp_step.
    eapply wp_mono; [by apply wait_for_address_tried|]. intros [] s' out' Ht. by wp_step.
  - rewrite bool_decide_eq_false_2 by (by apply address_ok_nonempty). wp_step. wp_step. wp_step. wp_step.
    wp_step. eapply wp_mono; [by apply wait_for_response_tried|]. intros [] s' out' Ht. wp_step.
    split_and!; [done|by apply with_cache_size_ok|apply with_cache_size_type|apply with_cache_size_id].
Qed.

(** *** Answers of the routing tier *)
Lemma foldl_cache_ips key (ips : list Address) (m : gmap Key (gset Address)) k x :
  x ∈ map_get ∅ (foldl (λ m ip, <[key := {[ip]} ∪ map_get ∅ m key]> m) m ips) k ↔
  (k = key ∧ x ∈ ips) ∨ x ∈ map_get ∅ m k.
Proof.
  revert m. induction ips as [|ip ips IH]; intros m; simpl; [set_solver|]. rewrite IH.
  destruct (decide (key = k)) as [<-|Hne].
  - rewrite map_get_insert_eq. set_solver.
  - rewrite map_get_insert_ne by done. set_solver.
Qed.

Lemma set_cache_ok m s :
  client_ok s → (∀ key a, a ∈ map_get ∅ m key → address_ok a) → client_ok (set_cache m s).
Proof. intros [H1 H2 H3 H4] Hm. by constructor. Qed.

Lemma placed_grows s s' key req : grows s s' → placed s key req → placed s' key req.
Proof. intros [Hg Hp] [H1 H2]. split; auto. Qed.

Lemma wp_retries now key reqs s :
  client_ok s → Forall (request_ok key) reqs → map_get ∅ (key_address_cache_ s) key ≠ ∅ →
  wp (for_each reqs (retry routing_threads_ ut_ now key)) s (λ _ s' _,
    client_ok s' ∧ pending_request_map_ s' = pending_request_map_ s ∧ grows s s' ∧
    Forall (placed s' key) reqs).
Proof.
  intros Hok Hreqs Hc. eapply wp_mono; [apply (wp_for_each (λ xs s' _,
    client_ok s' ∧ pending_request_map_ s' = pending_request_map_ s ∧ grows s s' ∧
    key_address_cache_ s' = key_address_cache_ s ∧ Forall (placed s' key) xs))|].
  - split_and!; try done.
  - intros xs req s' out Hin (Hok' & Hp & Hg & Hcs & Hpl). unfold retry. wp_step. wp_step. wp_step.
    eapply wp_mono; [apply (wp_try_request now key); [done|by eapply Forall_forall]|].
    intros req' s'' out' [(Hok'' & Hg' & _ & Hcs' & Htried) _]. rewrite decide_False in Htried by (by rewrite Hcs).
    destruct Htried as [Hp' Hreq]. wp_step. wp_step. rewrite bool_decide_eq_true_2 by congruence. wp_step.
    split_and!; try done; [congruence|by eapply grows_trans|congruence|].
    apply Forall_app. split; [|by apply Forall_singleton]. eapply Forall_impl; [exact Hpl|].
    intros r. by apply placed_grows.
  - intros [] s' out (? & ? & ? & ? & ?). done.
Qed.

(** A well-formed answer: it names addresses, or says that there are no
    servers. *)
Definition address_answer_ok (response : KeyAddressResponse.t) : Prop :=
  ∃ a rest, KeyAddressResponse.addresses response = a :: rest ∧
    (KeyAddressResponse.error response = NO_SERVERS ∨
     KeyAddress.ips a ≠ [] ∧ Forall address_ok (KeyAddress.ips a)).

(** Requests whose address is known move from the queue to the response maps. *)
Lemma dequeue_accounted s s' key tp reqs :
  client_ok s' → pending_request_map_ s !! key = Some (tp, reqs) →
  pending_request_map_ s' = pending_request_map_ s → grows s s' → Forall (placed s' key) reqs →
  let s'' := set_pending_request_map (delete key (pending_request_map_ s')) s' in
  client_ok s'' ∧ accounted s s'' [].
Proof.
  intros [H1 H2 H3 H4] Hk Hp [Hgg Hgp] Hpl. simpl. split.
  { constructor; simpl; eauto. intros k tp' reqs' Hk'. apply lookup_delete_Some in Hk' as [_ Hk']. eauto. }
  assert (∀ k req, queued s k req → k = key ∧ placed s' key req ∨
    queued (set_pending_request_map (delete key (pending_request_map_ s')) s') k req) as Hq.
  { intros k req (tp' & reqs' & Hk' & Hin). destruct (decide (k = key)) as [->|Hne]; [left|right].
    - rewrite Hk in Hk'. simplify_eq. split; [done|]. by eapply Forall_forall in Hpl.
    - exists tp', reqs'. simpl. by rewrite Hp, lookup_delete_ne. }
  split.
  - intros k [Hh|(req & Hqd & Hge)]; left; [by left; apply Hgg|].
    destruct (Hq _ _ Hqd) as [[-> [Hpg _]]|Hqd']; [left; by apply Hpg|right; eauto].
  - intros k id [Hh|(req & Hqd & Hge & <-)]; left; [by left; apply Hgp|].
    destruct (Hq _ _ Hqd) as [[-> [_ Hpp]]|Hqd']; [left; by apply Hpp|right; eauto].
Qed.

Lemma wp_on_address now serialized s :
  client_ok s → address_answer_ok (parse serialized) →
  wp (on_address routing_threads_ ut_ now serialized) s (λ _ s' _, client_ok s' ∧ accounted s s' []).
Proof.
  intros Hok (a & rest & Ha & Hans). unfold on_address. cbv zeta. rewrite Ha.
  wp_step. eapply wp_lift_outcome; [reflexivity|]. wp_step. wp_step.
  destruct (pending_request_map_ s !! KeyAddress.key a) as [[tp reqs]|] eqn:Hk.
  2:{ wp_step. split; [done|apply accounted_refl]. }
  case_bool_decide as Herr.
  - wp_step. wp_step. apply wp_query. intros s' out Hq. destruct (quiet_grows _ _ Hq) as [Hg Hqd]. split.
    + apply (quiet_ok _ _ Hq). destruct Hok as [H1 H2 H3 H4]. constructor; simpl; eauto.
      intros k tp' reqs' Hk'. apply lookup_insert_Some in Hk' as [[<- [= <- <-]]|[_ Hk']]; eauto.
    + apply accounted_grows; [done|]. intros k req (tp' & reqs' & Hk' & Hin). apply Hqd. unfold queued. simpl.
      destruct (decide (KeyAddress.key a = k)) as [<-|Hne].
      * rewrite lookup_insert_eq. rewrite Hk in Hk'. simplify_eq. eauto.
      * rewrite lookup_insert_ne by done. eauto.
  - destruct Hans as [Hno|[Hips Hall]]; [done|]. wp_step. wp_step. wp_step.
    eapply wp_mono; [apply wp_retries|].
    + apply set_cache_ok; [done|]. intros k x [[-> Hin]|Hin]%foldl_cache_ips; [by eapply Forall_forall|].
      by eapply (ok_cache s).
    + by eapply (ok_requests s).
    + simpl. intros He. destruct (KeyAddress.ips a) as [|ip ips] eqn:Hi; [done|].
      assert (ip ∈ (∅ : gset Address)); [|set_solver]. rewrite <-He. apply foldl_cache_ips. set_solver.
    + intros [] s' out (Hok' & Hp & Hg & Hpl). wp_step. by eapply dequeue_accounted.
Qed.

(** *** Responses of servers *)
Definition maps_same s s' : Prop :=
  pending_request_map_ s' = pending_request_map_ s ∧
  pending_get_response_map_ s' = pending_get_response_map_ s ∧
  pending_put_response_map_ s' = pending_put_response_map_ s.

Lemma delete_cache_ok s key :
  client_ok s → client_ok (set_cache (delete key (key_address_cache_ s)) s).
Proof.
  intros Hok. apply set_cache_ok; [done|]. intros k x Hx. apply (ok_cache s Hok k).
  unfold map_get in *. destruct (decide (key = k)) as [<-|]; [by rewrite lookup_delete_eq in Hx|].
  by rewrite lookup_delete_ne in Hx.
Qed.

Lemma wp_check_tuple tuple s :
  client_ok s → wp (check_tuple tuple) s (λ _ s' _, client_ok s' ∧ maps_same s s').
Proof.
  intros Hok. unfold check_tuple, invalidate_cache_for_key.
  case_bool_decide; [|destruct (KeyTuple.invalidate tuple)]; wp_steps; (split; [|done]);
    first [done|by apply delete_cache_ok].
Qed.

Lemma wp_on_get_response now tuple tuples response s :
  client_ok s → KeyResponse.tuples response = tuple :: tuples → KeyResponse.type response = GET →
  wp (on_get_response routing_threads_ ut_ now (KeyTuple.key tuple) tuple response) s (λ result s' _,
    client_ok s' ∧ accounted s s' result).
Proof.
  intros Hok Htuples Htype. unfold on_get_response. set (key := KeyTuple.key tuple). wp_step. wp_step.
  destruct (pending_get_response_map_ s !! key) as [p|] eqn:Hp; [|wp_step; by split; [|apply accounted_refl]].
  wp_step. eapply wp_mono; [by apply wp_check_tuple|]. intros again s1 out1 [Hok1 (Hr1 & Hg1 & Hp1)].
  destruct again.
  - wp_step. destruct (ok_gets s Hok key p Hp) as (Hreq & Hget & _).
    eapply wp_mono; [by apply (wp_try_request now key)|].
    intros req' s2 out2 ((Hok2 & Hgr & Hqd & _) & Hreq' & Hty & _). wp_step. wp_step. wp_step.
    destruct (proj1 Hgr key) as [p2 Hp2]; [by exists p; rewrite Hg1|]. rewrite Hp2. simpl. split.
    + destruct (ok_gets s2 Hok2 key p2 Hp2) as (_ & _ & Hw). destruct Hok2 as [H1 H2 H3 H4].
      constructor; simpl; eauto. intros k q Hq. apply lookup_insert_Some in Hq as [[<- <-]|[_ Hq]]; [|eauto].
      split_and!; simpl; [done|unfold is_get in *; simpl; congruence|done].
    + apply (accounted_trans _ s1 _ [] []); [by apply accounted_same|].
      apply accounted_grows; [|done]. destruct Hgr as [Hgg Hgp]. split; [|done].
      intros k Hk%Hgg. unfold has_get in *. simpl.
      destruct (decide (key = k)) as [<-|]; [by rewrite lookup_insert_eq|by rewrite lookup_insert_ne].
  - wp_step. wp_step. wp_step. split.
    + destruct Hok1 as [H1 H2 H3 H4]. constructor; simpl; eauto.
      intros k q Hq. apply lookup_delete_Some in Hq as [_ Hq]. eauto.
    + apply (accounted_trans _ s1 _ [] [response]); [by apply accounted_same|]. split.
      * intros k [Hh|Hqd]; [|left; by right]. destruct (decide (k = key)) as [->|Hne].
        -- right. exists response. split; [by left|]. split; [done|]. by exists tuple, tuples.
        -- left. left. unfold has_get in *. simpl. by rewrite lookup_delete_ne.
      * intros k id Ha. by left.
Qed.

Lemma wp_on_put_response now tuple tuples response s :
  client_ok s → KeyResponse.tuples response = tuple :: tuples → KeyResponse.type response ≠ GET →
  wp (on_put_response routing_threads_ ut_ now (KeyTuple.key tuple) tuple response) s (λ result s' _,
    client_ok s' ∧ accounted s s' result).
Proof.
  intros Hok Htuples Htype. unfold on_put_response. set (key := KeyTuple.key tuple).
  set (rid := KeyResponse.response_id response). wp_step. wp_step.
  destruct (pending_put_response_map_ s !! key ≫= lookup rid) as [p|] eqn:Hp;
    [|wp_step; by split; [|apply accounted_refl]].
  apply bind_Some in Hp as (m & Hm & Hp).
  wp_step. eapply wp_mono; [by apply wp_check_tuple|]. intros again s1 out1 [Hok1 (Hr1 & Hg1 & Hp1)].
  destruct again.
  - wp_step. destruct (ok_puts s Hok key m rid p Hm Hp) as (Hreq & Hput & Hid & _).
    eapply wp_mono; [by apply (wp_try_request now key)|].
    intros req' s2 out2 ((Hok2 & Hgr & Hqd & _) & Hreq' & Hty & Hid'). wp_step. wp_step. wp_step.
    destruct (proj2 Hgr key rid) as [p2 Hp2]; [exists p; by rewrite Hp1, Hm|].
    apply bind_Some in Hp2 as (m2 & Hm2 & Hp2). unfold map_get. rewrite Hm2. simpl. rewrite Hp2. simpl. split.
    + destruct (ok_puts s2 Hok2 key m2 rid p2 Hm2 Hp2) as (_ & _ & _ & Hw). destruct Hok2 as [H1 H2 H3 H4].
      constructor; simpl; eauto. intros k m' id q Hk Hq.
      apply lookup_insert_Some in Hk as [[<- <-]|[_ Hk]]; [|eauto].
      apply lookup_insert_Some in Hq as [[<- <-]|[_ Hq]]; [|eauto].
      split_and!; simpl; [done|unfold is_get in *; simpl; congruence|congruence|done].
    + apply (accounted_trans _ s1 _ [] []); [by apply accounted_same|].
      apply accounted_grows; [|done]. destruct Hgr as [Hgg Hgp]. split; [done|].
      intros k id Hk%Hgp. unfold has_put in *. simpl.
      destruct (decide (key = k)) as [<-|]; [|by rewrite lookup_insert_ne].
      rewrite lookup_insert_eq. rewrite Hm2 in Hk. simpl in *.
      destruct (decide (rid = id)) as [<-|]; [by rewrite lookup_insert_eq|by rewrite lookup_insert_ne].
  - wp_step. wp_step. wp_step. unfold map_get. rewrite Hp1, Hm. simpl. split.
    + destruct Hok1 as [H1 H2 H3 H4]. constructor; simpl; eauto. intros k m' id q Hk Hq.
      rewrite Hp1 in H3. case_bool_decide.
      * apply lookup_delete_Some in Hk as [_ Hk]. eauto.
      * apply lookup_insert_Some in Hk as [[<- <-]|[_ Hk]]; [|eauto].
        apply lookup_delete_Some in Hq as [_ Hq]. eauto.
    + apply (accounted_trans _ s1 _ [] [response]); [by apply accounted_same|]. split.
      * intros k Ha. by left.
      * intros k id [Hh|Hqd]; [|left; by right].
        destruct (decide (k = key ∧ id = rid)) as [[-> ->]|Hne].
        { right. exists response. split; [by left|]. by split. }
        left. left. unfold has_put in *. rewrite Hp1 in Hh. simpl.
        destruct (decide (key = k)) as [<-|Hk].
        -- rewrite Hm in Hh. simpl in Hh. assert (delete rid m !! id = m !! id) as Hd.
           { rewrite lookup_delete_ne; [done|]. intros <-. by apply Hne. }
           case_bool_decide as Hs; [|rewrite lookup_insert_eq; simpl; by rewrite Hd].
           apply map_size_empty_iff in Hs. rewrite Hs, lookup_empty in Hd. by rewrite <-Hd in Hh.
        -- case_bool_decide; [by rewrite lookup_delete_ne|by rewrite lookup_insert_ne].
Qed.

Lemma wp_on_response now serialized s :
  client_ok s → KeyResponse.tuples (parse serialized) ≠ [] →
  wp (on_response routing_threads_ ut_ now serialized) s (λ result s' _,
    client_ok s' ∧ accounted s s' result).
Proof.
  intros Hok Hne. unfold on_response. cbv zeta.
  destruct (KeyResponse.tuples (parse serialized)) as [|tuple tuples] eqn:Ht; [done|].
  wp_step. eapply wp_lift_outcome; [reflexivity|].
  destruct (KeyResponse.type (parse serialized)) eqn:Hty;
    [eapply wp_on_put_response|eapply wp_on_get_response|eapply wp_on_put_response]; (done || by rewrite Hty).
Qed.

(** *** Requests that timed out *)

(** The response that is made up for a request. *)
Definition gives_up key req (r : KeyResponse.t) : Prop :=
  (is_get req → ends_get key r) ∧ (¬ is_get req → ends_put (KeyRequest.request_id req) r).

Lemma wp_bad_response key req s (Q : KeyResponse.t → ClientState → list Msg → Prop) :
  request_ok key req → (∀ r, gives_up key req r → Q r s []) →
  wp (lift_outcome (generate_bad_response req)) s Q.
Proof.
  intros (tp & tps & Htp & Hk) HQ. unfold generate_bad_response. rewrite Htp. simpl.
  eapply wp_lift_outcome; [done|]. apply HQ. unfold gives_up, ends_get, ends_put, is_get. simpl. split.
  - intros Hg. split; [done|]. rewrite Hg. do 2 eexists. split; [done|]. done.
  - by intros Hg.
Qed.

Lemma wp_bad_responses key reqs s :
  Forall (request_ok key) reqs →
  wp (for_acc reqs [] (λ bad req, r ← lift_outcome (generate_bad_response req); mret (bad ++ [r]))) s
    (λ bad s' _, s' = s ∧ ∀ req, req ∈ reqs → ∃ r, r ∈ bad ∧ gives_up key req r).
Proof.
  intros Hall. apply (wp_for_acc (λ xs bad s' _, s' = s ∧
    ∀ req, req ∈ xs → ∃ r, r ∈ bad ∧ gives_up key req r)).
  - split; [done|]. by intros ? ?%elem_of_nil.
  - intros xs req bad s' out Hin [-> Hbad]. wp_step. apply (wp_bad_response key); [by eapply Forall_forall|].
    intros r Hr. wp_step. split; [done|]. intros req' [Hin' | ->%list_elem_of_singleton]%elem_of_app.
    + destruct (Hbad req' Hin') as (r' & Hr' & ?). exists r'. split; [set_solver|done].
    + exists r. split; [set_solver|done].
Qed.

Lemma wp_gc_requests now s :
  client_ok s →
  wp (gc_requests timeout_ now) s (λ result s' _,
    client_ok s' ∧ accounted s s' result ∧ shrinks s s' ∧
    ∀ key tp reqs, pending_request_map_ s' !! key = Some (tp, reqs) → expired timeout_ now tp = false).
Proof.
  intros Hok. unfold gc_requests. wp_step. wp_step. wp_step.
  eapply wp_mono; [apply (wp_for_acc (λ xs acc s' _, s' = s ∧
    (∀ key, key ∈ acc.2 ↔ ∃ tp reqs, (key, (tp, reqs)) ∈ xs ∧ expired timeout_ now tp = true) ∧
    ∀ key tp reqs req, (key, (tp, reqs)) ∈ xs → expired timeout_ now tp = true → req ∈ reqs →
      ∃ r, r ∈ acc.1 ∧ gives_up key req r))|].
  - split_and!; [done|set_solver|]. by intros ? ? ? ? ?%elem_of_nil.
  - intros xs [key [tp reqs]] [result to_remove] s' out Hin (-> & Hrem & Hres). simpl in *.
    apply elem_of_map_to_list in Hin. destruct (expired timeout_ now tp) eqn:He.
    + wp_step. eapply wp_mono; [apply (wp_bad_responses key); by eapply (ok_requests s)|].
      intros bad s' out' [-> Hbad]. wp_step. simpl. split_and!; [done| |].
      * intros k. rewrite elem_of_app, Hrem, list_elem_of_singleton. setoid_rewrite elem_of_app.
        setoid_rewrite list_elem_of_singleton. naive_solver.
      * intros k tp' reqs' req [Hk|[= -> -> ->]%list_elem_of_singleton]%elem_of_app He' Hreq.
        -- destruct (Hres _ _ _ _ Hk He' Hreq) as (r & ? & ?). exists r. split; [set_solver|done].
        -- destruct (Hbad req Hreq) as (r & ? & ?). exists r. split; [set_solver|done].
    + wp_step. simpl. split_and!; [done| |].
      * intros k. rewrite Hrem. setoid_rewrite elem_of_app. setoid_rewrite list_elem_of_singleton.
        split; [naive_solver|]. intros (tp' & reqs' & [?|[= -> -> ->]] & ?); [eauto|congruence].
      * intros k tp' reqs' req [Hk|[= -> -> ->]%list_elem_of_singleton]%elem_of_app He' Hreq; [eauto|congruence].
  - intros [result to_remove] s' out (-> & Hrem & Hres). simpl in *. wp_step. wp_step. wp_step.
    assert (∀ key tp reqs, pending_request_map_ s !! key = Some (tp, reqs) →
      key ∈ to_remove ↔ expired timeout_ now tp = true) as Hrem'.
    { intros key tp reqs Hk. rewrite Hrem. setoid_rewrite elem_of_map_to_list. split; [|naive_solver].
      intros (tp' & reqs' & Hk' & He). congruence. }
    assert (∀ key req, queued s key req →
      queued (set_pending_request_map (foldl (λ m key, delete key m) (pending_request_map_ s) to_remove) s) key req ∨
      ∃ r, r ∈ result ∧ gives_up key req r) as Hq.
    { intros key req (tp & reqs & Hk & Hin). destruct (expired timeout_ now tp) eqn:He.
      - right. apply (Hres key tp reqs); [by apply elem_of_map_to_list|done|done].
      - left. exists tp, reqs. simpl. rewrite foldl_delete_lookup, decide_False; [done|].
        rewrite (Hrem' _ _ _ Hk). by rewrite He. }
    split_and!.
    + destruct Hok as [H1 H2 H3 H4]. constructor; simpl; eauto. intros k tp reqs Hk.
      rewrite foldl_delete_lookup in Hk. case_decide; [done|eauto].
    + split.
      * intros key [Hh|(req & Hqd & Hge)]; [by left; left|].
        destruct (Hq _ _ Hqd) as [?|(r & Hr & [Hg _])]; [left; right; eauto|right; eauto].
      * intros key id [Hh|(req & Hqd & Hge & <-)]; [by left; left|].
        destruct (Hq _ _ Hqd) as [?|(r & Hr & [_ Hp])]; [left; right; eauto|right; eauto].
    + split_and!; [|done|done]. simpl. intros key e. rewrite foldl_delete_lookup. by case_decide.
    + simpl. intros key tp reqs Hk. rewrite foldl_delete_lookup in Hk. case_decide as Hd; [done|].
      apply not_true_is_false. intros He. by apply Hd, (Hrem' key tp reqs).
Qed.

Lemma any_on_host_total host (addresses : list Address) found :
  Forall address_ok addresses → ∃ b, any_on_host host addresses found = Ok b.
Proof.
  intros Hall. revert found. induction Hall as [|x l [h Hh] Hall IH]; intros found; simpl; [eauto|].
  rewrite Hh. simpl. apply IH.
Qed.

Lemma wp_invalidate_worker w s :
  client_ok s → address_ok w →
  wp (invalidate_cache_for_worker w) s (λ _ s' _, client_ok s' ∧ maps_same s s').
Proof.
  intros Hok [host Hw]. unfold invalidate_cache_for_worker. wp_step. eapply wp_lift_outcome; [done|].
  wp_step. wp_step. wp_step. eapply wp_mono; [apply (wp_for_acc (λ _ _ s' _, s' = s)); [done|]|].
  - intros _ [key addresses] remove s' _ Hin ->. apply elem_of_map_to_list in Hin. wp_step.
    destruct (any_on_host_total host (elements addresses) false) as [b Hb].
    { apply Forall_forall. intros x Hx%elem_of_elements. apply (ok_cache s Hok key).
      unfold map_get. by rewrite Hin. }
    eapply wp_lift_outcome; [done|]. by wp_step.
  - intros remove s' out ->. wp_step. split; [|done]. apply set_cache_ok; [done|]. intros key x Hx.
    apply (ok_cache s Hok key). unfold map_get in *. rewrite foldl_delete_lookup in Hx. by case_decide.
Qed.

Lemma maps_same_trans s1 s2 s3 : maps_same s1 s2 → maps_same s2 s3 → maps_same s1 s3.
Proof. unfold maps_same. intros (-> & -> & ->) (-> & -> & ->). done. Qed.

Lemma wp_gc_gets now s :
  client_ok s →
  wp (gc_gets timeout_ now) s (λ result s' _,
    client_ok s' ∧ accounted s s' result ∧ shrinks s s' ∧ pending_request_map_ s' = pending_request_map_ s ∧
    ∀ key p, pending_get_response_map_ s' !! key = Some p → expired timeout_ now (tp_ p) = false).
Proof.
  intros Hok. unfold gc_gets. wp_step. wp_step. wp_step.
  eapply wp_mono; [apply (wp_for_acc (λ xs acc s' _, client_ok s' ∧ maps_same s s' ∧
    (∀ key, key ∈ acc.2 ↔ ∃ p, (key, p) ∈ xs ∧ expired timeout_ now (tp_ p) = true) ∧
    ∀ key p, (key, p) ∈ xs → expired timeout_ now (tp_ p) = true → ∃ r, r ∈ acc.1 ∧ ends_get key r))|].
  - split_and!; [done|done|set_solver|]. by intros ? ? ?%elem_of_nil.
  - intros xs [key p] [result to_remove] s' out Hin (Hok' & Hsame & Hrem & Hres). simpl in *.
    apply elem_of_map_to_list in Hin. destruct (ok_gets s Hok key p Hin) as (Hreq & Hget & Hw).
    destruct (expired timeout_ now (tp_ p)) eqn:He.
    + wp_step. apply (wp_bad_response key); [done|]. intros r [Hr _]. wp_step.
      eapply wp_mono; [by apply wp_invalidate_worker|]. intros [] s'' out' [Hok'' Hsame']. wp_step. simpl.
      split_and!; [done|by eapply maps_same_trans| |].
      * intros k. rewrite elem_of_app, Hrem, list_elem_of_singleton. setoid_rewrite elem_of_app.
        setoid_rewrite list_elem_of_singleton. naive_solver.
      * intros k q [Hk|[= -> ->]%list_elem_of_singleton]%elem_of_app He'; [|exists r; split; [set_solver|auto]].
        destruct (Hres _ _ Hk He') as (r' & ? & ?). exists r'. split; [set_solver|done].
    + wp_step. simpl. split_and!; [done|done| |].
      * intros k. rewrite Hrem. setoid_rewrite elem_of_app. setoid_rewrite list_elem_of_singleton.
        split; [naive_solver|]. intros (q & [?|[= -> ->]] & ?); [eauto|congruence].
      * intros k q [Hk|[= -> ->]%list_elem_of_singleton]%elem_of_app He'; [eauto|congruence].
  - intros [result to_remove] s' out (Hok' & (Hr & Hg & Hp) & Hrem & Hres). simpl in *. wp_step. wp_step. wp_step.
    assert (∀ key p, pending_get_response_map_ s !! key = Some p →
      key ∈ to_remove ↔ expired timeout_ now (tp_ p) = true) as Hrem'.
    { intros key p Hk. rewrite Hrem. setoid_rewrite elem_of_map_to_list. split; [|naive_solver].
      intros (q & Hk' & He). congruence. }
    split_and!; [| | |done|].
    + destruct Hok' as [H1 H2 H3 H4]. constructor; simpl; eauto. intros k p Hk.
      rewrite foldl_delete_lookup in Hk. case_decide; [done|eauto].
    + unfold accounted, awaits_get, awaits_put, queued, has_get, has_put. simpl. rewrite Hr, Hp, Hg. split.
      * intros key [[p Hk]|Hqd]; [|left; by right]. destruct (expired timeout_ now (tp_ p)) eqn:He.
        -- right. apply (Hres key p); [by apply elem_of_map_to_list|done].
        -- left. left. exists p. rewrite foldl_delete_lookup, decide_False; [done|].
           rewrite (Hrem' _ _ Hk). by rewrite He.
      * intros key id Ha. by left.
    + unfold shrinks. simpl. rewrite Hp, Hr. split_and!; [done| |done]. intros key p.
      rewrite foldl_delete_lookup, Hg. by case_decide.
    + simpl. intros key p Hk. rewrite foldl_delete_lookup, Hg in Hk. case_decide as Hd; [done|].
      apply not_true_is_false. intros He. by apply Hd, (Hrem' key p).
Qed.

Lemma has_put_at s key id : has_put s key id ↔ is_Some (map_get ∅ (pending_put_response_map_ s) key !! id).
Proof. unfold has_put, map_get. by destruct (pending_put_response_map_ s !! key). Qed.

Lemma put_at_ok s key id p :
  client_ok s → map_get ∅ (pending_put_response_map_ s) key !! id = Some p → put_ok key id p.
Proof.
  intros Hok. unfold map_get. destruct (pending_put_response_map_ s !! key) as [m|] eqn:Hm; [|done].
  by eapply (ok_puts s).
Qed.

Lemma foldl_erase_puts (l : list (Key * string)) (m : gmap Key (gmap string PendingRequest)) key id :
  map_get ∅ (foldl (λ m '(key, id), <[key := delete id (map_get ∅ m key)]> m) m l) key !! id =
  if decide ((key, id) ∈ l) then None else map_get ∅ m key !! id.
Proof.
  revert m. induction l as [|[k i] l IH]; intros m; simpl; [done|]. rewrite IH.
  destruct (decide (k = key)) as [->|Hk]; [rewrite map_get_insert_eq|rewrite map_get_insert_ne by done].
  - destruct (decide (i = id)) as [->|Hi]; [rewrite lookup_delete_eq|rewrite lookup_delete_ne by done];
      repeat case_decide; try done; exfalso; set_solver.
  - repeat case_decide; try done; exfalso; set_solver.
Qed.

(** The body of the inner loop of [gc_puts]. *)
Notation gc_put now key := (λ '(result, to_remove) '(id, p),
  if expired timeout_ now (tp_ p) then
    r ← lift_outcome (generate_bad_response (request_ p));
    invalidate_cache_for_worker (worker_addr_ p) ;;
    mret (result ++ [r], to_remove ++ [(key, id)])
  else mret (result, to_remove)).

(** What the loops of [gc_puts] have done after the entries in [seen]. *)
Definition puts_collected now s (seen : Key → string → PendingRequest → Prop)
    (acc : list KeyResponse.t * list (Key * string)) s' : Prop :=
  client_ok s' ∧ maps_same s s' ∧
  (∀ key id, (key, id) ∈ acc.2 ↔ ∃ p, seen key id p ∧ expired timeout_ now (tp_ p) = true) ∧
  ∀ key id p, seen key id p → expired timeout_ now (tp_ p) = true → ∃ r, r ∈ acc.1 ∧ ends_put id r.

Lemma wp_gc_key now s seen acc key (m : gmap string PendingRequest) s1 :
  client_ok s → pending_put_response_map_ s !! key = Some m → puts_collected now s seen acc s1 →
  wp (for_acc (map_to_list m) acc (gc_put now key)) s1 (λ acc' s' _,
    puts_collected now s (λ k id p, seen k id p ∨ k = key ∧ m !! id = Some p) acc' s').
Proof.
  intros Hok Hm Hacc. eapply wp_mono; [apply (wp_for_acc (λ xs acc s' _,
    puts_collected now s (λ k id p, seen k id p ∨ k = key ∧ (id, p) ∈ xs) acc s'))|].
  - destruct Hacc as (? & ? & Hrem & Hres). split_and!; [done|done| |].
    + intros k id. rewrite Hrem. split; [naive_solver|]. intros (p & [?|[_ ?%elem_of_nil]] & ?); [eauto|done].
    + intros k id p [?|[_ ?%elem_of_nil]]; [eauto|done].
  - intros xs [id p] [result to_remove] s' out Hin (Hok' & Hsame & Hrem & Hres). simpl in *.
    apply elem_of_map_to_list in Hin.
    destruct (ok_puts s Hok key m id p Hm Hin) as (Hreq & Hput & Hid & Hw).
    destruct (expired timeout_ now (tp_ p)) eqn:He.
    + wp_step. apply (wp_bad_response key); [done|]. intros r [_ Hr]. wp_step.
      eapply wp_mono; [by apply wp_invalidate_worker|]. intros [] s'' out' [Hok'' Hsame']. wp_step.
      split_and!; [done|by eapply maps_same_trans| |]; simpl.
      * intros k i. rewrite elem_of_app, Hrem, list_elem_of_singleton. setoid_rewrite elem_of_app.
        setoid_rewrite list_elem_of_singleton. naive_solver.
      * intros k i q [Hk|[-> [Hk|[= -> ->]%list_elem_of_singleton]%elem_of_app]] He'.
        -- destruct (Hres k i q) as (r' & ? & ?); [by left|done|]. exists r'. split; [set_solver|done].
        -- destruct (Hres key i q) as (r' & ? & ?); [by right|done|]. exists r'. split; [set_solver|done].
        -- exists r. split; [set_solver|]. rewrite Hid in Hr. auto.
    + wp_step. split_and!; [done|done| |]; simpl.
      * intros k i. rewrite Hrem. setoid_rewrite elem_of_app. setoid_rewrite list_elem_of_singleton.
        split; [naive_solver|]. intros (q & [?|[-> [?|[= -> ->]]]] & ?); [eauto|eauto|congruence].
      * intros k i q [Hk|[-> [Hk|[= -> ->]%list_elem_of_singleton]%elem_of_app]] He';
          [apply (Hres k i q); auto|apply (Hres key i q); auto|congruence].
  - intros acc' s' out (? & ? & Hrem & Hres). split_and!; [done|done| |].
    + intros k id. rewrite Hrem. by setoid_rewrite elem_of_map_to_list.
    + intros k id p Hs. apply (Hres k id p). by rewrite elem_of_map_to_list.
Qed.

Lemma wp_gc_puts now s :
  client_ok s →
  wp (gc_puts timeout_ now) s (λ result s' _,
    client_ok s' ∧ accounted s s' result ∧ shrinks s s' ∧ pending_request_map_ s' = pending_request_map_ s ∧
    pending_get_response_map_ s' = pending_get_response_map_ s ∧
    ∀ key id p, map_get ∅ (pending_put_response_map_ s') key !! id = Some p →
      expired timeout_ now (tp_ p) = false).
Proof.
  intros Hok. unfold gc_puts. wp_step. wp_step. wp_step.
  eapply wp_mono; [apply (wp_for_acc (λ xs acc s' _,
    puts_collected now s (λ key id p, ∃ m, (key, m) ∈ xs ∧ m !! id = Some p) acc s'))|].
  - split_and!; [done|done| |].
    + intros key id. split; [set_solver|]. intros (p & (m & ?%elem_of_nil & _) & _). done.
    + intros key id p (m & ?%elem_of_nil & _). done.
  - intros xs [key m] acc s' out Hin%elem_of_map_to_list Hacc.
    eapply wp_mono; [by eapply wp_gc_key|]. intros acc' s'' out' (? & ? & Hrem & Hres). split_and!; [done|done| |].
    + intros k id. rewrite Hrem. setoid_rewrite elem_of_app. setoid_rewrite list_elem_of_singleton.
      split; intros (p & Hseen & ?); exists p; (split; [|done]); naive_solver.
    + intros k id p (m' & [?|[= -> ->]%list_elem_of_singleton]%elem_of_app & Hp) He;
        [apply (Hres k id p)|apply (Hres key id p)]; eauto.
  - intros [result to_remove] s' out (Hok' & (Hr & Hg & Hp) & Hrem & Hres). simpl in *. wp_step. wp_step. wp_step.
    assert (∀ key id p, map_get ∅ (pending_put_response_map_ s) key !! id = Some p →
      ∃ m, (key, m) ∈ map_to_list (pending_put_response_map_ s) ∧ m !! id = Some p) as Hseen.
    { intros key id p Hk. unfold map_get in Hk. destruct (pending_put_response_map_ s !! key) as [m|] eqn:Hm;
        [|done]. exists m. split; [by apply elem_of_map_to_list|done]. }
    assert (∀ key id p, map_get ∅ (pending_put_response_map_ s) key !! id = Some p →
      (key, id) ∈ to_remove ↔ expired timeout_ now (tp_ p) = true) as Hrem'.
    { intros key id p Hk. rewrite Hrem. split; [|naive_solver].
      intros (q & (m & Hm%elem_of_map_to_list & Hq) & He). unfold map_get in Hk. rewrite Hm in Hk. simpl in Hk.
      congruence. }
    split_and!; [| | |done|done|].
    + pose proof Hok' as [H1 H2 H3 H4]. constructor; simpl; eauto. intros k m id p Hk Hid.
      assert (map_get ∅ (foldl (λ m '(key, id), <[key := delete id (map_get ∅ m key)]> m)
        (pending_put_response_map_ s') to_remove) k !! id = Some p) as Hat by (unfold map_get at 1; by rewrite Hk).
      rewrite foldl_erase_puts in Hat. case_decide; [done|]. by eapply put_at_ok.
    + unfold accounted, awaits_get, awaits_put. setoid_rewrite has_put_at.
      unfold queued, has_get. simpl. setoid_rewrite foldl_erase_puts. rewrite Hr, Hp, Hg. split; [by left|].
      intros key id [[p Hk]|Hqd]; [|left; by right]. destruct (expired timeout_ now (tp_ p)) eqn:He.
      * right. apply (Hres key id p); eauto.
      * left. left. exists p. rewrite decide_False; [done|]. rewrite (Hrem' _ _ _ Hk). by rewrite He.
    + unfold shrinks. simpl. rewrite Hg, Hr. split_and!; [done|done|]. intros key id p.
      rewrite foldl_erase_puts, Hp. by case_decide.
    + simpl. intros key id p. rewrite foldl_erase_puts, Hp. case_decide as Hd; [done|]. intros Hk.
      apply not_true_is_false. intros He. by apply Hd, (Hrem' key id p).
Qed.

(** C18: the client loses no request.  A call of [receive_async] with
    well-formed messages returns; every request that was outstanding is still
    outstanding or is ended by one of the returned responses; and nothing older
    than the timeout is left outstanding. *)
Theorem receive_accounts_for_requests now address response s :
  client_ok s →
  (∀ serialized, address = Some serialized → address_answer_ok (parse serialized)) →
  (∀ serialized, response = Some serialized → KeyResponse.tuples (parse serialized) ≠ []) →
  wp (receive_async routing_threads_ ut_ timeout_ now address response) s (λ result s' _,
    client_ok s' ∧ accounted s s' result ∧
    (∀ key tp reqs, pending_request_map_ s' !! key = Some (tp, reqs) → elapsed now tp ≤ timeout_) ∧
    (∀ key p, pending_get_response_map_ s' !! key = Some p → elapsed now (tp_ p) ≤ timeout_) ∧
    (∀ key id p, map_get ∅ (pending_put_response_map_ s') key !! id = Some p →
       elapsed now (tp_ p) ≤ timeout_)).
Proof.
  intros Hok Haddr Hresp. unfold receive_async. wp_step.
  eapply (wp_mono _ _ (λ _ s' _, client_ok s' ∧ accounted s s' [])).
  { destruct address; [apply wp_on_address; auto|]. wp_step. split; [done|apply accounted_refl]. }
  intros [] s1 out1 [Hok1 Hacc1]. wp_step.
  eapply (wp_mono _ _ (λ result s' _, client_ok s' ∧ accounted s1 s' result)).
  { destruct response; [apply wp_on_response; auto|]. wp_step. split; [done|apply accounted_refl]. }
  intros answers s2 out2 [Hok2 Hacc2]. wp_step.
  eapply wp_mono; [by apply wp_gc_requests|]. intros r1 s3 out3 (Hok3 & Hacc3 & _ & Hreq). wp_step.
  eapply wp_mono; [by apply wp_gc_gets|]. intros r2 s4 out4 (Hok4 & Hacc4 & _ & Heq4 & Hget). wp_step.
  eapply wp_mono; [by apply wp_gc_puts|]. intros r3 s5 out5 (Hok5 & Hacc5 & _ & Heq5 & Heqg & Hput). wp_step.
  assert (∀ tp, expired timeout_ now tp = false → elapsed now tp ≤ timeout_) as Hexp.
  { intros tp He%bool_decide_eq_false. lia. }
  split_and!; [done| |intros k tp reqs Hk; apply Hexp, (Hreq k tp reqs)|intros k p Hk; apply Hexp, (Hget k p)
    |intros k id p Hk; by apply Hexp, (Hput k id p)].
  - apply (accounted_trans _ s1 _ []); [done|]. eapply accounted_trans; [done|].
    eapply accounted_trans; [done|]. by eapply accounted_trans.
  - rewrite <-Heq4, <-Heq5. done.
  - rewrite <-Heqg. done.
Qed.

(** A request made by the interface is outstanding afterwards, whether it was
    sent or waits for an address. *)
Lemma tried_awaits key req s s' :
  tried key req s s' →
  (is_get req → awaits_get s' key) ∧ (¬ is_get req → awaits_put s' key (KeyRequest.request_id req)).
Proof.
  intros (_ & _ & _ & _ & Hres). destruct (decide (map_get ∅ (key_address_cache_ s) key = ∅)).
  - split; intros; right; exists req; by split.
  - destruct Hres as [_ [Hg Hp]]. split; intros; left; auto.
Qed.

Lemma wp_issue now key req s s1 :
  client_ok s → quiet s s1 → request_ok key req →
  wp (try_request routing_threads_ ut_ now req) s1 (λ req' s' _,
    (client_ok s' ∧ accounted s s' [] ∧ KeyRequest.request_id req' = KeyRequest.request_id req) ∧
    (is_get req → awaits_get s' key) ∧ (¬ is_get req → awaits_put s' key (KeyRequest.request_id req))).
Proof.
  intros Hok Hq Hreq. pose proof Hq as (_ & Hr & Hg & Hp).
  eapply wp_mono; [apply (wp_try_request now key); [by eapply quiet_ok|done]|].
  intros req' s' out (Ht & _ & _ & Hid). split; [|by eapply tried_awaits].
  destruct Ht as (Hok' & Hgr & Hqd & _). split_and!; [done| |done].
  apply (accounted_trans _ s1 _ [] []); [by apply accounted_same|by apply accounted_grows].
Qed.

(** A PUT or GET that is issued is outstanding when the call returns,
    under the id that [put_async] returns, and the requests issued before are
    still outstanding. *)
Theorem issued_requests_outstanding now key payload lattice_type s :
  client_ok s →
  wp (put_async routing_threads_ ut_ now key payload lattice_type) s (λ id s' _,
    client_ok s' ∧ accounted s s' [] ∧ awaits_put s' key id) ∧
  wp (get_async routing_threads_ ut_ now key) s (λ _ s' _,
    client_ok s' ∧ accounted s s' [] ∧ awaits_get s' key).
Proof.
  intros Hok. split.
  - unfold put_async, prepare_data_request, get_request_id. do 9 wp_step.
    eapply wp_mono; [apply (wp_issue now key _ s); [done|done|by do 2 eexists]|].
    intros req' s' out [(Hok' & Hacc & Hid) [_ Hput]]. wp_step. rewrite Hid. split_and!; [done|done|].
    by apply Hput.
  - unfold get_async. wp_step. wp_step. destruct (pending_get_response_map_ s !! key) as [p|] eqn:Hp.
    { wp_step. split_and!; [done|apply accounted_refl|]. left. by exists p. }
    unfold prepare_data_request, get_request_id. do 9 wp_step.
    eapply wp_mono; [apply (wp_issue now key _ s); [done|done|by do 2 eexists]|].
    intros req' s' out [(Hok' & Hacc & Hid) [Hget _]]. wp_step. split_and!; [done|done|]. by apply Hget.
Qed.
End no_loss.

(** ** Request ids *)
Section ids.
Context (ut_ : UserThread.t).

(** The ids of [n] requests in a row. *)
Fixpoint draw_ids (n : nat) : Cl (list string) :=
  match n with
  | O => mret []
  | S n => id ← get_request_id ut_; ids ← draw_ids n; mret (id :: ids)
  end.

Definition nth_id (i : Z) : string :=
  UserThread.ip ut_ +:+ ":" +:+ to_string (UserThread.tid ut_) +:+ "_" +:+ to_string (2 * i + 1).

Lemma get_request_id_odd i s :
  0 ≤ i < 2 ^ 31 → rid_ s = 2 * i →
  get_request_id ut_ s = Ok (nth_id i, set_rid (u32 (2 * (i + 1))) s, []).
Proof.
  intros Hi Hr. unfold get_request_id, mbind, M_bind, modify, mret, M_ret, get. simpl. rewrite Hr.
  rewrite (u32_id (2 * i + 1)) by (unfold is_u32; lia).
  rewrite bool_decide_eq_false_2 by (intros Hm; pose proof (Z.div_mod (2 * i + 1) 10000); lia).
  do 3 f_equal. f_equal. f_equal. lia.
Qed.

Lemma draw_ids_spec n i s :
  0 ≤ i → i + Z.of_nat n ≤ 2 ^ 31 → (n ≠ 0%nat → rid_ s = 2 * i) →
  ∃ s', draw_ids n s = Ok (map nth_id (seqZ i (Z.of_nat n)), s', []).
Proof.
  revert i s. induction n as [|n IH]; intros i s Hi Hn Hr; [by exists s|].
  simpl draw_ids. unfold mbind, M_bind. rewrite (get_request_id_odd i) by (lia || by apply Hr).
  destruct (IH (i + 1) (set_rid (u32 (2 * (i + 1))) s)) as [s' Hs'].
  - lia.
  - lia.
  - intros Hn0. simpl. apply u32_id. unfold is_u32. lia.
  - rewrite Hs'. exists s'. rewrite (seqZ_cons i (Z.of_nat (S n))) by lia.
    replace (Z.succ i) with (i + 1) by lia. replace (Z.pred (Z.of_nat (S n))) with (Z.of_nat n) by lia. done.
Qed.

Lemma nth_id_inj i j : nth_id i = nth_id j → i = j.
Proof.
  unfold nth_id. intros Heq. repeat apply (inj (String.append _)) in Heq. apply to_string_inj in Heq. lia.
Qed.

(** The ids of up to 2^31 requests of a new client are all different: the
    counter advances by two per request, and the reset at every ten thousandth
    value never happens. *)
Theorem request_ids_distinct n s :
  Z.of_nat n ≤ 2 ^ 31 → rid_ s = 0 →
  ∃ s', draw_ids n s = Ok (map nth_id (seqZ 0 (Z.of_nat n)), s', []) ∧
    NoDup (map nth_id (seqZ 0 (Z.of_nat n))).
Proof.
  intros Hn Hr. destruct (draw_ids_spec n 0 s) as [s' Hs']; [lia|lia|by rewrite Hr|].
  exists s'. split; [done|]. apply (NoDup_fmap_2_strong nth_id); [|apply NoDup_seqZ].
  intros i j _ _. apply nth_id_inj.
Qed.
End ids.

(** ** An answer without addresses *)
Section empty_answer.
Context `{Protobuf} `{Random}.
Context (routing_threads_ : list UserRoutingThread.t) (ut_ : UserThread.t) (timeout_ : Z).

Lemma no_worker key v s :
  map_get ∅ (key_address_cache_ s) key = ∅ → pending_request_map_ s !! key = Some v →
  get_worker_thread routing_threads_ ut_ key s = Ok ("", s, []).
Proof.
  intros Hc Hp. unfold get_worker_thread, get_all_worker_threads.
  unfold mbind, M_bind, mret, M_ret, get. rewrite bool_decide_eq_true_2 by done. rewrite Hp. simpl.
  by rewrite bool_decide_eq_true_2.
Qed.

Lemma retry_without_address now key req tp reqs s :
  request_ok key req → map_get ∅ (key_address_cache_ s) key = ∅ →
  pending_request_map_ s !! key = Some (tp, reqs) →
  ∃ what, retry routing_threads_ ut_ now key req s = Fail (UndefinedBehaviour what).
Proof.
  intros (t & ts & Ht & Hk) Hc Hp. eexists.
  unfold retry, try_request, wait_for_address. rewrite Ht.
  unfold mbind, M_bind, mret, M_ret, get, modify, lift_outcome. simpl. rewrite Hk.
  rewrite (no_worker key (tp, reqs)) by done. rewrite bool_decide_eq_true_2 by done. rewrite Hp. simpl.
  rewrite lookup_insert_eq. rewrite bool_decide_eq_false_2; [done|].
  intros [= Hlen]. apply (f_equal length) in Hlen. rewrite length_app in Hlen. simpl in Hlen. lia.
Qed.

(** When the routing tier answers without an address for a key that
    requests wait for, [receive_async] is undefined: the loop over the waiting
    requests appends to the vector it runs over. *)
Theorem empty_answer_undefined now serialized response key tp req reqs s a rest :
  KeyAddressResponse.addresses (parse serialized) = a :: rest →
  KeyAddress.key a = key → KeyAddress.ips a = [] →
  KeyAddressResponse.error (parse serialized) ≠ NO_SERVERS →
  map_get ∅ (key_address_cache_ s) key = ∅ →
  pending_request_map_ s !! key = Some (tp, req :: reqs) → request_ok key req →
  ∃ what, receive_async routing_threads_ ut_ timeout_ now (Some serialized) response s =
    Fail (UndefinedBehaviour what).
Proof.
  intros Ha Hk Hips Herr Hc Hp Hreq.
  destruct (retry_without_address now key req tp (req :: reqs) (set_cache (key_address_cache_ s) s))
    as [what Hfail]; [done..|]. exists what.
  unfold receive_async, on_address. cbv zeta. rewrite Ha.
  unfold mbind, M_bind, lift_outcome, get, modify. cbn [vector_at lookup list_lookup of_option]. rewrite Hk, Hp.
  rewrite bool_decide_eq_false_2 by done. rewrite Hips. cbn [foldl for_each].
  unfold mbind, M_bind. by rewrite Hfail.
Qed.
End empty_answer.

(** The constructor: [seed] is [time(NULL) + hash(ip) + tid]. *)
Definition new (seed : Z) : ClientState := mkClient 0 (u32 seed) ∅ ∅ ∅ ∅.
End KvsClient.

(** ** A client with one router and one request under way *)
Module ExampleClient.
Import KvsClient.
#[local] Existing Instance bit_protobuf.
#[local] Instance still : Random := λ s, (0, s).

Definition routers : list UserRoutingThread.t := [UserRoutingThread.new "r" 0].
Definition ut : UserThread.t := UserThread.new "client" 0.

Lemma some_router : routers ≠ [].
Proof. discriminate. Qed.

Definition get_k : KeyRequest.t :=
  KeyRequest.mk GET [KeyTuple.set_key "k" KeyTuple.empty] "tcp://client:6800" "client:0_1".
Definition waiting : ClientState := mkClient 2 0 ∅ {["k" := (0, [get_k])]} ∅ ∅.

Lemma get_k_ok : request_ok "k" get_k.
Proof. by do 2 eexists. Qed.

Lemma new_ok : client_ok (new 0).
Proof. by constructor; simpl; intros *; rewrite ?lookup_empty. Qed.

Lemma waiting_ok : client_ok waiting.
Proof.
  constructor; simpl; intros *; rewrite ?lookup_empty; [|done..].
  intros [<- [= <- <-]]%lookup_singleton_Some. apply Forall_singleton, get_k_ok.
Qed.

Definition address_answer (ips : list Address) : KeyAddressResponse.t :=
  KeyAddressResponse.mk [KeyAddress.mk "k" ips] NO_ERROR "client:0_1".

Lemma parse_address_answer (r : KeyAddressResponse.t) : parse (SerializeToString r) = r.
Proof. apply (@parse_serialize' _ _ _ _ (BitCodec.codec_laws _)). exact I. Qed.

(** The address of the key arrives: the GET that waits for it is still
    outstanding afterwards. *)
Lemma receive_accounts_for_requests_witness :
  wp (receive_async routers ut 1000 0 (Some (SerializeToString (address_answer ["tcp://a:6200"]))) None)
     waiting (λ result s' _, accounted waiting s' result).
Proof.
  eapply wp_mono; [apply (receive_accounts_for_requests routers ut 1000 some_router 0
    (Some (SerializeToString (address_answer ["tcp://a:6200"]))) None waiting waiting_ok)|].
  - intros ser Heq. apply (inj Some) in Heq. subst ser. rewrite parse_address_answer. do 2 eexists. split; [reflexivity|].
    right. split; [discriminate|]. apply Forall_singleton. by exists "//a".
  - discriminate.
  - intros result s1 out (_ & Hacc & _). exact Hacc.
Defined.

Lemma issued_requests_outstanding_witness :
  wp (put_async routers ut 0 "k" "v" LWW) (new 0) (λ id s' _, awaits_put s' "k" id) ∧
  wp (get_async routers ut 0 "k") waiting (λ _ s' _, awaits_get s' "k").
Proof.
  destruct (issued_requests_outstanding routers ut some_router 0 "k" "v" LWW (new 0) new_ok) as [Hput _].
  destruct (issued_requests_outstanding routers ut some_router 0 "k" "v" LWW waiting waiting_ok) as [_ Hget].
  split; (eapply wp_mono; [eassumption|]); by intros ??? (_ & _ & ?).
Defined.

Lemma request_ids_distinct_witness :
  ∃ s', draw_ids ut 3 (new 0) = Ok (["client:0_1"; "client:0_3"; "client:0_5"], s', []).
Proof.
  destruct (request_ids_distinct ut 3 (new 0)) as (s' & Hs' & _); [lia|reflexivity|].
  exists s'. rewrite Hs'. reflexivity.
Defined.

Lemma empty_answer_undefined_witness :
  ∃ what, receive_async routers ut 1000 0 (Some (SerializeToString (address_answer []))) None waiting =
    Fail (UndefinedBehaviour what).
Proof.
  eapply (empty_answer_undefined routers ut 1000 0 _ None "k" 0 get_k [] waiting (KeyAddress.mk "k" []) []);
    try (rewrite parse_address_answer; (reflexivity || discriminate)); try reflexivity. exact get_k_ok.
Defined.
End ExampleClient.
