(* ===== verification/EndToEnd.v ===== *)
(** A client and the server thread that keeps a key, together: what the client
    sends is handled by the thread, and what the thread answers is received by
    the client ([KvsClient] of common/include/client/kvs_client.hpp and
    [user_request_handler] of src/kvs/user_request_handler.cpp). *)

From S2P Require Import Prelude Text Ordered Lattices ValueLattices Threads Wire WireCodec.
From S2P Require Import Codec Metadata KVStore DiskStore HashRing RingUtil ServerState.
From S2P Require Import UserRequest Replication Client.
From Stdlib Require Import Lia.
Import KvsClient.

(** ** The client's side of a request *)
Section client_side.
Context `{Protobuf} `{Random}.
Context (routing_threads_ : list UserRoutingThread.t) (ut_ : UserThread.t) (timeout_ : Z).
Hypothesis some_router : routing_threads_ ≠ [].
Implicit Types (s : ClientState) (key : Key) (req : KeyRequest.t).

Definition cached s key : gset Address := map_get ∅ (key_address_cache_ s) key.

(** The request is noted under its key and, for a PUT, its id. *)
Definition noted (now : Z) key (worker : Address) req s : ClientState :=
  match KeyRequest.type req with
  | GET =>
      let p := default (mkPending now "" req) (pending_get_response_map_ s !! key) in
      set_pending_get (<[key := mkPending (tp_ p) worker (request_ p)]> (pending_get_response_map_ s)) s
  | _ =>
      let m := map_get ∅ (pending_put_response_map_ s) key in
      let id := KeyRequest.request_id req in
      let p := default (mkPending now "" req) (m !! id) in
      set_pending_put (<[key := <[id := mkPending (tp_ p) worker (request_ p)]> m]>
                         (pending_put_response_map_ s)) s
  end.

(** With an address in the cache the request goes out, to one of the cached
    addresses. *)
Lemma wp_try_sends now key req s :
  client_ok s → request_ok key req → cached s key ≠ ∅ →
  wp (try_request routing_threads_ ut_ now req) s (λ req' s' out,
    req' = with_cache_size (Z.of_nat (size (cached s key))) req ∧
    ∃ worker, worker ∈ cached s key ∧ out = [mkMsg worker (SerializeToString req')] ∧
      maps_same (noted now key worker req' s) s').
Proof.
  intros Hok (tp & tps & Htp & Hk) Hc. unfold try_request, get_worker_thread, get_all_worker_threads.
  rewrite Htp. wp_step. eapply wp_lift_outcome; [reflexivity|]. rewrite Hk. do 4 wp_step.
  rewrite bool_decide_eq_false_2 by done. wp_step.
  assert (size (cached s key) ≠ 0%nat) as Hs by (rewrite size_empty_iff; by unfold_leibniz).
  rewrite bool_decide_eq_false_2 by done. wp_step.
  apply wp_random_below; [done|]. intros i s1 Hi Hq.
  apply wp_vector_at; [done|]. intros worker Hw%elem_of_elements.
  rewrite bool_decide_eq_false_2 by (by eapply address_ok_nonempty, (ok_cache s)). do 4 wp_step.
  destruct Hq as (Hqc & Hqr & Hqg & Hqp). rewrite Hqc. fold (cached s key).
  wp_step. set (req' := with_cache_size _ req).
  eapply (wp_mono _ _ (λ _ s' out, out = [] ∧ maps_same (noted now key worker req' s) s')).
  { unfold wait_for_response, noted, maps_same. by destruct (KeyRequest.type req'); wp_step; simpl; rewrite ?Hqr, ?Hqg, ?Hqp. }
  intros [] s' out [-> Hm]. wp_step. split; [done|]. by exists worker.
Qed.

(** A request that [put_async] and [get_async] make. *)
Definition made (type : RequestType) (tuple : KeyTuple.t) (id : string) (n : Z) : KeyRequest.t :=
  KeyRequest.mk type [KeyTuple.set_address_cache_size n tuple] (UserThread.response_connect_address ut_) id.

Definition put_tuple key (payload : string) (type : LatticeType) : KeyTuple.t :=
  KeyTuple.set_payload payload (KeyTuple.set_lattice_type type (KeyTuple.set_key key KeyTuple.empty)).

(** The id of the next request. *)
Definition next_id s : string :=
  let r := u32 (rid_ s + 1) in
  UserThread.ip ut_ +:+ ":" +:+ to_string (UserThread.tid ut_) +:+ "_" +:+
    to_string (if bool_decide (r `mod` 10000 = 0) then 0 else r).

(** The request goes out and is noted. *)
Definition goes_out now key (type : RequestType) (tuple : KeyTuple.t) s s' (out : list Msg) : Prop :=
  ∃ worker n, worker ∈ cached s key ∧ out = [mkMsg worker (SerializeToString (made type tuple (next_id s) n))] ∧
    maps_same (noted now key worker (made type tuple (next_id s) n) s) s'.

Lemma wp_put_sends now key payload type s :
  client_ok s → cached s key ≠ ∅ →
  wp (put_async routing_threads_ ut_ now key payload type) s (λ id s' out,
    id = next_id s ∧ client_ok s' ∧ has_put s' key id ∧
    goes_out now key PUT (put_tuple key payload type) s s' out).
Proof.
  intros Hok Hc. unfold put_async, prepare_data_request, get_request_id. do 9 wp_step.
  set (s1 := set_rid _ s). set (req := KeyRequest.mk _ _ _ _).
  assert (client_ok s1) as Hok1 by (by apply (quiet_ok s)).
  assert (request_ok key req) as Hreq by (by do 2 eexists).
  eapply wp_mono; [apply wp_conj; [by apply (wp_try_sends now key req s1)|by apply (wp_try_request _ _ some_router now key req s1)]|].
  cbv beta. intros req' s' out [(-> & worker & Hw & -> & Hm) [(Hok' & _ & _ & _ & Htried) _]].
  rewrite decide_False in Htried by done. wp_step. rewrite with_cache_size_id.
  split_and!; [done|done|by apply Htried|]. by eexists worker, _.
Qed.

Lemma wp_get_sends now key s :
  client_ok s → cached s key ≠ ∅ → pending_get_response_map_ s !! key = None →
  wp (get_async routing_threads_ ut_ now key) s (λ _ s' out,
    client_ok s' ∧ has_get s' key ∧ goes_out now key GET (KeyTuple.set_key key KeyTuple.empty) s s' out).
Proof.
  intros Hok Hc Hnone. unfold get_async. do 2 wp_step. rewrite Hnone.
  unfold prepare_data_request, get_request_id. do 9 wp_step.
  set (s1 := set_rid _ s). set (req := KeyRequest.mk _ _ _ _).
  assert (client_ok s1) as Hok1 by (by apply (quiet_ok s)).
  assert (request_ok key req) as Hreq by (by do 2 eexists).
  eapply wp_mono; [apply wp_conj; [by apply (wp_try_sends now key req s1)|by apply (wp_try_request _ _ some_router now key req s1)]|].
  cbv beta. intros req' s' out [(-> & worker & Hw & -> & Hm) [(Hok' & _ & _ & _ & Htried) _]].
  rewrite decide_False in Htried by done. wp_step.
  split_and!; [done|by apply Htried|]. by eexists worker, _.
Qed.

(** *** Receiving the answer

    After the answer is handled the requests that timed out are collected,
    which takes requests away only. *)
Lemma wp_receive_response now serialized s (P : list KeyResponse.t → ClientState → Prop) :
  client_ok s → KeyResponse.tuples (parse serialized) ≠ [] →
  wp (on_response routing_threads_ ut_ now serialized) s (λ answers s' _, P answers s') →
  wp (receive_async routing_threads_ ut_ timeout_ now None (Some serialized)) s (λ results s' _,
    client_ok s' ∧ ∃ answers s1 made_up, results = answers ++ made_up ∧ P answers s1 ∧ shrinks s1 s').
Proof.
  intros Hok Hne HP. unfold receive_async. do 3 wp_step.
  eapply wp_mono; [apply wp_conj; [exact HP|by apply (wp_on_response _ _ some_router)]|]. cbv beta.
  intros answers s1 out1 (HPs & Hok1 & _). wp_step.
  eapply wp_mono; [by apply (wp_gc_requests _ _ some_router)|]. intros r1 s2 out2 (Hok2 & _ & Hs2 & _). wp_step.
  eapply wp_mono; [by apply (wp_gc_gets _ _ some_router)|]. intros r2 s3 out3 (Hok3 & _ & Hs3 & _). wp_step.
  eapply wp_mono; [by apply (wp_gc_puts _ _ some_router)|]. intros r3 s4 out4 (Hok4 & _ & Hs4 & _). wp_step.
  split; [done|]. exists answers, s1, (r1 ++ r2 ++ r3). split_and!; [done|done|].
  eapply shrinks_trans; [done|]. by eapply shrinks_trans.
Qed.

Lemma wp_accepted tuple s :
  KeyTuple.error tuple ≠ WRONG_THREAD →
  wp (check_tuple tuple) s (λ again s' out, again = false ∧ maps_same s s' ∧ out = []).
Proof.
  intros He. unfold check_tuple, invalidate_cache_for_key. rewrite bool_decide_eq_false_2 by done.
  by destruct (KeyTuple.invalidate tuple); wp_steps.
Qed.

Lemma shrinks_get s s' key : shrinks s s' → has_get s' key → has_get s key.
Proof. intros (_ & Hg & _) [p Hp]. exists p. by apply Hg. Qed.

Lemma shrinks_put s s' key id : shrinks s s' → has_put s' key id → has_put s key id.
Proof. rewrite !has_put_at. intros (_ & _ & Hs) [p Hp]. exists p. by apply Hs. Qed.

Lemma wp_on_put_answer now serialized tp id s :
  parse serialized = KeyResponse.mk PUT [tp] id NO_ERROR →
  KeyTuple.error tp ≠ WRONG_THREAD → has_put s (KeyTuple.key tp) id →
  wp (on_response routing_threads_ ut_ now serialized) s (λ answers s' _,
    answers = [KeyResponse.mk PUT [tp] id NO_ERROR] ∧ ¬ has_put s' (KeyTuple.key tp) id ∧ shrinks s s').
Proof.
  intros Hparse Herr [p Hp]. unfold on_response. cbv zeta. rewrite Hparse. wp_step. eapply wp_lift_outcome; [reflexivity|].
  simpl. unfold on_put_response. do 2 wp_step. cbn [KeyResponse.response_id]. rewrite Hp. wp_step.
  eapply wp_mono; [by apply wp_accepted|]. cbv beta. intros again s1 out (-> & (Hr & Hg & Hpm) & ->).
  do 3 wp_step. rewrite has_put_at. unfold shrinks. simpl. rewrite Hr, Hg, Hpm.
  set (m := delete id _). assert (∀ k, map_get ∅ (if bool_decide (size m = 0%nat)
    then delete (KeyTuple.key tp) (pending_put_response_map_ s)
    else <[KeyTuple.key tp := m]> (pending_put_response_map_ s)) k =
    if bool_decide (k = KeyTuple.key tp) then m else map_get ∅ (pending_put_response_map_ s) k) as Hm.
  { intros k. unfold map_get. destruct (decide (k = KeyTuple.key tp)) as [->|Hne];
      [rewrite (bool_decide_eq_true_2 (KeyTuple.key tp = _)) by done
      |rewrite (bool_decide_eq_false_2 (k = _)) by done]; case_bool_decide as Hs.
    - rewrite lookup_delete_eq. simpl. symmetry. by apply map_size_empty_iff.
    - by rewrite lookup_insert_eq.
    - by rewrite lookup_delete_ne by congruence.
    - by rewrite lookup_insert_ne by congruence. }
  setoid_rewrite Hm. split_and!; [done| |done|done|].
  + rewrite bool_decide_eq_true_2 by done. unfold m. rewrite lookup_delete_eq. by intros [].
  + intros k i q. destruct (decide (k = KeyTuple.key tp)) as [->|Hk];
      [rewrite bool_decide_eq_true_2 by done|by rewrite bool_decide_eq_false_2].
    unfold m. by intros [_ ?]%lookup_delete_Some.
Qed.

Lemma wp_on_get_answer now serialized tp id s :
  parse serialized = KeyResponse.mk GET [tp] id NO_ERROR →
  KeyTuple.error tp ≠ WRONG_THREAD → has_get s (KeyTuple.key tp) →
  wp (on_response routing_threads_ ut_ now serialized) s (λ answers s' _,
    answers = [KeyResponse.mk GET [tp] id NO_ERROR] ∧ ¬ has_get s' (KeyTuple.key tp) ∧ shrinks s s').
Proof.
  intros Hparse Herr [p Hp]. unfold on_response. cbv zeta. rewrite Hparse. wp_step. eapply wp_lift_outcome; [reflexivity|].
  simpl. unfold on_get_response. do 2 wp_step. rewrite Hp. wp_step.
  eapply wp_mono; [by apply wp_accepted|]. cbv beta. intros again s1 out (-> & (Hr & Hg & Hpm) & ->).
  do 3 wp_step. unfold has_get, shrinks. simpl. rewrite Hr, Hg, Hpm.
  split_and!; [done|rewrite lookup_delete_eq; by intros []|done| |done].
  by intros k q [_ ?]%lookup_delete_Some.
Qed.

Lemma wp_receive_put now serialized tp id s :
  client_ok s → parse serialized = KeyResponse.mk PUT [tp] id NO_ERROR →
  KeyTuple.error tp ≠ WRONG_THREAD → has_put s (KeyTuple.key tp) id →
  wp (receive_async routing_threads_ ut_ timeout_ now None (Some serialized)) s (λ results s' _,
    client_ok s' ∧ head results = Some (KeyResponse.mk PUT [tp] id NO_ERROR) ∧
    ¬ has_put s' (KeyTuple.key tp) id ∧ shrinks s s').
Proof.
  intros Hok Hparse Herr Hp.
  eapply wp_mono; [apply wp_receive_response; [done|by rewrite Hparse|by apply wp_on_put_answer]|].
  cbv beta. intros results s' out (Hok' & answers & s1 & made_up & -> & (-> & Hnp & Hs1) & Hs).
  split_and!; [done|done|intros Hh; by eapply Hnp, shrinks_put|by eapply shrinks_trans].
Qed.

Lemma wp_receive_get now serialized tp id s :
  client_ok s → parse serialized = KeyResponse.mk GET [tp] id NO_ERROR →
  KeyTuple.error tp ≠ WRONG_THREAD → has_get s (KeyTuple.key tp) →
  wp (receive_async routing_threads_ ut_ timeout_ now None (Some serialized)) s (λ results s' _,
    client_ok s' ∧ head results = Some (KeyResponse.mk GET [tp] id NO_ERROR) ∧
    ¬ has_get s' (KeyTuple.key tp) ∧ shrinks s s').
Proof.
  intros Hok Hparse Herr Hp.
  eapply wp_mono; [apply wp_receive_response; [done|by rewrite Hparse|by apply wp_on_get_answer]|].
  cbv beta. intros results s' out (Hok' & answers & s1 & made_up & -> & (-> & Hng & Hs1) & Hs).
  split_and!; [done|done|intros Hh; by eapply Hng, shrinks_get|by eapply shrinks_trans].
Qed.
End client_side.

(** ** A client and a server thread *)
Section session.
Context {Store : Type} `{SerializerMapLaws Store} `{Protobuf} `{StdHash} `{Random}.
Context `{HashRingUtilInterface} (c : Config) (wt : ServerThread.t) (R : RingState → Prop).
Context {V : Type} `{Lattice V} (type : LatticeType) (ser : Serializer Store).
Context (inv : Store → Prop) (view : Store → Key → V) (decode : string → V).
Context (accepts : string → Prop) `{!SerializerLaws ser inv view decode accepts}.
Hypothesis ser_type : serializer_at type = Some ser.
Context (routing_threads_ : list UserRoutingThread.t) (ut_ : UserThread.t) (timeout_ : Z).
Hypothesis some_router : routing_threads_ ≠ [].

(** Requests and responses are messages that the protobuf library carries. *)
Context `{!ProtoLaws KeyRequest.t carries_request dflt_request}.
Context `{!ProtoLaws KeyResponse.t carries_response dflt_response}.
Hypothesis all_requests : ∀ m, carries_request m.
Hypothesis all_responses : ∀ m, carries_response m.

Record System := mkSystem { client : ClientState; server : ServerState Store }.

(** A call of the client's interface at time [now]; the thread handles what the
    client sent, and the client receives what the thread answered. *)
Definition exchange {A} (now : Z) (call : M ClientState A) (sys : System)
    : outcome (A * list KeyResponse.t * System) :=
  '(a, cl, sent) ← call (client sys);
  '(_, srv, replies) ← for_each sent (λ m, user_request_handler c wt now (msg_body m)) (server sys);
  '(results, cl, _) ← for_acc replies [] (λ results m,
    r ← receive_async routing_threads_ ut_ timeout_ now None (Some (msg_body m));
    mret (results ++ r)) cl;
  Ok (a, results, mkSystem cl srv).

Lemma exchange_one {A} now (call : M ClientState A) sys (Q : A → list KeyResponse.t → System → Prop) :
  wp call (client sys) (λ a cl sent, ∃ worker request, sent = [mkMsg worker request] ∧
    wp (user_request_handler c wt now request) (server sys) (λ _ srv replies,
      ∃ address reply, replies = [mkMsg address reply] ∧
      wp (receive_async routing_threads_ ut_ timeout_ now None (Some reply)) cl (λ results cl' _,
        Q a results (mkSystem cl' srv)))) →
  ∃ a results sys', exchange now call sys = Ok (a, results, sys') ∧ Q a results sys'.
Proof.
  intros (a & cl & sent & Hcall & worker & request & -> & [] & srv & replies & Hsrv & address & reply & -> &
    results & cl' & out & Hrecv & HQ).
  exists a, results, (mkSystem cl' srv). split; [|done]. unfold exchange, mbind at 1, outcome_bind at 1.
  rewrite Hcall. cbv beta iota. cbn [for_each]. unfold mbind, outcome_bind, M_bind, mret, M_ret. cbn [msg_body].
  rewrite Hsrv. cbn [app for_acc]. unfold mbind, M_bind, mret, M_ret. cbn [msg_body]. by rewrite Hrecv.
Qed.

Definition ready_for (key : Key) sys : Prop :=
  client_ok (client sys) ∧ ready R inv (server sys) ∧ pending_get_response_map_ (client sys) !! key = None.

Lemma response_address_set : UserThread.response_connect_address ut_ ≠ "".
Proof. discriminate. Qed.

Lemma put_exchange now key payload sys :
  ready_for key sys → cached (client sys) key ≠ ∅ → owns c wt R key →
  put_refused (server sys) key type = false → accepts payload →
  ∃ id results sys', exchange now (put_async routing_threads_ ut_ now key payload type) sys = Ok (id, results, sys') ∧
    ready_for key sys' ∧ stored_type (server sys') key = Some type ∧
    merged view key (decode payload) (server sys) (server sys') ∧ ¬ has_put (client sys') key id ∧
    ∃ r tp, r ∈ results ∧ ends_put id r ∧ KeyResponse.tuples r = [tp] ∧ KeyTuple.key tp = key ∧
      KeyTuple.error tp = NO_ERROR.
Proof.
  intros (Hok & Hready & Hnone) Hc Hown Hput Hacc. apply exchange_one.
  eapply wp_mono; [by apply wp_put_sends|]. cbv beta.
  intros id cl sent (-> & Hok1 & Hhas & worker & n & _ & -> & _ & Hg1 & _). eexists _, _. split; [done|].
  eapply wp_mono; [eapply (wp_user_put c wt R type ser inv view decode accepts ser_type now _
    (KeyTuple.set_address_cache_size n (put_tuple key payload type))); try done|].
  { rewrite parse_serialize' by done. reflexivity. }
  cbv beta. intros [] srv replies (Hready' & Hm & _ & Hst & _ & Hreply).
  destruct (Hreply response_address_set) as (tp & -> & Hk & Herr). eexists _, _. split; [done|].
  eapply wp_mono; [apply (wp_receive_put routing_threads_ ut_ timeout_ some_router now _ tp (next_id ut_ (client sys))); [done|by rewrite parse_serialize'|by rewrite Herr|by rewrite Hk]|].
  cbv beta. intros results cl' _ (Hok2 & Hin%head_Some_elem_of & Hnp & Hgets). rewrite Hk in Hnp.
  assert (pending_get_response_map_ cl' !! key = None) as Hnone'.
  { apply eq_None_not_Some. intros Hh. eapply (shrinks_get cl) in Hh; [|done]. unfold has_get in Hh.
    rewrite Hg1 in Hh. simpl in Hh. rewrite Hnone in Hh. by destruct Hh. }
  split_and!; try done. by eexists _, tp.
Qed.

Lemma get_exchange now key sys :
  ready_for key sys → cached (client sys) key ≠ ∅ → owns c wt R key →
  stored_type (server sys) key = Some type →
  (ser_get ser key NO_ERROR (store (server sys))).1.2 ≠ KEY_DNE →
  ∃ results sys', exchange now (get_async routing_threads_ ut_ now key) sys = Ok (tt, results, sys') ∧
    same_values view (server sys) (server sys') ∧ ¬ has_get (client sys') key ∧
    ∃ r tp, r ∈ results ∧ ends_get key r ∧ KeyResponse.tuples r = [tp] ∧
      KeyTuple.error tp = NO_ERROR ∧ KeyTuple.lattice_type tp = type ∧
      decode (KeyTuple.payload tp) = view (store (server sys)) key.
Proof.
  intros (Hok & Hready & Hnone) Hc Hown Hst Hfound.
  destruct (exchange_one now (get_async routing_threads_ ut_ now key) sys (λ _ results sys',
    same_values view (server sys) (server sys') ∧ ¬ has_get (client sys') key ∧
    ∃ r tp, r ∈ results ∧ ends_get key r ∧ KeyResponse.tuples r = [tp] ∧
      KeyTuple.error tp = NO_ERROR ∧ KeyTuple.lattice_type tp = type ∧
      decode (KeyTuple.payload tp) = view (store (server sys)) key)) as ([] & results & sys' & ? & ?); [|by eauto].
  eapply wp_mono; [by apply wp_get_sends|]. cbv beta.
  intros _ cl sent (Hok1 & Hhas & worker & n & _ & -> & _). eexists _, _. split; [done|].
  eapply wp_mono; [eapply (wp_user_get c wt R type ser inv view decode accepts ser_type now _
    (KeyTuple.set_address_cache_size n (KeyTuple.set_key key KeyTuple.empty))); try done|].
  { rewrite parse_serialize' by done. reflexivity. }
  { apply response_address_set. }
  cbv beta. intros [] srv replies (_ & Hsame & _ & tp & -> & Hk & Hty & Herr & Hval). eexists _, _. split; [done|].
  simpl in Hk, Herr, Hval. destruct Hval as [[He Hval]|He]; [|by rewrite He in Herr].
  eapply wp_mono; [apply (wp_receive_get routing_threads_ ut_ timeout_ some_router now _ tp (next_id ut_ (client sys)));
    [done|by rewrite parse_serialize'|by rewrite He|by rewrite Hk]|].
  cbv beta. intros results cl' _ (_ & Hin%head_Some_elem_of & Hng & _). rewrite Hk in Hng. split_and!; [done|done|].
  eexists _, tp. split_and!; try done. split; [done|]. by exists tp, [].
Qed.

(** C4: a client reads what it wrote.  With an address of the key in its cache
    and at a thread that keeps the key and accepts the type, a PUT is stored by
    merging it into the value, answered without error under its id, and no
    longer outstanding; and a GET that follows, as long as the address is
    cached, is answered with a payload that decodes to the value from before
    merged with what was written (when the store does not take the merged value
    for a missing key, as the empty string). *)
Theorem client_reads_its_write now now' key payload sys :
  ready_for key sys → cached (client sys) key ≠ ∅ → owns c wt R key →
  put_refused (server sys) key type = false → accepts payload →
  let value := do_merge (view (store (server sys)) key) (decode payload) in
  (∀ st, inv st → view st key = value → (ser_get ser key NO_ERROR st).1.2 ≠ KEY_DNE) →
  ∃ id results sys1, exchange now (put_async routing_threads_ ut_ now key payload type) sys = Ok (id, results, sys1) ∧
    merged view key (decode payload) (server sys) (server sys1) ∧ ¬ has_put (client sys1) key id ∧
    (∃ r tp, r ∈ results ∧ ends_put id r ∧ KeyResponse.tuples r = [tp] ∧ KeyTuple.error tp = NO_ERROR) ∧
    (cached (client sys1) key ≠ ∅ →
     ∃ results' sys2, exchange now' (get_async routing_threads_ ut_ now' key) sys1 = Ok (tt, results', sys2) ∧
       ¬ has_get (client sys2) key ∧
       ∃ r tp, r ∈ results' ∧ ends_get key r ∧ KeyResponse.tuples r = [tp] ∧
         KeyTuple.error tp = NO_ERROR ∧ decode (KeyTuple.payload tp) = value).
Proof.
  intros Hready Hc Hown Hput Hacc value Hfound.
  destruct (put_exchange now key payload sys) as (id & results & sys1 & Hex & Hready1 & Hst & Hm & Hnp & r & tp & Hr);
    [done..|]. exists id, results, sys1. split_and!; [done|done|done|exists r, tp; naive_solver|]. intros Hc1.
  assert (view (store (server sys1)) key = value) as Hv by (rewrite Hm; by rewrite decide_True).
  destruct (get_exchange now' key sys1) as (results' & sys2 & Hget & _ & Hng & r' & tp' & Hr');
    [done|done|done|done|apply Hfound; [apply Hready1|done]|].
  rewrite Hv in Hr'. exists results', sys2. split_and!; [done|done|]. exists r', tp'. naive_solver.
Qed.
End session.

Module ExampleEndToEnd.
#[local] Existing Instance bit_protobuf.
#[local] Existing Instance ExampleRing.toy_hash.
#[local] Existing Instance memory_serializers.
#[local] Existing Instance ExampleServer.still.
#[local] Existing Instance ExampleServer.util.

(** A client that knows the thread of the key, and the thread. *)
Definition knows : ClientState := mkClient 0 0 {["k" := {["tcp://a:6200"]}]} ∅ ∅ ∅.
Definition together : System := mkSystem knows ExampleServer.fresh_server.
Definition written : string := ExampleServer.payload 7 "v".

Lemma together_ready : ready_for ExampleServer.R ExampleServer.lww_inv "k" together.
Proof.
  split_and!; [|apply ExampleServer.fresh_ready|reflexivity].
  constructor; simpl; intros *; rewrite ?lookup_empty; try done.
  intros Ha. exists "//a". unfold map_get in Ha. destruct (decide (key = "k")) as [->|Hne].
  - rewrite lookup_singleton_eq in Ha. simpl in Ha. by apply elem_of_singleton in Ha as ->.
  - by rewrite lookup_singleton_ne in Ha.
Qed.

Lemma written_value : deserialize_lww written = LWWPairLattice.mkTVP 7 "v".
Proof.
  assert (parse (SerializeToString (LWWValue.mk 7 "v")) = LWWValue.mk 7 "v") as Hp
    by (apply (@parse_serialize' _ _ _ _ (BitCodec.codec_laws LWWValue.empty)); exact I).
  unfold deserialize_lww, written, ExampleServer.payload, serialize_value. by rewrite Hp.
Qed.

Lemma written_found st :
  ExampleServer.lww_view st "k" =
    do_merge (ExampleServer.lww_view ExampleServer.no_stores "k") (deserialize_lww written) →
  (ser_get ExampleServer.lww_ser "k" NO_ERROR st).1.2 ≠ KEY_DNE.
Proof.
  rewrite written_value. intros Hv. unfold ExampleServer.lww_view in Hv.
  pose proof (memory_get_error serialize_lww lww_missing "k" (lww_kvs st) eq_refl) as He. rewrite Hv in He.
  unfold ExampleServer.lww_ser, serializer_on. cbn [ser_get MemoryLWWSerializer memory_serializer].
  destruct (memory_get _ _ _ _ _) as [[res err] kvs]. simpl in *. by rewrite He.
Qed.

Lemma client_reads_its_write_witness :
  ∃ id results sys1,
    exchange ExampleServer.config ExampleServer.wt ExampleClient.routers ExampleClient.ut 1000 5
      (put_async ExampleClient.routers ExampleClient.ut 5 "k" written LWW) together = Ok (id, results, sys1) ∧
    ExampleServer.lww_view (store (server sys1)) "k" = LWWPairLattice.mkTVP 7 "v" ∧
    (∃ r, r ∈ results ∧ ends_put id r) ∧
    (cached (client sys1) "k" ≠ ∅ →
     ∃ results' sys2,
       exchange ExampleServer.config ExampleServer.wt ExampleClient.routers ExampleClient.ut 1000 6
         (get_async ExampleClient.routers ExampleClient.ut 6 "k") sys1 = Ok (tt, results', sys2) ∧
       ∃ r tp, r ∈ results' ∧ KeyResponse.tuples r = [tp] ∧
         deserialize_lww (KeyTuple.payload tp) = LWWPairLattice.mkTVP 7 "v").
Proof.
  destruct (@client_reads_its_write MemoryStores _ memory_serializers_laws bit_protobuf _ _ _ ExampleServer.config
    ExampleServer.wt ExampleServer.R _ _ LWW ExampleServer.lww_ser ExampleServer.lww_inv ExampleServer.lww_view
    deserialize_lww _ ExampleServer.lww_ser_laws eq_refl ExampleClient.routers ExampleClient.ut 1000
    ExampleClient.some_router (λ _, True) _ (BitCodec.codec_laws KeyRequest.empty) (λ _, True) _
    (BitCodec.codec_laws KeyResponse.empty) (λ _, I) (λ _, I) 5 6 "k" written together)
    as (id & results & sys1 & Hput & Hm & _ & (r & tp & Hr & Hends & _) & Hget).
  - exact together_ready.
  - discriminate.
  - exact ExampleServer.owns_k.
  - reflexivity.
  - exact I.
  - intros st _ Hv. apply written_found. exact Hv.
  - rewrite written_value in Hm, Hget. exists id, results, sys1. split; [exact Hput|]. split; [|split].
    + rewrite (Hm "k"). reflexivity.
    + exists r. split; [exact Hr|exact Hends].
    + intros Hc. destruct (Hget Hc) as (results' & sys2 & Hex & _ & r' & tp' & Hr' & _ & Htp & _ & Hval).
      exists results', sys2. split; [exact Hex|]. exists r', tp'. split; [exact Hr'|]. split; [exact Htp|exact Hval].
Defined.
End ExampleEndToEnd.
