(* ===== verification/Cli.v ===== *)
(** The command line client (client/cpp/cli.cpp): a line is a command, which
    issues one request through [KvsClient], waits for its response and prints
    it. *)

From S2P Require Import Prelude Text Ordered Lattices ValueLattices Threads Wire WireCodec.
From S2P Require Import Codec RingUtil Replication Client EndToEnd.
From Stdlib Require Import Lia Ascii.
Import KvsClient.
Import LWWPairLattice(mkTVP).
Import MultiKeyCausalLattice(mkMKC).

(** What one call of [receive_async] meets: the time and at most one message
    of each socket. *)
Record Poll := mkPoll {
  poll_time : Z;
  poll_address : option string;
  poll_response : option string;
}.

(** The client, the polls to come and what was printed. *)
Record CliState := mkCli {
  kvs : ClientState;
  polls : list Poll;
  stdout : string;
}.
Definition set_kvs x s := mkCli x (polls s) (stdout s).
Definition set_polls x s := mkCli (kvs s) x (stdout s).
Definition set_stdout x s := mkCli (kvs s) (polls s) x.

Notation Cli := (M CliState).

Section cli.
Context `{Protobuf} `{Random}.
Context (routing_threads_ : list UserRoutingThread.t) (ut_ : UserThread.t) (timeout_ : Z).

Definition on_client {A} (m : M ClientState A) : Cli A := zoom kvs set_kvs m.

Definition endl : string := String "010" "".
Definition cout (text : string) : Cli unit := modify (λ s, set_stdout (stdout s +:+ text) s).
Definition print_line (text : string) : Cli unit := cout (text +:+ endl).

(** A failed [assert] aborts the process. *)
Definition assertion_failed : failure := Throws "assertion failed".
Definition assert_ (b : bool) : Cli unit := if b then mret tt else fail assertion_failed.

(** [responses = client->receive_async(); while (responses.size() == 0) ...]
    over the polls to come; when they are used up the loop is still waiting. *)
Fixpoint await (ps : list Poll) : Cli (list KeyResponse.t) :=
  match ps with
  | [] => fail Diverges
  | p :: ps =>
      modify (set_polls ps) ;;
      responses ← on_client (receive_async routing_threads_ ut_ timeout_ (poll_time p)
                               (poll_address p) (poll_response p));
      if bool_decide (length responses = 0%nat) then await ps else mret responses
  end.
Definition receive_responses : Cli (list KeyResponse.t) :=
  s ← get;
  await (polls s).

Definition print_set (values : gset string) : Cli unit :=
  cout "{ " ;;
  for_each (elements values) (λ val, cout (val +:+ " ")) ;;
  print_line "}".

(** [client->get_async(key)] and the first tuple of the response. *)
Definition get_and_receive (now : Z) (key : Key) : Cli (list KeyResponse.t) :=
  on_client (get_async routing_threads_ ut_ now key) ;;
  receive_responses.
Definition first_tuple (responses : list KeyResponse.t) : Cli KeyTuple.t :=
  r ← lift_outcome (vector_at responses 0);
  lift_outcome (vector_at (KeyResponse.tuples r) 0).
Definition one_response (responses : list KeyResponse.t) : Cli unit :=
  if bool_decide (1 < length responses)%nat then print_line "Error: received more than one response"
  else mret tt.

Definition get_command (now : Z) (v : list string) : Cli unit :=
  key ← lift_outcome (vector_at v 1);
  responses ← get_and_receive now key;
  one_response responses ;;
  tp ← first_tuple responses;
  assert_ (bool_decide (KeyTuple.lattice_type tp = LWW)) ;;
  print_line (LWWPairLattice.value (deserialize_lww (KeyTuple.payload tp))).

Definition print_clock (vc : gmap string Z) : Cli unit :=
  for_each (map_to_list vc) (λ '(id, n), print_line ("{" +:+ id +:+ " : " +:+ to_string n +:+ "}")).

Definition get_causal_command (now : Z) (v : list string) : Cli unit :=
  key ← lift_outcome (vector_at v 1);
  responses ← get_and_receive now key;
  one_response responses ;;
  tp ← first_tuple responses;
  assert_ (bool_decide (KeyTuple.lattice_type tp = MULTI_CAUSAL)) ;;
  let mkcl := to_multi_key_causal_payload (deserialize_multi_key_causal (KeyTuple.payload tp)) in
  print_clock (MultiKeyCausalLattice.vector_clock mkcl) ;;
  for_each (map_to_list (MultiKeyCausalLattice.dependencies mkcl)) (λ '(dep, vc),
    cout (dep +:+ " : ") ;;
    print_clock vc) ;;
  first ← lift_outcome (vector_at (elements (MultiKeyCausalLattice.value mkcl)) 0);
  print_line first.

(** A PUT, and what is printed about its response. *)
Definition put_and_report (now : Z) (key : Key) (payload : string) (type : LatticeType) : Cli unit :=
  rid ← on_client (put_async routing_threads_ ut_ now key payload type);
  responses ← receive_responses;
  response ← lift_outcome (vector_at responses 0);
  (if bool_decide (KeyResponse.response_id response = rid) then mret tt
   else print_line "Invalid response: ID did not match request ID!") ;;
  print_line (if bool_decide (KeyResponse.error response = NO_ERROR) then "Success!" else "Failure!").

Definition put_command (now time : Z) (v : list string) : Cli unit :=
  key ← lift_outcome (vector_at v 1);
  ts ← lift_outcome (Timestamp.generate_timestamp time 0);
  value ← lift_outcome (vector_at v 2);
  put_and_report now key (serialize_lww (mkTVP ts value)) LWW.

Definition test_payload (value : string) : MultiKeyCausalLattice.MultiKeyCausalPayload (gset string) :=
  mkMKC (MapLattice.insert (V:=Z) ∅ "test" 1)
    (MapLattice.insert ∅ "dep1" {["test1" := 1]})
    (SetLattice.insert ∅ value).

Definition put_causal_command (now : Z) (v : list string) : Cli unit :=
  key ← lift_outcome (vector_at v 1);
  value ← lift_outcome (vector_at v 2);
  put_and_report now key (serialize_multi_key_causal (test_payload value)) MULTI_CAUSAL.

Definition put_set_command (now : Z) (v : list string) : Cli unit :=
  let values : gset string := foldl (λ s x, {[x]} ∪ s) ∅ (drop 2 v) in
  key ← lift_outcome (vector_at v 1);
  put_and_report now key (serialize_set values) SET.

Definition get_set_command (now : Z) (v : list string) : Cli unit :=
  key ← lift_outcome (vector_at v 1);
  responses ← get_and_receive now key;
  tp ← first_tuple responses;
  print_set (deserialize_set (KeyTuple.payload tp)).

(** The result says whether the process exited. *)
Definition handle_request (now time : Z) (input : string) : Cli bool :=
  let v := split input " " in
  match v with
  | [] => mret true
  | command :: _ =>
      (if bool_decide (command = "GET") then get_command now v
       else if bool_decide (command = "GET_CAUSAL") then get_causal_command now v
       else if bool_decide (command = "PUT") then put_command now time v
       else if bool_decide (command = "PUT_CAUSAL") then put_causal_command now v
       else if bool_decide (command = "PUT_SET") then put_set_command now v
       else if bool_decide (command = "GET_SET") then get_set_command now v
       else print_line ("Unrecognized command " +:+ command +:+
              ". Valid commands are GET, GET_SET, PUT, PUT_SET, PUT_CAUSAL, and GET_CAUSAL.")) ;;
      mret false
  end.

(** Commands with the times at which they are read; [run] reads them until the
    end of the file or the first empty line. *)
Fixpoint run_file (commands : list (Z * Z * string)) : Cli unit :=
  match commands with
  | [] => mret tt
  | (now, time, input) :: commands =>
      exited ← handle_request now time input;
      if exited : bool then mret tt else run_file commands
  end.

(** From a terminal: at the end of the input [getline] leaves an empty line. *)
Fixpoint run_terminal (commands : list (Z * Z * string)) : Cli unit :=
  cout "kvs> " ;;
  match commands with
  | [] => mret tt
  | (now, time, input) :: commands =>
      exited ← handle_request now time input;
      if exited : bool then mret tt else run_terminal commands
  end.
End cli.

(** ** Waiting for a response *)
Section waiting.
Context `{Protobuf} `{Random}.
Context (routing_threads_ : list UserRoutingThread.t) (ut_ : UserThread.t) (timeout_ : Z).
Hypothesis some_router : routing_threads_ ≠ [].
Implicit Types (s : ClientState) (key : Key) (now : Z).

(** No outstanding request is older than the timeout. *)
Record nothing_expired now s : Prop := {
  fresh_requests key tp reqs : pending_request_map_ s !! key = Some (tp, reqs) → expired timeout_ now tp = false;
  fresh_gets key p : pending_get_response_map_ s !! key = Some p → expired timeout_ now (tp_ p) = false;
  fresh_puts key id p : map_get ∅ (pending_put_response_map_ s) key !! id = Some p →
    expired timeout_ now (tp_ p) = false;
}.

(** What a step that does nothing leaves. *)
Definition unchanged s (result : list KeyResponse.t) s' (out : list Msg) : Prop :=
  result = [] ∧ s' = s ∧ out = [].

Lemma wp_for_acc_idle {A B} (l : list A) (b : B) (body : B → A → M ClientState B) s :
  (∀ x, x ∈ l → wp (body b x) s (λ b' s' out, b' = b ∧ s' = s ∧ out = [])) →
  wp (for_acc l b body) s (λ b' s' out, b' = b ∧ s' = s ∧ out = []).
Proof.
  intros Hbody. eapply wp_mono; [apply (wp_for_acc (λ _ b' s' out, b' = b ∧ s' = s ∧ out = [])); [done|]|done].
  intros xs x b' s' out Hx (-> & -> & ->). by apply Hbody.
Qed.

Lemma wp_gc_requests_none now s :
  (∀ key tp reqs, pending_request_map_ s !! key = Some (tp, reqs) → expired timeout_ now tp = false) →
  wp (gc_requests timeout_ now) s (unchanged s).
Proof.
  intros Hfresh. unfold gc_requests. do 3 wp_step. eapply wp_mono; [apply wp_for_acc_idle|].
  - intros [key [tp reqs]] Hin%elem_of_map_to_list. rewrite (Hfresh key tp reqs) by done. by wp_step.
  - intros b s' out (-> & -> & ->). wp_steps. split_and!; [done| |done]. by destruct s.
Qed.

Lemma wp_gc_gets_none now s :
  (∀ key p, pending_get_response_map_ s !! key = Some p → expired timeout_ now (tp_ p) = false) →
  wp (gc_gets timeout_ now) s (unchanged s).
Proof.
  intros Hfresh. unfold gc_gets. do 3 wp_step. eapply wp_mono; [apply wp_for_acc_idle|].
  - intros [key p] Hin%elem_of_map_to_list. rewrite (Hfresh key p) by done. by wp_step.
  - intros b s' out (-> & -> & ->). wp_steps. split_and!; [done| |done]. by destruct s.
Qed.

Lemma put_entry s key m id p :
  (key, m) ∈ map_to_list (pending_put_response_map_ s) → (id, p) ∈ map_to_list m →
  map_get ∅ (pending_put_response_map_ s) key !! id = Some p.
Proof. intros Hm%elem_of_map_to_list Hp%elem_of_map_to_list. unfold map_get. by rewrite Hm. Qed.

Lemma wp_gc_puts_none now s :
  (∀ key id p, map_get ∅ (pending_put_response_map_ s) key !! id = Some p → expired timeout_ now (tp_ p) = false) →
  wp (gc_puts timeout_ now) s (unchanged s).
Proof.
  intros Hfresh. unfold gc_puts. do 3 wp_step. eapply wp_mono; [apply wp_for_acc_idle|].
  - intros [key m] Hm. apply wp_for_acc_idle. intros [id p] Hp.
    rewrite (Hfresh key id p) by (by eapply put_entry). by wp_step.
  - intros b s' out (-> & -> & ->). wp_steps. split_and!; [done| |done]. by destruct s.
Qed.

Lemma wp_receive_nothing now s :
  nothing_expired now s →
  wp (receive_async routing_threads_ ut_ timeout_ now None None) s (unchanged s).
Proof.
  intros [Hr Hg Hp]. unfold receive_async. do 4 wp_step. wp_step.
  eapply wp_mono; [by apply wp_gc_requests_none|]. intros r1 s1 out1 (-> & -> & ->). wp_step.
  eapply wp_mono; [by apply wp_gc_gets_none|]. intros r2 s2 out2 (-> & -> & ->). wp_step.
  eapply wp_mono; [by apply wp_gc_puts_none|]. intros r3 s3 out3 (-> & -> & ->). by wp_step.
Qed.

(** *** Responses that are made up *)
Lemma bad_response_total key req :
  request_ok key req → ∃ r, generate_bad_response req = Ok r.
Proof. intros (tp & tps & Htp & _). unfold generate_bad_response. rewrite Htp. by eexists. Qed.

Lemma wp_gc_gets_all (P : KeyResponse.t → Prop) now s :
  client_ok s →
  (∀ key p r, pending_get_response_map_ s !! key = Some p → generate_bad_response (request_ p) = Ok r → P r) →
  wp (gc_gets timeout_ now) s (λ result _ _, Forall P result).
Proof.
  intros Hok HP. unfold gc_gets. do 3 wp_step.
  eapply wp_mono; [apply (wp_for_acc (λ _ acc s' _, client_ok s' ∧ Forall P acc.1)); [by split|]|].
  - intros xs [key p] [result to_remove] s' out Hin%elem_of_map_to_list [Hok' Hall]. simpl in Hall.
    destruct (ok_gets s Hok key p Hin) as (Hreq & _ & Hw).
    destruct (expired timeout_ now (tp_ p)); [|by wp_step].
    destruct (bad_response_total key _ Hreq) as [r Hr]. wp_step. eapply wp_lift_outcome; [exact Hr|]. wp_step.
    eapply wp_mono; [by apply wp_invalidate_worker|]. intros [] s'' out' [Hok'' _]. wp_step.
    split; [done|]. simpl. apply Forall_app. split; [done|]. apply Forall_singleton. by eapply HP.
  - intros [result to_remove] s' out [_ Hall]. by wp_steps.
Qed.

Lemma wp_gc_puts_all (P : KeyResponse.t → Prop) now s :
  client_ok s →
  (∀ key id p r, map_get ∅ (pending_put_response_map_ s) key !! id = Some p →
     generate_bad_response (request_ p) = Ok r → P r) →
  wp (gc_puts timeout_ now) s (λ result _ _, Forall P result).
Proof.
  intros Hok HP. unfold gc_puts. do 3 wp_step.
  eapply wp_mono; [apply (wp_for_acc (λ _ acc s' _, client_ok s' ∧ Forall P acc.1)); [by split|]|].
  - intros xs [key m] acc s' out Hm [Hok' Hall].
    apply (wp_for_acc (λ _ acc s' _, client_ok s' ∧ Forall P acc.1)); [by split|]. clear acc s' out Hok' Hall.
    intros ys [id p] [result to_remove] s' out Hp [Hok' Hall]. simpl in Hall.
    pose proof (put_entry s key m id p Hm Hp) as Hat. destruct (put_at_ok s key id p Hok Hat) as (Hreq & _ & _ & Hw).
    destruct (expired timeout_ now (tp_ p)); [|by wp_step].
    destruct (bad_response_total key _ Hreq) as [r Hr]. wp_step. eapply wp_lift_outcome; [exact Hr|]. wp_step.
    eapply wp_mono; [by apply wp_invalidate_worker|]. intros [] s'' out' [Hok'' _]. wp_step.
    split; [done|]. simpl. apply Forall_app. split; [done|]. apply Forall_singleton. by eapply HP.
  - intros [result to_remove] s' out [_ Hall]. by wp_steps.
Qed.

(** *** One outstanding request *)

(** Nothing is outstanding. *)
Definition idle s : Prop :=
  client_ok s ∧ pending_request_map_ s = ∅ ∧ pending_get_response_map_ s = ∅ ∧
  ∀ key id, map_get ∅ (pending_put_response_map_ s) key !! id = None.

(** A PUT, a GET is outstanding and nothing else. *)
Definition only_put s key (id : string) (p : PendingRequest) : Prop :=
  client_ok s ∧ pending_request_map_ s = ∅ ∧ pending_get_response_map_ s = ∅ ∧
  ∀ k i q, map_get ∅ (pending_put_response_map_ s) k !! i = Some q ↔ k = key ∧ i = id ∧ q = p.
Definition only_get s key (p : PendingRequest) : Prop :=
  client_ok s ∧ pending_request_map_ s = ∅ ∧ pending_get_response_map_ s = {[key := p]} ∧
  ∀ k i, map_get ∅ (pending_put_response_map_ s) k !! i = None.

Lemma only_put_fresh now s key id p :
  only_put s key id p → expired timeout_ now (tp_ p) = false → nothing_expired now s.
Proof.
  intros (_ & Hr & Hg & Hp) He. split; [by rewrite Hr|by rewrite Hg|]. by intros k i q (_ & _ & ->)%Hp.
Qed.

Lemma only_get_fresh now s key p :
  only_get s key p → expired timeout_ now (tp_ p) = false → nothing_expired now s.
Proof.
  intros (_ & Hr & Hg & Hp) He. split; [by rewrite Hr| |intros k i q; by rewrite Hp].
  rewrite Hg. by intros k q [_ <-]%lookup_singleton_Some.
Qed.

Lemma shrinks_empty s s' :
  shrinks s s' →
  (pending_request_map_ s = ∅ → pending_request_map_ s' = ∅) ∧
  (pending_get_response_map_ s = ∅ → pending_get_response_map_ s' = ∅) ∧
  ((∀ key id, map_get ∅ (pending_put_response_map_ s) key !! id = None) →
   ∀ key id, map_get ∅ (pending_put_response_map_ s') key !! id = None).
Proof.
  intros (Hr & Hg & Hp). split_and!; intros He.
  - apply map_empty. intros key. apply eq_None_not_Some. intros [e Hk%Hr]. by rewrite He in Hk.
  - apply map_empty. intros key. apply eq_None_not_Some. intros [e Hk%Hg]. by rewrite He in Hk.
  - intros key id. apply eq_None_not_Some. intros [e Hk%Hp]. by rewrite He in Hk.
Qed.

(** The request times out: the response that is made up for it comes back. *)
Lemma wp_put_timeout now s key id p :
  only_put s key id p → expired timeout_ now (tp_ p) = true →
  wp (receive_async routing_threads_ ut_ timeout_ now None None) s (λ results s' _,
    idle s' ∧ ∃ r, head results = Some r ∧ generate_bad_response (request_ p) = Ok r).
Proof.
  intros (Hok & Hr & Hg & Hp) He. unfold receive_async. do 5 wp_step.
  eapply wp_mono; [apply wp_gc_requests_none; by rewrite Hr|]. intros r1 s1 out1 (-> & -> & ->). wp_step.
  eapply wp_mono; [apply wp_gc_gets_none; by rewrite Hg|]. intros r2 s2 out2 (-> & -> & ->). wp_step.
  eapply wp_mono; [apply wp_conj; [by apply (wp_gc_puts _ _ some_router)|
    apply (wp_gc_puts_all (λ r, generate_bad_response (request_ p) = Ok r)); [done|]]|].
  { by intros k i q r (_ & _ & ->)%Hp. }
  cbv beta. intros r3 s3 out3 [(Hok3 & [_ Hacc] & Hs & Hreq & Hget & Hexp) Hall]. wp_step. simpl. split.
  - destruct (shrinks_empty s s3 Hs) as (Hs1 & Hs2 & _). split_and!; [done|auto|auto|].
    intros k i. apply eq_None_not_Some. intros [q Hq]. pose proof (Hexp k i q Hq) as Hf.
    destruct Hs as (_ & _ & Hs). apply Hs, Hp in Hq as (_ & _ & ->). congruence.
  - destruct (Hacc key id) as [Haw|(r & Hin & _)].
    { left. apply has_put_at. exists p. by apply Hp. }
    + exfalso. destruct Haw as [Hh|(req & (tp & reqs & Hk & _) & _)]; [|by rewrite Hreq, Hr in Hk].
      apply has_put_at in Hh as [q Hq]. pose proof (Hexp _ _ _ Hq) as Hf.
      destruct Hs as (_ & _ & Hs). apply Hs, Hp in Hq as (_ & _ & ->). congruence.
    + destruct r3 as [|r0 r3]; [by apply elem_of_nil in Hin|]. exists r0. split; [done|]. by inversion Hall.
Qed.

Lemma wp_get_timeout now s key p :
  only_get s key p → expired timeout_ now (tp_ p) = true →
  wp (receive_async routing_threads_ ut_ timeout_ now None None) s (λ results s' _,
    idle s' ∧ ∃ r, head results = Some r ∧ generate_bad_response (request_ p) = Ok r).
Proof.
  intros (Hok & Hr & Hg & Hp) He. unfold receive_async. do 5 wp_step.
  eapply wp_mono; [apply wp_gc_requests_none; by rewrite Hr|]. intros r1 s1 out1 (-> & -> & ->). wp_step.
  eapply wp_mono; [apply wp_conj; [by apply (wp_gc_gets _ _ some_router)|
    apply (wp_gc_gets_all (λ r, generate_bad_response (request_ p) = Ok r)); [done|]]|].
  { rewrite Hg. by intros k q r [_ <-]%lookup_singleton_Some. }
  cbv beta. intros r2 s2 out2 [(Hok2 & [Hacc _] & Hs & Hreq & Hexp) Hall]. wp_step.
  destruct (shrinks_empty s s2 Hs) as (Hs1 & _ & Hs3).
  assert (pending_get_response_map_ s2 = ∅) as Hg2.
  { apply map_empty. intros k. apply eq_None_not_Some. intros [q Hq]. pose proof (Hexp k q Hq) as Hf.
    destruct Hs as (_ & Hs & _). apply Hs in Hq. rewrite Hg in Hq. apply lookup_singleton_Some in Hq as [_ <-].
    congruence. }
  eapply wp_mono; [apply wp_gc_puts_none; intros k i q; by rewrite Hs3|].
  intros r3 s3 out3 (-> & -> & ->). wp_step. simpl. rewrite app_nil_r. split; [by split_and!; auto|].
  destruct (Hacc key) as [[Hh|(req & (tp & reqs & Hk & _) & _)]|(r & Hin & _)].
  - left. exists p. by rewrite Hg, lookup_singleton_eq.
  - unfold has_get in Hh. rewrite Hg2 in Hh. by destruct Hh.
  - by rewrite Hreq, Hr in Hk.
  - destruct r2 as [|r0 r2]; [by apply elem_of_nil in Hin|]. exists r0. split; [done|]. by inversion Hall.
Qed.

(** *** The loop *)

(** A poll that finds nothing. *)
Definition quiet_poll s (q : Poll) : Prop :=
  poll_address q = None ∧ poll_response q = None ∧ nothing_expired (poll_time q) s.

(** Polls that find nothing are passed by; the first that gives a response
    ends the loop. *)
Lemma wp_await quiet last later (c : CliState) (Q : list KeyResponse.t → ClientState → Prop) :
  Forall (quiet_poll (kvs c)) quiet →
  wp (receive_async routing_threads_ ut_ timeout_ (poll_time last) (poll_address last) (poll_response last))
    (kvs c) (λ results s' _, results ≠ [] ∧ Q results s') →
  wp (await routing_threads_ ut_ timeout_ (quiet ++ last :: later)) c (λ results c' _,
    polls c' = later ∧ stdout c' = stdout c ∧ Q results (kvs c')).
Proof.
  intros Hquiet Hlast. revert c Hquiet Hlast. induction quiet as [|q quiet IH]; intros c Hquiet Hlast; cbn [await app].
  - do 3 wp_step. apply wp_zoom. eapply wp_mono; [exact Hlast|]. cbv beta. intros results s' out [Hne HQ].
    rewrite bool_decide_eq_false_2 by (by destruct results). by wp_step.
  - apply Forall_cons in Hquiet as [(Ha & Hr & Hn) Hquiet]. do 3 wp_step. apply wp_zoom. rewrite Ha, Hr.
    eapply wp_mono; [by apply wp_receive_nothing|]. cbv beta. intros results s' out (-> & -> & ->).
    rewrite bool_decide_eq_true_2 by done. eapply wp_mono; [by apply IH|]. by intros results c' out' (? & ? & ?).
Qed.
End waiting.

(** ** What a command does *)
Section commands.
Context `{Protobuf} `{Random}.
Context (routing_threads_ : list UserRoutingThread.t) (ut_ : UserThread.t) (timeout_ : Z).
Hypothesis some_router : routing_threads_ ≠ [].
Implicit Types (s : ClientState) (key : Key) (now : Z) (c : CliState).

(** A word of a command. *)
Definition word (w : string) : Prop := has_char " " w = false ∧ w ≠ "".

Lemma split_two w k : word w → word k → split (w +:+ " " +:+ k) " " = [w; k].
Proof. intros [Hw _] [Hk Hne]. change (" " +:+ k) with (String " " k). by rewrite split_delim, split_word. Qed.

Lemma split_three w k v : word w → word k → word v → split (w +:+ " " +:+ k +:+ " " +:+ v) " " = [w; k; v].
Proof.
  intros [Hw _] Hk Hv. change (" " +:+ k +:+ " " +:+ v) with (String " " (k +:+ " " +:+ v)).
  rewrite split_delim by done. f_equal. by apply split_two.
Qed.

(** An answer after which nothing is outstanding is all that comes back. *)
Lemma wp_receive_answer now serialized s (P : list KeyResponse.t → ClientState → Prop) :
  client_ok s → KeyResponse.tuples (parse serialized) ≠ [] →
  wp (on_response routing_threads_ ut_ now serialized) s (λ answers s' _, P answers s') →
  (∀ answers s', P answers s' → nothing_expired timeout_ now s') →
  wp (receive_async routing_threads_ ut_ timeout_ now None (Some serialized)) s (λ results s' _,
    client_ok s' ∧ P results s').
Proof.
  intros Hok Hne HP Hfresh. unfold receive_async. do 3 wp_step.
  eapply wp_mono; [apply wp_conj; [exact HP|by apply (wp_on_response _ _ some_router)]|]. cbv beta.
  intros answers s1 out1 (HPs & Hok1 & _). destruct (Hfresh _ _ HPs) as [Hr Hg Hp]. wp_step.
  eapply wp_mono; [by apply wp_gc_requests_none|]. intros r1 s2 out2 (-> & -> & ->). wp_step.
  eapply wp_mono; [by apply wp_gc_gets_none|]. intros r2 s3 out3 (-> & -> & ->). wp_step.
  eapply wp_mono; [by apply wp_gc_puts_none|]. intros r3 s4 out4 (-> & -> & ->). wp_step.
  by rewrite !app_nil_r.
Qed.

Lemma idle_fresh now s : idle s → nothing_expired timeout_ now s.
Proof. intros (_ & Hr & Hg & Hp). split; [by rewrite Hr|by rewrite Hg|intros k i q; by rewrite Hp]. Qed.

(** *** PUT *)
Lemma noted_put now key worker tuple id n s s' :
  idle s → client_ok s' → maps_same (noted now key worker (made ut_ PUT tuple id n) s) s' →
  only_put s' key id (mkPending now worker (made ut_ PUT tuple id n)).
Proof.
  intros (_ & Hr & Hg & Hp) Hok' (Hr' & Hg' & Hp'). simpl in *.
  split_and!; [done|congruence|congruence|]. intros k i q. rewrite Hp', Hp. simpl.
  destruct (decide (k = key)) as [->|Hk].
  - rewrite map_get_insert_eq. destruct (decide (i = id)) as [->|Hi].
    + rewrite lookup_insert_eq. naive_solver.
    + rewrite lookup_insert_ne, Hp by done. naive_solver.
  - rewrite map_get_insert_ne, Hp by done. naive_solver.
Qed.

Lemma put_over s s' key id p :
  only_put s key id p → ¬ has_put s' key id → shrinks s s' → client_ok s' → idle s'.
Proof.
  intros (_ & Hr & Hg & Hp) Hnp Hs Hok'. destruct (shrinks_empty s s' Hs) as (Hs1 & Hs2 & _).
  split_and!; [done|auto|auto|]. intros k i. apply eq_None_not_Some. intros [q Hq].
  assert (map_get ∅ (pending_put_response_map_ s) k !! i = Some q) as (-> & -> & ->)%Hp by (by apply Hs).
  apply Hnp, has_put_at. by exists p.
Qed.

(** A poll during which the request is not yet too old. *)
Definition silent now (q : Poll) : Prop :=
  poll_address q = None ∧ poll_response q = None ∧ elapsed (poll_time q) now ≤ timeout_.

Lemma not_expired now tp : elapsed now tp ≤ timeout_ → expired timeout_ now tp = false.
Proof. intros ?. apply bool_decide_eq_false_2. lia. Qed.

(** The command of a PUT: what is printed after one answer. *)
Definition put_line key (v : string) : string := "PUT " +:+ key +:+ " " +:+ v.
Definition stored_payload (time : Z) (v : string) : string := serialize_lww (mkTVP (u64 (time * 10)) v).

Definition put_reported c key (payload text : string) (later : list Poll) (exited : bool) c' (out : list Msg) : Prop :=
  exited = false ∧ stdout c' = stdout c +:+ text +:+ endl ∧ polls c' = later ∧ idle (kvs c') ∧
  ∃ worker n rest, worker ∈ cached (kvs c) key ∧
    out = mkMsg worker (SerializeToString (made ut_ PUT (put_tuple key payload LWW) (next_id ut_ (kvs c)) n)) :: rest.

(** Any single response ends the command. *)
Lemma wp_put_command now time key v c quiet last later (good : bool) :
  idle (kvs c) → cached (kvs c) key ≠ ∅ → word key → word v →
  polls c = quiet ++ last :: later → Forall (silent now) quiet →
  (∀ s worker n, only_put s key (next_id ut_ (kvs c))
       (mkPending now worker (made ut_ PUT (put_tuple key (stored_payload time v) LWW) (next_id ut_ (kvs c)) n)) →
     wp (receive_async routing_threads_ ut_ timeout_ (poll_time last) (poll_address last) (poll_response last)) s
       (λ results s' _, idle s' ∧ ∃ r, head results = Some r ∧
          KeyResponse.response_id r = next_id ut_ (kvs c) ∧
          bool_decide (KeyResponse.error r = NO_ERROR) = good)) →
  wp (handle_request routing_threads_ ut_ timeout_ now time (put_line key v)) c
    (put_reported c key (stored_payload time v) (if good then "Success!" else "Failure!") later).
Proof.
  intros Hidle Hc Hk Hv Hpolls Hquiet Hlast. unfold handle_request, put_line.
  change ("PUT " +:+ key +:+ " " +:+ v) with ("PUT" +:+ " " +:+ key +:+ " " +:+ v).
  rewrite split_three by done. cbn [bool_decide]. simpl bool_decide. cbv iota. wp_step. unfold put_command.
  wp_step. eapply wp_lift_outcome; [reflexivity|]. wp_step.
  eapply wp_lift_outcome; [unfold Timestamp.generate_timestamp; simpl; by rewrite Z.add_0_r|]. wp_step.
  eapply wp_lift_outcome; [reflexivity|]. fold (stored_payload time v). unfold put_and_report. wp_step.
  apply wp_zoom. eapply wp_mono; [apply (wp_put_sends _ _ some_router); [apply Hidle|done]|]. cbv beta.
  intros id s1 sent (-> & Hok1 & _ & worker & n & Hw & -> & Hm). pose proof (noted_put _ _ _ _ _ _ _ _ Hidle Hok1 Hm) as Honly.
  wp_step. unfold receive_responses. do 2 wp_step. cbn [polls set_kvs]. rewrite Hpolls.
  eapply wp_mono; [apply (wp_await routing_threads_ ut_ timeout_ quiet last later (set_kvs s1 c) (λ results s', idle s' ∧ ∃ r,
    head results = Some r ∧ KeyResponse.response_id r = next_id ut_ (kvs c) ∧
    bool_decide (KeyResponse.error r = NO_ERROR) = good))|].
  - eapply Forall_impl; [exact Hquiet|]. intros q (Ha & Hr & He). split_and!; [done|done|].
    eapply only_put_fresh; [exact Honly|by apply not_expired].
  - eapply wp_mono; [by eapply Hlast|]. cbv beta. intros results s' out [Hi (r & Hr & ?)].
    split; [by intros ->|]. split; [done|by exists r].
  - cbv beta. intros results c2 out2 (Hpl & Hso & Hi & r & Hr & Hid & Hgood). simpl in Hso.
    destruct results as [|r' results]; [done|]. injection Hr as ->. wp_step. eapply wp_lift_outcome; [reflexivity|].
    rewrite (bool_decide_eq_true_2 (KeyResponse.response_id r = _)) by done. unfold print_line, cout. wp_steps. simpl. rewrite Hgood.
    split_and!; [done| |done|done|].
    + rewrite Hso. by destruct good.
    + by eexists worker, n, _.
Qed.


(** *** GET *)
Lemma noted_get now key worker tuple id n s s' :
  idle s → client_ok s' → maps_same (noted now key worker (made ut_ GET tuple id n) s) s' →
  only_get s' key (mkPending now worker (made ut_ GET tuple id n)).
Proof.
  intros (_ & Hr & Hg & Hp) Hok' (Hr' & Hg' & Hp'). simpl in *. rewrite Hg, lookup_empty in Hg'. simpl in Hg'.
  split_and!; [done|congruence|by rewrite Hg', insert_empty|]. intros k i. by rewrite Hp', Hp.
Qed.

Lemma get_over s s' key p :
  only_get s key p → ¬ has_get s' key → shrinks s s' → client_ok s' → idle s'.
Proof.
  intros (_ & Hr & Hg & Hp) Hng Hs Hok'. destruct (shrinks_empty s s' Hs) as (Hs1 & _ & Hs3).
  split_and!; [done|auto| |auto]. apply map_empty. intros k. apply eq_None_not_Some. intros [q Hq].
  assert (pending_get_response_map_ s !! k = Some q) as Hk by (by apply Hs).
  rewrite Hg in Hk. apply lookup_singleton_Some in Hk as [-> _]. apply Hng. by exists q.
Qed.

Lemma bind_fails {A B} (m : M CliState A) (f : A → M CliState B) c e :
  wp m c (λ a c' _, f a c' = Fail e) → (m ≫= f) c = Fail e.
Proof. intros (a & c' & out & Hm & Hf). unfold mbind, M_bind. by rewrite Hm, Hf. Qed.

Definition get_line key : string := "GET " +:+ key.

(** The responses that a GET waits for. *)
Lemma wp_get_and_receive now key c quiet last later (P : list KeyResponse.t → Prop) :
  idle (kvs c) → cached (kvs c) key ≠ ∅ →
  polls c = quiet ++ last :: later → Forall (silent now) quiet →
  (∀ s worker n, only_get s key
       (mkPending now worker (made ut_ GET (KeyTuple.set_key key KeyTuple.empty) (next_id ut_ (kvs c)) n)) →
     wp (receive_async routing_threads_ ut_ timeout_ (poll_time last) (poll_address last) (poll_response last)) s
       (λ results s' _, idle s' ∧ results ≠ [] ∧ P results)) →
  wp (get_and_receive routing_threads_ ut_ timeout_ now key) c (λ results c' _,
    polls c' = later ∧ stdout c' = stdout c ∧ idle (kvs c') ∧ P results).
Proof.
  intros Hidle Hc Hpolls Hquiet Hlast. unfold get_and_receive. wp_step. apply wp_zoom.
  pose proof Hidle as (Hok & _ & Hg & _).
  eapply wp_mono; [apply (wp_get_sends _ _ some_router); [done|done|by rewrite Hg]|]. cbv beta.
  intros _ s1 sent (Hok1 & _ & worker & n & Hw & -> & Hm). pose proof (noted_get _ _ _ _ _ _ _ _ Hidle Hok1 Hm) as Honly.
  unfold receive_responses. do 2 wp_step. cbn [polls set_kvs]. rewrite Hpolls.
  apply (wp_await routing_threads_ ut_ timeout_ quiet last later (set_kvs s1 c) (λ results s', idle s' ∧ P results)).
  - eapply Forall_impl; [exact Hquiet|]. intros q (Ha & Hr & He). split_and!; [done|done|].
    eapply only_get_fresh; [exact Honly|by apply not_expired].
  - eapply wp_mono; [by eapply Hlast|]. cbv beta. by intros results s' out (Hi & Hne & HP).
Qed.

(** What a poll with the answer, or past the timeout, gives. *)
Lemma wp_get_answered now serialized tp id s key p :
  only_get s key p → parse serialized = KeyResponse.mk GET [tp] id NO_ERROR →
  KeyTuple.key tp = key → KeyTuple.error tp ≠ WRONG_THREAD →
  wp (receive_async routing_threads_ ut_ timeout_ now None (Some serialized)) s (λ results s' _,
    idle s' ∧ results ≠ [] ∧ results = [KeyResponse.mk GET [tp] id NO_ERROR]).
Proof.
  intros Honly Hparse Htk Herr. pose proof Honly as (Hok & Hr & Hg & Hp).
  eapply wp_mono; [apply (wp_receive_answer _ serialized s (λ answers s',
    answers = [KeyResponse.mk GET [tp] id NO_ERROR] ∧ ¬ has_get s' (KeyTuple.key tp) ∧ shrinks s s'));
    [done|by rewrite Hparse| |]|].
  - apply wp_on_get_answer; [done|done|]. exists p. by rewrite Htk, Hg, lookup_singleton_eq.
  - intros answers s' (-> & Hng & Hs). rewrite Htk in Hng. destruct (shrinks_empty s s' Hs) as (Hs1 & _ & Hs3).
    split; [by rewrite Hs1| |intros k i q; by rewrite Hs3]. intros k q Hq. destruct Hs as (_ & Hs & _).
    pose proof (Hs _ _ Hq) as Hk. rewrite Hg in Hk. apply lookup_singleton_Some in Hk as [-> _].
    exfalso. apply Hng. by exists q.
  - cbv beta. intros results s' out (Hok' & -> & Hng & Hs). rewrite Htk in Hng.
    split_and!; [by eapply get_over|done|done].
Qed.

Lemma handle_get now time key c :
  word key → handle_request routing_threads_ ut_ timeout_ now time (get_line key) c =
    (get_command routing_threads_ ut_ timeout_ now ["GET"; key] ;; mret false) c.
Proof.
  intros Hk. unfold handle_request, get_line. change ("GET " +:+ key) with ("GET" +:+ " " +:+ key).
  by rewrite split_two.
Qed.

Lemma wp_handle_get now time key c Q :
  word key → wp (handle_request routing_threads_ ut_ timeout_ now time (get_line key)) c Q ↔
    wp (get_command routing_threads_ ut_ timeout_ now ["GET"; key] ;; mret false) c Q.
Proof. intros Hk. unfold wp. by rewrite handle_get. Qed.

(** A first tuple of another type aborts the process. *)
Lemma get_aborts now time key c quiet last later :
  idle (kvs c) → cached (kvs c) key ≠ ∅ → word key →
  polls c = quiet ++ last :: later → Forall (silent now) quiet →
  (∀ s worker n, only_get s key
       (mkPending now worker (made ut_ GET (KeyTuple.set_key key KeyTuple.empty) (next_id ut_ (kvs c)) n)) →
     wp (receive_async routing_threads_ ut_ timeout_ (poll_time last) (poll_address last) (poll_response last)) s
       (λ results s' _, idle s' ∧ results ≠ [] ∧ ∃ r rest tp tps, results = r :: rest ∧
          KeyResponse.tuples r = tp :: tps ∧ KeyTuple.lattice_type tp ≠ LWW)) →
  handle_request routing_threads_ ut_ timeout_ now time (get_line key) c = Fail assertion_failed.
Proof.
  intros Hidle Hc Hk Hpolls Hquiet Hlast. rewrite handle_get by done. unfold mbind at 1, M_bind at 1.
  enough (get_command routing_threads_ ut_ timeout_ now ["GET"; key] c = Fail assertion_failed) as -> by done.
  unfold get_command. apply bind_fails. eapply wp_lift_outcome; [reflexivity|]. apply bind_fails.
  eapply wp_mono; [eapply (wp_get_and_receive now key c quiet last later (λ results, ∃ r rest tp tps,
    results = r :: rest ∧ KeyResponse.tuples r = tp :: tps ∧ KeyTuple.lattice_type tp ≠ LWW)); done|]. cbv beta.
  intros results c' _ (_ & _ & _ & r & rest & tp & tps & -> & Htps & Hty). apply bind_fails.
  eapply (wp_mono _ _ (λ _ _ _, True)).
  { unfold one_response, print_line, cout. by destruct (bool_decide _); wp_steps. }
  intros [] c2 _ _. apply bind_fails. unfold first_tuple. wp_step. eapply wp_lift_outcome; [reflexivity|].
  eapply wp_lift_outcome; [unfold vector_at; by rewrite Htps|]. by rewrite bool_decide_eq_false_2.
Qed.

End commands.

Module ExampleCli.
#[local] Existing Instance bit_protobuf.
#[local] Existing Instance ExampleServer.still.

(** A client that knows the thread of ["k"]; one poll finds nothing, the next
    is past the timeout. *)
Definition waits : CliState := mkCli ExampleEndToEnd.knows [mkPoll 0 None None; mkPoll 2000000000 None None] "".

Lemma waits_idle : idle (kvs waits).
Proof.
  destruct ExampleEndToEnd.together_ready as (Hok & _ & _). split_and!; [exact Hok|done|done|done].
Qed.

Lemma first_silent : Forall (silent 1000 0) [mkPoll 0 None None].
Proof. apply Forall_singleton. split_and!; [done|done|]. by vm_compute. Qed.


End ExampleCli.
