(* ===== verification/Discovery.v ===== *)
(** A client, a routing thread and the placement of a key: a client that does
    not know where a key is asks the routing tier, and its request goes to a
    thread that keeps the key ([KvsClient] of
    common/include/client/kvs_client.hpp and [address_handler] of
    src/route/address_handler.cpp). *)

From S2P Require Import Prelude Text Ordered Lattices ValueLattices Threads Wire WireCodec.
From S2P Require Import Codec Metadata HashRing RingUtil ServerState Replication Handlers Routing Client EndToEnd Cli.
From Stdlib Require Import Lia Ascii.
Import KvsClient Routing.

Section discovery.
Context `{Protobuf} `{StdHash} `{Random} `{HashRingUtilInterface}.
Context `{!ProtoLaws KeyAddressRequest.t carries_q dflt_q} `{!ProtoLaws KeyAddressResponse.t carries_a dflt_a}.
Context (all_questions : ∀ m, carries_q m) (all_answers : ∀ m, carries_a m).

(** The client. *)
Context (routing_threads_ : list UserRoutingThread.t) (ut_ : UserThread.t) (timeout_ : Z).
Hypothesis some_router : routing_threads_ ≠ [].
(** The routing thread. *)
Context (rt : RoutingThread.t) (R : RingState → Prop).
Implicit Types (s : ClientState) (r : RoutingState) (key : Key) (req : KeyRequest.t).

Definition question key (id : string) : KeyAddressRequest.t :=
  KeyAddressRequest.mk (UserThread.key_address_connect_address ut_) [key] id.

(** *** The question *)

Lemma wp_query_sends key s :
  wp (query_routing_async routing_threads_ ut_ key) s (λ _ s' out,
    quiet s s' ∧ ∃ router id, router ∈ routing_threads_ ∧
      out = [mkMsg (UserRoutingThread.key_address_connect_address router) (SerializeToString (question key id))]).
Proof.
  unfold query_routing_async, get_request_id, get_routing_thread. do 7 wp_step.
  wp_step. apply wp_random_below; [by destruct routing_threads_|]. intros i s' Hi (? & ? & ? & ?).
  wp_step. apply wp_vector_at; [done|]. intros router Hin. wp_step. wp_step.
  split; [done|]. by eexists router, _.
Qed.

(** Without an address the request waits, and the routing tier is asked. *)
Lemma wp_try_asks now key req s :
  request_ok key req → cached s key = ∅ → pending_request_map_ s !! key = None →
  wp (try_request routing_threads_ ut_ now req) s (λ req' s' out,
    req' = req ∧ key_address_cache_ s' = key_address_cache_ s ∧
    pending_request_map_ s' = <[key := (now, [req])]> (pending_request_map_ s) ∧
    pending_get_response_map_ s' = pending_get_response_map_ s ∧
    pending_put_response_map_ s' = pending_put_response_map_ s ∧
    ∃ router id, router ∈ routing_threads_ ∧
      out = [mkMsg (UserRoutingThread.key_address_connect_address router) (SerializeToString (question key id))]).
Proof.
  intros (tp & tps & Htp & Hk) Hc Hnone. unfold try_request, get_worker_thread, get_all_worker_threads.
  rewrite Htp. wp_step. eapply wp_lift_outcome; [reflexivity|]. rewrite Hk. do 4 wp_step.
  fold (cached s key). rewrite bool_decide_eq_true_2 by done. rewrite Hnone. wp_step.
  eapply wp_mono; [apply wp_query_sends|]. intros _ s' out ((Hca & Hpr & Hpg & Hpp) & router & id & Hin & ->).
  wp_step. rewrite bool_decide_eq_true_2 by (by rewrite size_empty). wp_step.
  rewrite bool_decide_eq_true_2 by done. unfold wait_for_address. wp_steps. simpl.
  rewrite Hpr, Hnone. simpl. split_and!; try done. by eexists router, id.
Qed.

Lemma wp_put_asks now key payload type s :
  idle s → cached s key = ∅ →
  wp (put_async routing_threads_ ut_ now key payload type) s (λ id s' out,
    client_ok s' ∧ key_address_cache_ s' = key_address_cache_ s ∧
    pending_request_map_ s' = {[key := (now, [KeyRequest.mk PUT [put_tuple key payload type]
      (UserThread.response_connect_address ut_) id])]} ∧
    pending_get_response_map_ s' = ∅ ∧ pending_put_response_map_ s' = pending_put_response_map_ s ∧
    ∃ router qid, router ∈ routing_threads_ ∧
      out = [mkMsg (UserRoutingThread.key_address_connect_address router) (SerializeToString (question key qid))]).
Proof.
  intros (Hok & Hr & Hg & Hp) Hc. unfold put_async, prepare_data_request, get_request_id. do 9 wp_step.
  set (s1 := set_rid _ s). set (req := KeyRequest.mk _ _ _ _).
  assert (request_ok key req) as Hreq by (by do 2 eexists).
  eapply wp_mono; [apply (wp_try_asks now key req s1); [done|done|by simpl; rewrite Hr]|].
  intros req' s' out (-> & Hca & Hpr & Hpg & Hpp & router & id & Hin & ->). wp_step. simpl in *.
  rewrite Hr in Hpr. rewrite Hg in Hpg. rewrite insert_empty in Hpr.
  split_and!; [|done|done|done|done|by eexists router, id].
  destruct Hok as [Ho1 Ho2 Ho3 Ho4]. constructor; [|by rewrite Hpg|by rewrite Hpp|by rewrite Hca].
  intros k t l. rewrite Hpr. intros [<- [= <- <-]]%lookup_singleton_Some. by constructor.
Qed.

(** *** The answer of the routing thread *)
Lemma wp_question_answered key id threads r :
  located rt R key threads → R (rings r) → num_servers (global_hash_rings (rings r)) ≠ 0 →
  wp (address_handler rt (SerializeToString (question key id))) r (λ _ r' out,
    out = [mkMsg (UserThread.key_address_connect_address ut_) (SerializeToString (KeyAddressResponse.mk
             [key_address key (chosen threads)] NO_ERROR id))] ∧ R (rings r')).
Proof.
  intros Hloc Hr Hn. unfold address_handler. rewrite parse_serialize' by done. cbv zeta.
  wp_step. apply wp_zoom, wp_get. rewrite bool_decide_eq_false_2 by done. wp_step.
  apply (wp_collect rt R _ (λ _, threads) [key] []); [|done|].
  { by intros k ->%list_elem_of_singleton. }
  intros r' Hr' _. simpl. wp_step. wp_step. done.
Qed.

(** *** The request goes out *)
Lemma key_request_address_ok (th : ServerThread.t) :
  address_ok (ServerThread.key_request_connect_address th).
Proof.
  unfold address_ok, signature, ServerThread.key_request_connect_address, connect_address, tcp_base.
  generalize (to_string (u32 (ServerThread.tid th + kKeyRequestPort))). intros port. rewrite !append_assoc.
  generalize (ServerThread.public_ip th +:+ ":" +:+ port). intros rest.
  change ("tcp://" +:+ rest) with ("tcp" +:+ String colon (String "/" (String "/" rest))).
  rewrite split_delim by done. cbn [split]. rewrite !bool_decide_eq_false_2 by done.
  by destruct (split rest colon); eexists.
Qed.

Lemma wp_try_keeps_cache now key req s :
  client_ok s → request_ok key req →
  wp (try_request routing_threads_ ut_ now req) s (λ _ s' _, key_address_cache_ s' = key_address_cache_ s).
Proof.
  intros Hok (tp & tps & Htp & Hk). unfold try_request. rewrite Htp. wp_step.
  eapply wp_lift_outcome; [reflexivity|]. wp_step.
  apply (wp_get_worker_thread _ _ some_router); [done|]. intros w s' out (Hc & _) _.
  destruct (bool_decide _).
  - unfold wait_for_address. wp_steps. by destruct (default _ _).
  - do 4 wp_step. wp_step. set (req' := with_cache_size _ req).
    eapply (wp_mono _ _ (λ _ s'' _, key_address_cache_ s'' = key_address_cache_ s)); [|by intros; wp_step].
    unfold wait_for_response. by destruct (KeyRequest.type req'); wp_step.
Qed.

(** The request that waited is the only one outstanding once it was sent. *)
Lemma sent_only tp now key worker req reqs s s1 s' :
  pending_request_map_ s = {[key := (tp, reqs)]} → pending_get_response_map_ s = ∅ →
  (∀ k i, map_get ∅ (pending_put_response_map_ s) k !! i = None) → KeyRequest.type req = PUT →
  maps_same s s1 → maps_same (noted now key worker req s1) s' → client_ok s' →
  only_put (set_pending_request_map (delete key (pending_request_map_ s')) s') key
    (KeyRequest.request_id req) (mkPending now worker req) ∧
  pending_request_map_ s' = pending_request_map_ s1.
Proof.
  intros Hr Hg Hp Hty (Hr1 & Hg1 & Hp1) (Hr' & Hg' & Hp') [Ho1 Ho2 Ho3 Ho4]. unfold noted in *. rewrite Hty in *.
  simpl in *. rewrite Hp1, Hp in Hp'. simpl in Hp'. split; [|done]. split_and!.
  - constructor; try done. simpl. intros k t l [_ Hk]%lookup_delete_Some. by eapply Ho1.
  - simpl. rewrite Hr', Hr1, Hr. apply delete_singleton_eq.
  - simpl. by rewrite Hg', Hg1.
  - intros k i q. simpl. rewrite Hp'. destruct (decide (k = key)) as [-> |Hk].
    + rewrite map_get_insert_eq. destruct (decide (i = KeyRequest.request_id req)) as [-> |Hi].
      * rewrite lookup_insert_eq. naive_solver.
      * rewrite lookup_insert_ne, Hp by done. naive_solver.
    + rewrite map_get_insert_ne, Hp by done. naive_solver.
Qed.

Lemma wp_address_received now key id req ips s :
  client_ok s → request_ok key req → KeyRequest.type req = PUT → ips ≠ [] → Forall address_ok ips →
  cached s key = ∅ →
  pending_request_map_ s = {[key := (now, [req])]} → pending_get_response_map_ s = ∅ →
  (∀ k i, map_get ∅ (pending_put_response_map_ s) k !! i = None) → ∀ now', 0 ≤ timeout_ →
  wp (receive_async routing_threads_ ut_ timeout_ now' (Some (SerializeToString (KeyAddressResponse.mk
        [KeyAddress.mk key ips] NO_ERROR id))) None) s (λ results s' out,
    results = [] ∧ cached s' key = list_to_set ips ∧
    ∃ worker n, worker ∈ ips ∧ out = [mkMsg worker (SerializeToString (with_cache_size n req))] ∧
      only_put s' key (KeyRequest.request_id req) (mkPending now' worker (with_cache_size n req))).
Proof.
  intros Hok Hreq Hty Hips Hall Hc Hr Hg Hp now' Ht. unfold receive_async, on_address.
  rewrite parse_serialize' by done. simpl. wp_step. wp_step. eapply wp_lift_outcome; [reflexivity|]. simpl.
  wp_step. wp_step. rewrite Hr, lookup_singleton_eq. simpl. do 4 wp_step.
  set (s1 := set_cache _ s).
  assert (cached s1 key = list_to_set ips) as Hc1.
  { apply set_eq. intros x. unfold cached, s1. simpl. rewrite elem_of_list_to_set.
    rewrite (foldl_cache_ips routing_threads_ some_router key ips). fold (cached s key). rewrite Hc, elem_of_empty. naive_solver. }
  assert (cached s1 key ≠ ∅) as Hne.
  { rewrite Hc1. destruct ips as [|ip ips']; [done|]. intros He. apply (not_elem_of_empty (C:=gset Address) ip).
    rewrite <-He. apply elem_of_list_to_set. by left. }
  assert (client_ok s1) as Hok1.
  { apply set_cache_ok; [done|]. intros k a [[_ Ha]|Ha]%(foldl_cache_ips routing_threads_ some_router); [by eapply Forall_forall in Hall|].
    by eapply (ok_cache s). }
  unfold retry. wp_step. wp_step. wp_step.
  eapply wp_mono; [apply wp_conj; [apply wp_conj; [by apply (wp_try_sends routing_threads_ ut_ now' key req s1)|
    by apply (wp_try_request _ _ some_router now' key req s1)]|by apply (wp_try_keeps_cache now' key req s1)]|].
  cbv beta. intros req' s' out [[(-> & worker & Hw & -> & Hm) [(Hok' & _) _]] Hca]. wp_step. wp_step.
  set (req' := with_cache_size _ req) in *.
  destruct (sent_only now now' key worker req' [req] s s1 s') as [Honly Hr'];
    [done|done|done|by rewrite <-Hty; apply with_cache_size_type|done..|].
  rewrite bool_decide_eq_true_2 by (by rewrite Hr'). do 3 wp_step.
  set (s2 := set_pending_request_map _ s') in *. unfold req' in Honly. rewrite with_cache_size_id in Honly. fold req' in Honly.
  destruct (only_put_fresh timeout_ now' s2 key _ _ Honly) as [Hf1 Hf2 Hf3].
  { apply not_expired. unfold elapsed. simpl. by rewrite Z.sub_diag. }
  do 3 wp_step. eapply wp_mono; [by apply wp_gc_requests_none|]. intros r1 ? ? (-> & -> & ->). wp_step.
  eapply wp_mono; [by apply wp_gc_gets_none|]. intros r2 ? ? (-> & -> & ->). wp_step.
  eapply wp_mono; [by apply wp_gc_puts_none|]. intros r3 ? ? (-> & -> & ->). wp_step.
  split; [done|]. split; [unfold cached; simpl; by rewrite Hca|].
  eexists worker, _. split; [|split; [done|exact Honly]].
  apply (elem_of_list_to_set (C:=gset Address)). by rewrite <-Hc1.
Qed.

(** C10: a client that does not know where a key is finds it: its PUT makes it ask
    one of its routing threads; a routing thread that can locate the key answers
    with the threads of the key; and on that answer the client remembers their
    addresses and sends the PUT, under the id it returned, to one of them, and
    nothing but this PUT is outstanding. *)
Theorem client_finds_server now now' key payload type threads s r :
  idle s → cached s key = ∅ → 0 ≤ timeout_ →
  located rt R key threads → chosen threads ≠ [] →
  R (rings r) → num_servers (global_hash_rings (rings r)) ≠ 0 →
  wp (put_async routing_threads_ ut_ now key payload type) s (λ id s1 out1,
    ∃ router question, router ∈ routing_threads_ ∧
      out1 = [mkMsg (UserRoutingThread.key_address_connect_address router) question] ∧
    wp (address_handler rt question) r (λ _ r' out2,
      ∃ answer, out2 = [mkMsg (UserThread.key_address_connect_address ut_) answer] ∧ R (rings r') ∧
      wp (receive_async routing_threads_ ut_ timeout_ now' (Some answer) None) s1 (λ results s2 out3,
        results = [] ∧
        cached s2 key = list_to_set (map ServerThread.key_request_connect_address (chosen threads)) ∧
        ∃ th n, let request := made ut_ PUT (put_tuple key payload type) id n in
          th ∈ chosen threads ∧
          out3 = [mkMsg (ServerThread.key_request_connect_address th) (SerializeToString request)] ∧
          only_put s2 key id (mkPending now' (ServerThread.key_request_connect_address th) request)))).
Proof.
  intros Hidle Hc Ht Hloc Hne Hr Hn. pose proof Hidle as (Hok & _ & _ & Hp).
  eapply wp_mono; [by apply wp_put_asks|].
  intros id s1 out1 (Hok1 & Hca & Hpr & Hpg & Hpp & router & qid & Hin & ->).
  exists router. eexists. split_and!; [done|done|].
  eapply wp_mono; [by apply wp_question_answered|]. intros _ r' out2 [-> Hr']. eexists. split_and!; [done|done|].
  eapply wp_mono; [eapply (wp_address_received now key qid _
    (map ServerThread.key_request_connect_address (chosen threads)) s1 Hok1); [| | | | |exact Hpr|..]; try done|].
  - by do 2 eexists.
  - by destruct (chosen threads).
  - apply Forall_forall. intros a (th & -> & _)%list_elem_of_fmap. apply key_request_address_ok.
  - unfold cached. by rewrite Hca.
  - intros k i. by rewrite Hpp.
  - intros results s2 out3 (-> & Hc2 & worker & n & (th & -> & Hth)%list_elem_of_fmap & -> & Honly).
    split_and!; [done|done|]. exists th, n. by split_and!.
Qed.
End discovery.

(** ** Examples *)
Module ExampleDiscovery.
#[local] Existing Instance bit_protobuf.
#[local] Existing Instance ExampleRing.toy_hash.
#[local] Existing Instance ExampleServer.still.
#[local] Existing Instance ExampleServer.util.

(** A new client writes ["k"], which the router of the example places on the
    first node. *)
Lemma client_finds_server_witness :
  wp (put_async ExampleClient.routers ExampleClient.ut 5 "k" "p" LWW) (new 0) (λ id s1 out1,
    ∃ router question, router ∈ ExampleClient.routers ∧
      out1 = [mkMsg (UserRoutingThread.key_address_connect_address router) question] ∧
    wp (address_handler ExampleRouting.rt question) (mkRouting ExampleRouting.ring_state ∅) (λ _ r' out2,
      ∃ answer, out2 = [mkMsg (UserThread.key_address_connect_address ExampleClient.ut) answer] ∧
      ExampleRouting.ring_state = rings r' ∧
      wp (receive_async ExampleClient.routers ExampleClient.ut 10000 6 (Some answer) None) s1 (λ results s2 out3,
        results = [] ∧
        cached s2 "k" = list_to_set (map ServerThread.key_request_connect_address (chosen ExampleRouting.threads)) ∧
        ∃ th n, let request := made ExampleClient.ut PUT (put_tuple "k" "p" LWW) id n in
          th ∈ chosen ExampleRouting.threads ∧
          out3 = [mkMsg (ServerThread.key_request_connect_address th) (SerializeToString request)] ∧
          only_put s2 "k" id (mkPending 6 (ServerThread.key_request_connect_address th) request)))).
Proof.
  apply (@client_finds_server bit_protobuf _ _ (λ _, True) _ (BitCodec.codec_laws _) (λ _, True) _
    (BitCodec.codec_laws _) (λ _, I) (λ _, I) ExampleClient.routers ExampleClient.ut 10000
    ExampleClient.some_router ExampleRouting.rt (eq ExampleRouting.ring_state) 5 6 "k" "p" LWW
    ExampleRouting.threads (new 0) (mkRouting ExampleRouting.ring_state ∅)).
  - split_and!; [exact ExampleClient.new_ok|reflexivity|reflexivity|]. intros key id. reflexivity.
  - reflexivity.
  - lia.
  - split; [discriminate|]. exists false. split; [reflexivity|exact ExampleRouting.locates_k].
  - discriminate.
  - reflexivity.
  - discriminate.
Defined.
End ExampleDiscovery.
