(* ===== verification/Doubles.v ===== *)
(** [double] arithmetic as the monitor uses it: IEEE binary64 with the
    Standard Library's executable specification of it, conversions from and to
    integers, [ceil], and the order. *)

From S2P Require Import Prelude ValueLattices Wire WireCodec.
From Stdlib Require Import Lia SpecFloat.

Abbreviation double := spec_float.

(** The conversion of an integer; it rounds when 53 bits are not enough. *)
Definition of_int : Z → double := PriorityLattice.double_of_int.
(** The literal [n / 10^k]: the nearest [double]. *)
Definition literal (n k : Z) : double := SFdiv 53 1024 (of_int n) (of_int (10 ^ k)).

Declare Scope double_scope.
Delimit Scope double_scope with D.
Notation "x + y" := (SFadd 53 1024 x y) : double_scope.
Notation "x - y" := (SFsub 53 1024 x y) : double_scope.
Notation "x * y" := (SFmul 53 1024 x y) : double_scope.
Notation "x / y" := (SFdiv 53 1024 x y) : double_scope.
Notation "x <? y" := (SFltb x y) : double_scope.
Notation "x <=? y" := (SFleb x y) : double_scope.
Definition sqrt : double → double := SFsqrt 53 1024.

Definition zero : double := S754_zero false.

(** The integer part of a finite value, towards zero; a conversion to an
    integer type is undefined for values whose integer part does not fit. *)
Definition integer_part (x : double) : option Z :=
  match x with
  | S754_zero _ => Some 0
  | S754_finite s m e =>
      let n := match e with
               | Z0 => Z.pos m
               | Z.pos _ => Z.pos m * 2 ^ e
               | Z.neg k => Z.pos m `div` 2 ^ Z.pos k
               end in
      Some (if s then - n else n)
  | _ => None
  end.

Definition to_range (bits : Z) (x : double) : outcome Z :=
  match integer_part x with
  | Some n => if bool_decide (0 ≤ n < 2 ^ bits) then Ok n
              else Fail (UndefinedBehaviour "conversion of a double out of range")
  | None => Fail (UndefinedBehaviour "conversion of a double out of range")
  end.
Definition to_unsigned : double → outcome Z := to_range 32.
Definition to_unsigned_long_long : double → outcome Z := to_range 64.

Definition ceil (x : double) : double :=
  match x with
  | S754_finite s m (Z.neg k) =>
      let n := if s then - (Z.pos m `div` 2 ^ Z.pos k) else - ((- Z.pos m) `div` 2 ^ Z.pos k) in
      if bool_decide (n = 0) then S754_zero s else of_int n
  | _ => x
  end.

Lemma to_range_bounds bits x n : to_range bits x = Ok n → 0 ≤ n < 2 ^ bits.
Proof.
  unfold to_range. destruct (integer_part x); [|done]. case_bool_decide; [|done]. by intros [= <-].
Qed.

(** ** The order

    On values that are numbers, [<] is the strict part of a total preorder;
    a comparison with a NaN is false. *)
Definition is_number (x : double) : Prop := x ≠ S754_nan.

(** The order as a comparison of integers: the sign and class, then the
    exponent, then the mantissa. *)
Definition rank (x : double) : Z * Z * Z :=
  match x with
  | S754_infinity true => (-2, 0, 0)
  | S754_finite true m e => (-1, - e, - Z.pos m)
  | S754_zero _ => (0, 0, 0)
  | S754_finite false m e => (1, e, Z.pos m)
  | S754_infinity false => (2, 0, 0)
  | S754_nan => (3, 0, 0)
  end.

Definition rank_lt (a b : Z * Z * Z) : Prop :=
  a.1.1 < b.1.1 ∨ a.1.1 = b.1.1 ∧ (a.1.2 < b.1.2 ∨ a.1.2 = b.1.2 ∧ a.2 < b.2).

Lemma pos_compare_lt m1 m2 : Pos.compare_cont Eq m1 m2 = Lt ↔ Z.pos m1 < Z.pos m2.
Proof. by change (Pos.compare_cont Eq m1 m2) with (m1 ?= m2)%positive. Qed.

Lemma comp_opp_lt m1 m2 : CompOpp (Pos.compare_cont Eq m1 m2) = Lt ↔ - Z.pos m1 < - Z.pos m2.
Proof.
  change (Pos.compare_cont Eq m1 m2) with (Z.pos m1 ?= Z.pos m2).
  rewrite <-Z.compare_antisym. rewrite Z.compare_lt_iff. lia.
Qed.

Lemma ltb_rank x y : is_number x → is_number y → SFltb x y = true ↔ rank_lt (rank x) (rank y).
Proof.
  unfold is_number, SFltb, rank_lt. intros Hx Hy.
  destruct x as [b1|b1| |b1 m1 e1], y as [b2|b2| |b2 m2 e2]; try done;
    try (destruct b1, b2; simpl; intuition (done || lia));
    try (destruct b1; simpl; intuition (done || lia));
    try (destruct b2; simpl; intuition (done || lia)).
  - destruct b1, b2; simpl; try (intuition (done || lia)).
    + destruct (Z.compare_spec e1 e2) as [->|?|?].
      * pose proof (comp_opp_lt m1 m2) as Hc. simpl in Hc.
        destruct (CompOpp _); intuition (done || lia).
      * intuition (done || lia).
      * intuition (done || lia).
    + destruct (Z.compare_spec e1 e2) as [->|?|?].
      * pose proof (pos_compare_lt m1 m2) as Hc. simpl in Hc.
        destruct (Pos.compare_cont _ _ _); intuition (done || lia).
      * intuition (done || lia).
      * intuition (done || lia).
Qed.

Lemma ltb_false x y : is_number x → is_number y → SFltb x y = false ↔ ¬ rank_lt (rank x) (rank y).
Proof. intros. rewrite <-ltb_rank by done. by destruct (SFltb x y). Qed.

Lemma ltb_nan_l y : SFltb S754_nan y = false.
Proof. done. Qed.
Lemma ltb_nan_r x : SFltb x S754_nan = false.
Proof. by destruct x. Qed.

(** Nothing below [y] is above what [y] is not above. *)
Lemma ltb_false_trans x y z :
  is_number y → SFltb x y = false → SFltb y z = false → SFltb x z = false.
Proof.
  intros Hy. destruct (decide (x = S754_nan)) as [->|]; [done|].
  destruct (decide (z = S754_nan)) as [->|]; [intros; apply ltb_nan_r|].
  rewrite !ltb_false by done. unfold rank_lt. lia.
Qed.

Lemma ltb_asym x y : SFltb x y = true → SFltb y x = false.
Proof.
  destruct (decide (x = S754_nan)) as [->|]; [done|].
  destruct (decide (y = S754_nan)) as [->|]; [done|].
  rewrite ltb_rank, ltb_false by done. unfold rank_lt. lia.
Qed.

Lemma ltb_irrefl x : SFltb x x = false.
Proof.
  destruct (decide (x = S754_nan)) as [->|]; [done|]. apply ltb_false; [done|done|]. unfold rank_lt. lia.
Qed.

(** [<=] is the complement of the reversed [<]. *)
Lemma leb_ltb x y : is_number x → is_number y → SFleb x y = negb (SFltb y x).
Proof.
  unfold is_number, SFleb, SFltb. intros Hx Hy.
  destruct x as [b1|b1| |b1 m1 e1], y as [b2|b2| |b2 m2 e2]; try done;
    try (by destruct b1, b2); try (by destruct b1); try (by destruct b2).
  destruct b1, b2; simpl; try done;
    rewrite (Z.compare_antisym e1 e2); destruct (e1 ?= e2); simpl; try done.
  all: change (Pos.compare_cont Eq m1 m2) with (m1 ?= m2)%positive;
    change (Pos.compare_cont Eq m2 m1) with (m2 ?= m1)%positive;
    rewrite (Pos.compare_antisym m1 m2); by destruct (m1 ?= m2)%positive.
Qed.
