(* ===== verification/MonitorState.v ===== *)
(** The monitoring node (src/monitor): its state, the locals of [main] of
    monitoring.cpp; the constants and [SummaryStats] of
    include/monitor/monitoring_utils.hpp; the handlers of its sockets
    (membership_handler.cpp, depart_done_handler.cpp, feedback_handler.cpp) and
    the requests it makes to the cluster manager (elasticity.cpp). *)

From Stdlib Require Import Lia SpecFloat Ascii.
From S2P Require Import Prelude Text Ordered Threads Wire WireCodec Codec Metadata HashRing RingUtil Handlers.
From S2P Require Import ServerState Replication Requests Doubles.

(** ** Constants *)
Definition kMonitoringThreshold : Z := 30.
Definition kGracePeriod : Z := 120.
Definition kNodeAdditionBatchSize : Z := 2.
Definition kMaxMemoryNodeConsumption : double := literal 6 1.
Definition kMaxEbsNodeConsumption : double := literal 75 2.
Definition kMinEbsNodeConsumption : double := literal 5 1.
Definition kKeyPromotionThreshold : Z := 0.
Definition kKeyDemotionThreshold : Z := 1.
Definition kMinMemoryTierSize : Z := 1.
Definition kMinEbsTierSize : Z := 0.
Definition kSloWorst : Z := 3000.

(** ** State *)
Module SummaryStats.
Record t := mk {
  key_access_mean : double;
  key_access_std : double;
  total_memory_access : Z;
  total_ebs_access : Z;
  total_memory_consumption : Z;
  total_ebs_consumption : Z;
  max_memory_consumption_percentage : double;
  max_ebs_consumption_percentage : double;
  avg_memory_consumption_percentage : double;
  avg_ebs_consumption_percentage : double;
  required_memory_node : Z;
  required_ebs_node : Z;
  max_memory_occupancy : double;
  min_memory_occupancy : double;
  avg_memory_occupancy : double;
  max_ebs_occupancy : double;
  min_ebs_occupancy : double;
  avg_ebs_occupancy : double;
  min_occupancy_memory_public_ip : Address;
  min_occupancy_memory_private_ip : Address;
  avg_latency : double;
  total_throughput : double;
}.
(** What [clear] leaves. *)
Definition cleared : t :=
  mk zero zero 0 0 0 0 zero zero zero zero 0 0 zero (of_int 1) zero zero (of_int 1) zero "" "" zero zero.
End SummaryStats.

(** [StorageStats], [OccupancyStats] and [AccessStats] of one tier: by server,
    then by thread. *)
Record TierStats := mkTierStats {
  storage : gmap Address (gmap Z Z);
  occupancy : gmap Address (gmap Z (double * Z));
  accesses : gmap Address (gmap Z Z);
}.

Record Stats := mkStats {
  key_access_frequency : gmap Key (gmap Address Z);
  key_access_summary : gmap Key Z;
  key_size : gmap Key Z;
  memory_stats : TierStats;
  ebs_stats : TierStats;
}.
Definition set_key_access_frequency x st :=
  mkStats x (key_access_summary st) (key_size st) (memory_stats st) (ebs_stats st).
Definition set_key_access_summary x st :=
  mkStats (key_access_frequency st) x (key_size st) (memory_stats st) (ebs_stats st).
Definition set_key_size x st :=
  mkStats (key_access_frequency st) (key_access_summary st) x (memory_stats st) (ebs_stats st).
(** The statistics of a tier: everything that is not memory counts as disk. *)
Definition tier_stats (tier : Tier) st : TierStats :=
  match tier with MEMORY => memory_stats st | _ => ebs_stats st end.
Definition set_tier_stats (tier : Tier) x st :=
  match tier with
  | MEMORY => mkStats (key_access_frequency st) (key_access_summary st) (key_size st) x (ebs_stats st)
  | _ => mkStats (key_access_frequency st) (key_access_summary st) (key_size st) (memory_stats st) x
  end.

Record Feedback := mkFeedback {
  user_latency : gmap string double;
  user_throughput : gmap string double;
  latency_miss_ratio_map : gmap Key (double * Z);
}.

Record Elasticity := mkElasticity {
  new_memory_count : Z;
  new_ebs_count : Z;
  removing_memory_node : bool;
  removing_ebs_node : bool;
  departing_node_map : gmap Address Z;
  grace_start : Z;
}.
Definition set_new_count (tier : Tier) x e := match tier with
  | MEMORY => mkElasticity x (new_ebs_count e) (removing_memory_node e) (removing_ebs_node e)
                (departing_node_map e) (grace_start e)
  | _ => mkElasticity (new_memory_count e) x (removing_memory_node e) (removing_ebs_node e)
                (departing_node_map e) (grace_start e)
  end.
Definition new_count (tier : Tier) e : Z :=
  match tier with MEMORY => new_memory_count e | _ => new_ebs_count e end.
Definition set_removing (tier : Tier) x e := match tier with
  | MEMORY => mkElasticity (new_memory_count e) (new_ebs_count e) x (removing_ebs_node e)
                (departing_node_map e) (grace_start e)
  | _ => mkElasticity (new_memory_count e) (new_ebs_count e) (removing_memory_node e) x
                (departing_node_map e) (grace_start e)
  end.
Definition set_departing_node_map x e := mkElasticity (new_memory_count e) (new_ebs_count e)
  (removing_memory_node e) (removing_ebs_node e) x (grace_start e).
Definition set_grace_start x e := mkElasticity (new_memory_count e) (new_ebs_count e)
  (removing_memory_node e) (removing_ebs_node e) (departing_node_map e) x.

(** [response_puller] is what the socket will give; [readings] counts how
    often the clock was read. *)
Record MonitorState := mkMonitor {
  rings : RingState;
  routing_ips : list Address;
  stats : Stats;
  ss : SummaryStats.t;
  feedback : Feedback;
  elasticity : Elasticity;
  memory_node_count : Z;
  ebs_node_count : Z;
  rid : Z;
  server_monitoring_epoch : Z;
  report_start : Z;
  response_puller : list (option string);
  readings : nat;
}.
Definition set_rings x s := mkMonitor x (routing_ips s) (stats s) (ss s) (feedback s) (elasticity s)
  (memory_node_count s) (ebs_node_count s) (rid s) (server_monitoring_epoch s) (report_start s)
  (response_puller s) (readings s).
Definition set_routing_ips x s := mkMonitor (rings s) x (stats s) (ss s) (feedback s) (elasticity s)
  (memory_node_count s) (ebs_node_count s) (rid s) (server_monitoring_epoch s) (report_start s)
  (response_puller s) (readings s).
Definition set_stats x s := mkMonitor (rings s) (routing_ips s) x (ss s) (feedback s) (elasticity s)
  (memory_node_count s) (ebs_node_count s) (rid s) (server_monitoring_epoch s) (report_start s)
  (response_puller s) (readings s).
Definition set_ss x s := mkMonitor (rings s) (routing_ips s) (stats s) x (feedback s) (elasticity s)
  (memory_node_count s) (ebs_node_count s) (rid s) (server_monitoring_epoch s) (report_start s)
  (response_puller s) (readings s).
Definition set_feedback x s := mkMonitor (rings s) (routing_ips s) (stats s) (ss s) x (elasticity s)
  (memory_node_count s) (ebs_node_count s) (rid s) (server_monitoring_epoch s) (report_start s)
  (response_puller s) (readings s).
Definition set_elasticity x s := mkMonitor (rings s) (routing_ips s) (stats s) (ss s) (feedback s) x
  (memory_node_count s) (ebs_node_count s) (rid s) (server_monitoring_epoch s) (report_start s)
  (response_puller s) (readings s).
Definition set_node_counts m e s := mkMonitor (rings s) (routing_ips s) (stats s) (ss s) (feedback s)
  (elasticity s) m e (rid s) (server_monitoring_epoch s) (report_start s) (response_puller s) (readings s).
Definition set_rid x s := mkMonitor (rings s) (routing_ips s) (stats s) (ss s) (feedback s) (elasticity s)
  (memory_node_count s) (ebs_node_count s) x (server_monitoring_epoch s) (report_start s)
  (response_puller s) (readings s).
Definition set_epoch x s := mkMonitor (rings s) (routing_ips s) (stats s) (ss s) (feedback s) (elasticity s)
  (memory_node_count s) (ebs_node_count s) (rid s) x (report_start s) (response_puller s) (readings s).
Definition set_report_start x s := mkMonitor (rings s) (routing_ips s) (stats s) (ss s) (feedback s)
  (elasticity s) (memory_node_count s) (ebs_node_count s) (rid s) (server_monitoring_epoch s) x
  (response_puller s) (readings s).
Definition set_response_puller x s := mkMonitor (rings s) (routing_ips s) (stats s) (ss s) (feedback s)
  (elasticity s) (memory_node_count s) (ebs_node_count s) (rid s) (server_monitoring_epoch s)
  (report_start s) x (readings s).
Definition set_readings x s := mkMonitor (rings s) (routing_ips s) (stats s) (ss s) (feedback s)
  (elasticity s) (memory_node_count s) (ebs_node_count s) (rid s) (server_monitoring_epoch s)
  (report_start s) (response_puller s) x.

Notation Mon := (M MonitorState).

Definition on_rings {A} (m : M RingState A) : Mon A := zoom rings set_rings m.
Definition update_stats (f : Stats → Stats) : Mon unit := modify (λ s, set_stats (f (stats s)) s).
Definition update_elasticity (f : Elasticity → Elasticity) : Mon unit :=
  modify (λ s, set_elasticity (f (elasticity s)) s).

(** [std::chrono::system_clock]: what its successive readings are, in
    nanoseconds. *)
Class Clock := clock : nat → Z.

Definition system_clock_now `{Clock} : Mon Z :=
  s ← get;
  modify (set_readings (S (readings s))) ;;
  mret (clock (readings s)).

(** [duration_cast<seconds>(end - start).count()] *)
Definition seconds_between (start stop : Z) : Z := Z.quot (stop - start) 1000000000.

(** The time since [grace_start], in seconds. *)
Definition time_elapsed `{Clock} : Mon Z :=
  now ← system_clock_now;
  s ← get;
  mret (seconds_between (grace_start (elasticity s)) now).

(** [main]'s configuration, besides what the servers have as well. *)
Record MonitorConfig := mkMonitorConfig {
  base : Config;
  kEnableElasticity : bool;
  kEnableTiering : bool;
  kEnableSelectiveRep : bool;
  management_ip : Address;
  mt : MonitoringThread.t;
}.

Definition tier_metadata (c : MonitorConfig) (tier : Tier) : TierMetadata.t :=
  map_get TierMetadata.empty (kTierMetadata (base c)) tier.
Definition node_capacity (c : MonitorConfig) (tier : Tier) : Z :=
  TierMetadata.node_capacity_ (tier_metadata c tier).

Section handlers.
Context `{Protobuf} `{StdHash} `{Clock} (c : MonitorConfig).

(** ** elasticity.cpp *)
Definition manager_address : Address := "tcp://" +:+ management_ip c +:+ ":7001".

(** [adding] is the counter of the tier. *)
Definition add_node (tier_name : string) (number : Z) (tier : Tier) : Mon unit :=
  send_string ("add:" +:+ to_string number +:+ ":" +:+ tier_name) manager_address ;;
  update_elasticity (set_new_count tier number).

(** [removing] is the flag of the tier; the number of threads that will
    report is always that of a memory node. *)
Definition remove_node (node : ServerThread.t) (tier : Tier) : Mon unit :=
  update_elasticity (λ e, set_departing_node_map
    (<[ServerThread.private_ip node := TierMetadata.thread_number_ (tier_metadata c MEMORY)]>
       (departing_node_map e)) e) ;;
  send_string (MonitoringThread.depart_done_connect_address (mt c))
    (ServerThread.self_depart_connect_address node) ;;
  update_elasticity (set_removing tier true).

(** ** membership_handler *)
Definition reset_grace : Mon unit :=
  now ← system_clock_now;
  update_elasticity (set_grace_start now).

Definition server_joined (tier : Tier) (public_ip private_ip : Address) : Mon unit :=
  on_rings (modify (λ r, set_global_hash_rings
    (<[tier := (HashRing.insert GlobalHasher public_ip private_ip 0 0
                  (map_get HashRing.empty (global_hash_rings r) tier)).2]> (global_hash_rings r)) r)) ;;
  update_elasticity (λ e,
    if bool_decide (new_count tier e > 0) then set_new_count tier (new_count tier e - 1) e else e) ;;
  reset_grace.

(** [m.erase(private_ip + ":" + to_string(i))] for every thread [i] *)
Definition erase_accesses (private_ip : Address) (threads : Z) (m : gmap Address Z) : gmap Address Z :=
  foldl (λ m i, delete (private_ip +:+ ":" +:+ to_string i) m) m (seqZ 0 threads).

Definition forget_server (tier : Tier) (private_ip : Address) (threads : Z) (st : Stats) : Stats :=
  let t := tier_stats tier st in
  set_key_access_frequency (erase_accesses private_ip threads <$> key_access_frequency st)
    (set_tier_stats tier
       (mkTierStats (delete private_ip (storage t)) (delete private_ip (occupancy t)) (accesses t)) st).

Definition server_departed (tier : Tier) (public_ip private_ip : Address) : Mon unit :=
  on_rings (modify (λ r, set_global_hash_rings
    (<[tier := HashRing.remove GlobalHasher public_ip private_ip 0
         (map_get HashRing.empty (global_hash_rings r) tier)]> (global_hash_rings r)) r)) ;;
  match tier with
  | MEMORY => update_stats (forget_server MEMORY private_ip (kMemoryThreadCount (base c)))
  | DISK => update_stats (forget_server DISK private_ip (kEbsThreadCount (base c)))
  | _ => mret tt
  end.

Definition membership_handler (serialized : string) : Mon unit :=
  let v := split serialized colon in
  type ← lift_outcome (vector_at v 0);
  v1 ← lift_outcome (vector_at v 1);
  public_ip ← lift_outcome (vector_at v 2);
  private_ip ← lift_outcome (vector_at v 3);
  if bool_decide (type = "join") then
    tier ← lift_outcome (tier_of v1);
    match tier with
    | MEMORY | DISK => server_joined tier public_ip private_ip
    | ROUTING => modify (λ s, set_routing_ips (routing_ips s ++ [public_ip]) s)
    | _ => mret tt
    end
  else if bool_decide (type = "depart") then
    tier ← lift_outcome (tier_of v1);
    server_departed tier public_ip private_ip
  else mret tt.

(** ** depart_done_handler *)

(** [tier_id] 1 is the memory tier, any other the disk tier. *)
Definition departed_tier (tier_id : Z) : Tier := if bool_decide (tier_id = 1) then MEMORY else DISK.
Definition tier_word (tier : Tier) : string := match tier with MEMORY => "memory" | _ => "ebs" end.

Definition depart_done_handler (serialized : string) : Mon unit :=
  let tokens := split serialized "_" in
  lift_outcome (vector_at tokens 0) ;;
  private_ip ← lift_outcome (vector_at tokens 1);
  token2 ← lift_outcome (vector_at tokens 2);
  tier_id ← lift_outcome (stoi token2);
  s ← get;
  match departing_node_map (elasticity s) !! private_ip with
  | None => mret tt
  | Some n =>
      let left := u32 (n - 1) in
      update_elasticity (λ e, set_departing_node_map
        (<[private_ip := left]> (departing_node_map e)) e) ;;
      if bool_decide (left = 0) then
        let tier := departed_tier (u32 tier_id) in
        update_elasticity (set_removing tier false) ;;
        send_string ("remove:" +:+ private_ip +:+ ":" +:+ tier_word tier) manager_address ;;
        reset_grace ;;
        update_elasticity (λ e, set_departing_node_map (delete private_ip (departing_node_map e)) e)
      else mret tt
  end.

(** ** feedback_handler *)

(** The running average of [latency / kSloWorst] over the reports of a key. *)
Definition add_latency (m : gmap Key (double * Z)) (p : Key * double) : gmap Key (double * Z) :=
  let '(key, observed_key_latency) := p in
  let ratio := (observed_key_latency / of_int kSloWorst)%D in
  match m !! key with
  | None => <[key := (ratio, 1)]> m
  | Some (avg, n) =>
      <[key := (((avg * of_int n + ratio) / of_int (u32 (n + 1)))%D, u32 (n + 1))]> m
  end.

Definition add_feedback (fb : UserFeedback.t) (f : Feedback) : Feedback :=
  if UserFeedback.finish fb
  then mkFeedback (delete (UserFeedback.uid fb) (user_latency f)) (user_throughput f)
         (latency_miss_ratio_map f)
  else mkFeedback (<[UserFeedback.uid fb := UserFeedback.latency fb]> (user_latency f))
         (<[UserFeedback.uid fb := UserFeedback.throughput fb]> (user_throughput f))
         (foldl add_latency (latency_miss_ratio_map f) (UserFeedback.key_latency fb)).

Definition feedback_handler (serialized : string) : Mon unit :=
  modify (λ s, set_feedback (add_feedback (parse serialized) (feedback s)) s).

(** ** Synchronous requests

    The socket has a receive timeout, so a receive after all that arrives
    gives nothing. *)
Definition make_request (request : KeyRequest.t) (address : Address) : Mon (KeyResponse.t * bool) :=
  send_string (SerializeToString request) address ;;
  s ← get;
  match Requests.make_request KeyResponse.response_id KeyResponse.empty
          (KeyRequest.request_id request) (response_puller s ++ [None]) with
  | None => fail Diverges
  | Some (res, succeed, rest) =>
      modify (set_response_puller rest) ;;
      res ← lift_outcome res;
      mret (res, succeed)
  end.
End handlers.

(** Stepping through a handler of the monitor, its small updates included. *)
Ltac mon_step :=
  lazymatch goal with
  | |- wp (update_elasticity _) _ _ => unfold update_elasticity
  | |- wp (update_stats _) _ _ => unfold update_stats
  | |- wp reset_grace _ _ => unfold reset_grace
  | |- wp system_clock_now _ _ => unfold system_clock_now
  | |- wp time_elapsed _ _ => unfold time_elapsed
  | |- wp (on_rings _) _ _ => apply wp_zoom
  | _ => wp_step
  end.
Ltac mon_steps := repeat mon_step.

(** ** Departures *)
Section departures.
Context `{Protobuf} `{StdHash} `{Clock} (c : MonitorConfig).
Implicit Types (s : MonitorState) (pub priv : Address).

Definition no_underscore (a : Address) : Prop := has_char "_" a = false.

(** What a departing thread reports, [tier] being how it names its tier. *)
Definition depart_notice pub priv (tier : string) : string := pub +:+ "_" +:+ priv +:+ "_" +:+ tier.

Lemma split_notice pub priv tier :
  no_underscore pub → no_underscore priv → no_underscore tier → tier ≠ "" →
  split (depart_notice pub priv tier) "_" = [pub; priv; tier].
Proof.
  intros Hpub Hpriv Ht Hne. change (depart_notice pub priv tier) with (join "_" [pub; priv; tier]).
  apply split_join; [done|by repeat constructor|]. by intros [= ?].
Qed.

(** The flag and the counter of a departing node while threads report. *)
Definition departing s (tier : Tier) priv (n : Z) : Prop :=
  departing_node_map (elasticity s) !! priv = Some n ∧
  match tier with MEMORY => removing_memory_node (elasticity s) | _ => removing_ebs_node (elasticity s) end = true.

Lemma wp_notice pub priv tier_id n s :
  no_underscore pub → no_underscore priv → 0 ≤ tier_id ≤ INT_MAX → 1 ≤ n < 2 ^ 32 →
  departing s (departed_tier tier_id) priv n →
  wp (depart_done_handler c (depart_notice pub priv (to_string tier_id))) s (λ _ s' out,
    if bool_decide (n = 1) then
      departing_node_map (elasticity s') !! priv = None ∧
      match departed_tier tier_id with
      | MEMORY => removing_memory_node (elasticity s') | _ => removing_ebs_node (elasticity s')
      end = false ∧
      out = [mkMsg (manager_address c) ("remove:" +:+ priv +:+ ":" +:+ tier_word (departed_tier tier_id))]
    else departing s' (departed_tier tier_id) priv (n - 1) ∧ out = []).
Proof.
  intros Hpub Hpriv Hid Hn [Hd Hf]. unfold depart_done_handler. cbv zeta.
  rewrite split_notice; [|done|done|by apply to_string_has_char; [|lia]|apply to_string_nonempty].
  do 3 (wp_step; eapply wp_lift_outcome; [done|]; cbv beta).
  wp_step. eapply wp_lift_outcome; [by apply stoi_to_string|]. wp_steps. rewrite Hd. simpl app.
  rewrite (u32_id tier_id), (u32_id (n - 1)) by (unfold is_u32, INT_MAX in *; lia).
  mon_steps.
  destruct (decide (n = 1)) as [->|Hne].
  - rewrite (bool_decide_eq_true_2 (1 = 1)) by done. rewrite bool_decide_eq_true_2 by lia.
    mon_steps. destruct (departed_tier tier_id); simpl; by rewrite lookup_delete_eq.
  - rewrite (bool_decide_eq_false_2 (n = 1)) by done. rewrite bool_decide_eq_false_2 by lia.
    mon_steps. split; [|done]. split; simpl; [apply lookup_insert_eq|done].
Qed.

Lemma wp_notices pub priv tier_id k n s :
  no_underscore pub → no_underscore priv → 0 ≤ tier_id ≤ INT_MAX →
  1 ≤ n < 2 ^ 32 → Z.of_nat k ≤ n →
  departing s (departed_tier tier_id) priv n →
  wp (for_each (replicate k (depart_notice pub priv (to_string tier_id))) (depart_done_handler c)) s
    (λ _ s' out,
      if bool_decide (Z.of_nat k = n) then
        departing_node_map (elasticity s') !! priv = None ∧
        match departed_tier tier_id with
        | MEMORY => removing_memory_node (elasticity s') | _ => removing_ebs_node (elasticity s')
        end = false ∧
        out = [mkMsg (manager_address c) ("remove:" +:+ priv +:+ ":" +:+ tier_word (departed_tier tier_id))]
      else departing s' (departed_tier tier_id) priv (n - Z.of_nat k) ∧ out = []).
Proof.
  intros Hpub Hpriv Hid. revert n s. induction k as [|k IH]; intros n s Hn Hk Hd; simpl for_each.
  { wp_step. rewrite bool_decide_eq_false_2 by lia. by rewrite Z.sub_0_r. }
  wp_step. eapply wp_mono; [by apply (wp_notice pub priv tier_id n)|]. cbv beta. intros [] s1 out1 Hone.
  destruct (decide (n = 1)) as [->|Hne].
  - rewrite bool_decide_eq_true_2 in Hone by done. assert (k = 0%nat) as -> by lia. simpl for_each. wp_step.
    rewrite bool_decide_eq_true_2 by lia. by rewrite app_nil_r.
  - rewrite bool_decide_eq_false_2 in Hone by done. destruct Hone as [Hd1 ->].
    eapply wp_mono; [apply (IH (n - 1)); [lia|lia|done]|]. cbv beta. intros [] s2 out2 Hrest.
    rewrite (bool_decide_ext (Z.of_nat (S k) = n) (Z.of_nat k = n - 1)) by lia.
    replace (n - Z.of_nat (S k)) with (n - 1 - Z.of_nat k) by lia. done.
Qed.

End departures.

(** ** The notices of the servers *)
Section notices.
Context {Store : Type} `{SerializerMap Store} `{Protobuf} `{StdHash} `{Random} `{HashRingUtilInterface}.
Context `{Clock} (c : MonitorConfig) (sc : Config) (wt : ServerThread.t).

(** The last thing a departing thread does is to report to the monitor. *)
Lemma self_depart_last routing_ips monitoring_ips ack (s : ServerState Store) s' out :
  self_depart_handler sc wt routing_ips monitoring_ips ack s = Ok (tt, s', out) →
  last out = Some (mkMsg ack (depart_notice (ServerThread.public_ip wt) (ServerThread.private_ip wt)
                                (Tier_Name (kSelfTier sc)))).
Proof.
  unfold self_depart_handler. intros (? & ? & ? & ? & _ & Heq & ->)%bind_ok.
  apply bind_ok in Heq as (? & ? & ? & ? & _ & Heq & ->).
  apply bind_ok in Heq as (? & ? & ? & ? & _ & Heq & ->).
  apply bind_ok in Heq as (? & ? & ? & ? & _ & Heq & ->).
  apply bind_ok in Heq as (? & ? & ? & ? & _ & Heq & ->). injection Heq as <- <-.
  rewrite !app_assoc. apply last_snoc.
Qed.

(** The report of a departing server makes the monitor throw: the server
    names its tier by its name, the monitor expects a number. *)
Theorem departure_notice_throws routing_ips monitoring_ips ack (s : ServerState Store) s' out :
  self_depart_handler sc wt routing_ips monitoring_ips ack s = Ok (tt, s', out) →
  no_underscore (ServerThread.public_ip wt) → no_underscore (ServerThread.private_ip wt) →
  kSelfTier sc ≠ TIER_UNSPECIFIED →
  ∃ notice, last out = Some (mkMsg ack notice) ∧
    ∀ mon, depart_done_handler c notice mon = Fail (Throws "invalid_argument").
Proof.
  intros Hd%self_depart_last Hpub Hpriv Htier. eexists. split; [exact Hd|]. intros mon.
  unfold depart_done_handler.
  rewrite split_notice; [|done|done|by destruct (kSelfTier sc)|by destruct (kSelfTier sc)].
  by destruct (kSelfTier sc).
Qed.
End notices.

(** ** Membership *)
Section membership.
Context `{Protobuf} `{StdHash} `{Clock} (c : MonitorConfig).
Implicit Types (s : MonitorState) (pub priv : Address).

Lemma longer_than_priv pub priv : priv ≠ pub +:+ "/" +:+ priv.
Proof. intros Heq. apply (f_equal String.length) in Heq. rewrite !length_append in Heq. simpl in Heq. lia. Qed.

(** The monitor follows the announcements of the cluster.  A server's
    announcement puts it on the ring of its tier, takes one off the nodes that
    are being added (never below zero) and starts the grace period anew; a
    router's adds its address; a departure takes the server off the ring, but
    its statistics stay, since they are kept under both its addresses and
    erased under one. *)
Theorem membership_tracked tier pub priv jc s :
  tier = MEMORY ∨ tier = DISK → plain_ip pub → plain_ip priv → 0 ≤ jc →
  wp (membership_handler c ("join:" +:+ join_message tier pub priv jc)) s (λ _ s' out,
    global_hash_rings (rings s') =
      <[tier := (HashRing.insert GlobalHasher pub priv 0 0
                   (map_get HashRing.empty (global_hash_rings (rings s)) tier)).2]>
        (global_hash_rings (rings s)) ∧
    new_count tier (elasticity s') =
      (if bool_decide (new_count tier (elasticity s) > 0) then new_count tier (elasticity s) - 1
       else new_count tier (elasticity s)) ∧
    grace_start (elasticity s') = clock (readings s) ∧ out = []) ∧
  wp (membership_handler c ("join:" +:+ Tier_Name ROUTING +:+ ":" +:+ pub +:+ ":NULL")) s (λ _ s' out,
    s' = set_routing_ips (routing_ips s ++ [pub]) s ∧ out = []) ∧
  wp (membership_handler c ("depart:" +:+ depart_message tier pub priv)) s (λ _ s' out,
    global_hash_rings (rings s') =
      <[tier := HashRing.remove GlobalHasher pub priv 0
                  (map_get HashRing.empty (global_hash_rings (rings s)) tier)]>
        (global_hash_rings (rings s)) ∧
    storage (tier_stats tier (stats s')) !! (pub +:+ "/" +:+ priv) =
      storage (tier_stats tier (stats s)) !! (pub +:+ "/" +:+ priv) ∧
    occupancy (tier_stats tier (stats s')) !! (pub +:+ "/" +:+ priv) =
      occupancy (tier_stats tier (stats s)) !! (pub +:+ "/" +:+ priv) ∧ out = []).
Proof.
  intros Htier Hpub Hpriv Hjc. unfold membership_handler. cbv zeta. split_and!.
  - change ("join:" +:+ join_message tier pub priv jc)
      with (join colon (["join"] ++ [Tier_Name tier; pub; priv; to_string jc])).
    rewrite split_join_message; [|by repeat constructor|done|done|lia].
    do 4 (wp_step; eapply wp_lift_outcome; [done|]; cbv beta). simpl.
    wp_step. eapply wp_lift_outcome; [unfold tier_of; by rewrite Tier_Parse_Name|]. simpl.
    destruct Htier as [-> | ->]; unfold server_joined; mon_steps; simpl; split_and!; try done;
      by case_bool_decide.
  - change ("join:" +:+ Tier_Name ROUTING +:+ ":" +:+ pub +:+ ":NULL")
      with (join colon (["join"] ++ [Tier_Name ROUTING; pub; "NULL"])).
    rewrite split_depart_message; [|by repeat constructor|done|done].
    do 4 (wp_step; eapply wp_lift_outcome; [done|]; cbv beta). simpl.
    wp_step. eapply wp_lift_outcome; [done|]. simpl. by wp_steps.
  - change ("depart:" +:+ depart_message tier pub priv)
      with (join colon (["depart"] ++ [Tier_Name tier; pub; priv])).
    rewrite split_depart_message; [|by repeat constructor|done|done].
    do 4 (wp_step; eapply wp_lift_outcome; [done|]; cbv beta). simpl.
    wp_step. eapply wp_lift_outcome; [unfold tier_of; by rewrite Tier_Parse_Name|]. simpl.
    destruct Htier as [-> | ->]; unfold server_departed; mon_steps; simpl; split_and!; try done;
      apply lookup_delete_ne, longer_than_priv.
Qed.
End membership.

(** ** A monitor that has just started *)
Module ExampleMonitor.
#[local] Existing Instance bit_protobuf.
#[local] Existing Instance ExampleRing.toy_hash.
#[local] Existing Instance memory_serializers.
#[local] Existing Instance ExampleServer.still.
#[local] Instance seconds : Clock := λ n, Z.of_nat n * 1000000000.
#[local] Instance util : HashRingUtilInterface := HashRingUtil ExampleServer.config.

Definition config : MonitorConfig :=
  mkMonitorConfig ExampleServer.config true true true "mgmt" (MonitoringThread.new "mon").
Definition no_stats : Stats := mkStats ∅ ∅ ∅ (mkTierStats ∅ ∅ ∅) (mkTierStats ∅ ∅ ∅).
Definition idle : Elasticity := mkElasticity 1 0 false false ∅ 0.
Definition monitor_with (r : RingState) : MonitorState :=
  mkMonitor r [] no_stats SummaryStats.cleared (mkFeedback ∅ ∅ ∅) idle 0 0 0 0 0 [] 0.
Definition monitor : MonitorState := monitor_with (mkRingState ∅ ∅ ∅ 0 0).


Lemma departure_notice_throws_witness :
  ∃ s' out notice,
    self_depart_handler ExampleServer.config ExampleServer.wt [] ["mon"] "tcp://mon:6700"
      ExampleServer.fresh_server = Ok (tt, s', out) ∧
    last out = Some (mkMsg "tcp://mon:6700" notice) ∧
    depart_done_handler config notice monitor = Fail (Throws "invalid_argument").
Proof.
  destruct (self_depart_handler ExampleServer.config ExampleServer.wt [] ["mon"] "tcp://mon:6700"
      ExampleServer.fresh_server) as [[[[] s'] out]|] eqn:Hrun; [|vm_compute in Hrun; discriminate].
  destruct (departure_notice_throws config ExampleServer.config ExampleServer.wt [] ["mon"] "tcp://mon:6700"
    ExampleServer.fresh_server s' out) as (notice & Hlast & Hthrows).
  - exact Hrun.
  - reflexivity.
  - reflexivity.
  - discriminate.
  - exists s', out, notice. split; [reflexivity|]. split; [exact Hlast|apply Hthrows].
Defined.

Lemma membership_tracked_witness :
  wp (membership_handler config "join:ROUTING:10.0.0.7:NULL") monitor
    (λ _ s' out, routing_ips s' = ["10.0.0.7"]) ∧
  wp (membership_handler config ("join:" +:+ join_message MEMORY "10.0.0.7" "10.1.0.7" 0)) monitor
    (λ _ s' out, new_memory_count (elasticity s') = 0).
Proof.
  destruct (membership_tracked config MEMORY "10.0.0.7" "10.1.0.7" 0 monitor) as (Hjoin & Hrouter & _).
  - left. reflexivity.
  - split; [reflexivity|discriminate].
  - split; [reflexivity|discriminate].
  - lia.
  - split.
    + eapply wp_mono; [exact Hrouter|]. intros [] s' out [-> _]. reflexivity.
    + eapply wp_mono; [exact Hjoin|]. intros [] s' out (_ & Hcount & _). exact Hcount.
Defined.
End ExampleMonitor.
