(* ===== verification/MonitorStats.v ===== *)
(** The statistics of the monitoring node (src/monitor/stats_helpers.cpp): what
    the servers report is collected from the store, summed up, and joined with
    what the users report. *)

From Stdlib Require Import Lia SpecFloat Ascii.
From S2P Require Import Prelude Text Ordered Threads Wire WireCodec Codec Metadata HashRing RingUtil Handlers.
From S2P Require Import Requests Doubles MonitorState.

(** ** collect_internal_stats *)

(** [m[a][k] = v;] on a map of maps *)
Definition put_at {K V} `{Countable K} (a : string) (k : K) (v : V) (m : gmap string (gmap K V))
    : gmap string (gmap K V) := <[a := <[k := v]> (map_get ∅ m a)]> m.

Section collect.
Context `{Protobuf} `{StdHash} `{Random} `{Clock} (c : MonitorConfig).

Definition request_stat (addr_request_map : gmap Address KeyRequest.t) (key : Key)
    : Mon (gmap Address KeyRequest.t) :=
  s ← get;
  '(addr_request_map, rid') ← on_rings (
    g ← global_ring_at MEMORY;
    l ← local_ring_at MEMORY;
    prepare_metadata_get_request (base c) key g l addr_request_map
      (MonitoringThread.response_connect_address (mt c)) (rid s));
  modify (set_rid rid') ;;
  mret addr_request_map.

(** Three keys of every thread of every server. *)
Definition stat_keys (st : ServerThread.t) (tier : Tier) (i : Z) : list Key :=
  map (get_metadata_key_thread st tier i) [server_stats; key_access; Metadata.key_size].

Definition stat_requests : Mon (gmap Address KeyRequest.t) :=
  for_acc kAllTiers ∅ (λ m tier,
    hash_ring ← on_rings (global_ring_at tier);
    for_acc (map_to_list (HashRing.get_unique_servers hash_ring)).*2 m (λ m st,
      for_acc (seqZ 0 (TierMetadata.thread_number_ (tier_metadata c tier))) m (λ m i,
        for_acc (stat_keys st tier i) m request_stat))).

Definition record_stat (tier : Tier) (ip_pair : Address) (tid : Z) (stat : ServerThreadStatistics.t)
    (st : Stats) : Stats :=
  let t := tier_stats tier st in
  set_tier_stats tier
    (mkTierStats
       (put_at ip_pair tid (ServerThreadStatistics.storage_consumption stat) (storage t))
       (put_at ip_pair tid (ServerThreadStatistics.occupancy stat, ServerThreadStatistics.epoch stat)
          (occupancy t))
       (put_at ip_pair tid (ServerThreadStatistics.access_count stat) (accesses t))) st.

Definition record_accesses (ip_pair : Address) (tid : Z) (access : KeyAccessData.t) (st : Stats) : Stats :=
  set_key_access_frequency
    (foldl (λ m '(key, count), put_at key (ip_pair +:+ ":" +:+ to_string tid) count m)
       (key_access_frequency st) (KeyAccessData.keys access)) st.

Definition record_sizes (sizes : KeySizeData.t) (st : Stats) : Stats :=
  set_key_size (foldl (λ m '(key, n), <[key := n]> m) (key_size st) (KeySizeData.key_sizes sizes)) st.

Definition record_tuple (tuple : KeyTuple.t) : Mon unit :=
  match KeyTuple.error tuple with
  | NO_ERROR =>
      let tokens := split_metadata_key (KeyTuple.key tuple) in
      metadata_type ← lift_outcome (vector_at tokens 1);
      public_ip ← lift_outcome (vector_at tokens 2);
      private_ip ← lift_outcome (vector_at tokens 3);
      token4 ← lift_outcome (vector_at tokens 4);
      tid ← lift_outcome (stoi token4);
      token5 ← lift_outcome (vector_at tokens 5);
      let ip_pair := public_ip +:+ "/" +:+ private_ip in
      let value := LWWValue.value (parse (KeyTuple.payload tuple)) in
      if bool_decide (metadata_type = "stats") then
        tier ← lift_outcome (tier_of token5);
        update_stats (record_stat tier ip_pair (u32 tid) (parse value))
      else if bool_decide (metadata_type = "access") then
        update_stats (record_accesses ip_pair (u32 tid) (parse value))
      else if bool_decide (metadata_type = "size") then update_stats (record_sizes (parse value))
      else mret tt
  | _ => mret tt
  end.

Definition collect_internal_stats : Mon unit :=
  addr_request_map ← stat_requests;
  for_each (map_to_list addr_request_map) (λ '(address, request),
    '(res, succeed) ← make_request request address;
    if succeed : bool then for_each (KeyResponse.tuples res) record_tuple else mret tt).
End collect.

(** ** compute_summary_stats *)

(** The sum of the counts of a key, as an [unsigned]. *)
Definition access_total (per_machine : gmap Address Z) : Z :=
  foldl (λ n p, u32 (n + p.2)) 0 (map_to_list per_machine).

(** [cnt], [mean] and [ms] of the running variance. *)
Definition add_access (acc : Z * double * double) (access_count : Z) : Z * double * double :=
  let '(cnt, mean, ms) := acc in
  if bool_decide (access_count > 0) then
    let cnt := u32 (cnt + 1) in
    let delta := (of_int access_count - mean)%D in
    let mean := (mean + delta / of_int cnt)%D in
    let delta2 := (of_int access_count - mean)%D in
    (cnt, mean, (ms + delta * delta2)%D)
  else acc.

Definition summarise_keys (freq : gmap Key (gmap Address Z)) (summary : gmap Key Z)
    : gmap Key Z * (Z * double * double) :=
  foldl (λ '(summary, acc) '(key, per_machine),
    (<[key := access_total per_machine]> summary, add_access acc (access_total per_machine)))
    (summary, (0, zero, zero)) (map_to_list freq).

(** The accesses of a tier, added to [total]. *)
Definition tier_access (total : Z) (m : gmap Address (gmap Z Z)) : Z :=
  foldl (λ n p, foldl (λ n q, u32 (n + q.2)) n (map_to_list p.2)) total (map_to_list m).

(** The storage of one node: the total of the tier is 64 bits wide, that of
    the node 32. *)
Definition add_storage (capacity : Z) (acc : Z * double * Z) (p : Address * gmap Z Z) : Z * double * Z :=
  let '(total, max_percentage, count) := acc in
  let '(total, total_thread_consumption) :=
    foldl (λ '(total, t) q, (u64 (total + q.2), u32 (t + q.2))) (total, 0) (map_to_list p.2) in
  let percentage := (of_int total_thread_consumption / of_int capacity)%D in
  (total, if (max_percentage <? percentage)%D then percentage else max_percentage, u32 (count + 1)).

Definition tier_storage (capacity total : Z) (max_percentage : double) (m : gmap Address (gmap Z Z))
    : Z * double * Z :=
  foldl (add_storage capacity) (total, max_percentage, 0) (map_to_list m).

Definition avg_consumption (capacity total count : Z) (old : double) : double :=
  if bool_decide (count ≠ 0) then (of_int total / (of_int count * of_int capacity))%D else old.

Definition required_nodes (share : double) (capacity total : Z) : outcome Z :=
  to_unsigned (ceil (of_int total / (share * of_int capacity))%D).

Record OccupancyAcc := mkOccupancyAcc {
  occ_sum : double;
  occ_max : double;
  occ_min : double;
  occ_count : Z;
  min_ips : Address * Address;
}.

Definition node_occupancy (threads : gmap Z (double * Z)) : double :=
  let '(sum, n) := foldl (λ '(sum, n) q, ((sum + q.2.1)%D, u32 (n + 1))) (zero, 0) (map_to_list threads) in
  (sum / of_int n)%D.

(** [named]: the node of the least occupancy is remembered (memory tier). *)
Definition add_occupancy (named : bool) (acc : OccupancyAcc) (node : Address) (occ : double)
    : outcome OccupancyAcc :=
  let less := (occ <? occ_min acc)%D in
  ips ← (if named && less then
           let ips := split node "/" in
           ip0 ← vector_at ips 0;
           ip1 ← vector_at ips 1;
           Ok (ip0, ip1)
         else Ok (min_ips acc));
  Ok (mkOccupancyAcc (occ_sum acc + occ)%D
        (if (occ_max acc <? occ)%D then occ else occ_max acc)
        (if less then occ else occ_min acc) (u32 (occ_count acc + 1)) ips).

Fixpoint tier_occupancy (named : bool) (acc : OccupancyAcc) (l : list (Address * gmap Z (double * Z)))
    : outcome OccupancyAcc :=
  match l with
  | [] => Ok acc
  | (node, threads) :: l =>
      acc ← add_occupancy named acc node (node_occupancy threads);
      tier_occupancy named acc l
  end.

Definition avg_occupancy (acc : OccupancyAcc) : double := (occ_sum acc / of_int (occ_count acc))%D.

Section summary.
Context (c : MonitorConfig).

Definition compute_summary_stats (st : Stats) (ss : SummaryStats.t)
    : outcome (gmap Key Z * SummaryStats.t) :=
  let '(summary, (cnt, mean, ms)) := summarise_keys (key_access_frequency st) (key_access_summary st) in
  let '(m_total, m_max, m_count) :=
    tier_storage (node_capacity c MEMORY) (SummaryStats.total_memory_consumption ss)
      (SummaryStats.max_memory_consumption_percentage ss) (storage (memory_stats st)) in
  let '(e_total, e_max, e_count) :=
    tier_storage (node_capacity c DISK) (SummaryStats.total_ebs_consumption ss)
      (SummaryStats.max_ebs_consumption_percentage ss) (storage (ebs_stats st)) in
  required_memory ← required_nodes kMaxMemoryNodeConsumption (node_capacity c MEMORY) m_total;
  required_ebs ← required_nodes kMaxEbsNodeConsumption (node_capacity c DISK) e_total;
  memory_occ ← tier_occupancy true
    (mkOccupancyAcc zero (SummaryStats.max_memory_occupancy ss) (SummaryStats.min_memory_occupancy ss) 0
       (SummaryStats.min_occupancy_memory_public_ip ss, SummaryStats.min_occupancy_memory_private_ip ss))
    (map_to_list (occupancy (memory_stats st)));
  ebs_occ ← tier_occupancy false
    (mkOccupancyAcc zero (SummaryStats.max_ebs_occupancy ss) (SummaryStats.min_ebs_occupancy ss) 0 ("", ""))
    (map_to_list (occupancy (ebs_stats st)));
  Ok (summary, SummaryStats.mk
    mean (sqrt (ms / of_int cnt)%D)
    (tier_access (SummaryStats.total_memory_access ss) (accesses (memory_stats st)))
    (tier_access (SummaryStats.total_ebs_access ss) (accesses (ebs_stats st)))
    m_total e_total m_max e_max
    (avg_consumption (node_capacity c MEMORY) m_total m_count
       (SummaryStats.avg_memory_consumption_percentage ss))
    (avg_consumption (node_capacity c DISK) e_total e_count
       (SummaryStats.avg_ebs_consumption_percentage ss))
    required_memory required_ebs
    (occ_max memory_occ) (occ_min memory_occ) (avg_occupancy memory_occ)
    (occ_max ebs_occ) (occ_min ebs_occ) (avg_occupancy ebs_occ)
    (min_ips memory_occ).1 (min_ips memory_occ).2
    (SummaryStats.avg_latency ss) (SummaryStats.total_throughput ss)).
End summary.

(** ** collect_external_stats *)
Definition average_latency (user_latency : gmap string double) (old : double) : double :=
  if bool_decide (0 < size user_latency)%nat then
    let '(sum, n) := foldl (λ '(sum, n) p, ((sum + p.2)%D, u32 (n + 1))) (zero, 0) (map_to_list user_latency) in
    (sum / of_int n)%D
  else old.

Definition sum_throughput (user_throughput : gmap string double) (total : double) : double :=
  if bool_decide (0 < size user_throughput)%nat then
    foldl (λ total p, (total + p.2)%D) total (map_to_list user_throughput)
  else total.

Definition collect_external_stats (f : Feedback) (ss : SummaryStats.t) : SummaryStats.t :=
  let 'SummaryStats.mk a1 a2 a3 a4 a5 a6 a7 a8 a9 a10 a11 a12 a13 a14 a15 a16 a17 a18 a19 a20 avg total := ss in
  SummaryStats.mk a1 a2 a3 a4 a5 a6 a7 a8 a9 a10 a11 a12 a13 a14 a15 a16 a17 a18 a19 a20
    (average_latency (user_latency f) avg) (sum_throughput (user_throughput f) total).

(** ** What the servers report arrives *)
Section reports.
Context `{Protobuf} `{StdHash} `{Clock}.
Context (carries_lww : LWWValue.t → Prop) `{!ProtoLaws LWWValue.t carries_lww LWWValue.empty}.
Context (carries_stat : ServerThreadStatistics.t → Prop) (no_stat : ServerThreadStatistics.t)
  `{!ProtoLaws ServerThreadStatistics.t carries_stat no_stat}.
Context (carries_access : KeyAccessData.t → Prop) (no_access : KeyAccessData.t)
  `{!ProtoLaws KeyAccessData.t carries_access no_access}.
Context (carries_sizes : KeySizeData.t → Prop) (no_sizes : KeySizeData.t)
  `{!ProtoLaws KeySizeData.t carries_sizes no_sizes}.
Implicit Types (st : ServerThread.t) (s : MonitorState).

(** The tuple that answers a request for a metadata key of a thread. *)
Definition stat_tuple st (tier : Tier) (tid : Z) (type : MetadataType) (ts : Z) (value : string) : KeyTuple.t :=
  KeyTuple.mk (get_metadata_key_thread st tier tid type) LWW NO_ERROR (serialize_value ts value) 0 false.

Definition both_ips st : Address := ServerThread.public_ip st +:+ "/" +:+ ServerThread.private_ip st.

(** The update a tuple makes, once its key is taken apart. *)
Lemma wp_record_tuple st tier tid type ty ts value (f : Stats → Stats) s :
  server_key_type type = Some ty →
  has_char "|" (ServerThread.public_ip st) = false →
  has_char "|" (ServerThread.private_ip st) = false → 0 ≤ tid ≤ INT_MAX →
  carries_lww (LWWValue.mk ts value) →
  f = match type with
      | server_stats => record_stat tier (both_ips st) tid (parse value)
      | key_access => record_accesses (both_ips st) tid (parse value)
      | _ => record_sizes (parse value)
      end →
  wp (record_tuple (stat_tuple st tier tid type ts value)) s (λ _ s' out,
    s' = set_stats (f (stats s)) s ∧ out = []).
Proof.
  intros Hty Hpub Hpriv Htid Hc ->. unfold record_tuple, stat_tuple, serialize_value. cbn [KeyTuple.error KeyTuple.key KeyTuple.payload].
  rewrite (split_metadata_key_thread st tier tid type ty) by (done || lia).
  rewrite (parse_serialize' (carries:=carries_lww)) by done. cbv zeta. cbn [LWWValue.value].
  do 4 (wp_step; eapply wp_lift_outcome; [done|]; cbv beta).
  wp_step. eapply wp_lift_outcome; [by apply stoi_to_string|]. cbv beta.
  wp_step. eapply wp_lift_outcome; [done|]. cbv beta.
  rewrite (u32_id tid) by (unfold is_u32, INT_MAX in *; lia).
  destruct type; simpl in Hty; simplify_eq; simpl.
  - wp_step. eapply wp_lift_outcome; [unfold tier_of; by rewrite Tier_Parse_Name|]. by mon_steps.
  - by mon_steps.
  - by mon_steps.
Qed.

End reports.

(** ** The summary *)
Section summaries.
Implicit Types (acc : OccupancyAcc) (l : list (Address * gmap Z (double * Z))).

(** The node and occupancy that the accumulator remembers as the least. *)
Definition least acc l : Prop :=
  ∃ node threads rest, (node, threads) ∈ l ∧ occ_min acc = node_occupancy threads ∧
    split node "/" = (min_ips acc).1 :: (min_ips acc).2 :: rest.

Lemma add_occupancy_spec acc acc' node occ :
  is_number (occ_min acc) → add_occupancy true acc node occ = Ok acc' →
  is_number (occ_min acc') ∧ (occ <? occ_min acc')%D = false ∧ (occ_min acc <? occ_min acc')%D = false ∧
  ((occ_min acc', min_ips acc') = (occ_min acc, min_ips acc) ∨
   occ_min acc' = occ ∧ ∃ rest, split node "/" = (min_ips acc').1 :: (min_ips acc').2 :: rest).
Proof.
  intros Hn. unfold add_occupancy. destruct (SFltb occ (occ_min acc)) eqn:Hlt; simpl.
  - destruct (split node "/") as [|ip0 [|ip1 rest]]; simpl; try done. intros [= <-]. simpl.
    split_and!; [|apply ltb_irrefl|by apply ltb_asym|right; eauto].
    intros ->. done.
  - intros [= <-]. simpl. split_and!; [done|done|apply ltb_irrefl|by left].
Qed.

Lemma tier_occupancy_least acc acc' l :
  is_number (occ_min acc) → tier_occupancy true acc l = Ok acc' →
  is_number (occ_min acc') ∧ (occ_min acc <? occ_min acc')%D = false ∧
  (∀ node threads, (node, threads) ∈ l → (node_occupancy threads <? occ_min acc')%D = false) ∧
  ((occ_min acc', min_ips acc') = (occ_min acc, min_ips acc) ∨ least acc' l).
Proof.
  revert acc. induction l as [|[node threads] l IH]; intros acc Hn; simpl.
  { intros [= <-]. split_and!; [done|apply ltb_irrefl|by intros ? ? ?%elem_of_nil|by left]. }
  destruct (add_occupancy true acc node (node_occupancy threads)) as [acc1|] eqn:H1; [|done]. simpl.
  intros H2. apply add_occupancy_spec in H1 as (Hn1 & Hocc & Hmin & Hcase); [|done].
  apply IH in H2 as (Hn2 & Hmin2 & Hall & Hcase2); [|done]. split_and!; [done| | |].
  - by apply (ltb_false_trans _ (occ_min acc1)).
  - intros nd th [[= -> ->]|Hin]%elem_of_cons; [by apply (ltb_false_trans _ (occ_min acc1))|eauto].
  - destruct Hcase2 as [[= Hm Hi]|(nd & th & rest & Hin & ? & ?)].
    + destruct Hcase as [[= Hm' Hi']|(Ho & rest & Hs)]; [left; congruence|].
      right. exists node, threads, rest. rewrite Hm, Hi. split; [by left|done].
    + right. exists nd, th, rest. split; [by right|done].
Qed.

Lemma summarise_keys_lookup (freq : gmap Key (gmap Address Z)) key :
  (summarise_keys freq ∅).1 !! key = access_total <$> freq !! key.
Proof.
  unfold summarise_keys.
  cut (∀ (l : list (Key * gmap Address Z)) (summary : gmap Key Z) (acc : Z * double * double), NoDup l.*1 →
    (foldl (λ '(summary, acc) '(key, per_machine),
       (<[key := access_total per_machine]> summary, add_access acc (access_total per_machine)))
       (summary, acc) l).1 !! key =
    match list_to_map (M:=gmap Key (gmap Address Z)) l !! key with
    | Some pm => Some (access_total pm) | None => summary !! key end).
  { intros Hcut. rewrite Hcut by apply NoDup_fst_map_to_list. rewrite list_to_map_to_list, lookup_empty.
    by destruct (freq !! key). }
  induction l as [|[k pm] l IH]; intros summary acc Hnd; [done|].
  apply NoDup_cons in Hnd as [Hk Hnd]. cbn [foldl]. rewrite IH by done. simpl list_to_map.
  destruct (decide (k = key)) as [->|Hne].
  - rewrite (not_elem_of_list_to_map_1 l key) by done. by rewrite !lookup_insert_eq.
  - by rewrite !lookup_insert_ne by done.
Qed.

(** The loop over the nodes returns when their names have both addresses. *)
Lemma tier_occupancy_returns named acc l :
  (named = true → ∀ node threads, (node, threads) ∈ l → (2 ≤ length (split node "/"))%nat) →
  ∃ acc', tier_occupancy named acc l = Ok acc'.
Proof.
  revert acc. induction l as [|[node threads] l IH]; intros acc Hl; simpl; [by exists acc|].
  assert (∃ acc1, add_occupancy named acc node (node_occupancy threads) = Ok acc1) as [acc1 ->].
  { unfold add_occupancy. destruct named; simpl; [|by eexists].
    specialize (Hl eq_refl node threads ltac:(by left)).
    destruct (SFltb (node_occupancy threads) (occ_min acc)); [|by eexists]. destruct (split node "/") as [|? [|? ?]]; simpl in *; [lia|lia|by eexists]. }
  simpl. apply IH. intros Hn nd th Hin. apply (Hl Hn nd th). by right.
Qed.

(** What the storage of a tier adds up to. *)
Definition total_storage (c : MonitorConfig) (tier : Tier) (t : TierStats) : Z :=
  (tier_storage (node_capacity c tier) 0 zero (storage t)).1.1.

(** The summary of an epoch is computed when the numbers of nodes that are
    required fit an [unsigned].  It has for every key the sum of the accesses
    the servers report for it, and names a memory node such that none is less
    occupied (none, when no memory node is less than fully occupied). *)
Theorem summary_least_occupied (c : MonitorConfig) st rm re :
  key_access_summary st = ∅ →
  required_nodes kMaxMemoryNodeConsumption (node_capacity c MEMORY) (total_storage c MEMORY (memory_stats st)) = Ok rm →
  required_nodes kMaxEbsNodeConsumption (node_capacity c DISK) (total_storage c DISK (ebs_stats st)) = Ok re →
  (∀ node threads, occupancy (memory_stats st) !! node = Some threads → (2 ≤ length (split node "/"))%nat) →
  ∃ summary sum, compute_summary_stats c st SummaryStats.cleared = Ok (summary, sum) ∧
  (∀ key, summary !! key = access_total <$> key_access_frequency st !! key) ∧
  (∀ node threads, occupancy (memory_stats st) !! node = Some threads →
     (node_occupancy threads <? SummaryStats.min_memory_occupancy sum)%D = false) ∧
  (SummaryStats.min_memory_occupancy sum = of_int 1 ∧
     SummaryStats.min_occupancy_memory_private_ip sum = "" ∨
   ∃ node threads rest, occupancy (memory_stats st) !! node = Some threads ∧
     SummaryStats.min_memory_occupancy sum = node_occupancy threads ∧
     split node "/" = SummaryStats.min_occupancy_memory_public_ip sum ::
                      SummaryStats.min_occupancy_memory_private_ip sum :: rest).
Proof.
  intros Hempty Hrm Hre Hnames. unfold compute_summary_stats, mbind, outcome_bind. rewrite Hempty.
  pose proof (summarise_keys_lookup (key_access_frequency st)) as Hkeys.
  destruct (summarise_keys _ _) as [summary' [[cnt mean] ms]]. unfold total_storage in Hrm, Hre. simpl in Hrm, Hre.
  cbn [SummaryStats.cleared SummaryStats.total_memory_consumption SummaryStats.max_memory_consumption_percentage
    SummaryStats.total_ebs_consumption SummaryStats.max_ebs_consumption_percentage].
  destruct (tier_storage (node_capacity c MEMORY) _ _ _) as [[m_total m_max] m_count].
  destruct (tier_storage (node_capacity c DISK) _ _ _) as [[e_total e_max] e_count]. simpl in Hrm, Hre.
  rewrite Hrm, Hre.
  edestruct (tier_occupancy_returns true) as [mo Hmo];
    [|erewrite Hmo]; [intros _ ? ? ?%elem_of_map_to_list; eauto|].
  edestruct (tier_occupancy_returns false) as [eo Heo]; [|erewrite Heo]; [done|].
  do 2 eexists. split; [done|]. split; [done|].
  apply tier_occupancy_least in Hmo as (_ & _ & Hall & Hcase); [|done]. split.
  - intros node threads Hn. apply (Hall node threads), elem_of_map_to_list, Hn.
  - simpl. destruct Hcase as [[= -> ->]|(node & threads & rest & Hin%elem_of_map_to_list & ? & ?)]; [by left|].
    right. by exists node, threads, rest.
Qed.
End summaries.

(** ** Two memory nodes *)
Module ExampleStats.
#[local] Existing Instance bit_protobuf.
#[local] Existing Instance ExampleMonitor.seconds.

Definition server_a : ServerThread.t := ServerThread.new "A" "a" 0.
Definition stat : ServerThreadStatistics.t := ServerThreadStatistics.mk 7 (literal 2 1) 3 11.


Definition two_nodes : Stats := mkStats {["k" := <["A/a:0" := 3]> {["B/b:0" := 4]}]} ∅ ∅
  (mkTierStats ∅ (<["A/a" := {[0 := (literal 2 1, 1)]}]> {["B/b" := {[0 := (literal 1 1, 1)]}]}) ∅)
  (mkTierStats ∅ ∅ ∅).

Lemma summary_least_occupied_witness :
  ∃ summary sum, compute_summary_stats ExampleMonitor.config two_nodes SummaryStats.cleared = Ok (summary, sum) ∧
    summary !! "k" = Some 7 ∧ SummaryStats.min_occupancy_memory_private_ip sum = "b".
Proof.
  destruct (summary_least_occupied ExampleMonitor.config two_nodes 0 0) as (summary & sum & Hsum & Hkeys & _).
  - reflexivity.
  - vm_compute. reflexivity.
  - vm_compute. reflexivity.
  - intros node threads Hn. cbn in Hn. apply lookup_insert_Some in Hn as [[<- _]|[_ Hn]]; [simpl; lia|].
    apply lookup_singleton_Some in Hn as [<- _]. simpl. lia.
  - exists summary, sum. split; [exact Hsum|]. split; [rewrite Hkeys; reflexivity|].
    vm_compute in Hsum. injection Hsum as <- <-. reflexivity.
Defined.
End ExampleStats.
