(* ===== verification/MonitorPolicy.v ===== *)
(** The decisions of the monitoring node: changing the replication of keys
    (src/monitor/replication_helpers.cpp), the three policies
    (storage_policy.cpp, movement_policy.cpp, slo_policy.cpp) and the loop of
    [main] in monitoring.cpp. *)

From Stdlib Require Import Lia SpecFloat Ascii.
From S2P Require Import Prelude Text Ordered Threads Wire WireCodec Codec Metadata HashRing RingUtil Handlers.
From S2P Require Import ServerState Replication ServerLoop Requests Doubles MonitorState MonitorStats.

(** ** replication_helpers.cpp *)
Definition create_new_replication_vector (gm ge lm le : Z) : KeyReplication :=
  mkKeyReplication (<[DISK := ge]> {[MEMORY := gm]}) (<[DISK := le]> {[MEMORY := lm]}).

Definition replication_values (m : gmap Tier Z) : list ReplicationValue.t :=
  map (λ '(tier, n), ReplicationValue.mk tier n) (map_to_list m).
Definition replication_factor (key : Key) (rep : KeyReplication) : ReplicationFactor.t :=
  ReplicationFactor.mk key (replication_values (global_replication_ rep))
    (replication_values (local_replication_ rep)).

(** [key_replication_map[key]], read *)
Definition replication_at (key : Key) : M RingState KeyReplication :=
  r ← get;
  modify (set_key_replication_map (map_touch no_replication (key_replication_map r) key)) ;;
  mret (map_get no_replication (key_replication_map r) key).

Section replication.
Context `{Protobuf} `{StdHash} `{Random} `{Clock} (c : MonitorConfig).

Definition prepare_replication_factor_update (key : Key)
    (replication_factor_map : gmap Address ReplicationFactorUpdate.t) (server_address : Address)
    : Mon (gmap Address ReplicationFactorUpdate.t) :=
  rep ← on_rings (replication_at key);
  let update := map_get ReplicationFactorUpdate.empty replication_factor_map server_address in
  mret (<[server_address := ReplicationFactorUpdate.mk
           (ReplicationFactorUpdate.updates update ++ [replication_factor key rep])]>
          replication_factor_map).

(** [get_time()]: milliseconds *)
Definition get_time : Mon Z :=
  now ← system_clock_now;
  mret (u64 (Z.quot now 1000000)).

(** The first loop: the vector of a key is changed and the request that
    stores it prepared; the result has the vectors as they were. *)
Definition change_vector (acc : gmap Key KeyReplication * gmap Address KeyRequest.t)
    (request : Key * KeyReplication) : Mon (gmap Key KeyReplication * gmap Address KeyRequest.t) :=
  let '(orig, addr_request_map) := acc in
  let '(key, new_rep) := request in
  old ← on_rings (replication_at key);
  let orig := <[key := old]> orig in
  if KeyReplication_eqb new_rep old then mret (orig, addr_request_map)
  else
    on_rings (modify (λ r, set_key_replication_map (<[key := new_rep]> (key_replication_map r)) r)) ;;
    time ← get_time;
    s ← get;
    '(addr_request_map, rid') ← on_rings (
      g ← global_ring_at MEMORY;
      l ← local_ring_at MEMORY;
      prepare_metadata_put_request (base c) time (get_metadata_key key replication)
        (SerializeToString (replication_factor key new_rep)) g l addr_request_map
        (MonitoringThread.response_connect_address (mt c)) (rid s));
    modify (set_rid rid') ;;
    mret (orig, addr_request_map).

(** The keys of the tuples, as data keys. *)
Definition data_keys (tuples : list KeyTuple.t) : gset Key :=
  list_to_set (map (λ tuple, get_key_from_metadata (KeyTuple.key tuple)) tuples).

(** The second loop: the vectors are stored; the result has the keys whose
    store failed. *)
Definition store_vectors (failed_keys : gset Key) (request : Address * KeyRequest.t) : Mon (gset Key) :=
  '(res, succeed) ← make_request request.2 request.1;
  if succeed : bool then
    mret (data_keys (filter (λ tuple, KeyTuple.error tuple = WRONG_THREAD) (KeyResponse.tuples res))
          ∪ failed_keys)
  else mret (data_keys (KeyRequest.tuples request.2) ∪ failed_keys).

(** The servers of a tier that hold the key before or after the change. *)
Definition affected_threads (key : Key) (orig : gmap Key KeyReplication) (tier : Tier)
    : Mon (list ServerThread.t) :=
  n ← on_rings (global_rep_at key tier);
  ring ← on_rings (global_ring_at tier);
  lift_outcome (responsible_global key
    (Z.max n (global_rep (map_get no_replication orig key) tier)) ring).

Definition announce_vector (orig : gmap Key KeyReplication) (failed_keys : gset Key)
    (m : gmap Address ReplicationFactorUpdate.t) (request : Key * KeyReplication)
    : Mon (gmap Address ReplicationFactorUpdate.t) :=
  let key := request.1 in
  if bool_decide (key ∈ failed_keys) then mret m
  else
    m ← for_acc kAllTiers m (λ m tier,
      threads ← affected_threads key orig tier;
      for_acc threads m (λ m thread,
        prepare_replication_factor_update key m (ServerThread.replication_change_connect_address thread)));
    s ← get;
    for_acc (routing_ips s) m (λ m address,
      prepare_replication_factor_update key m
        (RoutingThread.replication_change_connect_address (RoutingThread.new address 0))).

Definition change_replication_factor (requests : gmap Key KeyReplication) : Mon unit :=
  '(orig, addr_request_map) ← for_acc (map_to_list requests) (∅, ∅) change_vector;
  failed_keys ← for_acc (map_to_list addr_request_map) ∅ store_vectors;
  replication_factor_map ← for_acc (map_to_list requests) ∅ (announce_vector orig failed_keys);
  for_each (map_to_list replication_factor_map) (λ '(address, update),
    send_string (SerializeToString update) address) ;;
  on_rings (modify (λ r, set_key_replication_map
    (foldl (λ m key, <[key := map_get no_replication orig key]> m)
       (key_replication_map r) (elements failed_keys)) r)).
End replication.

(** ** storage_policy *)
Section policies.
Context `{Protobuf} `{StdHash} `{Random} `{Clock} (c : MonitorConfig).

(** [if (time_elapsed > kGracePeriod) act] *)
Definition after_grace (act : Mon unit) : Mon unit :=
  elapsed ← time_elapsed;
  if bool_decide (elapsed > kGracePeriod) then act else mret tt.

(** [next(ring.begin(), rand() % ring.size())->second] *)
Definition random_node (tier : Tier) : M RingState ServerThread.t :=
  ring ← global_ring_at tier;
  r ← get;
  let '(n, rs) := rand_r (rand_state r) in
  modify (set_rand_state rs) ;;
  lift_outcome (pick_thread (HashRing.nodes_ ring).*2 n).

Definition storage_policy : Mon unit :=
  if kEnableElasticity c then
    s ← get;
    (if bool_decide (new_memory_count (elasticity s) = 0) &&
        bool_decide (SummaryStats.required_memory_node (ss s) > memory_node_count s)
     then after_grace (add_node c "memory" kNodeAdditionBatchSize MEMORY) else mret tt) ;;
    s ← get;
    (if kEnableTiering c && bool_decide (new_ebs_count (elasticity s) = 0) &&
        bool_decide (SummaryStats.required_ebs_node (ss s) > ebs_node_count s)
     then after_grace (add_node c "ebs" kNodeAdditionBatchSize DISK) else mret tt) ;;
    s ← get;
    (if kEnableTiering c &&
        (SummaryStats.avg_ebs_consumption_percentage (ss s) <? kMinEbsNodeConsumption)%D &&
        negb (removing_ebs_node (elasticity s)) &&
        bool_decide (ebs_node_count s > Z.max (SummaryStats.required_ebs_node (ss s)) kMinEbsTierSize)
     then after_grace (node ← on_rings (random_node DISK); remove_node c node DISK) else mret tt)
  else mret tt.

(** ** movement_policy *)

(** What the nodes of a tier have left below the share they may fill, as an
    [unsigned long long]. *)
Definition free_storage (share : double) (tier : Tier) (count total : Z) : outcome Z :=
  to_unsigned_long_long (share * of_int (node_capacity c tier) * of_int count - of_int total)%D.

(** The loops over the accessed keys collect requests, the storage they need,
    and whether it is too much. *)
Abbreviation Moves := (gmap Key KeyReplication * Z * bool)%type (only parsing).

(** [required_storage += size;] the key is moved when it still fits. *)
Definition move_key (free : Z) (acc : Moves) (key : Key) (size : Z) (vector : M RingState KeyReplication)
    : Mon Moves :=
  let '(requests, required, overflow) := acc in
  let required := u64 (required + size) in
  if bool_decide (required > free) then mret (requests, required, true)
  else
    rep ← on_rings vector;
    mret (<[key := rep]> requests, required, overflow).

Definition promoted_vector (key : Key) : M RingState KeyReplication :=
  gm ← global_rep_at key MEMORY;
  ge ← global_rep_at key DISK;
  lm ← local_rep_at key MEMORY;
  le ← local_rep_at key DISK;
  mret (create_new_replication_vector (u32 (gm + 1)) (u32 (ge - 1)) lm le).

(** A key of the disk tier that was accessed. *)
Definition promote_key (free : Z) (acc : Moves) (p : Key * Z) : Mon Moves :=
  let '(key, access_count) := p in
  md ← lift_outcome (is_metadata key);
  if negb md && bool_decide (access_count > kKeyPromotionThreshold) then
    n ← on_rings (global_rep_at key MEMORY);
    s ← get;
    match (if bool_decide (n = 0) then key_size (stats s) !! key else None) with
    | Some size => move_key free acc key size (promoted_vector key)
    | None => mret acc
    end
  else mret acc.

(** A key of the memory tier that was not accessed. *)
Definition demote_key (free : Z) (acc : Moves) (p : Key * Z) : Mon Moves :=
  let '(key, access_count) := p in
  md ← lift_outcome (is_metadata key);
  if negb md && bool_decide (access_count < kKeyDemotionThreshold) then
    n ← on_rings (global_rep_at key MEMORY);
    s ← get;
    match (if bool_decide (n > 0) then key_size (stats s) !! key else None) with
    | Some size =>
        move_key free acc key size
          (mret (create_new_replication_vector 0 (kMinimumReplicaNumber (base c)) 1 1))
    | None => mret acc
    end
  else mret acc.

(** [time_elapsed] is an [int] that is compared with an [unsigned]. *)
Definition grow_tier (name : string) (tier : Tier) (share : double) (elapsed count total required : Z)
    (overflow : bool) : Mon unit :=
  s ← get;
  if kEnableElasticity c && overflow && bool_decide (new_count tier (elasticity s) = 0) &&
     bool_decide (u32 (int32 elapsed) > kGracePeriod) then
    needed ← lift_outcome (to_unsigned (ceil
      (of_int (u64 (total + required)) / (share * of_int (node_capacity c tier)))%D));
    if bool_decide (needed > count) then add_node c name (needed - count) tier else mret tt
  else mret tt.

Definition accessed_keys : Mon (list (Key * Z)) :=
  s ← get;
  mret (map_to_list (key_access_summary (stats s))).

(** Hot keys to memory; the result is [time_elapsed]. *)
Definition promote_keys : Mon Z :=
  s ← get;
  let total := SummaryStats.total_memory_consumption (ss s) in
  let count := memory_node_count s in
  free ← lift_outcome (free_storage kMaxMemoryNodeConsumption MEMORY count total);
  keys ← accessed_keys;
  '(requests, required, overflow) ← for_acc keys (∅, 0, false) (promote_key free);
  change_replication_factor c requests ;;
  elapsed ← time_elapsed;
  grow_tier "memory" MEMORY kMaxMemoryNodeConsumption elapsed count total required overflow ;;
  mret elapsed.

(** Cold keys to disk. *)
Definition demote_keys (elapsed : Z) : Mon unit :=
  s ← get;
  let total := SummaryStats.total_ebs_consumption (ss s) in
  let count := ebs_node_count s in
  free ← lift_outcome (free_storage kMaxEbsNodeConsumption DISK count total);
  keys ← accessed_keys;
  '(requests, required, overflow) ← for_acc keys (∅, 0, false) (demote_key free);
  change_replication_factor c requests ;;
  grow_tier "ebs" DISK kMaxEbsNodeConsumption elapsed count total required overflow.

(** Keys that are not accessed more than the mean lose their extra replicas. *)
Definition minimum_rep : KeyReplication :=
  create_new_replication_vector 1 (u32 (kMinimumReplicaNumber (base c) - 1)) 1 1.

Definition dereplicate_key (requests : gmap Key KeyReplication) (p : Key * Z)
    : Mon (gmap Key KeyReplication) :=
  let '(key, access_count) := p in
  md ← lift_outcome (is_metadata key);
  s ← get;
  if negb md && (of_int access_count <=? SummaryStats.key_access_mean (ss s))%D then
    rep ← on_rings (replication_at key);
    if KeyReplication_eqb rep minimum_rep then mret requests
    else
      on_rings (global_rep_at key MEMORY) ;;
      on_rings (global_rep_at key DISK) ;;
      mret (<[key := minimum_rep]> requests)
  else mret requests.

Definition dereplicate_keys : Mon unit :=
  keys ← accessed_keys;
  requests ← for_acc keys ∅ dereplicate_key;
  change_replication_factor c requests.

Definition movement_policy : Mon unit :=
  (if kEnableTiering c then elapsed ← promote_keys; demote_keys elapsed else mret tt) ;;
  if kEnableSelectiveRep c then dereplicate_keys else mret tt.

(** ** slo_policy *)

(** [std::max(kMinimumReplicaNumber - new_mem_rep, (unsigned)0)] *)
Definition remaining_replicas (new_mem_rep : Z) : Z :=
  Z.max (u32 (kMinimumReplicaNumber (base c) - new_mem_rep)) 0.

Definition hot_key (requests : gmap Key KeyReplication) (p : Key * Z) : Mon (gmap Key KeyReplication) :=
  let '(key, access_count) := p in
  md ← lift_outcome (is_metadata key);
  s ← get;
  match (if negb md && (SummaryStats.key_access_mean (ss s) + SummaryStats.key_access_std (ss s)
                        <? of_int access_count)%D
         then latency_miss_ratio_map (feedback s) !! key else None) with
  | None => mret requests
  | Some (ratio, _) =>
      current_mem_rep ← on_rings (global_rep_at key MEMORY);
      target ← lift_outcome (to_unsigned (of_int current_mem_rep * ratio)%D);
      let target_rep_factor := if bool_decide (target = current_mem_rep) then u32 (target + 1) else target in
      lm ← on_rings (local_rep_at key MEMORY);
      if bool_decide (target_rep_factor > current_mem_rep) &&
         bool_decide (current_mem_rep < memory_node_count s) then
        let new_mem_rep := Z.min (memory_node_count s) target_rep_factor in
        le ← on_rings (local_rep_at key DISK);
        mret (<[key := create_new_replication_vector new_mem_rep (remaining_replicas new_mem_rep) lm le]>
                requests)
      else if bool_decide (kMemoryThreadCount (base c) > lm) then
        ge ← on_rings (global_rep_at key DISK);
        le ← on_rings (local_rep_at key DISK);
        mret (<[key := create_new_replication_vector current_mem_rep ge (kMemoryThreadCount (base c)) le]>
                requests)
      else mret requests
  end.

(** A key with a replica on every node has one fewer when a node goes. *)
Definition withdraw_key (requests : gmap Key KeyReplication) (p : Key * Z) : Mon (gmap Key KeyReplication) :=
  let key := p.1 in
  md ← lift_outcome (is_metadata key);
  if negb md then
    n ← on_rings (global_rep_at key MEMORY);
    ring ← on_rings (global_ring_at MEMORY);
    if bool_decide (n = Z.of_nat (ConsistentHashMap.size (HashRing.nodes_ ring)) `div` kVirtualThreadNum) then
      let new_mem_rep := u32 (n - 1) in
      lm ← on_rings (local_rep_at key MEMORY);
      le ← on_rings (local_rep_at key DISK);
      on_rings (global_rep_at key DISK) ;;
      mret (<[key := create_new_replication_vector new_mem_rep (remaining_replicas new_mem_rep) lm le]> requests)
    else mret requests
  else mret requests.

Definition replicate_hot_keys : Mon unit :=
  keys ← accessed_keys;
  requests ← for_acc keys ∅ hot_key;
  change_replication_factor c requests.

Definition remove_idle_node : Mon unit :=
  keys ← accessed_keys;
  requests ← for_acc keys ∅ withdraw_key;
  change_replication_factor c requests ;;
  s ← get;
  remove_node c (ServerThread.new (SummaryStats.min_occupancy_memory_public_ip (ss s))
                   (SummaryStats.min_occupancy_memory_private_ip (ss s)) 0) MEMORY.

Definition slo_violated (s : MonitorState) : bool :=
  (of_int kSloWorst <? SummaryStats.avg_latency (ss s))%D &&
  bool_decide (new_memory_count (elasticity s) = 0).

Definition slo_policy : Mon unit :=
  s ← get;
  if slo_violated s then
    if kEnableElasticity c && (literal 15 2 <? SummaryStats.min_memory_occupancy (ss s))%D then
      node_to_add ← lift_outcome (to_unsigned (ceil
        ((SummaryStats.avg_latency (ss s) / of_int kSloWorst - of_int 1) * of_int (memory_node_count s))%D));
      after_grace (add_node c "memory" node_to_add MEMORY)
    else if kEnableSelectiveRep c then replicate_hot_keys
    else mret tt
  else if kEnableElasticity c && negb (removing_memory_node (elasticity s)) &&
          (SummaryStats.min_memory_occupancy (ss s) <? literal 5 2)%D &&
          bool_decide (memory_node_count s > Z.max (SummaryStats.required_memory_node (ss s)) kMinMemoryTierSize)
  then after_grace remove_idle_node
  else mret tt.

(** ** The loop of main *)

(** Before the loop. *)
Definition monitoring_start : Mon unit :=
  let ip := MonitoringThread.ip (mt c) in
  on_rings (modify (λ r, set_local_hash_rings (form_local_rings (base c) ip ip (local_hash_rings r)) r)) ;;
  start ← system_clock_now;
  system_clock_now ;;
  grace ← system_clock_now;
  modify (set_report_start start) ;;
  update_elasticity (set_grace_start grace).

(** The number of nodes of a tier, from the size of its ring. *)
Definition node_count (tier : Tier) : Mon Z :=
  ring ← on_rings (global_ring_at tier);
  mret (u32 (Z.of_nat (ConsistentHashMap.size (HashRing.nodes_ ring)) `div` kVirtualThreadNum)).

Definition no_tier_stats (t : TierStats) : TierStats := mkTierStats ∅ ∅ (accesses t).

(** The statistics that are forgotten at the start of an epoch: the sizes of
    the keys and the accesses of the threads stay. *)
Definition clear_stats (s : MonitorState) : MonitorState :=
  set_feedback (mkFeedback ∅ ∅ ∅)
    (set_ss SummaryStats.cleared
       (set_stats (mkStats ∅ ∅ (key_size (stats s)) (no_tier_stats (memory_stats (stats s)))
                     (no_tier_stats (ebs_stats (stats s)))) s)).

Definition init_new_keys : Mon unit :=
  keys ← accessed_keys;
  for_each keys (λ p,
    md ← lift_outcome (is_metadata p.1);
    on_rings (modify (λ r,
      if negb md && bool_decide (key_replication_map r !! p.1 = None)
      then set_key_replication_map (init_replication (base c) (key_replication_map r) p.1) r else r))).

(** The statistics of an epoch. *)
Definition gather_statistics : Mon unit :=
  m ← node_count MEMORY;
  e ← node_count DISK;
  modify (set_node_counts m e) ;;
  modify clear_stats ;;
  collect_internal_stats c ;;
  s ← get;
  '(summary, summed) ← lift_outcome (compute_summary_stats c (stats s) (ss s));
  update_stats (set_key_access_summary summary) ;;
  modify (λ s, set_ss (collect_external_stats (feedback s) summed) s).

(** An epoch up to [slo_policy]. *)
Definition epoch_before_slo : Mon unit :=
  modify (λ s, set_epoch (u32 (server_monitoring_epoch s + 1)) s) ;;
  gather_statistics ;;
  init_new_keys ;;
  storage_policy ;;
  movement_policy.

Definition monitoring_epoch : Mon unit :=
  epoch_before_slo ;;
  slo_policy ;;
  now ← system_clock_now;
  modify (set_report_start now).

(** What [poll] found, and what the response socket will give. *)
Record Polled := mkPolled {
  notification : option string;
  depart_done : option string;
  user_feedback : option string;
  responses : list (option string);
}.

Definition on_message (m : option string) (handler : string → Mon unit) : Mon unit :=
  match m with Some serialized => handler serialized | None => mret tt end.

Definition monitoring_iteration (p : Polled) : Mon unit :=
  modify (set_response_puller (responses p)) ;;
  on_message (notification p) (membership_handler c) ;;
  on_message (depart_done p) (depart_done_handler c) ;;
  on_message (user_feedback p) feedback_handler ;;
  report_end ← system_clock_now;
  s ← get;
  if bool_decide (kMonitoringThreshold ≤ seconds_between (report_start s) report_end)
  then monitoring_epoch else mret tt.
End policies.

(** ** The users' reports are not used

    [clear_stats] forgets them before they are read. *)
Section unused_feedback.
Context `{Protobuf} `{StdHash} `{Random} `{Clock} (c : MonitorConfig).
Implicit Types (s : MonitorState).

(** Nothing is known of the users. *)
Definition no_feedback s : Prop :=
  feedback s = mkFeedback ∅ ∅ ∅ ∧
  SummaryStats.avg_latency (ss s) = zero ∧ SummaryStats.total_throughput (ss s) = zero.

Ltac keep_step :=
  lazymatch goal with
  | |- preserves _ (on_rings _) => apply preserves_zoom; intros ???
  | |- preserves _ (update_stats _) => apply preserves_modify; intros ??
  | |- preserves _ (update_elasticity _) => apply preserves_modify; intros ??
  | |- preserves _ system_clock_now => unfold system_clock_now
  | |- preserves _ time_elapsed => unfold time_elapsed
  | |- preserves _ (after_grace _) => unfold after_grace
  | |- preserves _ (add_node _ _ _ _) => unfold add_node
  | |- preserves _ (remove_node _ _ _) => unfold remove_node
  | |- preserves _ (make_request _ _) => unfold make_request
  | |- preserves _ get_time => unfold get_time
  | |- preserves _ accessed_keys => unfold accessed_keys
  | |- preserves _ (request_stat _ _ _) => unfold request_stat
  | |- preserves _ (record_tuple _) => unfold record_tuple
  | |- preserves _ (let _ := _ in _) => cbv zeta
  | |- preserves _ _ => preserve_step
  end.
Ltac keep_steps := repeat keep_step; try done.

Lemma collect_keeps : preserves no_feedback (collect_internal_stats c).
Proof. unfold collect_internal_stats, stat_requests. keep_steps. Qed.

Lemma prepare_update_keeps key m a : preserves no_feedback (prepare_replication_factor_update key m a).
Proof. unfold prepare_replication_factor_update. keep_steps. Qed.

Lemma change_replication_keeps requests : preserves no_feedback (change_replication_factor c requests).
Proof.
  unfold change_replication_factor. keep_steps.
  - unfold change_vector. keep_steps.
  - unfold store_vectors. keep_steps.
  - unfold announce_vector, affected_threads. keep_steps; apply prepare_update_keeps.
Qed.

Lemma init_new_keys_keeps : preserves no_feedback (init_new_keys c).
Proof. unfold init_new_keys. keep_steps. Qed.

Lemma storage_policy_keeps : preserves no_feedback (storage_policy c).
Proof. unfold storage_policy, random_node. keep_steps. Qed.

Lemma move_key_keeps free acc key size v : preserves no_feedback (move_key free acc key size v).
Proof. unfold move_key. keep_steps. Qed.

Lemma grow_tier_keeps name tier share e n t r o : preserves no_feedback (grow_tier c name tier share e n t r o).
Proof. unfold grow_tier. keep_steps. Qed.

Lemma movement_policy_keeps : preserves no_feedback (movement_policy c).
Proof.
  unfold movement_policy, promote_keys, demote_keys, dereplicate_keys.
  keep_steps; try apply change_replication_keeps; try apply grow_tier_keeps.
  - unfold promote_key. keep_steps; apply move_key_keeps.
  - unfold demote_key. keep_steps; apply move_key_keeps.
  - unfold dereplicate_key. keep_steps.
Qed.

(** The summary takes over what it starts with. *)
Lemma summary_feedback st ss summary ss' :
  compute_summary_stats c st ss = Ok (summary, ss') →
  SummaryStats.avg_latency ss' = SummaryStats.avg_latency ss ∧
  SummaryStats.total_throughput ss' = SummaryStats.total_throughput ss.
Proof.
  unfold compute_summary_stats, mbind, outcome_bind.
  destruct (summarise_keys _ _) as [summary' [[cnt mean] ms]].
  destruct (tier_storage _ _ _ _) as [[m_total m_max] m_count].
  destruct (tier_storage _ _ _ _) as [[e_total e_max] e_count].
  destruct (required_nodes _ _ _); [|done]. destruct (required_nodes _ _ _); [|done].
  destruct (tier_occupancy _ _ _); [|done]. destruct (tier_occupancy _ _ _); [|done]. by intros [= _ <-].
Qed.

Lemma gather_no_feedback s s' out : gather_statistics c s = Ok (tt, s', out) → no_feedback s'.
Proof.
  unfold gather_statistics. intros (m & s1 & ? & ? & _ & Heq & _)%bind_ok.
  apply bind_ok in Heq as (e & s2 & ? & ? & _ & Heq & _).
  apply bind_ok in Heq as ([] & s3 & ? & ? & _ & Heq & _).
  apply bind_ok in Heq as ([] & s4 & ? & ? & [= <- <-] & Heq & _).
  apply bind_ok in Heq as ([] & s5 & ? & ? & Hcol & Heq & _).
  destruct (collect_keeps _ _ _ _ Hcol ltac:(done)) as (Hf & Hl & Ht).
  apply bind_ok in Heq as (s6 & ? & ? & ? & [= <- <- <-] & Heq & _).
  apply bind_ok in Heq as ([summary summed] & s7 & ? & ? & Hsum & Heq & _).
  unfold lift_outcome in Hsum. destruct (compute_summary_stats _ _ _) as [[sm sd]|] eqn:Hcs; [|done].
  injection Hsum as <- <- <- _. apply summary_feedback in Hcs as [Hl' Ht'].
  apply bind_ok in Heq as ([] & s8 & ? & ? & [= <- <-] & Heq & _). injection Heq as <- _.
  unfold no_feedback. simpl. rewrite Hf. destruct sd. simpl in *. by rewrite Hl', Ht', Hl, Ht.
Qed.

(** C38: what the users report never reaches a decision.  It is cleared before
    it is averaged, so when [slo_policy] runs the average latency is 0, the
    latency ratios are gone, and the branch for a violated latency objective is
    not taken: the policy only ever removes an idle node. *)
Theorem slo_feedback_ignored s s' out :
  epoch_before_slo c s = Ok (tt, s', out) →
  no_feedback s' ∧ slo_violated s' = false ∧
  slo_policy c s' =
    (if kEnableElasticity c && negb (removing_memory_node (elasticity s')) &&
        (SummaryStats.min_memory_occupancy (ss s') <? literal 5 2)%D &&
        bool_decide (memory_node_count s' > Z.max (SummaryStats.required_memory_node (ss s')) kMinMemoryTierSize)
     then after_grace (remove_idle_node c) else mret tt) s'.
Proof.
  intros ([] & s1 & ? & ? & _ & Heq & _)%bind_ok.
  apply bind_ok in Heq as ([] & s2 & ? & ? & Hg%gather_no_feedback & Heq & _).
  apply bind_ok in Heq as ([] & s3 & ? & ? & Hi & Heq & _).
  apply bind_ok in Heq as ([] & s4 & ? & ? & Hs & Heq & _).
  pose proof (init_new_keys_keeps _ _ _ _ Hi Hg) as H3. pose proof (storage_policy_keeps _ _ _ _ Hs H3) as H4.
  pose proof (movement_policy_keeps _ _ _ _ Heq H4) as H5.
  assert (slo_violated s' = false) as Hv.
  { unfold slo_violated. destruct H5 as (_ & -> & _). done. }
  split_and!; [done|done|]. unfold slo_policy, mbind, M_bind, get. rewrite Hv.
  match goal with |- context [match ?m with _ => _ end = _] => by destruct m as [[[[] ?] ?]|] end.
Qed.
End unused_feedback.

Module ExamplePolicy.
#[local] Existing Instance bit_protobuf.
#[local] Existing Instance ExampleRing.toy_hash.
#[local] Existing Instance ExampleServer.still.
#[local] Existing Instance ExampleMonitor.seconds.

Definition slow : Feedback := mkFeedback {["u" := literal 9000 0]} ∅ {["k" := (literal 2 0, 1)]}.
Definition complaint : MonitorState := set_feedback slow ExampleMonitor.monitor.

(** A user reports a latency of 9 seconds; the policy sees none. *)
Lemma slo_feedback_ignored_witness :
  ∃ s' out, epoch_before_slo ExampleMonitor.config complaint = Ok (tt, s', out) ∧ slo_violated s' = false.
Proof.
  destruct (epoch_before_slo ExampleMonitor.config complaint) as [[[[] s'] out]|] eqn:Hrun;
    [|vm_compute in Hrun; discriminate].
  exists s', out. split; [reflexivity|].
  destruct (slo_feedback_ignored ExampleMonitor.config complaint s' out Hrun) as (_ & Hv & _). exact Hv.
Defined.
End ExamplePolicy.
