(* ===== verification/MonitorMoves.v ===== *)
(** What the decisions of the monitoring node amount to: which keys are moved
    between the tiers, the vectors of keys that leave a node, and when nodes are
    added and removed. *)

From Stdlib Require Import Lia SpecFloat Ascii.
From S2P Require Import Prelude Text Ordered Threads Wire WireCodec Codec Metadata HashRing RingUtil Handlers.
From S2P Require Import ServerState Replication ServerLoop Requests Doubles MonitorState MonitorStats MonitorPolicy.

(** ** Reading leaves what is read

    Two ring states that read alike: they differ at most in entries that
    [operator[]] created with default values. *)
Record reads (r r' : RingState) : Prop := {
  reads_global key tier : global_rep (map_get no_replication (key_replication_map r') key) tier =
                          global_rep (map_get no_replication (key_replication_map r) key) tier;
  reads_local key tier : local_rep (map_get no_replication (key_replication_map r') key) tier =
                         local_rep (map_get no_replication (key_replication_map r) key) tier;
  reads_global_ring tier : map_get HashRing.empty (global_hash_rings r') tier =
                           map_get HashRing.empty (global_hash_rings r) tier;
  reads_local_ring tier : map_get HashRing.empty (local_hash_rings r') tier =
                          map_get HashRing.empty (local_hash_rings r) tier;
}.

#[export] Instance reads_preorder : PreOrder reads.
Proof.
  split.
  - intros r. by split.
  - intros r1 r2 r3 [H1 H2 H3 H4] [K1 K2 K3 K4]. split; intros.
    + by rewrite K1. + by rewrite K2. + by rewrite K3. + by rewrite K4.
Qed.

Section reading.
Implicit Types (r : RingState) (key : Key) (tier : Tier).

Notation vector_of r key := (map_get no_replication (key_replication_map r) key).

(** Replacing the entry of a key by one that reads alike. *)
Lemma reads_insert r key rep :
  (∀ tier, global_rep rep tier = global_rep (vector_of r key) tier) →
  (∀ tier, local_rep rep tier = local_rep (vector_of r key) tier) →
  reads r (set_key_replication_map (<[key := rep]> (key_replication_map r)) r).
Proof.
  intros Hg Hl. split; intros; simpl; [| |done|done].
  - destruct (decide (key = key0)) as [->|]; [by rewrite map_get_insert_eq|by rewrite map_get_insert_ne].
  - destruct (decide (key = key0)) as [->|]; [by rewrite map_get_insert_eq|by rewrite map_get_insert_ne].
Qed.

Lemma read_global_rep r key tier (Q : Z → RingState → list Msg → Prop) :
  (∀ r', reads r r' → Q (global_rep (vector_of r key) tier) r' []) → wp (global_rep_at key tier) r Q.
Proof.
  intros HQ. unfold global_rep_at. wp_steps. apply HQ. apply reads_insert; [|done].
  intros tier'. unfold global_rep. simpl. by rewrite map_touch_get.
Qed.

Lemma read_local_rep r key tier (Q : Z → RingState → list Msg → Prop) :
  (∀ r', reads r r' → Q (local_rep (vector_of r key) tier) r' []) → wp (local_rep_at key tier) r Q.
Proof.
  intros HQ. unfold local_rep_at. wp_steps. apply HQ. apply reads_insert; [done|].
  intros tier'. unfold local_rep. simpl. by rewrite map_touch_get.
Qed.

Lemma read_vector r key (Q : KeyReplication → RingState → list Msg → Prop) :
  (∀ r', reads r r' → Q (vector_of r key) r' []) → wp (replication_at key) r Q.
Proof. intros HQ. unfold replication_at. wp_steps. apply HQ. by apply reads_insert. Qed.

Lemma read_global_ring r tier (Q : HashRing.t → RingState → list Msg → Prop) :
  (∀ r', reads r r' → Q (map_get HashRing.empty (global_hash_rings r) tier) r' []) →
  wp (global_ring_at tier) r Q.
Proof.
  intros HQ. unfold global_ring_at. wp_steps. apply HQ. split; [done|done| |done].
  intros tier'. simpl. by rewrite map_touch_get.
Qed.

Lemma read_local_ring r tier (Q : HashRing.t → RingState → list Msg → Prop) :
  (∀ r', reads r r' → Q (map_get HashRing.empty (local_hash_rings r) tier) r' []) →
  wp (local_ring_at tier) r Q.
Proof.
  intros HQ. unfold local_ring_at. wp_steps. apply HQ. split; [done|done|done|].
  intros tier'. simpl. by rewrite map_touch_get.
Qed.
End reading.

(** The monitor's state up to what reading creates. *)
Definition same_reads (s s' : MonitorState) : Prop :=
  reads (rings s) (rings s') ∧ set_rings (rings s) s' = s.

Lemma same_reads_set s r : reads (rings s) r → same_reads s (set_rings r s).
Proof. intros Hr. split; [done|by destruct s]. Qed.

Lemma same_reads_refl s : same_reads s s.
Proof. split; [reflexivity|by destruct s]. Qed.

Lemma same_reads_trans s1 s2 s3 : same_reads s1 s2 → same_reads s2 s3 → same_reads s1 s3.
Proof.
  intros [Hr1 H1] [Hr2 H2]. split; [by etransitivity|].
  rewrite <-H1 at 2. rewrite <-H2. by destruct s3.
Qed.

Lemma same_reads_stats s s' : same_reads s s' → stats s' = stats s ∧ ss s' = ss s.
Proof. intros [_ <-]. done. Qed.

(** One read of the rings in a loop body. *)
Ltac read_step lem H :=
  wp_step; apply wp_zoom; apply lem; intros ? H; simpl app.

(** ** Keys that leave a node *)
Section withdrawal.
Context `{Protobuf} `{StdHash} `{Random} `{Clock} (c : MonitorConfig).

(** C39: when a node is about to be removed, a key with a replica on every
    memory node, more than one above the minimum number of replicas, is given
    close to 2^32 disk replicas: the difference to the minimum wraps.  The
    search for that many threads never ends on a disk ring that has any. *)
Theorem withdrawal_wraps key accesses requests s n disk :
  let r := rings s in
  is_metadata key = Ok false →
  global_rep (map_get no_replication (key_replication_map r) key) MEMORY = n →
  n = Z.of_nat (ConsistentHashMap.size (HashRing.nodes_ (map_get HashRing.empty (global_hash_rings r) MEMORY)))
        `div` kVirtualThreadNum →
  0 ≤ kMinimumReplicaNumber (base c) → kMinimumReplicaNumber (base c) + 1 < n < 2 ^ 32 →
  RingInv.ring_ok GlobalHasher disk → HashRing.nodes_ disk ≠ [] →
  Z.of_nat (size (ring_threads disk)) < 2 ^ 32 - n →
  wp (withdraw_key c requests (key, accesses)) s (λ requests' _ out,
    ∃ rep, requests' = <[key := rep]> requests ∧ out = [] ∧
      global_rep rep MEMORY = n - 1 ∧
      global_rep rep DISK = 2 ^ 32 - (n - 1 - kMinimumReplicaNumber (base c)) ∧
      ∀ old, responsible_global key (Z.max (global_rep rep DISK) old) disk = Fail Diverges).
Proof.
  intros r. subst r. intros Hmd Hn Hsize Hmin Hlt Hok Hne Hthreads. unfold withdraw_key. cbv zeta.
  wp_step. eapply wp_lift_outcome; [exact Hmd|]. simpl.
  read_step read_global_rep Hr1. rewrite Hn. read_step read_global_ring Hr2. simpl.
  rewrite (reads_global_ring _ _ Hr1), <-Hsize, bool_decide_eq_true_2 by done.
  read_step read_local_rep Hr3. read_step read_local_rep Hr4. read_step read_global_rep Hr5. wp_step.
  eexists. split; [done|]. split; [done|].
  rewrite (u32_id (n - 1)) by (unfold is_u32; lia).
  assert (remaining_replicas c (n - 1) = 2 ^ 32 - (n - 1 - kMinimumReplicaNumber (base c))) as Hrem.
  { unfold remaining_replicas, u32. rewrite <-(Z.mod_unique_pos _ (2 ^ 32) (-1)
      (2 ^ 32 - (n - 1 - kMinimumReplicaNumber (base c)))) by lia. lia. }
  rewrite Hrem. unfold global_rep, create_new_replication_vector. simpl.
  rewrite map_get_insert_eq, map_get_insert_ne by done.
  split_and!; [by unfold map_get; rewrite lookup_singleton_eq|done|].
  intros old. apply responsible_global_too_many; [done|done|lia].
Qed.
End withdrawal.

(** ** Keys that are moved between the tiers

    Both loops of [movement_policy] have the same shape: [pick] says which keys
    are to be moved and how large they are, [vector] the vector they get. *)
Section moving.
Context (body : gmap Key KeyReplication * Z * bool → Key * Z → Mon (gmap Key KeyReplication * Z * bool)).
Context (pick : Key * Z → option Z) (vector : Key → KeyReplication) (free : Z) (s0 : MonitorState).

(** The keys to be moved, with their sizes, in the order they are met. *)
Definition candidates (l : list (Key * Z)) : list (Key * Z) :=
  omap (λ p, (λ size, (p.1, size)) <$> pick p) l.

Definition total_size (l : list (Key * Z)) : Z := foldr (λ p n, p.2 + n) 0 l.

Lemma total_size_app l1 l2 : total_size (l1 ++ l2) = total_size l1 + total_size l2.
Proof. induction l1; simpl; lia. Qed.

Lemma total_size_nonneg l : Forall (λ p, 0 ≤ p.2) l → 0 ≤ total_size l.
Proof. induction 1; simpl; lia. Qed.

Hypothesis body_spec : ∀ acc p s, same_reads s0 s → p.1 ≠ "" →
  wp (body acc p) s (λ acc' s' out, same_reads s0 s' ∧ out = [] ∧
    acc' = match pick p with
           | None => acc
           | Some size =>
               let '(requests, required, overflow) := acc in
               let required := u64 (required + size) in
               if bool_decide (required > free) then (requests, required, true)
               else (<[p.1 := vector p.1]> requests, required, overflow)
           end).

(** After the keys [l]: the candidates of a prefix are moved, and fit; the
    rest does not. *)
Definition moved_after (l : list (Key * Z)) (acc : gmap Key KeyReplication * Z * bool) : Prop :=
  let '(requests, required, overflow) := acc in
  required = total_size (candidates l) ∧ overflow = bool_decide (free < required) ∧
  ∃ moved rest, candidates l = moved ++ rest ∧ total_size moved ≤ free ∧ (rest = [] ↔ required ≤ free) ∧
    requests = list_to_map (map (λ p, (p.1, vector p.1)) (reverse moved)).

Lemma moved_step l p acc :
  (∀ size, pick p = Some size → 0 ≤ size) → total_size (candidates (l ++ [p])) < 2 ^ 64 →
  0 ≤ total_size (candidates l) → moved_after l acc →
  moved_after (l ++ [p]) (match pick p with
    | None => acc
    | Some size =>
        let '(requests, required, overflow) := acc in
        let required := u64 (required + size) in
        if bool_decide (required > free) then (requests, required, true)
        else (<[p.1 := vector p.1]> requests, required, overflow)
    end).
Proof.
  intros Hsize Hbound Hnn. destruct acc as [[requests required] overflow].
  unfold moved_after, candidates in *. rewrite omap_app in *. simpl in *.
  destruct (pick p) as [size|]; simpl in *; [|by rewrite app_nil_r].
  specialize (Hsize size eq_refl). rewrite total_size_app in *. simpl in *.
  intros (-> & Hov & moved & rest & Hcand & Hfit & Hrest & Hreq).
  rewrite u64_id by (unfold is_u64; lia). rewrite Z.add_0_r in *.
  set (cs := omap _ l) in *. clearbody cs. subst cs.
  destruct (decide (total_size (moved ++ rest) + size > free)) as [Hfree|Hfree];
    [rewrite (bool_decide_eq_true_2 _ Hfree)|rewrite (bool_decide_eq_false_2 _ Hfree)].
  - split_and!; [done|by rewrite bool_decide_eq_true_2 by lia|].
    exists moved, (rest ++ [(p.1, size)]). rewrite app_assoc. split_and!; [done|done| |done].
    split; [|intros; lia]. intros []%app_nil. done.
  - assert (rest = []) as -> by (apply Hrest; lia). rewrite app_nil_r in *.
    split_and!; [done| |].
    { rewrite Hov. rewrite !bool_decide_eq_false_2 by lia. done. }
    exists (moved ++ [(p.1, size)]), []. split_and!.
    + by rewrite app_nil_r.
    + rewrite total_size_app. simpl. lia.
    + split; [lia|done].
    + by rewrite reverse_snoc, Hreq.
Qed.

Lemma wp_move_loop l :
  Forall (λ p, p.1 ≠ "" ∧ ∀ size, pick p = Some size → 0 ≤ size) l →
  total_size (candidates l) < 2 ^ 64 → 0 ≤ free →
  wp (for_acc l (∅, 0, false) body) s0 (λ acc s out, same_reads s0 s ∧ out = [] ∧ moved_after l acc).
Proof.
  intros Hl Hbound Hfree. rewrite Forall_forall in Hl.
  cut (∀ pre acc s, (∀ p, p ∈ pre → ∀ size, pick p = Some size → 0 ≤ size) →
    total_size (candidates (pre ++ l)) < 2 ^ 64 → same_reads s0 s → moved_after pre acc →
    wp (for_acc l acc body) s (λ acc s' out, same_reads s0 s' ∧ out = [] ∧ moved_after (pre ++ l) acc)).
  { intros Hcut. apply (Hcut [] (∅, 0, false)); [by intros ? ?%elem_of_nil|done|apply same_reads_refl|].
    split; [done|]. split; [by rewrite bool_decide_eq_false_2 by lia|]. exists [], []. done. }
  clear Hbound. induction l as [|p l IH]; intros pre acc s Hpre Hbound Hs Hacc; simpl.
  { wp_step. by rewrite app_nil_r. }
  destruct (Hl p ltac:(by left)) as [Hne Hsz]. wp_step.
  eapply wp_mono; [by apply body_spec|]. cbv beta. intros acc' s' out (Hs' & -> & ->).
  assert (∀ q, q ∈ pre ++ [p] → ∀ size, pick q = Some size → 0 ≤ size) as Hpre'.
  { intros q [Hq|Hq%list_elem_of_singleton]%elem_of_app; [by apply Hpre|by subst]. }
  assert (∀ xs, (∀ q, q ∈ xs → ∀ size, pick q = Some size → 0 ≤ size) → 0 ≤ total_size (candidates xs)) as Hnn.
  { intros xs Hxs. apply total_size_nonneg, Forall_forall. intros q (x & Hx & Hq)%list_elem_of_omap.
    destruct (pick x) eqn:Hpx; [|done]. injection Hq as <-. by apply (Hxs x). }
  rewrite cons_middle, app_assoc in Hbound |- *. eapply wp_mono; [apply IH; [|done|done|done|]|].
  - intros q Hq. apply Hl. by right.
  - apply moved_step; [done| |by apply Hnn|done].
    unfold candidates in *. rewrite omap_app in Hbound. rewrite total_size_app in Hbound.
    enough (0 ≤ total_size (candidates l)) by (unfold candidates in *; lia).
    apply Hnn. intros q Hq. apply Hl. by right.
  - done.
Qed.
End moving.

Section movement.
Context `{Protobuf} `{StdHash} `{Random} `{Clock} (c : MonitorConfig).
Implicit Types (s : MonitorState) (key : Key) (p : Key * Z) (rep : KeyReplication).

Definition vector_at_key s key : KeyReplication := map_get no_replication (key_replication_map (rings s)) key.
Definition data_key key : bool := match is_metadata key with Ok b => negb b | Fail _ => false end.

(** A data key of known size that was accessed and is not in memory; one that
    was not accessed and is. *)
Definition hot s p : option Z :=
  if data_key p.1 && bool_decide (p.2 > kKeyPromotionThreshold) &&
     bool_decide (global_rep (vector_at_key s p.1) MEMORY = 0)
  then key_size (stats s) !! p.1 else None.
Definition cold s p : option Z :=
  if data_key p.1 && bool_decide (p.2 < kKeyDemotionThreshold) &&
     bool_decide (global_rep (vector_at_key s p.1) MEMORY > 0)
  then key_size (stats s) !! p.1 else None.

(** The vectors they get: one replica in memory in place of one on disk; the
    minimum on disk. *)
Definition promoted s key : KeyReplication :=
  let rep := vector_at_key s key in
  create_new_replication_vector 1 (u32 (global_rep rep DISK - 1)) (local_rep rep MEMORY) (local_rep rep DISK).
Definition demoted key : KeyReplication :=
  create_new_replication_vector 0 (kMinimumReplicaNumber (base c)) 1 1.

Lemma vector_reads s s' key tier :
  same_reads s s' →
  global_rep (vector_at_key s' key) tier = global_rep (vector_at_key s key) tier ∧
  local_rep (vector_at_key s' key) tier = local_rep (vector_at_key s key) tier.
Proof. intros [[Hg Hl _ _] _]. split; [apply Hg|apply Hl]. Qed.

Lemma wp_promoted_vector s s' key (Q : KeyReplication → RingState → list Msg → Prop) :
  same_reads s s' → global_rep (vector_at_key s key) MEMORY = 0 →
  (∀ r, reads (rings s') r → Q (promoted s key) r []) → wp (promoted_vector key) (rings s') Q.
Proof.
  intros Hs Hz HQ. unfold promoted_vector.
  wp_step. apply read_global_rep. intros r1 Hr1. wp_step. apply read_global_rep. intros r2 Hr2.
  wp_step. apply read_local_rep. intros r3 Hr3. wp_step. apply read_local_rep. intros r4 Hr4. wp_step.
  rewrite (reads_global _ _ Hr1), !(reads_local _ _ Hr3), !(reads_local _ _ Hr2), !(reads_local _ _ Hr1).
  change (map_get no_replication (key_replication_map (rings s')) key) with (vector_at_key s' key).
  destruct (vector_reads s s' key MEMORY Hs) as [-> ->]. destruct (vector_reads s s' key DISK Hs) as [-> ->].
  rewrite Hz. apply HQ. do 3 (etransitivity; [eassumption|]). done.
Qed.

(** The two loop bodies have the shape of [wp_move_loop]. *)
Lemma promote_body free s acc p s' :
  same_reads s s' → p.1 ≠ "" →
  wp (promote_key free acc p) s' (λ acc' s'' out, same_reads s s'' ∧ out = [] ∧
    acc' = match hot s p with
           | None => acc
           | Some size =>
               let '(requests, required, overflow) := acc in
               let required := u64 (required + size) in
               if bool_decide (required > free) then (requests, required, true)
               else (<[p.1 := promoted s p.1]> requests, required, overflow)
           end).
Proof.
  intros Hs Hne. destruct p as [key count]. unfold promote_key, hot, data_key. simpl fst. simpl snd.
  destruct (is_metadata_total key Hne) as [md Hmd]. wp_step. eapply wp_lift_outcome; [exact Hmd|].
  rewrite Hmd. simpl app. destruct (negb md && _); simpl; [|by wp_step].
  wp_step. apply wp_zoom, read_global_rep. intros r1 Hr1. simpl app.
  assert (same_reads s (set_rings r1 s')) as Hs1
    by (eapply same_reads_trans; [exact Hs|by apply same_reads_set]).
  change (map_get no_replication (key_replication_map (rings s')) key) with (vector_at_key s' key).
  destruct (vector_reads s s' key MEMORY Hs) as [-> _]. do 2 wp_step. simpl stats.
  rewrite (proj1 (same_reads_stats s s' Hs)). case_bool_decide as Hz; [|by wp_step].
  destruct (key_size (stats s) !! key) as [size|]; [|by wp_step].
  unfold move_key. destruct acc as [[requests required] overflow]. cbv zeta.
  case_bool_decide; [by wp_step|]. wp_step. apply wp_zoom.
  apply (wp_promoted_vector s); [done|done|]. intros r2 Hr2. wp_step. split_and!; [|done|done].
  eapply same_reads_trans; [exact Hs1|by apply same_reads_set].
Qed.

Lemma demote_body free s acc p s' :
  same_reads s s' → p.1 ≠ "" →
  wp (demote_key c free acc p) s' (λ acc' s'' out, same_reads s s'' ∧ out = [] ∧
    acc' = match cold s p with
           | None => acc
           | Some size =>
               let '(requests, required, overflow) := acc in
               let required := u64 (required + size) in
               if bool_decide (required > free) then (requests, required, true)
               else (<[p.1 := demoted p.1]> requests, required, overflow)
           end).
Proof.
  intros Hs Hne. destruct p as [key count]. unfold demote_key, cold, data_key. simpl fst. simpl snd.
  destruct (is_metadata_total key Hne) as [md Hmd]. wp_step. eapply wp_lift_outcome; [exact Hmd|].
  rewrite Hmd. simpl app. destruct (negb md && _); simpl; [|by wp_step].
  wp_step. apply wp_zoom, read_global_rep. intros r1 Hr1. simpl app.
  assert (same_reads s (set_rings r1 s')) as Hs1
    by (eapply same_reads_trans; [exact Hs|by apply same_reads_set]).
  change (map_get no_replication (key_replication_map (rings s')) key) with (vector_at_key s' key).
  destruct (vector_reads s s' key MEMORY Hs) as [-> _]. do 2 wp_step. simpl stats.
  rewrite (proj1 (same_reads_stats s s' Hs)). case_bool_decide as Hz; [|by wp_step].
  destruct (key_size (stats s) !! key) as [size|]; [|by wp_step].
  unfold move_key. destruct acc as [[requests required] overflow]. cbv zeta.
  case_bool_decide; [by wp_step|]. wp_step. apply wp_zoom. wp_steps. split_and!; [|done|done].
  eapply same_reads_trans; [exact Hs1|by apply same_reads_set].
Qed.

Lemma vector_map_lookup (vector : Key → KeyReplication) (l : list (Key * Z)) key rep :
  list_to_map (M:=gmap Key KeyReplication) (map (λ p, (p.1, vector p.1)) l) !! key = Some rep ↔
  key ∈ l.*1 ∧ rep = vector key.
Proof.
  induction l as [|[k n] l IH]; simpl; [rewrite lookup_empty, elem_of_nil; naive_solver|].
  rewrite elem_of_cons. destruct (decide (k = key)) as [->|Hne].
  - rewrite lookup_insert_eq. naive_solver.
  - rewrite lookup_insert_ne, IH by done. naive_solver.
Qed.

(** What a loop of [movement_policy] leaves. *)
Definition moves_fit_in (pick : Key * Z → option Z) (vector : Key → KeyReplication) (free : Z)
    (keys : list (Key * Z)) (acc : gmap Key KeyReplication * Z * bool) : Prop :=
  let '(requests, required, overflow) := acc in
  required = total_size (candidates pick keys) ∧
  ∃ moved rest, candidates pick keys = moved ++ rest ∧ total_size moved ≤ free ∧
    (overflow = true ↔ rest ≠ []) ∧
    ∀ key rep, requests !! key = Some rep ↔ key ∈ moved.*1 ∧ rep = vector key.

Lemma moved_after_fit pick vector free keys acc :
  moved_after pick vector free keys acc → moves_fit_in pick vector free keys acc.
Proof.
  destruct acc as [[requests required] overflow]. intros (Hr & Ho & moved & rest & Hc & Hf & Hrest & Hreq).
  split; [done|]. exists moved, rest. split; [done|]. split; [done|]. split.
  - rewrite Ho, bool_decide_eq_true, Hrest. lia.
  - intros key rep. rewrite Hreq, vector_map_lookup. by rewrite fmap_reverse, elem_of_reverse.
Qed.

End movement.

(** ** When nodes are added and removed *)
Section elastic.
Context `{Protobuf} `{StdHash} `{Random} `{Clock} (c : MonitorConfig).
Implicit Types (s : MonitorState) (e : Elasticity).

(** Some reading of the clock is past the grace period. *)
Definition grace_over e : Prop := ∃ n, seconds_between (grace_start e) (clock n) > kGracePeriod.

Lemma wp_after_grace act s (Q : unit → MonitorState → list Msg → Prop) :
  Q tt (set_readings (S (readings s)) s) [] →
  (grace_over (elasticity s) → wp act (set_readings (S (readings s)) s) Q) → wp (after_grace act) s Q.
Proof.
  intros Hno Hact. unfold after_grace. do 4 mon_step. mon_steps. case_bool_decide as Ht; [|by wp_steps].
  simpl app. apply Hact. by exists (readings s).
Qed.

Definition disk_ring s : HashRing.t := map_get HashRing.empty (global_hash_rings (rings s)) DISK.

Lemma wp_random_node s (Q : ServerThread.t → MonitorState → list Msg → Prop) :
  HashRing.nodes_ (disk_ring s) ≠ [] →
  (∀ node r, node ∈ (HashRing.nodes_ (disk_ring s)).*2 → reads (rings s) r → Q node (set_rings r s) []) →
  wp (on_rings (random_node DISK)) s Q.
Proof.
  intros Hne HQ. apply wp_zoom. unfold random_node. wp_step. apply read_global_ring. intros r1 Hr1. do 2 wp_step.
  destruct (rand_r (rand_state r1)) as [n rs] eqn:Hrand. wp_steps.
  fold (disk_ring s). set (l := (HashRing.nodes_ (disk_ring s)).*2) in *.
  assert (l ≠ []) as Hl by (unfold l; by intros ?%fmap_nil_inv).
  destruct (pick_thread_elem l n Hl) as (node & Hpick & Hnode).
  eapply wp_lift_outcome; [exact Hpick|]. simpl app. apply HQ; [done|]. destruct Hr1. by split.
Qed.

(** Nodes are added to a tier: only when none are on their way, more are
    [needed] and the grace period is over. *)
Definition grown (tier : Tier) (name : string) (needed : Prop) e e' (out : list Msg) : Prop :=
  out = [] ∧ new_count tier e' = new_count tier e ∨
  needed ∧ new_count tier e = 0 ∧ grace_over e ∧ new_count tier e' = kNodeAdditionBatchSize ∧
  out = [mkMsg (manager_address c) ("add:2:" +:+ name)].

(** A node of the disk tier is removed: only when none is being removed, more
    are there than are required, and the grace period is over. *)
Definition shrunk s (e' : Elasticity) (out : list Msg) : Prop :=
  let e := elasticity s in
  out = [] ∧ removing_ebs_node e' = removing_ebs_node e ∧ departing_node_map e' = departing_node_map e ∨
  removing_ebs_node e = false ∧ grace_over e ∧ removing_ebs_node e' = true ∧
  Z.max (SummaryStats.required_ebs_node (ss s)) kMinEbsTierSize < ebs_node_count s ∧
  ∃ node, node ∈ (HashRing.nodes_ (disk_ring s)).*2 ∧
    departing_node_map e' = <[ServerThread.private_ip node :=
      TierMetadata.thread_number_ (tier_metadata c MEMORY)]> (departing_node_map e) ∧
    out = [mkMsg (ServerThread.self_depart_connect_address node)
             (MonitoringThread.depart_done_connect_address (mt c))].

(** One of the first two steps of the policy. *)
Lemma wp_grow (b : bool) tier name s :
  wp (if b then after_grace (add_node c name kNodeAdditionBatchSize tier) else mret tt) s (λ _ s' out,
    ss s' = ss s ∧ memory_node_count s' = memory_node_count s ∧ ebs_node_count s' = ebs_node_count s ∧
    rings s' = rings s ∧
    (elasticity s' = elasticity s ∧ out = [] ∨
     b = true ∧ grace_over (elasticity s) ∧
     elasticity s' = set_new_count tier kNodeAdditionBatchSize (elasticity s) ∧
     out = [mkMsg (manager_address c) ("add:2:" +:+ name)])).
Proof.
  destruct b; [|wp_step; by split_and!; try left].
  apply wp_after_grace; [split_and!; try done; by left|]. intros Hg. unfold add_node. mon_steps.
  split_and!; try done. right. done.
Qed.

(** C27: the storage policy acts within bounds, whatever the clock shows.  It
    returns; what it sends is at most one request for memory nodes, one for
    disk nodes and one shutdown, in this order, each under its conditions; it
    counts the nodes it asked for, and marks the node it shuts down, one of the
    disk ring. *)
Theorem storage_policy_bounds s :
  (0 < ebs_node_count s → HashRing.nodes_ (disk_ring s) ≠ []) →
  wp (storage_policy c) s (λ _ s' out, ∃ out1 out2 out3, out = out1 ++ out2 ++ out3 ∧
    grown MEMORY "memory" (SummaryStats.required_memory_node (ss s) > memory_node_count s)
      (elasticity s) (elasticity s') out1 ∧
    grown DISK "ebs" (SummaryStats.required_ebs_node (ss s) > ebs_node_count s)
      (elasticity s) (elasticity s') out2 ∧
    shrunk s (elasticity s') out3 ∧
    removing_memory_node (elasticity s') = removing_memory_node (elasticity s) ∧
    reads (rings s) (rings s')).
Proof.
  intros Hring. unfold storage_policy. destruct (kEnableElasticity c).
  2:{ wp_step. exists [], [], []. unfold grown, shrunk. split_and!; (done || by left || reflexivity). }
  do 2 wp_step. wp_step. eapply wp_mono; [apply wp_grow|]. cbv beta.
  intros [] s1 out1 (Hss1 & Hm1 & He1 & Hr1 & Hone). do 2 wp_step. wp_step. eapply wp_mono; [apply wp_grow|]. cbv beta.
  intros [] s2 out2 (Hss2 & Hm2 & He2 & Hr2 & Htwo). do 2 wp_step.
  assert (grace_start (elasticity s2) = grace_start (elasticity s) ∧
    removing_ebs_node (elasticity s2) = removing_ebs_node (elasticity s) ∧
    removing_memory_node (elasticity s2) = removing_memory_node (elasticity s) ∧
    departing_node_map (elasticity s2) = departing_node_map (elasticity s) ∧
    grown MEMORY "memory" (SummaryStats.required_memory_node (ss s) > memory_node_count s)
      (elasticity s) (elasticity s2) out1 ∧
    grown DISK "ebs" (SummaryStats.required_ebs_node (ss s) > ebs_node_count s)
      (elasticity s) (elasticity s2) out2) as (Hg & Hre & Hrm & Hd & Hg1 & Hg2).
  { rewrite Hss1, He1 in *. unfold grown, grace_over in *.
    destruct Hone as [[Heq1 ->]|(Hb1 & ? & Heq1 & ->)], Htwo as [[Heq2 ->]|(Hb2 & ? & Heq2 & ->)];
      rewrite Heq2, Heq1 in *; simpl in *;
      rewrite ?andb_true_iff, ?bool_decide_eq_true in *; naive_solver. }
  assert (disk_ring s2 = disk_ring s) as Hdisk by (unfold disk_ring; by rewrite Hr2, Hr1).
  destruct (_ && _ && _ && _) eqn:Hcond.
  2:{ wp_step. exists out1, out2, []. split; [done|]. split_and!; try done; [by left|by rewrite Hr2, Hr1]. }
  rewrite !andb_true_iff, negb_true_iff, bool_decide_eq_true, Hss2, Hss1, He2, He1, Hre in Hcond.
  destruct Hcond as [[_ Hrem] Hcount].
  apply wp_after_grace.
  { exists out1, out2, []. split; [done|]. split_and!; try done; [by left|simpl; by rewrite Hr2, Hr1]. }
  intros Hover. wp_step. apply wp_random_node.
  { change (HashRing.nodes_ (disk_ring s2) ≠ []). rewrite Hdisk. apply Hring. unfold kMinEbsTierSize in Hcount. lia. }
  intros node r Hnode Hr. unfold remove_node. mon_steps. eexists out1, out2, _. split; [done|]. simpl.
  split_and!; [done|done| |done|by rewrite <-Hr1, <-Hr2]. right. split_and!; try done.
  - unfold grace_over in *. by rewrite <-Hg.
  - lia.
  - exists node. rewrite <-Hdisk, <-Hd. done.
Qed.
End elastic.

Module ExampleMoves.
#[local] Existing Instance bit_protobuf.
#[local] Existing Instance ExampleRing.toy_hash.
#[local] Existing Instance ExampleServer.still.
#[local] Existing Instance ExampleMonitor.seconds.

(** Three memory nodes, a key with a replica on each, and two disk nodes. *)
Definition node (i : Z) : ServerThread.t :=
  ServerThread.mk "M" (if i <? 3000 then "m1" else if i <? 6000 then "m2" else "m3") 0 (i `mod` 3000).
Definition memory_ring : HashRing.t := HashRing.mk (map (λ i, (i, node i)) (seqZ 0 9000)) ∅ ∅.
Definition everywhere : KeyReplication := mkKeyReplication {[MEMORY := 3]} {[MEMORY := 1]}.
Definition three_nodes : MonitorState := ExampleMonitor.monitor_with
  (mkRingState (<[MEMORY := memory_ring]> {[DISK := ExampleRing.ring]}) ∅ {["k" := everywhere]} 0 0).

Lemma withdrawal_wraps_witness :
  wp (withdraw_key ExampleMonitor.config ∅ ("k", 7)) three_nodes (λ requests _ out,
    ∃ rep, requests = {["k" := rep]} ∧ global_rep rep MEMORY = 2 ∧ global_rep rep DISK = 4294967295 ∧
      responsible_global "k" (global_rep rep DISK) ExampleRing.ring = Fail Diverges).
Proof.
  eapply wp_mono; [apply (withdrawal_wraps ExampleMonitor.config "k" 7 ∅ three_nodes 3 ExampleRing.ring)|].
  - reflexivity.
  - reflexivity.
  - vm_compute. reflexivity.
  - simpl. lia.
  - simpl. lia.
  - apply ExampleRing.ring_ok.
  - discriminate.
  - rewrite ExampleRing.ring_two_threads. simpl. lia.
  - cbv beta. intros requests s' out (rep & -> & _ & Hm & Hd & Hdiv). exists rep. rewrite insert_empty.
    split_and!; [done|rewrite Hm; reflexivity|rewrite Hd; reflexivity|].
    specialize (Hdiv 0). rewrite Z.max_l in Hdiv; [exact Hdiv|rewrite Hd; simpl; lia].
Defined.

(** Two keys on disk, of 9 and 8 bytes; one fits in 10. *)
Definition two_keys : MonitorState :=
  set_stats (mkStats ∅ ∅ (<["k" := 9]> {["l" := 8]}) (mkTierStats ∅ ∅ ∅) (mkTierStats ∅ ∅ ∅)) ExampleMonitor.monitor.


(** Two nodes on disk that are not needed. *)
Definition two_disks : MonitorState :=
  set_node_counts 0 2 (ExampleMonitor.monitor_with (mkRingState {[DISK := ExampleRing.ring]} ∅ ∅ 0 0)).

Lemma storage_policy_bounds_witness :
  wp (storage_policy ExampleMonitor.config) two_disks (λ _ s' out,
    (length out ≤ 3)%nat ∧ removing_memory_node (elasticity s') = false).
Proof.
  eapply wp_mono; [apply (storage_policy_bounds ExampleMonitor.config two_disks)|].
  - intros _. discriminate.
  - cbv beta. intros [] s' out (out1 & out2 & out3 & -> & Hg1 & Hg2 & Hs & Hrm & _). split; [|exact Hrm].
    rewrite !length_app. assert (length out1 ≤ 1 ∧ length out2 ≤ 1 ∧ length out3 ≤ 1)%nat as (? & ? & ?); [|lia].
    destruct Hg1 as [[-> _]|(_ & _ & _ & _ & ->)], Hg2 as [[-> _]|(_ & _ & _ & _ & ->)],
      Hs as [[-> _]|(_ & _ & _ & _ & node & _ & _ & ->)]; simpl; lia.
Defined.
End ExampleMoves.
