(* ===== verification/MonitorReplication.v ===== *)
(** What changing the replication of keys does: [change_replication_factor] of
    src/monitor/replication_helpers.cpp stores the new vectors, tells every
    server and router that has to know, and takes back the vectors that could
    not be stored. *)

From Stdlib Require Import Lia SpecFloat Ascii.
From S2P Require Import Prelude Text Ordered Threads Wire WireCodec Codec Metadata HashRing RingUtil Handlers.
From S2P Require Import ServerState Replication ServerLoop Requests Doubles MonitorState MonitorStats MonitorPolicy.
From S2P Require Import MonitorMoves.

(** ** One synchronous request *)
Section answers.
Context `{Protobuf}.

(** What the socket gives for a request id: the response (empty without one),
    whether there is one, and what the socket holds afterwards. *)
Definition answer_of (id : string) (events : list (option string))
    : KeyResponse.t * bool * list (option string) :=
  match receive KeyResponse.response_id (events ++ [None]) {[id]} [] with
  | Some (true, _, r :: _, rest) => (r, true, rest)
  | Some (_, _, _, rest) => (KeyResponse.empty, false, rest)
  | None => (KeyResponse.empty, false, [])
  end.

Lemma timeouts_snoc events : (1 ≤ timeouts (events ++ [None]))%nat.
Proof. unfold timeouts. rewrite filter_app, length_app. simpl. lia. Qed.

Lemma make_request_answer id events :
  Requests.make_request KeyResponse.response_id KeyResponse.empty id (events ++ [None]) =
    Some (let '(r, b, rest) := answer_of id events in (Ok r, b, rest)).
Proof.
  unfold Requests.make_request, answer_of, receive. rewrite size_singleton. change (u32 (Z.of_nat 1)) with 1.
  destruct (receive_loop_spec KeyResponse.response_id (events ++ [None]) {[id]} 1 [])
    as (b & ids' & rs & rest & -> & Hb).
  - intros Heq. by apply non_empty_singleton_L in Heq.
  - lia.
  - pose proof (timeouts_snoc events). lia.
  - destruct b; [|done]. destruct Hb as (_ & rs' & -> & _ & Hids). destruct rs' as [|r rs']; [|done].
    assert (id ∈ (map KeyResponse.response_id [] : list string)) as ?%elem_of_nil; [|done].
    apply Hids. by apply elem_of_singleton.
Qed.

Context `{Clock}.
Implicit Types (s : MonitorState).

Lemma wp_make_request request address s (Q : KeyResponse.t * bool → MonitorState → list Msg → Prop) :
  (let '(r, b, rest) := answer_of (KeyRequest.request_id request) (response_puller s) in
   Q (r, b) (set_response_puller rest s) [mkMsg address (SerializeToString request)]) →
  wp (make_request request address) s Q.
Proof.
  intros HQ. unfold make_request. do 2 wp_step. do 2 wp_step. rewrite make_request_answer.
  destruct (answer_of _ _) as [[r b] rest]. do 2 wp_step. wp_step. eapply wp_lift_outcome; [done|]. by wp_step.
Qed.

(** The keys that a store refused. *)
Definition refused (request : KeyRequest.t) (answer : KeyResponse.t * bool) : gset Key :=
  if answer.2
  then data_keys (filter (λ tuple, KeyTuple.error tuple = WRONG_THREAD) (KeyResponse.tuples answer.1))
  else data_keys (KeyRequest.tuples request).

Fixpoint refused_keys (stores : list (Address * KeyRequest.t)) (events : list (option string)) : gset Key :=
  match stores with
  | [] => ∅
  | (_, request) :: stores =>
      let '(r, b, rest) := answer_of (KeyRequest.request_id request) events in
      refused request (r, b) ∪ refused_keys stores rest
  end.

Definition store_messages (stores : list (Address * KeyRequest.t)) : list Msg :=
  map (λ '(address, request), mkMsg address (SerializeToString request)) stores.

Lemma wp_store_vectors stores failed s :
  wp (for_acc stores failed store_vectors) s (λ failed' s' out,
    failed' = refused_keys stores (response_puller s) ∪ failed ∧
    set_response_puller (response_puller s) s' = s ∧ out = store_messages stores).
Proof.
  revert failed s. induction stores as [|[address request] stores IH]; intros failed s; cbn [for_acc].
  { wp_step. cbn [refused_keys]. rewrite (left_id_L ∅ (∪)). by destruct s. }
  wp_step. unfold store_vectors at 1. wp_step. apply wp_make_request. simpl fst. simpl snd. simpl refused_keys.
  destruct (answer_of _ _) as [[r b] rest]. cbv iota.
  eapply (wp_mono _ _ (λ failed' s' out, failed' = refused request (r, b) ∪ failed ∧
    s' = set_response_puller rest s ∧ out = [])); [unfold refused; simpl; by destruct b; wp_step|].
  intros failed1 s1 out1 (-> & -> & ->). eapply wp_mono; [apply IH|]. cbv beta.
  intros failed2 s2 out2 (-> & Hs & ->). simpl in *. split_and!; [set_solver| |done].
  by destruct s, s2; simplify_eq/=.
Qed.
End answers.

(** ** Storing the vectors *)
Section storing.
Context `{Protobuf} `{StdHash} `{Random} `{Clock} (c : MonitorConfig).
Implicit Types (r : RingState) (s : MonitorState) (key : Key) (rep : KeyReplication).

(** The tuple that stores a vector. *)
Definition vector_tuple (ts : Z) key rep : KeyTuple.t :=
  KeyTuple.mk (get_metadata_key key replication) LWW NO_ERROR
    (serialize_value ts (SerializeToString (replication_factor key rep))) 0 false.

(** The requests of [m] are kept, each with more tuples at most. *)
Definition requests_grow (m m' : gmap Address KeyRequest.t) : Prop :=
  ∀ a req, m !! a = Some req → ∃ req', m' !! a = Some req' ∧
    ∃ tuples, KeyRequest.tuples req' = KeyRequest.tuples req ++ tuples.

Definition carries_tuple (m : gmap Address KeyRequest.t) (a : Address) (tuple : KeyTuple.t) : Prop :=
  ∃ req, m !! a = Some req ∧ tuple ∈ KeyRequest.tuples req.

Lemma carries_tuple_grow m m' a tuple : requests_grow m m' → carries_tuple m a tuple → carries_tuple m' a tuple.
Proof.
  intros Hg (req & Ha & Ht). destruct (Hg a req Ha) as (req' & Ha' & tuples & Htu).
  exists req'. split; [done|]. rewrite Htu. apply elem_of_app. by left.
Qed.

Lemma requests_grow_refl m : requests_grow m m.
Proof. intros a req Ha. exists req. split; [done|]. exists []. by rewrite app_nil_r. Qed.

Lemma requests_grow_trans m1 m2 m3 : requests_grow m1 m2 → requests_grow m2 m3 → requests_grow m1 m3.
Proof.
  intros H12 H23 a req Ha. destruct (H12 a req Ha) as (req2 & Hm2 & t2 & E2).
  destruct (H23 a req2 Hm2) as (req3 & Hm3 & t3 & E3). exists req3. split; [done|]. exists (t2 ++ t3).
  by rewrite E3, E2, app_assoc.
Qed.

Lemma requests_grow_insert m a req req' tuples :
  map_get KeyRequest.empty m a = req → KeyRequest.tuples req' = KeyRequest.tuples req ++ tuples →
  requests_grow m (<[a := req']> m).
Proof.
  intros Hreq Ht b r Hb. destruct (decide (a = b)) as [->|Hne].
  - rewrite lookup_insert_eq. exists req'. split; [done|]. exists tuples. rewrite Ht, <-Hreq.
    unfold map_get. by rewrite Hb.
  - rewrite lookup_insert_ne by done. exists r. split; [done|]. exists []. by rewrite app_nil_r.
Qed.

Lemma generate_timestamp_zero time : ∃ ts, Timestamp.generate_timestamp time 0 = Ok ts.
Proof. unfold Timestamp.generate_timestamp. by eexists. Qed.

Lemma wp_prepare_put time key rep g l m response_address rid0 r threads :
  get_responsible_threads_metadata (base c) (get_metadata_key key replication) g l = Ok threads →
  wp (prepare_metadata_put_request (base c) time (get_metadata_key key replication)
        (SerializeToString (replication_factor key rep)) g l m response_address rid0) r
    (λ res r' out, set_rand_state (rand_state r) r' = r ∧ out = [] ∧ requests_grow m res.1 ∧
      (threads ≠ [] → ∃ th ts, th ∈ threads ∧
         carries_tuple res.1 (ServerThread.key_request_connect_address th) (vector_tuple ts key rep))).
Proof.
  intros Hthreads. unfold prepare_metadata_put_request, prepare_metadata_request.
  wp_step. wp_step. eapply wp_lift_outcome; [exact Hthreads|]. case_bool_decide as Hne; simpl negb; cbv iota.
  { wp_steps. simpl. wp_steps. split_and!; [by destruct r|done|apply requests_grow_refl|done]. }
  do 2 wp_step. destruct (rand_r (rand_state r)) as [n rs]. do 2 wp_step. wp_step.
  destruct (pick_thread_elem threads n Hne) as (th & Hpick & Hth). eapply wp_lift_outcome; [exact Hpick|].
  cbv zeta. set (a := ServerThread.key_request_connect_address th).
  destruct (generate_timestamp_zero time) as [ts Hts].
  eapply (wp_mono _ _ (λ res r' out, ∃ m1 rid1, res = (a, m1, rid1) ∧ r' = set_rand_state rs r ∧ out = [] ∧
    requests_grow m m1)).
  { destruct (m !! a) as [req|] eqn:Ha; wp_steps.
    - exists m, rid0. split_and!; try done. apply requests_grow_refl.
    - do 2 eexists. split_and!; try done. eapply (requests_grow_insert _ _ KeyRequest.empty _ []); [|done].
      unfold map_get. by rewrite Ha. }
  intros ? r1 out1 (m1 & rid1 & -> & -> & -> & Hg). simpl. wp_step. eapply wp_lift_outcome; [exact Hts|].
  wp_steps. simpl. split_and!; [by destruct r|done| |].
  - eapply requests_grow_trans; [exact Hg|]. by eapply requests_grow_insert.
  - intros _. exists th, ts. split; [done|]. eexists. split; [apply lookup_insert_eq|].
    simpl. apply elem_of_app. right. by left.
Qed.

(** The rings read alike; the routers and the response socket are the same. *)
Definition cluster_same s s' : Prop :=
  (∀ tier, map_get HashRing.empty (global_hash_rings (rings s')) tier =
           map_get HashRing.empty (global_hash_rings (rings s)) tier) ∧
  (∀ tier, map_get HashRing.empty (local_hash_rings (rings s')) tier =
           map_get HashRing.empty (local_hash_rings (rings s)) tier) ∧
  routing_ips s' = routing_ips s ∧ response_puller s' = response_puller s.

Definition changed_vector (old new : KeyReplication) : KeyReplication :=
  if KeyReplication_eqb new old then old else new.

Definition metadata_threads_of s key : outcome (list ServerThread.t) :=
  get_responsible_threads_metadata (base c) (get_metadata_key key replication)
    (map_get HashRing.empty (global_hash_rings (rings s)) MEMORY)
    (map_get HashRing.empty (local_hash_rings (rings s)) MEMORY).

(** The new vector of a key is in a request to a thread that keeps it. *)
Definition stored_in s (m : gmap Address KeyRequest.t) key rep : Prop :=
  ∀ threads, metadata_threads_of s key = Ok threads → threads ≠ [] →
  ∃ th ts, th ∈ threads ∧
    carries_tuple m (ServerThread.key_request_connect_address th) (vector_tuple ts key rep).

Lemma wp_change_vector orig m key rep s threads :
  metadata_threads_of s key = Ok threads →
  wp (change_vector c (orig, m) (key, rep)) s (λ res s' out, out = [] ∧ cluster_same s s' ∧
    res.1 = <[key := vector_at_key s key]> orig ∧
    (∀ k, vector_at_key s' k = if bool_decide (k = key) then changed_vector (vector_at_key s key) rep
                               else vector_at_key s k) ∧
    requests_grow m res.2 ∧
    (KeyReplication_eqb rep (vector_at_key s key) = false → stored_in s res.2 key rep)).
Proof.
  intros Hthreads. unfold change_vector, replication_at, changed_vector. wp_step. apply wp_zoom. wp_steps.
  fold (vector_at_key s key). destruct (KeyReplication_eqb rep (vector_at_key s key)).
  - wp_step. simpl. split_and!; try done; [|apply requests_grow_refl].
    intros k. unfold vector_at_key. simpl. rewrite map_touch_get. case_bool_decide; by subst.
  - unfold get_time. mon_steps. unfold global_ring_at, local_ring_at. wp_steps. simpl.
    eapply wp_mono; [apply wp_prepare_put; exact Hthreads|]. cbv beta.
    intros [m' rid'] r' out (Hrand & -> & Hg & Hst). cbv iota beta. wp_steps. simpl in *.
    destruct r' as [g l kv seed0 rand0]. injection Hrand as -> -> -> ->.
    split_and!; [done| |done| |done|].
    + split_and!; simpl; [intros; apply map_touch_get|intros; apply map_touch_get|done|done].
    + intros k. unfold vector_at_key. simpl. case_bool_decide as Hk; [subst; apply map_get_insert_eq|].
      by rewrite map_get_insert_ne, map_touch_get.
    + intros _ threads' Hthreads' Hne. rewrite Hthreads in Hthreads'. injection Hthreads' as <-. by apply Hst.
Qed.

Lemma cluster_same_refl s : cluster_same s s.
Proof. done. Qed.

Lemma cluster_same_trans s1 s2 s3 : cluster_same s1 s2 → cluster_same s2 s3 → cluster_same s1 s3.
Proof.
  intros (G1 & L1 & R1 & P1) (G2 & L2 & R2 & P2). split_and!; [| |congruence|congruence].
  - intros tier. by rewrite G2.
  - intros tier. by rewrite L2.
Qed.

Lemma metadata_threads_same s s' key : cluster_same s s' → metadata_threads_of s' key = metadata_threads_of s key.
Proof. intros (G & L & _). unfold metadata_threads_of. by rewrite G, L. Qed.

(** The first loop. *)
Lemma wp_change_vectors l orig m s :
  NoDup l.*1 → (∀ key rep, (key, rep) ∈ l → ∃ threads, metadata_threads_of s key = Ok threads) →
  wp (for_acc l (orig, m) (change_vector c)) s (λ res s' out, out = [] ∧ cluster_same s s' ∧
    (∀ k, res.1 !! k = if bool_decide (k ∈ l.*1) then Some (vector_at_key s k) else orig !! k) ∧
    (∀ k, vector_at_key s' k = match list_to_map (M:=gmap Key KeyReplication) l !! k with
                               | Some rep => changed_vector (vector_at_key s k) rep
                               | None => vector_at_key s k
                               end) ∧
    requests_grow m res.2 ∧
    (∀ key rep, (key, rep) ∈ l → KeyReplication_eqb rep (vector_at_key s key) = false →
       stored_in s res.2 key rep)).
Proof.
  revert orig m s. induction l as [|[key rep] l IH]; intros orig m s Hnd Hthreads; cbn [for_acc].
  { wp_step. split_and!; try done. apply requests_grow_refl. by intros ? ? ?%elem_of_nil. }
  rewrite fmap_cons in Hnd. apply NoDup_cons in Hnd as [Hkey Hnd]. destruct (Hthreads key rep ltac:(by left)) as [threads Hth].
  wp_step. eapply wp_mono; [by eapply wp_change_vector|]. cbv beta.
  intros [orig1 m1] s1 out1 (-> & Hc1 & Ho1 & Hv1 & Hg1 & Hst1). simpl in Ho1, Hg1, Hst1. subst orig1.
  eapply wp_mono; [apply IH; [done|]|].
  { intros k r Hin. rewrite (metadata_threads_same s s1) by done. apply (Hthreads k r). by right. }
  cbv beta. intros [orig2 m2] s2 out2 (-> & Hc2 & Ho2 & Hv2 & Hg2 & Hst2). cbn [fst snd] in *.
  rewrite fmap_cons in *. cbn [fst] in *.
  assert (∀ k, k ≠ key → vector_at_key s1 k = vector_at_key s k) as Hother
    by (intros k Hk; by rewrite Hv1, bool_decide_eq_false_2).
  split_and!; [done|by eapply cluster_same_trans| | |by eapply requests_grow_trans|].
  - intros k. rewrite Ho2. destruct (decide (k = key)) as [->|Hne].
    + rewrite bool_decide_eq_false_2 by done. rewrite lookup_insert_eq, bool_decide_eq_true_2; [done|by left].
    + rewrite lookup_insert_ne by done. rewrite Hother by done.
      rewrite (bool_decide_ext (k ∈ key :: l.*1) (k ∈ l.*1)) by (rewrite elem_of_cons; naive_solver). done.
  - intros k. rewrite Hv2, list_to_map_cons. destruct (decide (k = key)) as [->|Hne].
    + rewrite (not_elem_of_list_to_map_1 l key), lookup_insert_eq by done. by rewrite Hv1, bool_decide_eq_true_2.
    + rewrite lookup_insert_ne, Hother by done. done.
  - intros k r [[= -> ->]|Hin]%elem_of_cons Heqb.
    + intros threads' Ht' Hne. destruct (Hst1 Heqb threads' Ht' Hne) as (th & ts & ? & Hcar).
      exists th, ts. split; [done|]. by eapply carries_tuple_grow.
    + assert (k ≠ key) as Hne by (intros ->; apply Hkey; apply list_elem_of_fmap; by exists (key, r)).
      unfold stored_in. intros threads' Ht' Hne'. apply (Hst2 k r Hin); [by rewrite Hother| |done].
      by rewrite (metadata_threads_same s s1).
Qed.
End storing.

(** ** Announcing the vectors *)
Section announcing.
Context `{Protobuf} `{StdHash} `{Random} `{Clock} (c : MonitorConfig).
Implicit Types (s : MonitorState) (key : Key) (rep : KeyReplication)
  (m : gmap Address ReplicationFactorUpdate.t).

(** Vectors that read alike. *)
Definition reads_as (rep rep' : KeyReplication) : Prop :=
  ∀ tier, global_rep rep tier = global_rep rep' tier ∧ local_rep rep tier = local_rep rep' tier.

(** The update for [a] has the vector of the key. *)
Definition told m (a : Address) key (v : KeyReplication) : Prop :=
  ∃ update rep, m !! a = Some update ∧
    replication_factor key rep ∈ ReplicationFactorUpdate.updates update ∧ reads_as rep v.

Definition updates_grow m m' : Prop := ∀ a key v, told m a key v → told m' a key v.

Lemma updates_grow_refl m : updates_grow m m.
Proof. by intros a key v. Qed.

Lemma updates_grow_trans m1 m2 m3 : updates_grow m1 m2 → updates_grow m2 m3 → updates_grow m1 m3.
Proof. intros H12 H23 a key v Ht. by apply H23, H12. Qed.

Lemma same_reads_vector s s' key : same_reads s s' → reads_as (vector_at_key s' key) (vector_at_key s key).
Proof. intros Hs tier. by apply vector_reads. Qed.

Lemma same_reads_routing s s' : same_reads s s' → routing_ips s' = routing_ips s.
Proof. by intros [_ <-]. Qed.

Lemma told_reads m a key v v' : reads_as v v' → told m a key v → told m a key v'.
Proof.
  intros Hv (update & rep & Ha & Hin & Hr). exists update, rep. split_and!; [done|done|].
  intros tier. destruct (Hr tier), (Hv tier). split; congruence.
Qed.

Lemma wp_prepare_update key m a s :
  wp (prepare_replication_factor_update key m a) s (λ m' s' out,
    out = [] ∧ same_reads s s' ∧ updates_grow m m' ∧ told m' a key (vector_at_key s key)).
Proof.
  unfold prepare_replication_factor_update. wp_step. apply wp_zoom, read_vector. intros r Hr. wp_step.
  split_and!; [done|by apply same_reads_set| |].
  - intros b k v (update & rep & Hb & Hin & Hrep). destruct (decide (a = b)) as [->|Hne].
    + eexists _, rep. split; [apply lookup_insert_eq|]. split; [|done]. simpl.
      unfold map_get. rewrite Hb. apply elem_of_app. by left.
    + exists update, rep. by rewrite lookup_insert_ne.
  - eexists _, _. split; [apply lookup_insert_eq|]. split; [|done]. simpl. apply elem_of_app. right. by left.
Qed.

Lemma wp_tell_all {A} (address : A → Address) (targets : list A) key m s :
  wp (for_acc targets m (λ m x, prepare_replication_factor_update key m (address x))) s (λ m' s' out,
    out = [] ∧ same_reads s s' ∧ updates_grow m m' ∧
    ∀ x, x ∈ targets → told m' (address x) key (vector_at_key s key)).
Proof.
  eapply wp_mono; [apply (wp_for_acc (λ xs m' s' out, out = [] ∧ same_reads s s' ∧ updates_grow m m' ∧
    ∀ x, x ∈ xs → told m' (address x) key (vector_at_key s key)))|done].
  - split_and!; [done|apply same_reads_refl|apply updates_grow_refl|by intros ? ?%elem_of_nil].
  - intros xs x m1 s1 out _ (-> & Hs1 & Hg1 & Ht1). eapply wp_mono; [apply wp_prepare_update|].
    intros m2 s2 out2 (-> & Hs2 & Hg2 & Ht2). split_and!; [done|by eapply same_reads_trans|by eapply updates_grow_trans|].
    intros y [Hy|Hy%list_elem_of_singleton]%elem_of_app; [by apply Hg2, Ht1|]. subst.
    eapply told_reads; [by apply same_reads_vector|done].
Qed.

(** The servers of a tier that have to know of a change. *)
Definition holders s (orig : gmap Key KeyReplication) key (tier : Tier) : outcome (list ServerThread.t) :=
  responsible_global key
    (Z.max (global_rep (vector_at_key s key) tier) (global_rep (map_get no_replication orig key) tier))
    (map_get HashRing.empty (global_hash_rings (rings s)) tier).

Lemma holders_same s s' orig key tier : same_reads s s' → holders s' orig key tier = holders s orig key tier.
Proof.
  intros Hs. unfold holders. destruct (vector_reads s s' key tier Hs) as [-> _].
  by rewrite (reads_global_ring _ _ (proj1 Hs)).
Qed.

(** Everybody who has to know of the vector of a key is told. *)
Definition all_told m s (orig : gmap Key KeyReplication) key : Prop :=
  (∀ tier threads th, tier ∈ kAllTiers → holders s orig key tier = Ok threads → th ∈ threads →
     told m (ServerThread.replication_change_connect_address th) key (vector_at_key s key)) ∧
  (∀ ip, ip ∈ routing_ips s →
     told m (RoutingThread.replication_change_connect_address (RoutingThread.new ip 0)) key (vector_at_key s key)).

Lemma all_told_grow m m' s orig key : updates_grow m m' → all_told m s orig key → all_told m' s orig key.
Proof. intros Hg [Ht Hr]. split; eauto. Qed.

Lemma wp_announce orig failed m request s :
  (∀ tier, tier ∈ kAllTiers → request.1 ∉ failed → ∃ threads, holders s orig request.1 tier = Ok threads) →
  wp (announce_vector orig failed m request) s (λ m' s' out,
    out = [] ∧ same_reads s s' ∧ updates_grow m m' ∧ (request.1 ∉ failed → all_told m' s orig request.1)).
Proof.
  intros Hh. unfold announce_vector. case_bool_decide as Hf.
  { wp_step. split_and!; [done|apply same_reads_refl|apply updates_grow_refl|done]. }
  wp_step. eapply wp_mono.
  { apply (wp_for_acc (λ tiers m' s' out, out = [] ∧ same_reads s s' ∧ updates_grow m m' ∧
      ∀ tier threads th, tier ∈ tiers → holders s orig request.1 tier = Ok threads → th ∈ threads →
        told m' (ServerThread.replication_change_connect_address th) request.1 (vector_at_key s request.1))).
    { split_and!; [done|apply same_reads_refl|apply updates_grow_refl|by intros ? ? ? ?%elem_of_nil]. }
    intros tiers tier m1 s1 out Htier (-> & Hs1 & Hg1 & Ht1). destruct (Hh tier Htier Hf) as [threads Hthreads].
    unfold affected_threads. wp_step. wp_step. apply wp_zoom, read_global_rep. intros r2 Hr2.
    wp_step. apply wp_zoom, read_global_ring. intros r3 Hr3.
    eapply (wp_lift_outcome _ _ threads).
    { simpl. rewrite (reads_global_ring _ _ Hr2). rewrite <-Hthreads, <-(holders_same s s1) by done. done. }
    eapply wp_mono; [apply wp_tell_all|]. cbv beta. intros m4 s4 out4 (-> & Hs4 & Hg4 & Ht4). simpl app.
    assert (same_reads s (set_rings r3 (set_rings r2 s1))) as Hs3.
    { eapply same_reads_trans; [exact Hs1|]. eapply same_reads_trans; [by apply same_reads_set|].
      by apply same_reads_set. }
    split_and!; [done|by eapply same_reads_trans|by eapply updates_grow_trans|].
    intros t ths th [Ht|Ht%list_elem_of_singleton]%elem_of_app Hths Hth; [by eapply Hg4, Ht1|]. subst t.
    rewrite Hthreads in Hths. injection Hths as <-. eapply told_reads; [by apply same_reads_vector|by apply Ht4]. }
  cbv beta. intros m1 s1 out1 (-> & Hs1 & Hg1 & Ht1). do 2 wp_step.
  rewrite (same_reads_routing s s1) by done.
  eapply wp_mono; [apply wp_tell_all|]. cbv beta. intros m2 s2 out2 (-> & Hs2 & Hg2 & Ht2).
  split_and!; [done|by eapply same_reads_trans|by eapply updates_grow_trans|]. intros _. split.
  - intros tier threads th Htier Hths Hth. by eapply Hg2, Ht1.
  - intros ip Hip. eapply told_reads; [by apply same_reads_vector|by apply Ht2].
Qed.

(** The third loop. *)
Lemma wp_announce_all orig failed l s :
  (∀ key rep tier, (key, rep) ∈ l → tier ∈ kAllTiers → key ∉ failed →
     ∃ threads, holders s orig key tier = Ok threads) →
  wp (for_acc l ∅ (announce_vector orig failed)) s (λ m s' out,
    out = [] ∧ same_reads s s' ∧ ∀ key rep, (key, rep) ∈ l → key ∉ failed → all_told m s orig key).
Proof.
  intros Hh. eapply wp_mono; [apply (wp_for_acc (λ xs m s' out, out = [] ∧ same_reads s s' ∧
    ∀ key rep, (key, rep) ∈ xs → key ∉ failed → all_told m s orig key))|done].
  - split_and!; [done|apply same_reads_refl|by intros ? ? ?%elem_of_nil].
  - intros xs [key rep] m1 s1 out Hin (-> & Hs1 & Ht1). eapply wp_mono; [apply wp_announce|].
    { intros tier Htier Hf. destruct (Hh key rep tier Hin Htier Hf) as [threads Hths].
      exists threads. by rewrite (holders_same s). }
    cbv beta. intros m2 s2 out2 (-> & Hs2 & Hg2 & Ht2). split_and!; [done|by eapply same_reads_trans|].
    intros k r [Hk|Hk%list_elem_of_singleton]%elem_of_app Hf; [by eapply all_told_grow, Ht1|].
    injection Hk as -> ->. destruct (Ht2 Hf) as [Hths Hips]. simpl in Hths, Hips. split.
    + intros tier threads th Htier Hhold Hth. eapply told_reads; [by apply same_reads_vector|].
      eapply Hths; [done| |done]. by rewrite (holders_same s).
    + intros ip Hip. eapply told_reads; [by apply same_reads_vector|]. apply Hips.
      by rewrite (same_reads_routing s).
Qed.
End announcing.

(** ** The whole change *)
Section changing.
Context `{Protobuf} `{StdHash} `{Random} `{Clock} (c : MonitorConfig).
Implicit Types (s : MonitorState) (key : Key) (rep : KeyReplication) (requests : gmap Key KeyReplication).

(** The servers of a tier that keep the key before or after the change. *)
Definition affected s key rep (tier : Tier) : outcome (list ServerThread.t) :=
  responsible_global key
    (Z.max (global_rep (changed_vector (vector_at_key s key) rep) tier) (global_rep (vector_at_key s key) tier))
    (map_get HashRing.empty (global_hash_rings (rings s)) tier).

(** Every server that keeps the key and every router is told its new vector. *)
Definition announced s (updates : gmap Address ReplicationFactorUpdate.t) key rep : Prop :=
  let vector := changed_vector (vector_at_key s key) rep in
  (∀ tier threads th, tier ∈ kAllTiers → affected s key rep tier = Ok threads → th ∈ threads →
     told updates (ServerThread.replication_change_connect_address th) key vector) ∧
  (∀ ip, ip ∈ routing_ips s →
     told updates (RoutingThread.replication_change_connect_address (RoutingThread.new ip 0)) key vector).

(** The vector of a key when the change is done. *)
Definition settled_vector s requests (failed : gset Key) key : KeyReplication :=
  match requests !! key with
  | Some rep => if bool_decide (key ∈ failed) then vector_at_key s key
                else changed_vector (vector_at_key s key) rep
  | None => if bool_decide (key ∈ failed) then no_replication else vector_at_key s key
  end.

Definition update_messages (updates : gmap Address ReplicationFactorUpdate.t) : list Msg :=
  map (λ '(address, update), mkMsg address (SerializeToString update)) (map_to_list updates).

Lemma wp_send_updates (updates : list (Address * ReplicationFactorUpdate.t)) s :
  wp (for_each updates (λ '(address, update), send_string (SerializeToString update) address)) s
    (λ _ s' out, s' = s ∧ out = map (λ '(address, update), mkMsg address (SerializeToString update)) updates).
Proof.
  induction updates as [|[address update] updates IH]; cbn [for_each]; [by wp_step|].
  wp_step. wp_step. eapply wp_mono; [apply IH|]. by intros ? s' out [-> ->].
Qed.

Lemma foldl_restore (orig m : gmap Key KeyReplication) (keys : list Key) key :
  map_get no_replication (foldl (λ m k, <[k := map_get no_replication orig k]> m) m keys) key =
  if bool_decide (key ∈ keys) then map_get no_replication orig key else map_get no_replication m key.
Proof.
  revert m. induction keys as [|k keys IH]; intros m; [by rewrite bool_decide_eq_false_2 by apply not_elem_of_nil|].
  simpl foldl. rewrite IH. destruct (decide (key ∈ keys)) as [Hin|Hin].
  { rewrite !bool_decide_eq_true_2; [done|by right|done]. }
  rewrite (bool_decide_eq_false_2 _ Hin). destruct (decide (k = key)) as [->|Hne].
  - rewrite map_get_insert_eq, bool_decide_eq_true_2; [done|by left].
  - rewrite map_get_insert_ne, bool_decide_eq_false_2; [done|by intros [?|?]%elem_of_cons|done].
Qed.

(** What the first two loops leave: the vectors of the requested keys replaced,
    the old ones kept aside. *)
Record changed s requests (orig : gmap Key KeyReplication) s' : Prop := {
  changed_cluster : cluster_same s (set_response_puller (response_puller s) s');
  changed_orig key : orig !! key = (λ _, vector_at_key s key) <$> requests !! key;
  changed_vectors key : vector_at_key s' key =
    from_option (changed_vector (vector_at_key s key)) (vector_at_key s key) (requests !! key);
}.

Lemma holders_changed s requests orig s' key rep tier :
  changed s requests orig s' → requests !! key = Some rep → holders s' orig key tier = affected s key rep tier.
Proof.
  intros [(Hg & _) Ho Hv] Hkey. unfold holders, affected. simpl in Hg. rewrite Hg, Hv, Hkey. simpl.
  unfold map_get at 1. by rewrite Ho, Hkey.
Qed.

Lemma all_told_announced s requests orig s' updates key rep :
  changed s requests orig s' → requests !! key = Some rep → all_told updates s' orig key → announced s updates key rep.
Proof.
  intros Hch Hkey [Hths Hips]. pose proof (changed_vectors _ _ _ _ Hch key) as Hv. rewrite Hkey in Hv. simpl in Hv.
  rewrite Hv in Hths, Hips. split.
  - intros tier threads th Htier Haff Hth. eapply Hths; [done| |done]. by erewrite holders_changed.
  - intros ip Hip. apply Hips. destruct (changed_cluster _ _ _ _ Hch) as (_ & _ & Hr & _). simpl in Hr. by rewrite Hr.
Qed.

Lemma settled s requests orig s' s'' failed key :
  changed s requests orig s' → same_reads s' s'' →
  reads_as (map_get no_replication (foldl (λ m k, <[k := map_get no_replication orig k]> m)
              (key_replication_map (rings s'')) (elements failed)) key)
    (settled_vector s requests failed key).
Proof.
  intros [_ Ho Hv] Hs. rewrite foldl_restore. unfold settled_vector.
  rewrite (bool_decide_ext _ (key ∈ failed)) by apply elem_of_elements.
  pose proof (same_reads_vector s' s'' key Hs) as Hread. rewrite Hv in Hread.
  assert (map_get no_replication orig key = from_option (λ _, vector_at_key s key) no_replication (requests !! key)) as ->.
  { unfold map_get. rewrite Ho. by destruct (requests !! key). }
  destruct (requests !! key); simpl in *; by case_bool_decide.
Qed.

(** The first two loops. *)
Lemma wp_change_and_store requests s :
  (∀ key, key ∈ dom requests → ∃ threads, metadata_threads_of c s key = Ok threads) →
  wp (for_acc (map_to_list requests) (∅, ∅) (change_vector c)) s (λ res s1 out1, out1 = [] ∧
    wp (for_acc (map_to_list res.2) ∅ store_vectors) s1 (λ failed s' out, changed s requests res.1 s' ∧
      (∀ key rep, requests !! key = Some rep → KeyReplication_eqb rep (vector_at_key s key) = false →
         stored_in c s res.2 key rep) ∧
      failed = refused_keys (map_to_list res.2) (response_puller s) ∧
      out = store_messages (map_to_list res.2))).
Proof.
  intros Hmeta. eapply wp_mono; [apply wp_change_vectors; [apply NoDup_fst_map_to_list|]|].
  { intros key rep Hin%elem_of_map_to_list. apply Hmeta. by apply elem_of_dom_2 in Hin. }
  cbv beta. intros [orig stores] s1 out1 (-> & (Hg & Hl & Hr & Hp) & Ho & Hv & _ & Hst). cbn [fst snd] in *.
  setoid_rewrite list_to_map_to_list in Hv. setoid_rewrite elem_of_map_to_list in Hst. split; [done|].
  eapply wp_mono; [apply wp_store_vectors|]. cbv beta. intros failed s2 out2 (-> & Hs2 & ->). rewrite Hp in *.
  assert (rings s1 = rings s2) as Hrings by (by rewrite <-Hs2).
  split_and!; [|done|by rewrite (right_id_L ∅ (∪))|done].
  split; [unfold cluster_same; simpl; rewrite <-Hrings; split_and!; try done; by rewrite <-Hr, <-Hs2| |].
  - intros key. rewrite Ho. simpl. destruct (requests !! key) as [rep|] eqn:Hkey.
    + rewrite bool_decide_eq_true_2; [done|]. apply list_elem_of_fmap. exists (key, rep). by rewrite elem_of_map_to_list.
    + rewrite bool_decide_eq_false_2; [done|]. intros ([k rep] & -> & Hin%elem_of_map_to_list)%list_elem_of_fmap. simplify_eq/=.
  - intros key. unfold vector_at_key at 1. rewrite <-Hrings. unfold vector_at_key at 1 in Hv. rewrite Hv.
    by destruct (requests !! key).
Qed.

(** C20: [change_replication_factor], when the storage threads of the metadata
    and the holders of the keys can be computed: each vector that changes is
    sent, in the requests that are stored first, to a thread that keeps the
    replication metadata of its key; the keys that fail are those of the
    requests without an answer and those whose tuple was refused with error 2;
    then, for each other key, every server that held the key or holds it now, in
    every tier, and every router is sent the new vector; and when it is done the
    vector of a failed key is the one from before, that of another requested key
    the new one, and no other vector has changed, save that a key that was
    refused without having been asked for loses its vector. *)
Theorem replication_change_applied requests s :
  (∀ key, key ∈ dom requests → ∃ threads, metadata_threads_of c s key = Ok threads) →
  (∀ key rep tier, requests !! key = Some rep → tier ∈ kAllTiers → ∃ threads, affected s key rep tier = Ok threads) →
  wp (change_replication_factor c requests) s (λ _ s' out, ∃ stores updates,
    let failed := refused_keys (map_to_list stores) (response_puller s) in
    out = store_messages (map_to_list stores) ++ update_messages updates ∧
    (∀ key rep, requests !! key = Some rep → KeyReplication_eqb rep (vector_at_key s key) = false →
       stored_in c s stores key rep) ∧
    (∀ key rep, requests !! key = Some rep → key ∉ failed → announced s updates key rep) ∧
    (∀ key, reads_as (vector_at_key s' key) (settled_vector s requests failed key))).
Proof.
  intros Hmeta Haff. unfold change_replication_factor. wp_step.
  eapply wp_mono; [by apply wp_change_and_store|]. cbv beta. intros [orig stores] s1 out1 [-> Hstore].
  cbn [fst snd] in Hstore. wp_step. eapply wp_mono; [exact Hstore|]. cbv beta.
  intros failed s2 out2 (Hch & Hst & -> & ->). wp_step.
  eapply wp_mono; [apply wp_announce_all|].
  { intros key rep tier Hkey%elem_of_map_to_list Htier _. erewrite holders_changed by done. by apply Haff. }
  cbv beta. intros updates s3 out3 (-> & Hs3 & Htold). wp_step. eapply wp_mono; [apply wp_send_updates|].
  cbv beta. intros [] s4 out4 [-> ->]. apply wp_zoom. wp_step. exists stores, updates.
  split_and!; [by rewrite app_nil_r|done| |].
  - intros key rep Hkey Hf. eapply all_told_announced; [done|done|]. apply (Htold key rep); [|done].
    by apply elem_of_map_to_list.
  - intros key. by eapply settled.
Qed.
End changing.

Module ExampleReplication.
#[local] Existing Instance bit_protobuf.
#[local] Existing Instance ExampleRing.toy_hash.
#[local] Existing Instance ExampleServer.still.
#[local] Existing Instance ExampleMonitor.seconds.

(** A second replica for the key ["k"]; one router. *)
Definition twice : KeyReplication := mkKeyReplication {[MEMORY := 2]} {[MEMORY := 1]}.
Definition cluster : MonitorState :=
  set_routing_ips ["r"] (ExampleMonitor.monitor_with ExampleServer.ring_state).

Lemma replication_change_applied_witness :
  wp (change_replication_factor ExampleMonitor.config {["k" := twice]}) cluster (λ _ s' out, ∃ stores updates,
    out = store_messages (map_to_list stores) ++ update_messages updates ∧
    stored_in ExampleMonitor.config cluster stores "k" twice ∧
    let failed := refused_keys (map_to_list stores) (response_puller cluster) in
    reads_as (vector_at_key s' "k") (if bool_decide ("k" ∈ failed) then ExampleServer.once else twice) ∧
    ("k" ∉ failed → ∀ node, node ∈ [ExampleRing.st_a; ExampleRing.st_b] →
       told updates (ServerThread.replication_change_connect_address node) "k" twice)).
Proof.
  eapply wp_mono; [apply (replication_change_applied ExampleMonitor.config {["k" := twice]} cluster)|].
  - intros key. rewrite dom_singleton. intros ->%elem_of_singleton. eexists. vm_compute. reflexivity.
  - intros key rep tier [<- <-]%lookup_singleton_Some Htier.
    apply elem_of_cons in Htier as [-> | ->%list_elem_of_singleton]; eexists; vm_compute; reflexivity.
  - cbv beta. intros [] s' out (stores & updates & Hout & Hst & Hann & Hvec). exists stores, updates.
    split; [exact Hout|]. split; [by apply Hst|]. cbv zeta. split; [exact (Hvec "k")|].
    intros Hf node Hnode. destruct (Hann "k" twice eq_refl Hf) as [Hths _].
    apply (Hths MEMORY [ExampleRing.st_a; ExampleRing.st_b]); [by left|vm_compute; reflexivity|exact Hnode].
Defined.
End ExampleReplication.
