(* ===== verification/Startup.v ===== *)
(** How the processes start: the [main] functions of the server, the routing
    node, the monitoring node and the command line client, which read their
    configuration from one YAML file and start their threads, and the sockets
    these threads bind.

    yaml-cpp is a parameter: its nodes, [LoadFile], [operator[]] and the
    conversions [as<T>()], each of which can throw. *)

From Stdlib Require Import Ascii Lia.
From S2P Require Import Prelude Text Threads Wire Metadata HashRing RingUtil Client.
From S2P Require Import ServerLoop Routing MonitorState.

Class Yaml := {
  Node : Type;
  LoadFile : string → outcome Node;
  child : Node → string → outcome Node;
  as_unsigned : Node → outcome Z;
  as_int : Node → outcome Z;
  as_bool : Node → outcome bool;
  as_string : Node → outcome string;
  (** What [for (const YAML::Node &node : list)] meets. *)
  nodes_of : Node → list Node;
  (** [operator bool] *)
  is_defined : Node → bool;
}.

(** [as<unsigned>()] gives an [unsigned]. *)
Class YamlLaws `{Yaml} : Prop := as_unsigned_u32 n k : as_unsigned n = Ok k → is_u32 k.

(** A [main] that returned its exit code, or whose threads run. *)
Inductive Started (A : Type) := Exited (code : Z) | Running (process : A).
Arguments Exited {A} code.
Arguments Running {A} process.

(** [as<unsigned>() * 1000000], in [unsigned] arithmetic. *)
Definition capacity (n : Z) : Z := u32 (n * 1000000).

(** [kTierMetadata[Tier::MEMORY] = ...; kTierMetadata[Tier::DISK] = ...;] *)
Definition tier_table (memory ebs : TierMetadata.t) : gmap Tier TierMetadata.t :=
  <[DISK := ebs]> (<[MEMORY := memory]> ∅).

Section mains.
Context `{Yaml}.

Definition unsigned_at (n : Node) (name : string) : outcome Z := x ← child n name; as_unsigned x.
Definition bool_at (n : Node) (name : string) : outcome bool := x ← child n name; as_bool x.
Definition string_at (n : Node) (name : string) : outcome string := x ← child n name; as_string x.

(** [for (node : list) ips.push_back(node.as<Address>());] *)
Fixpoint addresses (l : list Node) : outcome (list Address) :=
  match l with
  | [] => Ok []
  | n :: l => ip ← as_string n; ips ← addresses l; Ok (ip :: ips)
  end.

(** ** The server *)
Record ServerProcess := mkServerProcess {
  server_config : Config;
  server_public_ip : Address;
  server_private_ip : Address;
  server_seed_ip : Address;
  server_mgmt_ip : Address;
  server_routing_ips : list Address;
  server_monitoring_ips : list Address;
}.

(** SERVER_TYPE, compared with [strncmp] up to the length of the name. *)
Definition self_tier (stype : option string) : option Tier :=
  match stype with
  | None => Some MEMORY
  | Some stype =>
      if String.prefix "memory" stype then Some MEMORY
      else if String.prefix "ebs" stype then Some DISK
      else None
  end.

(** The globals a server does not have, [kRoutingThreadCount] and
    [kMinimumReplicaNumber], are 0 in its [Config]. *)
Definition server_main (argc : Z) (stype : option string) : outcome (Started ServerProcess) :=
  if negb (bool_decide (argc = 1)) then Ok (Exited 1) else
  match self_tier stype with
  | None => Ok (Exited 1)
  | Some tier =>
      conf ← LoadFile "conf/anna-config.yml";
      threads ← child conf "threads";
      memory_threads ← unsigned_at threads "memory";
      ebs_threads ← unsigned_at threads "ebs";
      capacities ← child conf "capacities";
      memory_cap ← unsigned_at capacities "memory-cap";
      ebs_cap ← unsigned_at capacities "ebs-cap";
      replication ← child conf "replication";
      memory_rep ← unsigned_at replication "memory";
      ebs_rep ← unsigned_at replication "ebs";
      local_rep ← unsigned_at replication "local";
      server ← child conf "server";
      public_ip ← string_at server "public_ip";
      private_ip ← string_at server "private_ip";
      seed_ip ← string_at server "seed_ip";
      mgmt_ip ← string_at server "mgmt_ip";
      monitoring ← child server "monitoring";
      routing ← child server "routing";
      routing_ips ← addresses (nodes_of routing);
      monitoring_ips ← addresses (nodes_of monitoring);
      let table := tier_table (TierMetadata.mk MEMORY memory_threads memory_rep (capacity memory_cap))
                     (TierMetadata.mk DISK ebs_threads ebs_rep (capacity ebs_cap)) in
      let thread_num := TierMetadata.thread_number_ (map_get TierMetadata.empty table tier) in
      Ok (Running (mkServerProcess
            (mkConfig tier thread_num memory_threads ebs_threads 0 local_rep 0 table)
            public_ip private_ip seed_ip mgmt_ip routing_ips monitoring_ips))
  end.

(** [worker_threads], in the order they are started, by their ids; thread 0 is
    the main thread. *)
Definition worker_threads (thread_num : Z) : list Z := seqZ 1 (thread_num - 1).

Definition server_threads (p : ServerProcess) : list ServerThread.t :=
  ServerThread.new (server_public_ip p) (server_private_ip p) <$>
    worker_threads (kThreadNum (server_config p)) ++ [0].

(** After [run(0, ...)] has returned:
    [for (tid = 1; tid < kThreadNum; tid++) worker_threads[tid].join();].
    The result lists the threads that were joined. *)
Fixpoint join_each (workers : list Z) (tids : list Z) : outcome (list Z) :=
  match tids with
  | [] => Ok []
  | tid :: tids =>
      worker ← vector_at workers (Z.to_nat tid);
      joined ← join_each workers tids;
      Ok (worker :: joined)
  end.
Definition join_workers (thread_num : Z) : outcome (list Z) :=
  join_each (worker_threads thread_num) (seqZ 1 (thread_num - 1)).

(** ** The routing node *)
Record RoutingProcess := mkRoutingProcess {
  routing_config : Config;
  routing_ip : Address;
  routing_monitoring_ips : list Address;
}.

(** A router has neither a tier of its own nor [kMinimumReplicaNumber]; its
    [main] keeps the thread counts of the tiers in locals. *)
Definition routing_main (argc : Z) : outcome (Started RoutingProcess) :=
  if negb (bool_decide (argc = 1)) then Ok (Exited 1) else
  conf ← LoadFile "conf/anna-config.yml";
  threads ← child conf "threads";
  memory_threads ← unsigned_at threads "memory";
  ebs_threads ← unsigned_at threads "ebs";
  routing_threads ← unsigned_at threads "routing";
  capacities ← child conf "capacities";
  memory_cap ← unsigned_at capacities "memory-cap";
  ebs_cap ← unsigned_at capacities "ebs-cap";
  replication ← child conf "replication";
  memory_rep ← unsigned_at replication "memory";
  ebs_rep ← unsigned_at replication "ebs";
  local_rep ← unsigned_at replication "local";
  routing ← child conf "routing";
  ip ← string_at routing "ip";
  monitoring ← child routing "monitoring";
  monitoring_ips ← addresses (nodes_of monitoring);
  let table := tier_table (TierMetadata.mk MEMORY memory_threads memory_rep (capacity memory_cap))
                 (TierMetadata.mk DISK ebs_threads ebs_rep (capacity ebs_cap)) in
  Ok (Running (mkRoutingProcess
        (mkConfig TIER_UNSPECIFIED 0 memory_threads ebs_threads routing_threads local_rep 0 table)
        ip monitoring_ips)).

Definition routing_threads (p : RoutingProcess) : list RoutingThread.t :=
  RoutingThread.new (routing_ip p) <$> worker_threads (kRoutingThreadCount (routing_config p)) ++ [0].

(** ** The monitoring node *)
Definition monitoring_main (argc : Z) : outcome (Started MonitorConfig) :=
  if negb (bool_decide (argc = 1)) then Ok (Exited 1) else
  conf ← LoadFile "conf/anna-config.yml";
  monitoring ← child conf "monitoring";
  ip ← string_at monitoring "ip";
  management_ip ← string_at monitoring "mgmt_ip";
  policy ← child conf "policy";
  elasticity ← bool_at policy "elasticity";
  selective_rep ← bool_at policy "selective-rep";
  tiering ← bool_at policy "tiering";
  threads ← child conf "threads";
  memory_threads ← unsigned_at threads "memory";
  ebs_threads ← unsigned_at threads "ebs";
  capacities ← child conf "capacities";
  memory_cap ← unsigned_at capacities "memory-cap";
  ebs_cap ← unsigned_at capacities "ebs-cap";
  replication ← child conf "replication";
  memory_rep ← unsigned_at replication "memory";
  ebs_rep ← unsigned_at replication "ebs";
  local_rep ← unsigned_at replication "local";
  minimum ← unsigned_at replication "minimum";
  let table := tier_table (TierMetadata.mk MEMORY memory_threads memory_rep (capacity memory_cap))
                 (TierMetadata.mk DISK ebs_threads ebs_rep (capacity ebs_cap)) in
  Ok (Running (mkMonitorConfig
        (mkConfig TIER_UNSPECIFIED 0 memory_threads ebs_threads 0 local_rep minimum table)
        elasticity tiering selective_rep management_ip (MonitoringThread.new ip))).

(** ** Clients *)

(** [user["routing-elb"]] if it is there, [user["routing"]] otherwise. *)
Definition user_routing_ips (user : Node) : outcome (list Address) :=
  elb ← child user "routing-elb";
  if is_defined elb then ip ← as_string elb; Ok [ip]
  else routing ← child user "routing"; addresses (nodes_of routing).

Definition user_routing_threads (thread_count : Z) (routing_ips : list Address)
    : list UserRoutingThread.t :=
  addr ← routing_ips;
  UserRoutingThread.new addr <$> seqZ 0 thread_count.

Record ClientProcess := mkClientProcess {
  client_routing_threads : list UserRoutingThread.t;
  client_thread : UserThread.t;
  client_timeout : Z;
  (** The file with commands, or the terminal. *)
  client_input : option string;
}.

(** [main] of client/cpp/cli.cpp; [args] are the arguments after the name of
    the binary. *)
Definition cli_main (args : list string) : outcome (Started ClientProcess) :=
  match args with
  | conf_file :: input =>
      if bool_decide (1 < length input)%nat then Ok (Exited 1) else
      conf ← LoadFile conf_file;
      threads ← child conf "threads";
      count ← unsigned_at threads "routing";
      user ← child conf "user";
      ip ← string_at user "ip";
      routing_ips ← user_routing_ips user;
      Ok (Running (mkClientProcess (user_routing_threads count routing_ips) (UserThread.new ip 0) 10000
                     (head input)))
  | [] => Ok (Exited 1)
  end.
End mains.

(** The constructor of [KvsClient]: [seed_] is the time, the hash of the IP and
    the thread id, added up in [unsigned]. *)
Definition new_client `{StdHash} (ut : UserThread.t) (time : Z) : KvsClient.ClientState :=
  KvsClient.new (time + std_hash (UserThread.ip ut) + UserThread.tid ut).

(** ** Sockets *)

(** Bound in [run] of src/kvs/server.cpp. *)
Definition server_sockets (wt : ServerThread.t) : list Address :=
  [ServerThread.node_join_bind_address wt; ServerThread.node_depart_bind_address wt;
   ServerThread.self_depart_bind_address wt; ServerThread.key_request_bind_address wt;
   ServerThread.gossip_bind_address wt; ServerThread.replication_response_bind_address wt;
   ServerThread.replication_change_bind_address wt; ServerThread.cache_ip_response_bind_address wt;
   ServerThread.management_node_response_bind_address wt].

(** Bound in [run] of src/route/routing.cpp. *)
Definition routing_sockets (rt : RoutingThread.t) : list Address :=
  [RoutingThread.seed_bind_address rt; RoutingThread.notify_bind_address rt;
   RoutingThread.replication_response_bind_address rt; RoutingThread.replication_change_bind_address rt;
   RoutingThread.key_address_bind_address rt].

(** Bound in [main] of src/monitor/monitoring.cpp. *)
Definition monitoring_sockets : list Address :=
  [MonitoringThread.response_bind_address; MonitoringThread.notify_bind_address;
   MonitoringThread.depart_done_bind_address; MonitoringThread.feedback_report_bind_address].

(** Bound in the constructor of [KvsClient]. *)
Definition client_sockets (ut : UserThread.t) : list Address :=
  [UserThread.key_address_bind_address ut; UserThread.response_bind_address ut].

(** ** Lemmas *)
Lemma outcome_bind_Ok {A B} (m : outcome A) (f : A → outcome B) b :
  m ≫= f = Ok b → ∃ a, m = Ok a ∧ f a = Ok b.
Proof. destruct m as [a|]; [by exists a|done]. Qed.

(** Takes a [main] that returned apart into the reads that gave its result. *)
Ltac main_inv :=
  repeat match goal with
  | H : ?m ≫= _ = Ok _ |- _ => apply outcome_bind_Ok in H as (? & ? & H)
  | H : Ok _ = Ok _ |- _ => injection H as H
  | H : Running _ = Running _ |- _ => injection H as <-
  | H1 : ?x = Ok ?a, H2 : ?x = Ok ?b |- _ =>
      let E := fresh in assert (a = b) as E by congruence; destruct E; clear H2
  end.

Lemma length_worker_threads n : length (worker_threads n) = Z.to_nat (n - 1).
Proof. apply length_seqZ. Qed.

(** A process runs the threads 0 .. n-1 when n is positive. *)
Lemma worker_threads_all n : 1 ≤ n → worker_threads n ++ [0] ≡ₚ seqZ 0 n.
Proof.
  intros Hn. unfold worker_threads. rewrite (seqZ_cons 0 n) by lia.
  replace (Z.succ 0) with 1 by lia. replace (Z.pred n) with (n - 1) by lia.
  by rewrite <-Permutation_cons_append.
Qed.

(** Thread 0 runs whatever the number of threads. *)
Lemma elem_of_threads n tid : tid ∈ worker_threads n ++ [0] ↔ 0 ≤ tid < Z.max 1 n.
Proof.
  unfold worker_threads. rewrite elem_of_app, elem_of_seqZ, list_elem_of_singleton. lia.
Qed.

Lemma NoDup_threads n : NoDup (worker_threads n ++ [0]).
Proof.
  apply NoDup_app. split; [apply NoDup_seqZ|]. split; [|apply NoDup_singleton].
  intros x Hx%elem_of_seqZ Hx0%list_elem_of_singleton. lia.
Qed.

(** ** One configuration file, one view of the cluster *)
Section agreement.
Context `{Yaml}.

(** The addresses a client asks at a router's IP are those of its threads. *)
Lemma client_routers count ips ip a :
  1 ≤ count → ip ∈ UserRoutingThread.ip <$> user_routing_threads count ips →
  a ∈ RoutingThread.key_address_connect_address <$> (RoutingThread.new ip <$> worker_threads count ++ [0]) ↔
  ∃ t, t ∈ user_routing_threads count ips ∧ UserRoutingThread.ip t = ip ∧
       a = UserRoutingThread.key_address_connect_address t.
Proof.
  intros Hcount (t & -> & Ht)%list_elem_of_fmap. unfold user_routing_threads in *.
  apply list_elem_of_bind in Ht as (ip & Ht & Hip).
  apply list_elem_of_fmap in Ht as (tid & -> & _). simpl.
  rewrite <-list_fmap_compose, list_elem_of_fmap. split.
  - intros (i & -> & Hi%elem_of_threads). exists (UserRoutingThread.new ip i).
    split; [|done]. apply list_elem_of_bind. exists ip. split; [|done].
    apply list_elem_of_fmap_2, elem_of_seqZ. lia.
  - intros ([ip' i] & (ip'' & (i' & [= -> ->] & Hi%elem_of_seqZ)%list_elem_of_fmap & _)%list_elem_of_bind
             & Heq & ->). simpl in Heq. subst ip''. exists i'. split; [done|].
    apply elem_of_threads. lia.
Qed.

Lemma self_tier_known stype tier : self_tier stype = Some tier → tier = MEMORY ∨ tier = DISK.
Proof. unfold self_tier. intros. repeat case_match; simplify_eq; auto. Qed.

(** The tier of a server is in the table, under its own name. *)
Lemma tier_table_at stype tier mt et mr er mc ec :
  self_tier stype = Some tier →
  let table := tier_table (TierMetadata.mk MEMORY mt mr mc) (TierMetadata.mk DISK et er ec) in
  ∃ tm, table !! tier = Some tm ∧ TierMetadata.id_ tm = tier ∧ map_get TierMetadata.empty table tier = tm.
Proof. intros [-> | ->]%self_tier_known; eexists; by repeat split. Qed.

Lemma server_thread_ids p :
  ServerThread.tid <$> server_threads p = worker_threads (kThreadNum (server_config p)) ++ [0].
Proof. unfold server_threads. rewrite <-list_fmap_compose. apply list_fmap_id. Qed.

End agreement.

(** ** Capacities *)
Lemma capacity_exact n : is_u32 n → capacity n = n * 1000000 ↔ n ≤ 4294.
Proof.
  unfold is_u32, capacity, u32. intros Hn. split.
  - intros Heq. pose proof (Z.mod_pos_bound (n * 1000000) (2 ^ 32)). lia.
  - intros ?. apply Z.mod_small. lia.
Qed.

(** The capacity of a tier's nodes that the monitor plans with is the
    configured one exactly up to 4294; a larger one is reduced modulo 2^32. *)
Theorem capacity_bounds `{YamlLaws} m conf caps (tier : Tier) (name : string) cap :
  monitoring_main 1 = Ok (Running m) →
  LoadFile "conf/anna-config.yml" = Ok conf → child conf "capacities" = Ok caps →
  (tier, name) ∈ [(MEMORY, "memory-cap"); (DISK, "ebs-cap")] → unsigned_at caps name = Ok cap →
  (node_capacity m tier = cap * 1000000 ↔ cap ≤ 4294) ∧ node_capacity m tier = u32 (cap * 1000000).
Proof.
  intros Hm Hconf Hcaps Hin Hcap. unfold monitoring_main in Hm. simpl in Hm. main_inv. subst.
  assert (is_u32 cap) as Hu32.
  { apply outcome_bind_Ok in Hcap as (? & _ & Hcap). by eapply as_unsigned_u32. }
  apply capacity_exact in Hu32. rewrite !elem_of_cons, elem_of_nil in Hin.
  destruct Hin as [[= -> ->]|[[= -> ->]|[]]]; main_inv; exact (conj Hu32 eq_refl).
Qed.

(** ** The end of a server *)

(** Joining the threads at in-range indices. *)
Lemma join_each_prefix n k :
  0 ≤ k ≤ n - 2 → join_each (worker_threads n) (seqZ 1 k) = Ok (seqZ 2 k).
Proof.
  enough (∀ (l : nat) i, 0 ≤ i → i + Z.of_nat l ≤ n - 1 →
          join_each (worker_threads n) (seqZ i (Z.of_nat l)) = Ok (seqZ (i + 1) (Z.of_nat l))) as Hall.
  { intros Hk. specialize (Hall (Z.to_nat k) 1). rewrite Z2Nat.id in Hall by lia. apply Hall; lia. }
  induction l as [|l IH]; intros i Hi Hl; [done|].
  rewrite !(seqZ_cons _ (Z.of_nat (S l))) by lia. simpl.
  replace (Z.pred (Z.of_nat (S l))) with (Z.of_nat l) by lia.
  assert (worker_threads n !! Z.to_nat i = Some (i + 1)) as Hw.
  { unfold worker_threads. rewrite lookup_seqZ. lia. }
  unfold vector_at. rewrite Hw. simpl.
  rewrite IH by lia. by replace (Z.succ i + 1) with (Z.succ (i + 1)) by lia.
Qed.

Lemma join_each_app workers l1 l2 :
  join_each workers (l1 ++ l2) =
  (j1 ← join_each workers l1; j2 ← join_each workers l2; Ok (j1 ++ j2)).
Proof.
  induction l1 as [|i l1 IH]; simpl.
  - by destruct (join_each workers l2).
  - destruct (vector_at _ _); simpl; [|done]. rewrite IH.
    destruct (join_each workers l1); simpl; [|done]. by destruct (join_each workers l2).
Qed.

(** When the main thread of a server has departed, joining the other
    threads indexes past the end of their vector whenever there are any: the
    thread with id [i] is at index [i - 1], so the loop waits for the threads
    2 .. n-1, never for thread 1, and then runs into undefined behaviour. *)
Theorem join_out_of_range n :
  join_workers n = (if bool_decide (n ≤ 1) then Ok []
                    else Fail (UndefinedBehaviour "vector index out of range")) ∧
  (2 ≤ n → join_each (worker_threads n) (seqZ 1 (n - 2)) = Ok (seqZ 2 (n - 2)) ∧
           1 ∈ worker_threads n ∧ 1 ∉ seqZ 2 (n - 2)).
Proof.
  split.
  - case_bool_decide; unfold join_workers.
    { rewrite (seqZ_nil 1 (n - 1)) by lia. done. }
    replace (n - 1) with ((n - 2) + 1) by lia. rewrite seqZ_app by lia.
    rewrite join_each_app, join_each_prefix by lia. simpl.
    unfold vector_at. by rewrite lookup_ge_None_2 by (rewrite length_worker_threads; lia).
  - intros Hn. split; [apply join_each_prefix; lia|].
    unfold worker_threads. rewrite !elem_of_seqZ. lia.
Qed.

(** ** The sockets of a machine that runs one process of each kind *)
Definition machine_sockets (p : ServerProcess) (r : RoutingProcess) (u : ClientProcess) : list Address :=
  (server_threads p ≫= server_sockets) ++ (routing_threads r ≫= routing_sockets) ++
  monitoring_sockets ++ client_sockets (client_thread u).

(** The same sockets as pairs of a thread and a port, in the same order. *)
Definition routing_ports : list Z :=
  [kSeedPort; kRoutingNotifyPort; kRoutingReplicationResponsePort; kRoutingReplicationChangePort;
   kKeyAddressPort].
Definition server_bound_ports : list Z :=
  [kNodeJoinPort; kNodeDepartPort; kSelfDepartPort; kKeyRequestPort; kGossipPort;
   kServerReplicationResponsePort; kServerReplicationChangePort; kCacheIpResponsePort;
   kManagementNodeResponsePort].
Definition single_ports : list Z :=
  [kMonitoringResponsePort; kMonitoringNotifyPort; kDepartDonePort; kFeedbackReportPort;
   kUserKeyAddressPort; kUserResponsePort].
Definition on_ports (ports : list Z) (tid : Z) : list (Z * Z) := pair tid <$> ports.
Definition bound (x : Z * Z) : Address := bind_address x.1 x.2.

Definition machine_ports (n k : Z) : list (Z * Z) :=
  ((worker_threads n ++ [0]) ≫= on_ports server_bound_ports) ++
  ((worker_threads k ++ [0]) ≫= on_ports routing_ports) ++ on_ports single_ports 0.

Lemma bind_as_fmap {A B C D} (f : A → B) (g : B → list C) (h : A → list D) (b : D → C) l :
  (∀ x, g (f x) = b <$> h x) → (f <$> l) ≫= g = b <$> (l ≫= h).
Proof.
  intros Heq. induction l as [|x l IH]; [done|].
  rewrite fmap_cons, !bind_cons, fmap_app. by rewrite Heq, IH.
Qed.

Lemma machine_sockets_ports p r u :
  UserThread.tid (client_thread u) = 0 →
  machine_sockets p r u =
  bound <$> machine_ports (kThreadNum (server_config p)) (kRoutingThreadCount (routing_config r)).
Proof.
  intros Hu. unfold machine_sockets, machine_ports, server_threads, routing_threads.
  rewrite (fmap_app bound), (fmap_app bound). f_equal; [|f_equal].
  - by apply bind_as_fmap.
  - by apply bind_as_fmap.
  - unfold client_sockets, UserThread.key_address_bind_address, UserThread.response_bind_address.
    by rewrite Hu.
Qed.

Lemma elem_of_on_ports ports tid x : x ∈ on_ports ports tid ↔ x.1 = tid ∧ x.2 ∈ ports.
Proof.
  unfold on_ports. rewrite list_elem_of_fmap. destruct x as [i q]; simpl. split.
  - by intros (? & [= -> ->] & ?).
  - intros [-> ?]. by exists q.
Qed.

Lemma elem_of_bound_ports n ports x :
  x ∈ (worker_threads n ++ [0]) ≫= on_ports ports ↔ 0 ≤ x.1 < Z.max 1 n ∧ x.2 ∈ ports.
Proof.
  rewrite list_elem_of_bind. setoid_rewrite elem_of_on_ports. rewrite <-elem_of_threads. split.
  - by intros (? & [-> ?] & ?).
  - intros []. by exists x.1.
Qed.

Lemma NoDup_bound_ports n ports : NoDup ports → NoDup ((worker_threads n ++ [0]) ≫= on_ports ports).
Proof.
  intros Hp. apply NoDup_bind; [| |apply NoDup_threads].
  - intros x1 x2 y _ _ [<- _]%elem_of_on_ports [<- _]%elem_of_on_ports. done.
  - intros x _. by apply (NoDup_fmap_2 _).
Qed.

(** No (thread, port) pair is listed twice. *)
Lemma NoDup_machine_ports n k : NoDup (machine_ports n k).
Proof.
  assert (∀ q, q ∈ server_bound_ports → q ∉ routing_ports ++ single_ports) as Hserver.
  { apply Forall_forall. by apply (bool_decide_unpack _). }
  assert (∀ q, q ∈ routing_ports → q ∉ single_ports) as Hrouting.
  { apply Forall_forall. by apply (bool_decide_unpack _). }
  unfold machine_ports. rewrite !NoDup_app. repeat split.
  - apply NoDup_bound_ports. by apply (bool_decide_unpack _).
  - intros x [_ Hx]%elem_of_bound_ports. apply Hserver in Hx. rewrite elem_of_app in Hx.
    rewrite elem_of_app, elem_of_bound_ports, elem_of_on_ports. naive_solver.
  - apply NoDup_bound_ports. by apply (bool_decide_unpack _).
  - intros x [_ Hx]%elem_of_bound_ports [_ Hx']%elem_of_on_ports. by eapply Hrouting.
  - by apply (bool_decide_unpack _).
Qed.

Lemma machine_ports_known n k x :
  n ≤ 50 → k ≤ 50 → x ∈ machine_ports n k → x.2 ∈ all_ports ∧ 0 ≤ x.1 < 50.
Proof.
  assert (∀ q, q ∈ server_bound_ports ++ routing_ports ++ single_ports → q ∈ all_ports) as Hall.
  { apply Forall_forall. by apply (bool_decide_unpack _). }
  intros Hn Hk. unfold machine_ports.
  rewrite !elem_of_app, !elem_of_bound_ports, elem_of_on_ports.
  intros [[? ?]|[[? ?]|[? ?]]]; (split; [apply Hall; rewrite !elem_of_app; auto|lia]).
Qed.

Lemma NoDup_fmap_clash {A B} (f : A → B) l x y : NoDup (f <$> l) → x ∈ l → y ∈ l → f x = f y → x = y.
Proof.
  intros Hnd (i & Hi)%list_elem_of_lookup_1 (j & Hj)%list_elem_of_lookup_1 Heq.
  assert (i = j) as ->; [|by simplify_eq].
  eapply NoDup_lookup; [exact Hnd|by rewrite list_lookup_fmap, Hi|].
  by rewrite list_lookup_fmap, Hj, Heq.
Qed.

(** On a machine that runs a server, a router, a monitor and the command
    line client, no two sockets are bound to the same address exactly when the
    server and the router have at most 50 threads each. *)
Theorem machine_sockets_distinct p r u :
  UserThread.tid (client_thread u) = 0 →
  NoDup (machine_sockets p r u) ↔
  kThreadNum (server_config p) ≤ 50 ∧ kRoutingThreadCount (routing_config r) ≤ 50.
Proof.
  intros Hu. rewrite machine_sockets_ports by done.
  generalize (kThreadNum (server_config p)) (kRoutingThreadCount (routing_config r)). intros n k. split.
  - intros Hnd. assert (∀ x y, x ∈ machine_ports n k → y ∈ machine_ports n k → bound x = bound y → x = y)
      as Hinj by (intros x y; by apply NoDup_fmap_clash).
    unfold machine_ports in Hinj. split; apply Z.nlt_ge; intros Hlt.
    + specialize (Hinj (50, kNodeJoinPort) (0, kNodeDepartPort)).
      rewrite !elem_of_app, !elem_of_bound_ports in Hinj. simpl in Hinj.
      discriminate Hinj; [left; split; [lia|by apply (bool_decide_unpack _)]..|done].
    + specialize (Hinj (50, kSeedPort) (0, kRoutingNotifyPort)).
      rewrite !elem_of_app, !elem_of_bound_ports in Hinj. simpl in Hinj.
      discriminate Hinj; [right; left; split; [lia|by apply (bool_decide_unpack _)]..|done].
  - intros [Hn Hk]. apply NoDup_fmap_2_strong; [|apply NoDup_machine_ports].
    intros [i q] [j q'] [Hq Hi]%machine_ports_known [Hq' Hj]%machine_ports_known Heq; [|done..].
    by destruct (sockets_disjoint q q' i j) as [-> ->].
Qed.

(** ** Examples *)
Module ExampleStartup.

(** A node as the scalars below it with their paths; "-" leads to the items of
    a sequence. *)
Definition Entries : Type := list (list string * string).

Definition subscript (n : Entries) (key : string) : outcome Entries :=
  match n with
  | [] => Fail (Throws "YAML::InvalidNode")
  | _ => Ok (omap (λ e, match e.1 with k :: path => if bool_decide (k = key) then Some (path, e.2) else None
                                     | [] => None end) n)
  end.
Definition scalar (n : Entries) : outcome string :=
  match n with [([], x)] => Ok x | _ => Fail (Throws "YAML::BadConversion") end.
Definition scalar_unsigned (n : Entries) : outcome Z :=
  x ← scalar n; k ← stoi x;
  if bool_decide (0 ≤ k) then Ok (u32 k) else Fail (Throws "YAML::BadConversion").
Definition scalar_bool (n : Entries) : outcome bool := x ← scalar n; Ok (bool_decide (x = "true")).
Definition sequence (n : Entries) : list Entries :=
  omap (λ e, match e.1 with ["-"] => Some [([], e.2)] | _ => None end) n.

(** The entries of conf/anna-config.yml that are read, with a larger [ebs-cap]. *)
Definition file : Entries :=
  [(["threads"; "memory"], "4"); (["threads"; "ebs"], "4"); (["threads"; "routing"], "4");
   (["capacities"; "memory-cap"], "45"); (["capacities"; "ebs-cap"], "5000");
   (["replication"; "memory"], "1"); (["replication"; "ebs"], "0");
   (["replication"; "local"], "1"); (["replication"; "minimum"], "1");
   (["policy"; "elasticity"], "true"); (["policy"; "selective-rep"], "true");
   (["policy"; "tiering"], "false");
   (["monitoring"; "ip"], "127.0.0.1"); (["monitoring"; "mgmt_ip"], "127.0.0.1");
   (["routing"; "ip"], "127.0.0.1"); (["routing"; "monitoring"; "-"], "127.0.0.1");
   (["user"; "ip"], "127.0.0.1"); (["user"; "routing"; "-"], "127.0.0.1");
   (["server"; "public_ip"], "127.0.0.1"); (["server"; "private_ip"], "127.0.0.1");
   (["server"; "seed_ip"], "127.0.0.1"); (["server"; "mgmt_ip"], "NULL");
   (["server"; "monitoring"; "-"], "127.0.0.1"); (["server"; "routing"; "-"], "127.0.0.1")].

#[local] Instance yaml : Yaml := {|
  Node := Entries;
  LoadFile := λ _, Ok file;
  child := subscript;
  as_unsigned := scalar_unsigned;
  as_int := λ n, x ← scalar n; stoi x;
  as_bool := scalar_bool;
  as_string := scalar;
  nodes_of := sequence;
  is_defined := λ n, negb (bool_decide (n = []));
|}.
#[local] Instance yaml_laws : YamlLaws.
Proof.
  intros n k Heq. apply outcome_bind_Ok in Heq as (x & _ & Heq).
  apply outcome_bind_Ok in Heq as (z & _ & Heq). case_bool_decide; [|done].
  injection Heq as <-. apply u32_range.
Qed.

Definition table : gmap Tier TierMetadata.t :=
  tier_table (TierMetadata.mk MEMORY 4 1 45000000) (TierMetadata.mk DISK 4 0 705032704).
Definition server : ServerProcess :=
  mkServerProcess (mkConfig DISK 4 4 4 0 1 0 table) "127.0.0.1" "127.0.0.1" "127.0.0.1" "NULL"
    ["127.0.0.1"] ["127.0.0.1"].
Definition router : RoutingProcess :=
  mkRoutingProcess (mkConfig TIER_UNSPECIFIED 0 4 4 4 1 0 table) "127.0.0.1" ["127.0.0.1"].
Definition monitor : MonitorConfig :=
  mkMonitorConfig (mkConfig TIER_UNSPECIFIED 0 4 4 0 1 1 table) true false true "127.0.0.1"
    (MonitoringThread.new "127.0.0.1").
Definition client : ClientProcess :=
  mkClientProcess (UserRoutingThread.new "127.0.0.1" <$> [0; 1; 2; 3]) (UserThread.new "127.0.0.1" 0) 10000 None.


Lemma capacity_bounds_witness : node_capacity monitor DISK = u32 (5000 * 1000000).
Proof.
  refine (proj2 (capacity_bounds monitor file
    [(["memory-cap"], "45"); (["ebs-cap"], "5000")] DISK "ebs-cap" 5000 _ _ _ _ _));
    [vm_compute; reflexivity|reflexivity|vm_compute; reflexivity| |vm_compute; reflexivity].
  right; left.
Defined.

Lemma machine_sockets_distinct_witness : NoDup (machine_sockets server router client).
Proof. apply machine_sockets_distinct; [reflexivity|]. simpl. split; lia. Defined.

Lemma join_out_of_range_witness : join_workers 4 = Fail (UndefinedBehaviour "vector index out of range").
Proof. exact (proj1 (join_out_of_range 4)). Defined.
End ExampleStartup.
