(* ===== verification/Benchmark.v ===== *)
(** The benchmark (src/benchmark): threads that warm up the store and load it
    with requests for keys drawn uniformly or from a Zipf distribution, and
    report latency and throughput to the monitoring nodes; and the trigger that
    sends them their commands.

    [pow] of libm, whose rounding is not specified, and [std::stod], which
    depends on the locale, are parameters. *)

From Stdlib Require Import Ascii Lia SpecFloat.
From S2P Require Import Prelude Text Ordered Lattices ValueLattices Threads Wire WireCodec.
From S2P Require Import Codec RingUtil Client EndToEnd Cli Doubles MonitorState Startup.
Import KvsClient.
Import LWWPairLattice(mkTVP).

Class Libm := {
  pow : double → double → double;
  stod : string → outcome double;
}.

Definition UINT_MAX : Z := 2 ^ 32 - 1.
Definition RAND_MAX : Z := 2 ^ 31 - 1.

#[export] Instance failure_eq_dec : EqDecision failure.
Proof. solve_decision. Defined.

(** [a + b] on [int]. *)
Definition int_add (a b : Z) : outcome Z :=
  if bool_decide (- 2 ^ 31 ≤ a + b ≤ INT_MAX) then Ok (a + b)
  else Fail (UndefinedBehaviour "signed overflow").

(** The values of [for (unsigned i = 1; i <= n; i++)]; the condition is never
    false when [n] is the largest [unsigned]. *)
Definition count_to (n : Z) : outcome (list Z) :=
  if bool_decide (n = UINT_MAX) then Fail Diverges else Ok (seqZ 1 n).

(** [string(n, c)] *)
Fixpoint repeated (n : nat) (c : ascii) : string :=
  match n with O => "" | S n => String c (repeated n c) end.

(** [string(8 - std::to_string(n).length(), '0') + std::to_string(n)]: the
    length is a [size_t], so a number of nine digits asks for a string of nearly
    2^64 characters. *)
Definition generate_key (n : Z) : outcome Key :=
  let digits := to_string n in
  if bool_decide (8 < String.length digits)%nat then Fail (Throws "length_error")
  else Ok (repeated (8 - String.length digits) "0" +:+ digits).

(** ** Drawing keys *)
Section sampling.
Context `{Libm} `{Random}.

Definition get_base (N : Z) (skew : double) : outcome double :=
  ks ← count_to N;
  Ok (of_int 1 / foldl (λ base k, base + pow (of_int k) (of_int (-1) * skew)) zero ks)%D.

Definition get_zipf_prob (rank : Z) (skew base : double) : double :=
  (pow (of_int rank) (of_int (-1) * skew) / base)%D.

(** [sum_probs[0] = 0; for (...) sum_probs[i] = sum_probs[i - 1] + base / pow(i, zipf);] *)
Definition sum_up (num_keys : Z) (base zipf : double) : outcome (gmap Z double) :=
  ids ← count_to num_keys;
  Ok (foldl (λ m i, <[i := (map_get zero m (i - 1)%Z + base / pow (of_int i) zipf)%D]> m)
        {[0 := zero]} ids).

(** What [sample] gets by reference: the seed and the sums. *)
Record Draws := mkDraws { draw_seed : Z; draw_probs : gmap Z double }.

(** [sum_probs[i]] *)
Definition prob_at (i : Z) : M Draws double :=
  d ← get;
  modify (λ d, mkDraws (draw_seed d) (map_touch zero (draw_probs d) (u32 i))) ;;
  mret (map_get zero (draw_probs d) (u32 i)).

(** [do { z = rand_r(&seed) / (double)RAND_MAX; } while (z == 0 || z == 1);],
    with a bound on the number of draws. *)
Fixpoint uniform (draws : nat) : M Draws double :=
  match draws with
  | O => fail Diverges
  | S draws =>
      d ← get;
      let '(x, seed') := rand_r (draw_seed d) in
      modify (λ d, mkDraws seed' (draw_probs d)) ;;
      let z := (of_int x / of_int RAND_MAX)%D in
      if SFeqb z zero || SFeqb z (of_int 1) then uniform draws else mret z
  end.

(** The binary search; [None] when the loop ends without having set
    [zipf_value].  Each turn shrinks the interval, so its length is a bound on
    the turns. *)
Fixpoint search (turns : nat) (z : double) (low high : Z) : M Draws (option Z) :=
  match turns with
  | O => fail Diverges
  | S turns =>
      sum ← lift_outcome (int_add low high);
      let mid := sum `quot` 2 in
      p ← prob_at mid;
      first ← (if (z <=? p)%D then q ← prob_at (mid - 1); mret (q <? z)%D else mret false);
      if first : bool then mret (Some mid)
      else
        p ← prob_at mid;
        let '(low, high) := if (z <=? p)%D then (low, mid - 1) else (mid + 1, high) in
        if bool_decide (low ≤ high) then search turns z low high else mret None
  end.

Definition sample (draws : nat) (n : Z) : M Draws Z :=
  z ← uniform draws;
  found ← search (S (S (Z.to_nat n))) z 1 n;
  match found with
  | None => fail (UndefinedBehaviour "read of an uninitialised variable")
  | Some zipf_value =>
      if bool_decide (1 ≤ zipf_value ≤ n) then mret zipf_value else fail assertion_failed
  end.
End sampling.

(** ** A benchmark thread *)

(** [net] holds the client and what its sockets will deliver; [count], [epoch]
    and [epoch_start] are locals of a LOAD. *)
Record BenchState := mkBench {
  net : CliState;
  draws : Draws;
  observed_latency : gmap Key (double * Z);
  count : Z;
  epoch : Z;
  epoch_start : Z;
}.
Definition set_net x s := mkBench x (draws s) (observed_latency s) (count s) (epoch s) (epoch_start s).
Definition set_draws x s := mkBench (net s) x (observed_latency s) (count s) (epoch s) (epoch_start s).
Definition set_observed x s := mkBench (net s) (draws s) x (count s) (epoch s) (epoch_start s).
Definition set_count x s := mkBench (net s) (draws s) (observed_latency s) x (epoch s) (epoch_start s).
Definition set_epoch x s := mkBench (net s) (draws s) (observed_latency s) (count s) x (epoch_start s).
Definition set_epoch_start x s := mkBench (net s) (draws s) (observed_latency s) (count s) (epoch s) x.

Notation Bench := (M BenchState).

Section benchmark.
Context `{Protobuf} `{Random} `{Libm}.
Context (routing_threads : list UserRoutingThread.t) (monitoring_threads : list MonitoringThread.t).
Context (ip : Address) (thread_id : Z) (max_draws : nat).
Notation ut := (UserThread.new ip thread_id).
Notation timeout := 10000.

Definition on_net {A} (m : M CliState A) : Bench A := zoom net set_net m.
Definition on_draws {A} (m : M Draws A) : Bench A := zoom draws set_draws m.

Definition receive : Bench unit :=
  on_net (receive_responses routing_threads ut timeout) ;;
  mret tt.

Definition get_key (now : Z) (key : Key) : Bench unit :=
  on_net (on_client (get_async routing_threads ut now key)).

(** The timestamp is kept in an [unsigned]. *)
Definition stamp (time : Z) : outcome Z :=
  ts ← Timestamp.generate_timestamp time thread_id;
  Ok (u32 ts).

Definition put_key (now time : Z) (key : Key) (length : Z) : Bench unit :=
  ts ← lift_outcome (stamp time);
  on_net (on_client (put_async routing_threads ut now key
                       (serialize_lww (mkTVP ts (repeated (Z.to_nat length) "a"))) LWW)) ;;
  mret tt.

(** [stoi] to an [unsigned] *)
Definition unsigned_arg (v : list string) (i : nat) : outcome Z :=
  x ← vector_at v i;
  n ← stoi x;
  Ok (u32 n).

(** *** CACHE; [now i] is the time at which key [i] is asked for. *)
Definition cache_command (v : list string) (now : Z → Z) : Bench unit :=
  num_keys ← lift_outcome (unsigned_arg v 1);
  on_net (on_client clear_cache) ;;
  ids ← lift_outcome (count_to num_keys);
  for_each ids (λ i,
    key ← lift_outcome (generate_key i);
    get_key (now i) key).

(** *** WARM *)

(** The keys a thread creates: [start] up to [end]. *)
Definition warm_range (num_keys total_threads : Z) : outcome (list Z) :=
  if bool_decide (total_threads = 0) then Fail (UndefinedBehaviour "division by zero") else
  let range := num_keys `div` total_threads in
  let first := u32 (thread_id * range + 1) in
  let last := u32 (thread_id * range + 1 + range) in
  Ok (seqZ first (last - first)).

Definition warm_command (v : list string) (now time : Z → Z) : Bench unit :=
  num_keys ← lift_outcome (unsigned_arg v 1);
  length ← lift_outcome (unsigned_arg v 2);
  total_threads ← lift_outcome (unsigned_arg v 3);
  ids ← lift_outcome (warm_range num_keys total_threads);
  for_each ids (λ i,
    key ← lift_outcome (generate_key i);
    put_key (now i) (time i) key length ;;
    receive).

(** *** LOAD *)

(** The clock during one turn of the loop: at the requests, around them, at the
    end of the epoch, after a report and at the end of the turn (nanoseconds;
    milliseconds for [stamp_time]). *)
Record Turn := mkTurn {
  put_time : Z;
  stamp_time : Z;
  get_time : Z;
  req_start : Z;
  req_end : Z;
  epoch_end : Z;
  epoch_restart : Z;
  benchmark_end : Z;
}.

Definition pick (num_keys : Z) (zipf : double) : Bench Z :=
  if (zero <? zipf)%D then
    k ← on_draws (sample max_draws (int32 num_keys));
    mret (u32 k)
  else
    s ← get;
    let '(x, seed') := rand_r (draw_seed (draws s)) in
    modify (set_draws (mkDraws seed' (draw_probs (draws s)))) ;;
    if bool_decide (num_keys = 0) then fail (UndefinedBehaviour "remainder by zero")
    else mret (u32 (x `mod` num_keys + 1)).

(** The running average of a key's latency. *)
Definition observe (key : Key) (key_latency : double) (m : gmap Key (double * Z)) : gmap Key (double * Z) :=
  match m !! key with
  | None => <[key := (key_latency, 1)]> m
  | Some (avg, n) =>
      <[key := (((avg * of_int n + key_latency) / of_int (u32 (n + 1)))%D, u32 (n + 1))]> m
  end.

Definition add_count (n : Z) : Bench unit := modify (λ s, set_count (u64 (count s + n)) s).

Definition issue (type : string) (key : Key) (length : Z) (t : Turn) : Bench unit :=
  if bool_decide (type = "G") then
    get_key (get_time t) key ;; receive ;; add_count 1
  else if bool_decide (type = "P") then
    put_key (put_time t) (stamp_time t) key length ;; receive ;; add_count 1
  else if bool_decide (type = "M") then
    put_key (put_time t) (stamp_time t) key length ;; receive ;;
    get_key (get_time t) key ;; receive ;;
    add_count 2 ;;
    let key_latency := (of_int (Z.quot (req_end t - req_start t) 1000) / of_int 2)%D in
    modify (λ s, set_observed (observe key key_latency (observed_latency s)) s)
  else mret tt.

Definition uid : string := ip +:+ ":" +:+ to_string thread_id.

Definition send_feedback (feedback : UserFeedback.t) : Bench unit :=
  for_each monitoring_threads (λ thread,
    send_string (SerializeToString feedback) (MonitoringThread.feedback_report_connect_address thread)).

(** The keys whose latency is reported. *)
Definition reported (m : gmap Key (double * Z)) : list (Key * double) :=
  omap (λ '(key, (latency, _)), if (of_int 1 <? latency)%D then Some (key, latency) else None) (map_to_list m).

Definition throughput_feedback (s : BenchState) (time_elapsed : Z) : UserFeedback.t :=
  let throughput := (of_int (count s) / of_int time_elapsed)%D in
  UserFeedback.mk uid (of_int 1000000 / throughput)%D false throughput false (reported (observed_latency s)).

Definition report_epoch (report_period : Z) (t : Turn) : Bench unit :=
  s ← get;
  let time_elapsed := seconds_between (epoch_start s) (epoch_end t) in
  if bool_decide (report_period ≤ time_elapsed) then
    send_feedback (throughput_feedback s time_elapsed) ;;
    modify (λ s, set_epoch_start (epoch_restart t) (set_observed ∅ (set_count 0
      (set_epoch (u32 (epoch s + 1)) s))))
  else mret tt.

(** The loop; when the turns are used up it is still running. *)
Fixpoint load_loop (type : string) (num_keys length report_period time : Z) (zipf : double)
    (benchmark_start : Z) (turns : list Turn) : Bench unit :=
  match turns with
  | [] => fail Diverges
  | t :: turns =>
      k ← pick num_keys zipf;
      key ← lift_outcome (generate_key k);
      issue type key length t ;;
      report_epoch report_period t ;;
      if bool_decide (time < seconds_between benchmark_start (benchmark_end t)) then mret tt
      else load_loop type num_keys length report_period time zipf benchmark_start turns
  end.

Definition finish_feedback : UserFeedback.t := UserFeedback.mk uid zero true zero false [].

Definition load_command (v : list string) (benchmark_start first_epoch_start : Z) (turns : list Turn) : Bench unit :=
  type ← lift_outcome (vector_at v 1);
  num_keys ← lift_outcome (unsigned_arg v 2);
  length ← lift_outcome (unsigned_arg v 3);
  report_period ← lift_outcome (unsigned_arg v 4);
  time ← lift_outcome (unsigned_arg v 5);
  zipf_arg ← lift_outcome (vector_at v 6);
  zipf ← lift_outcome (stod zipf_arg);
  probs ← (if (zero <? zipf)%D then
             base ← lift_outcome (get_base num_keys zipf);
             lift_outcome (sum_up num_keys base zipf)
           else mret ∅);
  modify (λ s, set_draws (mkDraws (draw_seed (draws s)) probs)
    (set_epoch_start first_epoch_start (set_epoch 1 (set_count 0 s)))) ;;
  load_loop type num_keys length report_period time zipf benchmark_start turns ;;
  send_feedback finish_feedback.

(** What a thread does with one message of its command socket. *)
Record CommandTimes := mkTimes {
  key_now : Z → Z;
  key_stamp : Z → Z;
  load_start : Z;
  load_epoch_start : Z;
  load_turns : list Turn;
}.

Definition on_command (msg : string) (ct : CommandTimes) : Bench unit :=
  let v := split msg ":" in
  mode ← lift_outcome (vector_at v 0);
  if bool_decide (mode = "CACHE") then cache_command v (key_now ct)
  else if bool_decide (mode = "LOAD") then load_command v (load_start ct) (load_epoch_start ct) (load_turns ct)
  else if bool_decide (mode = "WARM") then warm_command v (key_now ct) (key_stamp ct)
  else mret tt.
End benchmark.

(** ** The processes *)

(** [atoi]: 0 where [stoi] finds no number; out of range it is undefined. *)
Definition atoi (x : string) : outcome Z :=
  match stoi x with
  | Ok n => Ok n
  | Fail e => if bool_decide (e = Throws "invalid_argument") then Ok 0
              else Fail (UndefinedBehaviour "atoi out of range")
  end.

(** The trigger sends a command to every thread of every benchmark node. *)
Definition trigger_command (benchmark_address : list Address) (thread_num : Z) (command : string) : list Msg :=
  address ← benchmark_address;
  tid ← seqZ 0 thread_num;
  [mkMsg (BenchmarkThread.benchmark_command_address (BenchmarkThread.new address tid)) command].

(** The addresses and the number of threads; [args] are the arguments after the
    name of the binary. *)
Definition trigger_main `{Yaml} (args : list string) : outcome (Started (list Address * Z)) :=
  match args with
  | [threads] =>
      n ← atoi threads;
      conf ← LoadFile "conf/anna-config.yml";
      benchmark ← child conf "benchmark";
      benchmark_address ← addresses (nodes_of benchmark);
      Ok (Running (benchmark_address, u32 n))
  | _ => Ok (Exited 1)
  end.

Record BenchmarkProcess := mkBenchmarkProcess {
  bench_ip : Address;
  bench_routing_threads : list UserRoutingThread.t;
  bench_monitoring_threads : list MonitoringThread.t;
  kBenchmarkThreadNum : Z;
}.

Definition benchmark_main `{Yaml} (argc : Z) : outcome (Started BenchmarkProcess) :=
  if negb (bool_decide (argc = 1)) then Ok (Exited 1) else
  conf ← LoadFile "conf/anna-config.yml";
  user ← child conf "user";
  ip ← string_at user "ip";
  monitoring ← child user "monitoring";
  monitoring_ips ← addresses (nodes_of monitoring);
  threads ← child conf "threads";
  routing ← child threads "routing";
  routing_count ← as_int routing;
  benchmark ← child threads "benchmark";
  benchmark_count ← as_int benchmark;
  replication ← child conf "replication";
  unsigned_at replication "local" ;;
  routing_ips ← user_routing_ips user;
  Ok (Running (mkBenchmarkProcess ip (user_routing_threads (u32 routing_count) routing_ips)
        (MonitoringThread.new <$> monitoring_ips) (u32 benchmark_count))).

(** ** The keys *)
Section keys.

Lemma length_repeated n c : String.length (repeated n c) = n.
Proof. induction n; simpl; congruence. Qed.

Lemma length_pretty_go (x : N) s (k : nat) :
  ((x < 10 ^ N.of_nat k)%N → (String.length (pretty_N_go x s) ≤ k + String.length s)%nat) ∧
  ((10 ^ N.of_nat k ≤ x)%N → (k + String.length s < String.length (pretty_N_go x s))%nat).
Proof.
  revert s k. induction (N.lt_wf_0 x) as [x _ IH]; intros s k.
  assert (x = 0 ∨ 0 < x)%N as [-> |Hx] by lia.
  { rewrite pretty_N_go_0. split; [lia|]. intros Hle. pose proof (N.pow_nonzero 10 (N.of_nat k)). lia. }
  rewrite pretty_N_go_step by done.
  destruct k as [|k]; [split; [change (10 ^ N.of_nat 0)%N with 1%N; lia|intros _]|].
  - destruct (IH (x `div` 10)%N (N.div_lt _ 10 Hx ltac:(lia))
      (String (pretty_N_char (x `mod` 10)) s) 0%nat) as [H0 H1].
    destruct (decide (x `div` 10 = 0)%N) as [-> |Hge].
    + rewrite pretty_N_go_0. simpl. lia.
    + assert (1 ≤ x `div` 10)%N as Hle by (generalize dependent (x `div` 10)%N; lia).
      specialize (H1 Hle). simpl in H1. lia.
  - destruct (IH (x `div` 10)%N (N.div_lt _ 10 Hx ltac:(lia))
      (String (pretty_N_char (x `mod` 10)) s) k) as [H0 H1].
    rewrite Nat2N.inj_succ, N.pow_succ_r' in *. simpl in H0, H1. split.
    + intros Hlt. specialize (H0 ltac:(apply N.Div0.div_lt_upper_bound; lia)). lia.
    + intros Hle. specialize (H1 ltac:(apply N.div_le_lower_bound; lia)). lia.
Qed.
Lemma strtol_to_string n : 0 ≤ n → strtol_digits (to_string n) 0 = n.
Proof.
  intros Hn. rewrite to_string_N by done. unfold pretty, pretty_N. case_decide as Hz; [simpl; lia|].
  rewrite strtol_pretty_go. simpl. lia.
Qed.

Lemma strtol_zeros k s : strtol_digits (repeated k "0" +:+ s) 0 = strtol_digits s 0.
Proof. induction k as [|k IH]; [done|]. exact IH. Qed.

(** The number of digits of a number. *)
Lemma length_to_string n k :
  0 ≤ n → (1 ≤ k)%nat → (String.length (to_string n) ≤ k)%nat ↔ n < 10 ^ Z.of_nat k.
Proof.
  intros Hn Hk. rewrite to_string_N by done. unfold pretty, pretty_N. case_decide as Hz.
  - simpl. assert (0 < 10 ^ Z.of_nat k) by (apply Z.pow_pos_nonneg; lia). lia.
  - destruct (length_pretty_go (Z.to_N n) "" k) as [H0 H1]. simpl in H0, H1.
    assert (Z.of_N (10 ^ N.of_nat k) = 10 ^ Z.of_nat k) as Hpow by (by rewrite N2Z.inj_pow, nat_N_Z).
    split; intros; [apply Z.nle_gt; intros ?|]; lia.
Qed.

Lemma generate_key_ok n : 0 ≤ n < 10 ^ 8 → ∃ key,
  generate_key n = Ok key ∧ String.length key = 8%nat ∧ strtol_digits key 0 = n.
Proof.
  intros [Hn Hlt]. unfold generate_key.
  pose proof (proj2 (length_to_string n 8 Hn ltac:(lia)) Hlt) as Hlen.
  rewrite bool_decide_eq_false_2 by lia. eexists. split; [done|]. split.
  - rewrite length_append, length_repeated. lia.
  - rewrite strtol_zeros. by apply strtol_to_string.
Qed.

Lemma generate_key_throws n : 10 ^ 8 ≤ n → generate_key n = Fail (Throws "length_error").
Proof.
  intros Hn. unfold generate_key. rewrite bool_decide_eq_true_2; [done|].
  apply Nat.nle_gt. rewrite length_to_string; lia.
Qed.

(** The keys of the benchmark have eight digits and are different for
    different numbers; from 100000000 on there are none, [generate_key] throws. *)
Theorem benchmark_keys n m :
  0 ≤ n → 0 ≤ m →
  (n < 10 ^ 8 ↔ ∃ key, generate_key n = Ok key) ∧
  (∀ key, generate_key n = Ok key → String.length key = 8%nat ∧ (generate_key m = Ok key ↔ m = n)).
Proof.
  intros Hn Hm. split.
  - split; [intros; destruct (generate_key_ok n) as (key & ? & _); [lia|by exists key]|].
    intros [key Hkey]. apply Z.nle_gt. intros Hle. by rewrite generate_key_throws in Hkey.
  - intros key Hkey.
    assert (∀ n, 0 ≤ n → generate_key n = Ok key → String.length key = 8%nat ∧ strtol_digits key 0 = n) as Hval.
    { intros i Hi Heq. destruct (decide (i < 10 ^ 8)) as [Hlt|Hge].
      - destruct (generate_key_ok i) as (key' & Heq' & ?); [lia|]. congruence.
      - by rewrite generate_key_throws in Heq by lia. }
    destruct (Hval n Hn Hkey) as [Hlen Hv]. split; [done|]. split; [|by intros ->].
    intros [_ Hv']%Hval; [congruence|done].
Qed.
End keys.

(** ** WARM and LOAD *)

Lemma warm_range_at tid n t :
  0 ≤ n < 2 ^ 31 → 0 < t → 0 ≤ tid < t →
  warm_range tid n t = Ok (seqZ (tid * (n `div` t) + 1) (n `div` t)).
Proof.
  intros Hn Ht Htid. unfold warm_range. rewrite bool_decide_eq_false_2 by lia.
  pose proof (Z.mul_div_le n t Ht). pose proof (Z.div_pos n t).
  rewrite !u32_id by (unfold is_u32; nia). do 2 f_equal. lia.
Qed.

Lemma concat_ranges (q : Z) (t : nat) :
  0 ≤ q → concat ((λ tid, seqZ (tid * q + 1) q) <$> seqZ 0 (Z.of_nat t)) = seqZ 1 (Z.of_nat t * q).
Proof.
  intros Hq. induction t as [|t IH]; [done|].
  replace (Z.of_nat (S t)) with (Z.of_nat t + 1) by lia.
  rewrite seqZ_app, fmap_app, concat_app, IH by lia.
  replace ((Z.of_nat t + 1) * q) with (Z.of_nat t * q + q) by lia.
  rewrite (seqZ_app 1) by nia. simpl. rewrite app_nil_r. do 2 f_equal; lia.
Qed.

(** The threads of a benchmark that warm up the store create different
    keys, the first [n - n mod t] ones, in order; the last [n mod t] of the [n]
    keys that a LOAD of the same size asks for are created by no thread. *)
Theorem warm_covers n t :
  0 ≤ n < 2 ^ 31 → 0 < t →
  ∃ ranges, Forall2 (λ tid range, warm_range tid n t = Ok range) (seqZ 0 t) ranges ∧
    concat ranges = seqZ 1 (n - n `mod` t).
Proof.
  intros Hn Ht. exists ((λ tid, seqZ (tid * (n `div` t) + 1) (n `div` t)) <$> seqZ 0 t). split.
  - apply Forall2_fmap_r, Forall_Forall2_diag, Forall_forall. intros tid Htid%elem_of_seqZ.
    apply warm_range_at; lia.
  - rewrite <-(Z2Nat.id t) at 1 by lia. rewrite concat_ranges by (by apply Z.div_pos; lia).
    f_equal. rewrite Z2Nat.id by lia. pose proof (Z.div_mod n t). lia.
Qed.

(** ** Timestamps *)

Lemma mod_order a b m : 0 < m → a < b < a + m → a `mod` m < b `mod` m ↔ a `div` m = b `div` m.
Proof.
  intros Hm Hab. pose proof (Z.div_mod a m). pose proof (Z.div_mod b m).
  pose proof (Z.mod_pos_bound a m Hm). pose proof (Z.mod_pos_bound b m Hm). split; intros; nia.
Qed.

(** A benchmark keeps its timestamps in 32 bits.  Of two writes less than
    five days apart the later one has the larger timestamp only if the clock has
    not passed a multiple of 2^32 / 10 milliseconds in between; otherwise a
    store that has the earlier value drops the later one. *)
Theorem benchmark_stamps_wrap (tid time time' : Z) :
  0 ≤ tid < 10 → 0 ≤ time < time' → time' ≤ time + 429496729 → time' * 10 + 10 ≤ 2 ^ 64 →
  ∃ ts ts', stamp tid time = Ok ts ∧ stamp tid time' = Ok ts' ∧
    (ts < ts' ↔ (time * 10 + tid) `div` 2 ^ 32 = (time' * 10 + tid) `div` 2 ^ 32) ∧
    (¬ ts < ts' → ∀ v v' : string, ts ≠ ts' ∧ do_merge (mkTVP ts v) (mkTVP ts' v') = mkTVP ts v).
Proof.
  intros Htid Ht Hd Hfit.
  assert (∀ t, 0 ≤ t ≤ time' → stamp tid t = Ok (u32 (t * 10 + tid))) as Hstamp.
  { intros t Hb. unfold stamp, Timestamp.generate_timestamp. simpl.
    rewrite bool_decide_eq_false_2 by lia. simpl. by rewrite u64_id by (unfold is_u64; lia). }
  do 2 eexists. split; [apply Hstamp; lia|]. split; [apply Hstamp; lia|]. split.
  - apply mod_order; lia.
  - intros Hnlt v v'. assert (u32 (time * 10 + tid) ≠ u32 (time' * 10 + tid)) as Hne.
    { unfold u32. intros Heq. pose proof (Z.div_mod (time * 10 + tid) (2 ^ 32)).
      pose proof (Z.div_mod (time' * 10 + tid) (2 ^ 32)). lia. }
    split; [done|]. rewrite LWWPairLattice.do_merge_cases. simpl. rewrite bool_decide_eq_false_2; [done|lia].
Qed.

(** ** Drawing from a table of sums *)
Section sample.
Context `{Random}.
Implicit Types (d : Draws) (p z : double).

(** A table of numbers for 0 .. n that never decreases. *)
Record rising (n : Z) (probs : gmap Z double) : Prop := {
  rising_total i : 0 ≤ i ≤ n → ∃ p, probs !! i = Some p ∧ is_number p;
  rising_step i : 0 ≤ i < n → SFltb (map_get zero probs (i + 1)) (map_get zero probs i) = false;
}.

(** [j] is the first rank whose sum reaches [z]; [n + 1] if there is none. *)
Definition first_rank (n : Z) (probs : gmap Z double) z (j : Z) : Prop :=
  1 ≤ j ≤ n + 1 ∧ ∀ i, 0 ≤ i ≤ n → SFltb (map_get zero probs i) z = bool_decide (i < j).

Lemma rising_le n probs i (k : nat) :
  rising n probs → 0 ≤ i → i + Z.of_nat k ≤ n →
  SFltb (map_get zero probs (i + Z.of_nat k)) (map_get zero probs i) = false.
Proof.
  intros Hr Hi. induction k as [|k IH]; intros Hk.
  - rewrite Z.add_0_r. apply ltb_irrefl.
  - eapply ltb_false_trans; [|replace (i + Z.of_nat (S k)) with ((i + Z.of_nat k) + 1) by lia;
                              by apply (rising_step n); [done|lia]|apply IH; lia].
    destruct (rising_total n probs Hr (i + Z.of_nat k)) as (p & Hp & Hnum); [lia|].
    unfold map_get. by rewrite Hp.
Qed.

Lemma first_rank_exists n probs z :
  0 ≤ n → rising n probs → is_number z → SFltb (map_get zero probs 0) z = true →
  ∃ j, first_rank n probs z j.
Proof.
  intros Hn Hr Hz H0.
  enough (∀ m : nat, Z.of_nat m ≤ n → ∃ j, 1 ≤ j ≤ Z.of_nat m + 1 ∧
    ∀ i, 0 ≤ i ≤ Z.of_nat m → SFltb (map_get zero probs i) z = bool_decide (i < j)) as Hall.
  { destruct (Hall (Z.to_nat n)) as (j & Hj & Hrank); [lia|]. exists j. rewrite Z2Nat.id in * by lia.
    done. }
  induction m as [|m IH]; intros Hm.
  - exists 1. split; [lia|]. intros i Hi. replace i with 0 by lia. done.
  - destruct IH as (j & Hj & Hrank); [lia|].
    destruct (SFltb (map_get zero probs (Z.of_nat (S m))) z) eqn:Htop.
    + exists (Z.of_nat (S m) + 1). split; [lia|]. intros i Hi. rewrite bool_decide_eq_true_2 by lia.
      destruct (SFltb (map_get zero probs i) z) eqn:Hlt; [done|]. rewrite <-Htop. symmetry.
      replace (Z.of_nat (S m)) with (i + Z.of_nat (Z.to_nat (Z.of_nat (S m) - i))) by lia.
      eapply ltb_false_trans; [|apply (rising_le n); [done|lia..]|done].
      destruct (rising_total n probs Hr i) as (p & Hp & Hnum); [lia|]. unfold map_get. by rewrite Hp.
    + exists j. split; [lia|]. intros i Hi. destruct (decide (i = Z.of_nat (S m))) as [-> |Hne].
      * rewrite Htop. symmetry. apply bool_decide_eq_false_2. lia.
      * apply Hrank. lia.
Qed.

Lemma prob_at_present i d p :
  0 ≤ i < 2 ^ 32 → draw_probs d !! i = Some p → prob_at i d = Ok (p, d, []).
Proof.
  intros Hi Hp. unfold prob_at. rewrite u32_id by done. unfold mbind, M_bind, get, modify, mret, M_ret.
  rewrite (map_touch_id zero _ _ _ Hp). unfold map_get. rewrite Hp. by destruct d.
Qed.

(** A step that sends nothing. *)
Lemma bind_run {S A B} (m : M S A) (f : A → M S B) s a s' :
  m s = Ok (a, s', []) → (m ≫= f) s = f a s'.
Proof. intros Hm. unfold mbind, M_bind. rewrite Hm. by destruct (f a s') as [[[] ?]|]. Qed.

Lemma search_finds n z j d (turns : nat) low high :
  n < 2 ^ 30 → rising n (draw_probs d) → is_number z → first_rank n (draw_probs d) z j →
  1 ≤ low ≤ j → low ≤ high ≤ n → (j ≤ high ∨ high = n) → high - low < Z.of_nat turns →
  search turns z low high d = Ok (if bool_decide (j ≤ n) then Some j else None, d, []).
Proof.
  intros Hn Hr Hz [Hj Hrank].
  assert (∀ i, 0 ≤ i ≤ n → ∃ p, prob_at i d = Ok (p, d, []) ∧
            SFltb p z = bool_decide (i < j) ∧ SFleb z p = bool_decide (j ≤ i)) as Hprob.
  { intros i Hi. destruct (rising_total n _ Hr i Hi) as (p & Hp & Hnum). exists p.
    assert (SFltb p z = bool_decide (i < j)) as Hlt.
    { specialize (Hrank i Hi). unfold map_get in Hrank. by rewrite Hp in Hrank. }
    split; [apply prob_at_present; [lia|done]|]. split; [done|].
    rewrite leb_ltb by done. rewrite Hlt, <-bool_decide_not. apply bool_decide_ext. lia. }
  revert low high. induction turns as [|turns IH]; intros low high Hlow Hhigh Hin Hturns; [lia|].
  assert (low ≤ (low + high) `quot` 2 ≤ high) as Hmid.
  { rewrite Z.quot_div_nonneg by lia. split; [apply Z.div_le_lower_bound|apply Z.div_le_upper_bound]; lia. }
  revert Hmid. cbn [search]. unfold int_add. rewrite bool_decide_eq_true_2 by (unfold INT_MAX; lia).
  rewrite (bind_run _ _ d (low + high) d) by done.
  generalize ((low + high) `quot` 2). intros mid Hmid.
  destruct (Hprob mid) as (p & Hp & Hlt & Hle); [lia|].
  destruct (Hprob (mid - 1)) as (q & Hq & Hqlt & _); [lia|].
  rewrite (bind_run _ _ d p d) by done. rewrite Hle.
  rewrite (bind_run _ _ d (bool_decide (j = mid)) d).
  2:{ destruct (decide (j ≤ mid)) as [Hjm|Hjm].
      2:{ by rewrite (bool_decide_eq_false_2 (j ≤ mid)), (bool_decide_eq_false_2 (j = mid)) by lia. }
      rewrite (bool_decide_eq_true_2 (j ≤ mid)) by done.
      rewrite (bind_run _ _ d q d) by done. rewrite Hqlt. unfold mret, M_ret.
      do 3 f_equal. apply bool_decide_ext. lia. }
  destruct (decide (j = mid)) as [Hjm|Hjm].
  { rewrite (bool_decide_eq_true_2 (j = mid)), (bool_decide_eq_true_2 (j ≤ n)) by lia. by subst. }
  rewrite (bool_decide_eq_false_2 (j = mid)) by done.
  rewrite (bind_run _ _ d p d) by done. rewrite Hle. destruct (decide (j ≤ mid)) as [Hle'|Hgt].
  - rewrite (bool_decide_eq_true_2 (j ≤ mid)), (bool_decide_eq_true_2 (low ≤ mid - 1)) by lia. apply IH; lia.
  - rewrite (bool_decide_eq_false_2 (j ≤ mid)) by lia.
    destruct (decide (mid + 1 ≤ high)).
    + rewrite (bool_decide_eq_true_2 (mid + 1 ≤ high)) by lia. apply IH; lia.
    + by rewrite (bool_decide_eq_false_2 (mid + 1 ≤ high)), (bool_decide_eq_false_2 (j ≤ n)) by lia.
Qed.

(** What a draw leaves: the table, and nothing sent. *)
Lemma uniform_probs k d z d' out :
  uniform k d = Ok (z, d', out) → draw_probs d' = draw_probs d ∧ out = [].
Proof.
  revert d d' out. induction k as [|k IH]; intros d d' out Heq; [done|].
  cbn [uniform] in Heq. rewrite (bind_run _ _ d d d) in Heq by done.
  destruct (rand_r (draw_seed d)) as [x seed'].
  rewrite (bind_run _ _ d tt (mkDraws seed' (draw_probs d))) in Heq by done.
  destruct (_ || _) in Heq; [by apply IH in Heq|]. by injection Heq as _ <- <-.
Qed.

(** C30: [sample] ends, and gives the first rank whose sum reaches the number
    drawn, that is rank [i] for a number between the sums of [i - 1] and [i]; if
    the rounded sums stay below the number it reads a variable that was never
    set. *)
Theorem sample_first_rank k n d z d' out :
  1 ≤ n < 2 ^ 30 → rising n (draw_probs d) → uniform k d = Ok (z, d', out) →
  is_number z → SFltb (map_get zero (draw_probs d) 0) z = true →
  (∃ j, 1 ≤ j ≤ n ∧ SFltb (map_get zero (draw_probs d) (j - 1)) z = true ∧
        SFleb z (map_get zero (draw_probs d) j) = true ∧ sample k n d = Ok (j, d', [])) ∨
  SFltb (map_get zero (draw_probs d) n) z = true ∧
  sample k n d = Fail (UndefinedBehaviour "read of an uninitialised variable").
Proof.
  intros Hn Hr Hu Hz H0. destruct (uniform_probs _ _ _ _ _ Hu) as [Hprobs ->].
  destruct (first_rank_exists n (draw_probs d) z) as (j & Hj); [lia|done..|].
  assert (search (S (S (Z.to_nat n))) z 1 n d' =
          Ok (if bool_decide (j ≤ n) then Some j else None, d', [])) as Hs.
  { apply (search_finds n); rewrite ?Hprobs; auto; try (destruct Hj); lia. }
  destruct Hj as [Hj Hrank]. unfold sample, mbind, M_bind. rewrite Hu, Hs. case_bool_decide as Hjn.
  - left. exists j. split; [lia|]. split; [rewrite Hrank by lia; by apply bool_decide_eq_true_2; lia|].
    destruct (rising_total n _ Hr j) as (p & Hp & Hnum); [lia|]. split.
    + rewrite leb_ltb; [|done|unfold map_get; by rewrite Hp].
      rewrite Hrank by lia. by rewrite bool_decide_eq_false_2 by lia.
    + cbn. by rewrite bool_decide_eq_true_2 by lia.
  - right. split; [|done]. rewrite Hrank by lia. apply bool_decide_eq_true_2. lia.
Qed.
End sample.

(** ** What the monitor learns *)
Section feedback.
Context `{Protobuf} `{Libm} `{!ProtoLaws UserFeedback.t carries dflt}.
Context (routing_threads : list UserRoutingThread.t) (monitoring_threads : list MonitoringThread.t).
Context (ip : Address) (thread_id : Z).

Definition feedback_messages (fb : UserFeedback.t) : list Msg :=
  (λ thread, mkMsg (MonitoringThread.feedback_report_connect_address thread) (SerializeToString fb))
    <$> monitoring_threads.

Lemma wp_send_feedback fb (s : BenchState) :
  wp (send_feedback monitoring_threads fb) s (λ _ s' out, s' = s ∧ out = feedback_messages fb).
Proof.
  unfold send_feedback, feedback_messages. induction monitoring_threads as [|thread l IH]; simpl.
  - by apply wp_ret.
  - apply wp_bind, wp_send. eapply wp_mono; [apply IH|]. by intros _ s' out [-> ->].
Qed.

Lemma feedback_handled fb (s : MonitorState) :
  carries fb → wp (feedback_handler (SerializeToString fb)) s
    (λ _ s' out, s' = set_feedback (add_feedback fb (feedback s)) s ∧ out = []).
Proof.
  intros Hc. apply wp_modify. by rewrite parse_serialize'.
Qed.

(** At the end of an epoch a benchmark thread sends one report to every
    monitoring node and starts counting afresh; the monitor that handles the
    report has the thread's throughput and latency under the id of the thread;
    when the thread has finished the monitor forgets the latency and keeps
    counting the throughput. *)
Theorem benchmark_report_recorded report_period t s :
  let elapsed := seconds_between (epoch_start s) (epoch_end t) in
  let fb := throughput_feedback ip thread_id s elapsed in
  let throughput := (of_int (count s) / of_int elapsed)%D in
  let id := ip +:+ ":" +:+ to_string thread_id in
  report_period ≤ elapsed → carries fb → carries (finish_feedback ip thread_id) →
  wp (report_epoch monitoring_threads ip thread_id report_period t) s (λ _ s' out,
    out = feedback_messages fb ∧ count s' = 0 ∧ observed_latency s' = ∅ ∧
    epoch_start s' = epoch_restart t ∧ epoch s' = u32 (epoch s + 1)) ∧
  ∀ ms : MonitorState, wp (feedback_handler (SerializeToString fb)) ms (λ _ ms' _,
    user_throughput (feedback ms') !! id = Some throughput ∧
    user_latency (feedback ms') !! id = Some (of_int 1000000 / throughput)%D ∧
    wp (feedback_handler (SerializeToString (finish_feedback ip thread_id))) ms' (λ _ ms'' _,
      user_latency (feedback ms'') !! id = None ∧
      user_throughput (feedback ms'') !! id = Some throughput)).
Proof.
  intros elapsed fb throughput id Hp Hfb Hfin. split.
  - unfold report_epoch. apply wp_bind, wp_get. fold elapsed. rewrite bool_decide_eq_true_2 by done.
    apply wp_bind. eapply wp_mono; [apply wp_send_feedback|]. intros _ s' out [-> ->].
    apply wp_modify. simpl. by rewrite app_nil_r.
  - intros ms. eapply wp_mono; [by apply feedback_handled|]. intros _ ms' _ [-> _].
    split; [apply lookup_insert_eq|]. split; [apply lookup_insert_eq|].
    eapply wp_mono; [by apply feedback_handled|]. intros _ ms'' _ [-> _].
    split; [apply lookup_delete_eq|apply lookup_insert_eq].
Qed.

(** An empty line given to the trigger, or the end of its input, is sent to
    every benchmark thread as a command, and each of them then indexes an empty
    vector. *)
Theorem empty_command_undefined `{Random} benchmark_address thread_num tid max_draws ct s :
  0 ≤ tid < thread_num → ip ∈ benchmark_address →
  mkMsg (BenchmarkThread.benchmark_command_address (BenchmarkThread.new ip tid)) ""
    ∈ trigger_command benchmark_address thread_num "" ∧
  on_command routing_threads monitoring_threads ip tid max_draws "" ct s
    = Fail (UndefinedBehaviour "vector index out of range").
Proof.
  intros Htid Hip. split; [|done]. unfold trigger_command. apply list_elem_of_bind.
  exists ip. split; [|done]. apply list_elem_of_bind. exists tid. split; [by apply list_elem_of_singleton|].
  apply elem_of_seqZ. lia.
Qed.
End feedback.

(** ** Examples *)
Module ExampleBenchmark.
#[local] Existing Instance bit_protobuf.
#[local] Instance halfway : Random := λ s, (2 ^ 30, s + 1).
#[local] Instance reciprocal : Libm := {|
  pow := λ x y, (of_int 1 / x)%D;
  stod := λ _, Ok (of_int 1);
|}.

Lemma benchmark_keys_witness : generate_key 120 = Ok "00000120" ∧ ∃ key, generate_key 99999999 = Ok key.
Proof.
  split; [reflexivity|]. apply (benchmark_keys 99999999 0); lia.
Defined.

(** Three threads and eight keys: keys 7 and 8 are left out. *)
Lemma warm_covers_witness :
  ∃ ranges, Forall2 (λ tid range, warm_range tid 8 3 = Ok range) [0; 1; 2] ranges ∧
    concat ranges = [1; 2; 3; 4; 5; 6].
Proof. apply (warm_covers 8 3); lia. Defined.

(** Two milliseconds around the 388th multiple. *)
Lemma benchmark_stamps_wrap_witness :
  ∃ ts ts', stamp 1 166644731084 = Ok ts ∧ stamp 1 166644731085 = Ok ts' ∧
    (ts < ts' ↔ (166644731084 * 10 + 1) `div` 2 ^ 32 = (166644731085 * 10 + 1) `div` 2 ^ 32) ∧
    (¬ ts < ts' → ∀ v v' : string, ts ≠ ts' ∧ do_merge (mkTVP ts v) (mkTVP ts' v') = mkTVP ts v).
Proof. apply (benchmark_stamps_wrap 1 166644731084 166644731085); lia. Defined.

(** The sums 1/4, 1/2, 3/4, 1; the number drawn is a little over 1/2. *)
Definition quarters : gmap Z double :=
  list_to_map ((λ i, (i, literal (25 * i) 2)) <$> [0; 1; 2; 3; 4]).

Lemma quarters_rising : rising 4 quarters.
Proof.
  split; intros i Hi.
  - assert (i = 0 ∨ i = 1 ∨ i = 2 ∨ i = 3 ∨ i = 4) as Hcases by lia.
    destruct_or! Hcases; subst; eexists; (split; [reflexivity|done]).
  - assert (i = 0 ∨ i = 1 ∨ i = 2 ∨ i = 3) as Hcases by lia.
    destruct_or! Hcases; subst; vm_compute; reflexivity.
Qed.

Lemma sample_first_rank_witness :
  ∃ j, 1 ≤ j ≤ 4 ∧ sample 1 4 (mkDraws 0 quarters) = Ok (j, mkDraws 1 quarters, []).
Proof.
  destruct (sample_first_rank 1 4 (mkDraws 0 quarters) (of_int (2 ^ 30) / of_int RAND_MAX)%D
    (mkDraws 1 quarters) []) as [(j & Hj & _ & _ & Hs)|[Hlt _]].
  - lia.
  - apply quarters_rising.
  - vm_compute. reflexivity.
  - vm_compute. discriminate.
  - vm_compute. reflexivity.
  - exists j. split; [exact Hj|exact Hs].
  - vm_compute in Hlt. discriminate.
Defined.

(** Eight requests in four seconds. *)
Definition busy : BenchState :=
  mkBench (mkCli ExampleEndToEnd.knows [] "") (mkDraws 0 ∅) {["00000001" := (of_int 300, 4)]} 8 1 0.
Definition turn : Turn := mkTurn 0 0 0 0 0 4000000000 4000000000 4000000000.

Lemma benchmark_report_recorded_witness :
  wp (report_epoch [MonitoringThread.new "m"] "u" 0 1 turn) busy (λ _ s' out,
    out = feedback_messages [MonitoringThread.new "m"] (throughput_feedback "u" 0 busy 4) ∧ count s' = 0).
Proof.
  eapply wp_mono.
  - apply (@benchmark_report_recorded bit_protobuf (λ _, True) UserFeedback.empty
      (BitCodec.codec_laws _) [MonitoringThread.new "m"] "u" 0 1 turn busy); [|exact I|exact I].
    vm_compute. discriminate.
  - intros _ s' out (Hout & Hcount & _). split; [exact Hout|exact Hcount].
Defined.

Lemma empty_command_undefined_witness :
  mkMsg "tcp://u:6901" "" ∈ trigger_command ["u"] 2 "".
Proof.
  refine (proj1 (empty_command_undefined [] [] "u" ["u"] 2 1 0 (mkTimes (λ _, 0) (λ _, 0) 0 0 []) busy _ _)).
  - lia.
  - left.
Defined.
End ExampleBenchmark.
